(* ===== verification/_CoqProject ===== *)
-Q . S2P
Prelude.v
Bytes.v
Slots.v
Flow_table.v
Policy_engine.v
Rate_limiter.v
Quarantine_manager.v
Event_bus.v
Device_registry.v
Zone_firewall.v
Dns_filter.v
Stomach_cp_cache.v
Amino_acids.v
Crypto.v
Active_substance.v
Capsule_pill.v
Active_enzyme.v
Tables.v
Blobs.v
Nvs.v
Config_store.v
Rna_membrane.v
Ribosome_table.v
Ribosome_store.v
Forms.v
Admin_pages.v
Admin_server.v
Admin_tables.v
MQTT_broker.v
Setup_button.v
Zone_gateway.v
Wifi_driver.v
Wifi_manager.v
Setup_ap.v
G2g_ble.v
G2g_tx.v
Guardian_led_device.v
