(* ===== verification/Prelude.v ===== *)
(** * BlindNet: a verification development for the Guardian firmware

    BlindNet's Guardian is an ESP32 gateway for a zone of IoT devices.  Its C
    components under [src/firmware/components/] do five things, and a Rust
    layer ([cortex/src]) sequences them.

    - The zone: traffic of the devices passes a firewall built from a flow
      table, a quarantine list, a policy engine, a rate limiter and a device
      registry, with an event bus between them and a filtering DNS server.
    - The pills: an administrator sends a signed capsule that carries an
      encrypted command for one device; the Guardian checks the signature and
      that the capsule is no replay, opens the active substance with the
      device's secret and parses the command.
    - The membrane: the table of devices (ribosomes) with their secrets, and the
      table of what each kind of device may be asked to do (RNA templates), both
      kept in flash as checksummed blobs.
    - The administration: a web server, locked until the administrator signs a
      challenge, edits those tables and the configuration kept in flash.
    - The connections: a station and an access point with address translation
      between them, a local MQTT broker, a radio link to other Guardians, and a
      button that opens the maintenance window.

    ** The model

    The embedding is shallow.  A component's static variables are a record, each
    function is a definition on it with the guards and early returns of the
    code, a null pointer is [None], an out-parameter is part of the result.
    Integers are [Z] with the wrap-around of their width written out ([u8],
    [u32], [inc32], ...); memory is a list of bytes.  A function that runs
    between [portENTER_CRITICAL] and [portEXIT_CRITICAL] is one step, so an
    interleaving of tasks is a list of calls; the theorems about runs quantify
    over every such list.  A task that waits in the middle of a function is
    either cut into the turns between its waits (Zone_gateway, Setup_button), or
    given what the others do at each of its pauses (G2g_tx).  Time is an argument: the code reads
    [esp_timer_get_time], the model takes the microseconds it would have read.

    Code outside the repository is never given a definition.  It is a class of
    operations with a class of documented behaviour, and an instance that shows
    the behaviour can hold: the FreeRTOS queue ([Queue], [QueueLaws], in
    Event_bus), SHA-256, HMAC, AES-GCM and public-key verification ([Md],
    [Psa], [Pk] and their laws, in Crypto), the flash library ([Nvs], [NvsFlash],
    [NvsLaws], in Nvs) and the HTTP server ([Http], [HttpLaws], in Admin_pages).  The Wi-Fi
    and Bluetooth drivers answer with arbitrary codes, as a function of all calls
    made so far (Wifi_driver, G2g_ble), sockets with arbitrary results
    (Dns_filter, MQTT_broker).  Collision-freedom of SHA-256 is never assumed: the theorems that
    need it exhibit the collision instead, and nothing is assumed of a signature
    scheme beyond what signing and verifying with one key gives: the theorem
    about signatures exhibits the forgery.

    ** The files

    Shared ground:
    - Prelude: status codes, machine widths, record updates, tactics and hints.
    - Bytes: C strings, buffer copies, constant-time comparison, FNV-1a,
      little-endian fields.
    - Slots: the loops over arrays of in-use slots, and the class [Slot] that
      gives such an array its abstract view, a finite map.
    - Tables: arrays with a count, and their finite map.
    - Blobs: checksummed records.  Nvs, Crypto: the interfaces named above.

    The zone:
    - Flow_table ([flow_table.c]): touch, find, setters, expiry, statistics.
    - Policy_engine ([policy_engine.c]): rules, matching, decisions.
    - Rate_limiter ([rate_limiter.c]): rules, buckets and windows.
    - Quarantine_manager ([quarantine_manager.c]): subjects and deadlines.
    - Event_bus ([event_bus.c]): publish, subscribe, one turn of the dispatcher.
    - Device_registry ([device_registry.c]): upsert, lookups, states, removal.
    - Zone_firewall ([zone_firewall.c]): the evaluation pipeline over the states
      of the components above, in the order the code calls them.
    - Dns_filter ([dns_filter.c]): rules, name parsing, forged answers, one turn
      of the listener and one of the forwarding worker.

    The pills:
    - Stomach_cp_cache ([stomach_cp_cache.c]): the ring of seen digests.
    - Amino_acids ([amino_acids.c]): the constant table of actions.
    - Active_substance ([active_substance.c]): the command, its memory image and
      checks, the envelope and its hash.
    - Capsule_pill ([capsule_pill.c]): configuration, binding, signing digest,
      verification, replay digest.
    - Active_enzyme ([active_enzyme.c]): key derivation, decryption, wiping.

    The membrane:
    - Rna_membrane ([rna_membrane.c]): templates, their table, defaults, store.
    - Ribosome_table, Ribosome_store ([ribosome_table.c], [ribosome_store.c]):
      entries, additions, removal with wiping, load and save.

    The administration:
    - Config_store ([config_store.c]): the configuration blob, defaults, load,
      save with its event, erase.
    - Forms, Admin_pages, Admin_server, Admin_tables ([admin_server.c]): decoding
      and encoding of forms; the dynamic parts of the pages and their escaping;
      the lock, the maintenance window and the ten request handlers; the edits of
      the tables as operations on maps.

    The connections:
    - MQTT_broker ([MQTT_broker.c]): the broker's life cycle and callbacks, and
      the publishing client with its packets and socket loops.
    - Setup_button ([setup_button.c]): the polling task.
    - Zone_gateway ([zone_gateway.c]): the task that turns address translation on.
    - Wifi_driver, Wifi_manager ([wifi_manager.c]), Setup_ap ([setup_ap.c]): the
      calls of the Wi-Fi driver and the two components that make them.
    - G2g_ble, G2g_tx ([g2g_ble.c]): the radio between Guardians; the host side
      with its callbacks, and the transmit task.
    - Guardian_led_device ([guardian_led_device.ino]): the example device, a lamp
      that obeys the commands published to it ([led_device_obeys]).

    ** What the theorems show

    Safety of the zone.  A source the policy sends to quarantine is dropped by
    every evaluation before the deadline the list stores, whichever flows are
    evaluated in between, as long as the list does not have to evict it: it has
    room, or fewer than 64 other subjects come up
    ([zone_firewall_quarantine_enforced]); the list itself keeps a subject until
    that deadline under the same condition ([quarantine_holds_until_deadline]),
    and 64 other additions show that it is needed ([quarantine_evicted_early]);
    the verdict is a function of the
    quarantine answer, the policy action and the rate limiter's answer
    ([zone_firewall_verdict_table]); each evaluation ends in one counted verdict
    ([zone_firewall_counts]).  In every window, the first
    and those after a rollover, exactly the checks within the packets and bytes
    of the budget pass ([rate_limiter_window_exact]); the budget is that of the
    best rule by a specification of its own ([rate_limiter_check_refines]).  The decision is that of the
    best rule ([policy_engine_evaluate_spec]), the sweep of expired rules
    changes none ([policy_engine_expire_unobservable]).  Only queries the rules
    let through are forwarded by the DNS worker ([dns_only_allowed_forwarded]),
    and every well-formed query is read and answered as its rule says
    ([dns_task_handles_query]).

    Safety of the pills.  A capsule that verifies has the signed fields of one its
    issuer signed, or exhibits a collision or a forgery
    ([capsule_pill_signature_covers]); a replay within 16 other capsules is seen
    ([stomach_cache_replay_window], with [capsule_pill_digest_identifies]); an
    envelope opens exactly when it was sealed under the derived key, and to what
    was sealed ([active_enzyme_decrypt_exact]); the parser accepts exactly the
    images of well-formed commands ([active_substance_parse_command_exact]); a
    failure leaves no plaintext ([active_enzyme_failure_wipes]).

    Refinement.  Each array-backed component is related to a finite map, and its
    calls to operations on that map: [flow_table_touch_refines],
    [rate_limiter_check_refines], [device_registry_upsert_refines],
    [ribosome_table_refines], [rna_table_grants]; the ring of digests to a
    bounded list ([stomach_cache_refines_fifo]); the bus to a FIFO
    ([event_bus_fifo]).

    Invariants over all runs: unique keys, exact counters of active entries and
    balanced statistics ([flow_table_run_invariant],
    [quarantine_manager_run_invariant]).

    Flash.  What a successful save wrote is what load reads, and a load of
    anything else, bits flipped at will, gives a well-formed table or the safe
    default ([ribosome_store_roundtrip], [ribosome_store_load_safe], and the
    same two of the RNA membrane).

    Administration.  While the window is locked no sequence of requests changes
    the flash or unlocks it without a signature of the current challenge
    ([admin_locked_window_read_only], [admin_unlock_exact]); an accepted edit is
    one operation on the map of devices or templates
    ([admin_table_edits_refine]); forms are read back as entered, however they
    are cut into chunks ([admin_form_roundtrip]); no text shown in a page changes
    its markup ([admin_page_structure]); the configuration survives a save and a
    load ([config_store_roundtrip]).

    Connections.  What a successful publication puts on the wire decodes to one
    CONNECT, the caller's message and one DISCONNECT, the last cut short only
    where the network refused a call ([mqtt_publish_delivers]), and all of it gets
    to the broker's address when the sockets make progress
    ([mqtt_publish_succeeds], [mqtt_send_all_terminates]).  The station
    reconnects a bounded number of times and never in AP mode
    ([wifi_reconnects_exact]); a successful restore brings back the settings of
    the start, from AP mode or when no earlier switch or restore failed half way
    ([wifi_ap_detour_restores]); the gateway reports RUNNING only with
    NAPT on ([zone_gateway_run_invariant]) and does not wait for ever
    ([zone_gateway_wait_ends]); a press calls back once
    ([setup_button_calls_exact]); the setup network runs exactly when the start
    says so ([setup_ap_start_exact]).  A relayed batch asks for no connection to
    its only origin and, when the connections the host reports are those asked
    for, writes nothing to it ([g2g_relay_skips_origin]); a batch reported as sent
    was accepted whole, in order, over the connection to the peer and at the
    characteristic found there ([g2g_batch_delivered]); the radio comes back after every connection
    ([g2g_presence_kept]) and the transmit task does not hang
    ([g2g_tx_task_ends]).

    Limits of the code, stated as theorems: [zone_firewall_engine_failure_allows],
    [quarantine_deadline_wrap], [device_registry_ip_reuse],
    [dns_nul_label_evades], [restore_failure_sticks], [failed_switch_sticks],
    [restart_counts_twice], [setup_ap_long_name], [setup_button_restart_doubles],
    [start_wait_wraps], [publish_to_client_broadcasts], [mixed_batch_echoes],
    [inbound_taken_for_outbound], [quarantine_evicted_early].

    ** Bounds and fuel

    The capacities are those of the headers: 128 flows, 64 policy rules, 32 rate
    rules and 128 buckets, 64 quarantine entries, 32 devices, 32 DNS rules, 16
    digests, 20 ribosomes, 16 templates, 32 queued events, 8 queued DNS jobs, 8 radio
    peers, 4 queued fragments each way.  Recursion is structural except for the
    label loops of the DNS parser, the scanning loops of the forms, the send loop
    of the broker's client and two polling loops.  The first three get the length
    of their input as fuel, of which every turn consumes at least one byte; the
    polls are bounded by their timeouts, and the theorems about them
    ([zone_gateway_wait_ends], [start_wait_ends], [g2g_tx_task_ends]) give the
    fuel that is enough.  Theorems about
    counters assume nothing of the run's length unless they say so: 64-bit
    counters wrap in the model as in the code.

    ** What is not modelled

    Log lines, task delays and stack sizes have no counterpart.  Concurrency
    inside one call outside a critical section is not modelled: the tasks
    interleave between calls, or at the pauses named above.  In the web server the
    fixed text of the pages and the registration of the URIs are left out, in
    [g2g_ble.c] the registration data of the service, and a stop that deletes the
    queues under a waiting transmit task is outside what the model describes.  The
    Rust layer and the host tools are outside the development: they call the
    components modelled here, or are not part of the firmware. *)

From stdpp Require Export base gmap sets list strings.
From Stdlib Require Export ZArith Lia.

Create HintDb blindnet.
Create Rewrite HintDb blindnet.

#[global] Open Scope Z_scope.

(** ** ESP-IDF status codes

    [esp_err_t] as the sources use it: the codes the firmware names, and
    [ESP_ERR_OTHER] for the codes an ESP-IDF call may hand through. *)
Inductive esp_err :=
| ESP_OK
| ESP_FAIL
| ESP_ERR_NO_MEM
| ESP_ERR_INVALID_ARG
| ESP_ERR_INVALID_STATE
| ESP_ERR_INVALID_SIZE
| ESP_ERR_NOT_FOUND
| ESP_ERR_NOT_SUPPORTED
| ESP_ERR_TIMEOUT
| ESP_ERR_INVALID_RESPONSE
| ESP_ERR_INVALID_CRC
| ESP_ERR_INVALID_VERSION
| ESP_ERR_NVS_NOT_FOUND
| ESP_ERR_NVS_NO_FREE_PAGES
| ESP_ERR_NVS_NEW_VERSION_FOUND
| ESP_ERR_OTHER (code : Z).

#[export] Instance esp_err_eq_dec : EqDecision esp_err.
Proof. solve_decision. Defined.

Definition err_eqb (a b : esp_err) : bool := bool_decide (a = b).
Definition err_ok (e : esp_err) : bool := err_eqb e ESP_OK.

(** ** Record update

    [r <| f := v |>] is the C assignment [r.f = v] on a struct value, and
    [r <| f ::= g |>] is [r.f = g(r.f)].  A record opts in with one [Settable]
    instance that lists its fields in order; the setter of each field is then
    built by [solve_setter]. *)
Class Settable (R : Type) := eta_expand : R → R.

Class Setter {R T : Type} (proj : R → T) := set_field : (T → T) → R → R.
Arguments set_field {R T} proj {_} _ _.
#[export] Hint Mode Setter + + ! : typeclass_instances.

Ltac solve_setter :=
  match goal with
  | |- @Setter ?R ?T ?proj =>
    let inst := constr:(_ : Settable R) in
    let eta := eval hnf in inst in
    let gen := eval pattern proj in eta in
    lazymatch gen with
    | ?build _ => exact (fun (f : T → T) => build (fun r => f (proj r)))
    end
  end.

#[export] Hint Extern 0 (Setter _) => solve_setter : typeclass_instances.

Declare Scope c_scope.
Delimit Scope c_scope with c.
#[global] Open Scope c_scope.
Notation "r <| f := v |>" := (set_field f (fun _ => v) r)
  (at level 1, f at level 9, v at level 200, left associativity) : c_scope.
Notation "r <| f ::= g |>" := (set_field f g r)
  (at level 1, f at level 9, g at level 200, left associativity) : c_scope.

(** ** Machine integers

    A [w]-bit unsigned C integer is a [Z] in [0, 2^w); every arithmetic result
    the C code stores is passed through the wrap of its type. *)
Definition U8_MAX : Z := 255.
Definition U16_MAX : Z := 65535.
Definition U32_MAX : Z := 4294967295.
Definition u8 (x : Z) : Z := x mod 256.
Definition u16 (x : Z) : Z := x mod 65536.
Definition u32 (x : Z) : Z := x mod 4294967296.
Definition u64 (x : Z) : Z := x mod 18446744073709551616.
(** [x++] on a [uint32_t] and on a [uint64_t]. *)
Definition inc32 (x : Z) : Z := u32 (x + 1).
Definition inc64 (x : Z) : Z := u64 (x + 1).
(** [if (x > 0) x--] on a [uint32_t] counter. *)
Definition dec_if_pos (x : Z) : Z := if decide (x > 0) then x - 1 else x.

#[global] Arguments u8 : simpl never.
#[global] Arguments u16 : simpl never.
#[global] Arguments u32 : simpl never.
#[global] Arguments u64 : simpl never.
#[global] Arguments inc32 : simpl never.
#[global] Arguments inc64 : simpl never.
#[global] Arguments dec_if_pos : simpl never.

Definition is_u8 (x : Z) : Prop := 0 ≤ x < 256.
Definition is_u16 (x : Z) : Prop := 0 ≤ x < 65536.
Definition is_u32 (x : Z) : Prop := 0 ≤ x < 4294967296.

Lemma u8_range x : is_u8 (u8 x).
Proof. apply Z.mod_pos_bound; lia. Qed.
Lemma u16_range x : is_u16 (u16 x).
Proof. apply Z.mod_pos_bound; lia. Qed.
Lemma u32_range x : is_u32 (u32 x).
Proof. apply Z.mod_pos_bound; lia. Qed.
Lemma u64_range x : 0 ≤ u64 x < 18446744073709551616.
Proof. apply Z.mod_pos_bound; lia. Qed.

Lemma u8_small x : is_u8 x → u8 x = x.
Proof. apply Z.mod_small. Qed.
Lemma u16_small x : is_u16 x → u16 x = x.
Proof. apply Z.mod_small. Qed.
Lemma u32_small x : is_u32 x → u32 x = x.
Proof. apply Z.mod_small. Qed.
Lemma u64_small x : 0 ≤ x < 18446744073709551616 → u64 x = x.
Proof. apply Z.mod_small. Qed.

Lemma u32_idemp x : u32 (u32 x) = u32 x.
Proof. apply u32_small, u32_range. Qed.
Lemma inc64_small x : 0 ≤ x < 18446744073709551615 → inc64 x = x + 1.
Proof. intros. apply u64_small. lia. Qed.
Lemma inc32_small x : 0 ≤ x < U32_MAX → inc32 x = x + 1.
Proof. unfold U32_MAX. intros. apply u32_small. unfold is_u32. lia. Qed.
Lemma u64_add_r a b : u64 (a + u64 b) = u64 (a + b).
Proof. unfold u64. apply Zplus_mod_idemp_r. Qed.
Lemma u64_add_l a b : u64 (u64 a + b) = u64 (a + b).
Proof. unfold u64. apply Zplus_mod_idemp_l. Qed.

Lemma u64_add_m a b c : u64 (a + u64 b + c) = u64 (a + b + c).
Proof. rewrite <- u64_add_l, u64_add_r. apply u64_add_l. Qed.
Lemma u64_add_l3 a b c : u64 (u64 a + b + c) = u64 (a + b + c).
Proof. rewrite <- !Z.add_assoc. apply u64_add_l. Qed.
Lemma u64_add_l4 a b c d : u64 (u64 a + b + c + d) = u64 (a + b + c + d).
Proof. rewrite <- !Z.add_assoc. apply u64_add_l. Qed.
Lemma u64_add_m4 a b c d : u64 (a + u64 b + c + d) = u64 (a + b + c + d).
Proof. rewrite <- u64_add_l, u64_add_m. apply u64_add_l. Qed.
Lemma u64_idemp x : u64 (u64 x) = u64 x.
Proof. apply u64_small, u64_range. Qed.
Lemma u64_cong a b c d : u64 a = u64 b → c - a = d - b → u64 c = u64 d.
Proof.
  intros H E. replace c with (c - a + a) by lia. replace d with (d - b + b) by lia.
  rewrite <- u64_add_r, H, E. apply u64_add_r.
Qed.

#[export] Hint Resolve u8_range u16_range u32_range u64_range : blindnet.
#[export] Hint Rewrite u32_idemp u64_idemp u64_add_r u64_add_l u64_add_m
  u64_add_l3 u64_add_l4 u64_add_m4 : blindnet.

(** ** Time

    [(uint32_t)(esp_timer_get_time() / 1000ULL)], the body of every [now_ms] of
    the firmware; the microsecond count of [esp_timer_get_time] is an input. *)
Definition ms_of_us (timer_us : Z) : Z := u32 (u64 timer_us / 1000).

Lemma ms_of_us_range us : is_u32 (ms_of_us us).
Proof. apply u32_range. Qed.
#[export] Hint Resolve ms_of_us_range : blindnet.

(** ** IPv4 helpers shared by the rule engines

    The definitions of [policy_engine_ipv4], [rate_limiter_ipv4] and
    [dns_filter_ipv4] are the same text; each component names its copy. *)
Definition ipv4_of_octets (a b c d : Z) : Z :=
  Z.lor (Z.lor (Z.lor (Z.shiftl a 24) (Z.shiftl b 16)) (Z.shiftl c 8)) d.

(** ** Tactics *)
(** Split every [if] and [match] of the goal, keeping the equations. *)
Ltac split_cases := repeat (case_match; simplify_eq/=).

(** Reduce record updates to constructor applications, innermost first (each
    update mentions its argument once per field). *)
Ltac fields_step :=
  match goal with
  | |- context [@set_field ?R ?T ?p ?s ?f ?r] =>
    lazymatch r with context [@set_field] => fail | _ => idtac end;
    let t := eval cbv beta delta [set_field] in (@set_field R T p s f r) in
    let t := eval simpl in t in
    change (@set_field R T p s f r) with t
  end.
Ltac fields := repeat fields_step; simpl.

(** Balance equations between 64-bit counters: strip the inner wraps, then
    [H] gives the equation up to a common increment. *)
Ltac wrap_with H :=
  unfold inc64; autorewrite with blindnet; apply (u64_cong _ _ _ _ H); lia.

(** Turn boolean tests of the code into propositions. *)
Ltac bools :=
  repeat match goal with
  | H : _ && _ = true |- _ => apply andb_true_iff in H; destruct H
  | H : _ || _ = false |- _ => apply orb_false_iff in H; destruct H
  | H : negb _ = true |- _ => apply negb_true_iff in H
  | H : negb _ = false |- _ => apply negb_false_iff in H
  | H : (_ =? _)%Z = true |- _ => apply Z.eqb_eq in H
  | H : (_ =? _)%Z = false |- _ => apply Z.eqb_neq in H
  | H : (_ <? _)%Z = true |- _ => apply Z.ltb_lt in H
  | H : (_ <? _)%Z = false |- _ => apply Z.ltb_ge in H
  | H : (_ <=? _)%Z = true |- _ => apply Z.leb_le in H
  | H : (_ <=? _)%Z = false |- _ => apply Z.leb_gt in H
  | H : bool_decide _ = true |- _ => apply bool_decide_eq_true in H
  | H : bool_decide _ = false |- _ => apply bool_decide_eq_false in H
  end.

(** The last element a partial function is defined on. *)
Lemma last_omap_snoc {A B} (f : A → option B) l a :
  last (omap f (l ++ [a])) = match f a with Some b => Some b | None => last (omap f l) end.
Proof. rewrite omap_app. cbn. destruct (f a); cbn; [apply last_snoc|by rewrite app_nil_r]. Qed.

(** A member of a list of sets lies within their union. *)
Lemma subseteq_union_list `{Countable K} (X : gset K) (Xs : list (gset K)) : X ∈ Xs → X ⊆ ⋃ Xs.
Proof. intros HX k Hk. apply elem_of_union_list. eauto. Qed.
