(* ===== verification/Bytes.v ===== *)
(** * Bytes: memory images, C strings and byte loops

    Memory is a list of bytes, each a [Z] in [0, 256).  A [char] pointer is the
    list of the bytes readable at it; a list that holds no zero stands for a
    string whose terminator follows it, so [nth i s 0] reads [s[i]].  The libc
    functions the firmware uses on such buffers ([strncpy], [strncmp],
    [strcmp], [strlen], [tolower]) and the byte loops that several components
    repeat (the OR loop of [bytes_all_zero], the XOR loop of the constant-time
    comparison, FNV-1a, little-endian fields) are defined here once. *)

From S2P Require Import Prelude.
From Stdlib Require Import Ascii String.

Abbreviation bytes := (list Z).

Definition bytes_ok (l : bytes) : Prop := Forall is_u8 l.

#[export] Instance is_u8_dec x : Decision (is_u8 x).
Proof. unfold is_u8. apply _. Defined.

(** Decide a [Forall] over a concrete list by computation. *)
Ltac forall_compute := apply (bool_decide_unpack _); vm_compute; exact I.

(** ** C strings *)
Fixpoint c_str (s : bytes) : bytes :=
  match s with
  | [] => []
  | b :: s' => if b =? 0 then [] else b :: c_str s'
  end.

(** A string literal of the source. *)
Definition lit (s : string) : bytes :=
  map (fun a => Z.of_N (N_of_ascii a)) (list_ascii_of_string s).

(** [n] zero bytes, as [memset] and [mbedtls_platform_zeroize] leave them. *)
Definition zeros (n : nat) : bytes := replicate n 0.

(** [strlen(s)]. *)
Definition strlen (s : bytes) : nat := List.length (c_str s).

(** [strncmp(a, b, n) == 0] and [strcmp(a, b) == 0]. *)
Definition strncmp_eq (a b : bytes) (n : nat) : bool :=
  bool_decide (take n (c_str a) = take n (c_str b)).
Definition strcmp_eq (a b : bytes) : bool := bool_decide (c_str a = c_str b).

(** What [strncpy(dst, src, n)] leaves in the first [n] bytes of [dst]. *)
Definition strncpy_bytes (src : bytes) (n : nat) : bytes :=
  take n (c_str src ++ zeros n).

(** [dst] after [strncpy(dst, src, n)], [n] at most the size of [dst]. *)
Definition strncpy (dst src : bytes) (n : nat) : bytes :=
  strncpy_bytes src n ++ drop n dst.

(** The [safe_copy] helper that most components declare as a static function:
    [None] is the null source pointer, an empty [dst] the null or zero-sized
    destination. *)
Definition safe_copy (dst : bytes) (src : option bytes) : bytes :=
  match dst with
  | [] => []
  | _ :: dst' =>
    match src with
    | None => 0 :: dst'
    | Some s => <[List.length dst' := 0]> (strncpy dst s (List.length dst'))
    end
  end.

(** [string_valid] of the ribosome and RNA tables: a nonempty string whose
    terminator is among its first [max_len] bytes. *)
Definition string_valid (value : option bytes) (max_len : nat) : bool :=
  match value with
  | None => false
  | Some v =>
    if nth 0 v 0 =? 0 then false
    else existsb (fun i => nth i v 0 =? 0) (seq 0 max_len)
  end.

Lemma c_str_no_zero s : Forall (fun b => b ≠ 0) (c_str s).
Proof. induction s as [|b s IH]; simpl; [done|]. case_match; [done|]. bools. by constructor. Qed.

Lemma c_str_idemp s : c_str (c_str s) = c_str s.
Proof.
  induction s as [|b s IH]; simpl; [done|].
  case_match eqn:E; simpl; [done|]. by rewrite E, IH.
Qed.

Lemma c_str_id s : Forall (fun b => b ≠ 0) s → c_str s = s.
Proof.
  induction 1 as [|b s Hb _ IH]; simpl; [done|].
  case_match; bools; [done|]. by rewrite IH.
Qed.

Lemma c_str_app_zero s t : Forall (fun b => b ≠ 0) s → c_str (s ++ 0 :: t) = s.
Proof.
  induction 1 as [|b s Hb _ IH]; simpl; [done|].
  case_match; bools; [done|]. by rewrite IH.
Qed.

Lemma c_str_app_zeros s n : Forall (fun b => b ≠ 0) s → c_str (s ++ zeros n) = s.
Proof.
  intros H. destruct n as [|n]; [by rewrite app_nil_r, c_str_id|].
  by apply c_str_app_zero.
Qed.

Lemma c_str_length s : (List.length (c_str s) ≤ List.length s)%nat.
Proof. induction s; simpl; [lia|]. case_match; simpl; lia. Qed.

Lemma c_str_take s n : c_str (take n s) = take n (c_str s).
Proof.
  revert n. induction s as [|b s IH]; intros [|n]; simpl; try done.
  case_match; simpl; [done|]. by rewrite IH.
Qed.

(** A buffer with a terminator splits into its string and what follows. *)
Lemma c_str_split s :
  (List.length (c_str s) < List.length s)%nat →
  ∃ t, s = c_str s ++ 0 :: t.
Proof.
  induction s as [|b s IH]; simpl; [lia|]. case_match; bools; simpl.
  - subst. eauto.
  - intros. destruct IH as [t Ht]; [lia|]. exists t. by rewrite Ht at 1.
Qed.

Lemma bytes_ok_c_str s : bytes_ok s → bytes_ok (c_str s).
Proof. induction 1; simpl; [constructor|]. case_match; [constructor|]. by constructor. Qed.

Lemma bytes_ok_app a b : bytes_ok (a ++ b) ↔ bytes_ok a ∧ bytes_ok b.
Proof. apply Forall_app. Qed.
Lemma bytes_ok_take n a : bytes_ok a → bytes_ok (take n a).
Proof. apply Forall_take. Qed.
Lemma bytes_ok_zeros n : bytes_ok (zeros n).
Proof. apply Forall_replicate. unfold is_u8. lia. Qed.
#[export] Hint Resolve bytes_ok_c_str bytes_ok_take bytes_ok_zeros : blindnet.

Lemma length_zeros n : List.length (zeros n) = n.
Proof. apply length_replicate. Qed.
#[export] Hint Rewrite length_zeros : blindnet.

Lemma strncpy_bytes_spec src n :
  strncpy_bytes src n = take n (c_str src) ++ zeros (n - List.length (c_str src)).
Proof.
  unfold strncpy_bytes, zeros. rewrite take_app, take_replicate.
  by rewrite Nat.min_l by lia.
Qed.

Lemma length_strncpy_bytes src n : List.length (strncpy_bytes src n) = n.
Proof. rewrite strncpy_bytes_spec, length_app, length_take, length_zeros. lia. Qed.
#[export] Hint Rewrite length_strncpy_bytes : blindnet.

Lemma c_str_strncpy_bytes src n : c_str (strncpy_bytes src n) = take n (c_str src).
Proof.
  rewrite strncpy_bytes_spec. apply c_str_app_zeros.
  apply Forall_take, c_str_no_zero.
Qed.

(** [safe_copy] into a buffer of [n + 1] bytes: truncation to [n] bytes, zero
    padding, and always a terminator. *)
Lemma safe_copy_spec dst s n :
  List.length dst = S n →
  safe_copy dst (Some s) = strncpy_bytes s n ++ [0].
Proof.
  destruct dst as [|b dst]; simpl; [done|]. intros [= <-].
  unfold strncpy. set (n := List.length dst).
  assert (List.length (strncpy_bytes s n) = n) as Hl by apply length_strncpy_bytes.
  rewrite insert_app_r_alt by lia. rewrite Hl, Nat.sub_diag.
  f_equal. destruct (drop n (b :: dst)) as [|c l] eqn:E.
  - apply (f_equal List.length) in E. rewrite length_drop in E. simpl in E. lia.
  - apply (f_equal List.length) in E. rewrite length_drop in E. simpl in *.
    destruct l; [done | simpl in E; lia].
Qed.

Lemma length_safe_copy dst src : List.length (safe_copy dst src) = List.length dst.
Proof.
  destruct dst as [|b dst]; [done|]. destruct src as [s|]; [|done].
  rewrite (safe_copy_spec _ _ (List.length dst)) by done.
  rewrite length_app, length_strncpy_bytes. simpl. lia.
Qed.

Lemma c_str_safe_copy dst s n :
  List.length dst = S n → c_str (safe_copy dst (Some s)) = take n (c_str s).
Proof.
  intros H. rewrite (safe_copy_spec _ _ n), strncpy_bytes_spec by done.
  rewrite <- app_assoc. destruct (n - _)%nat; simpl; apply c_str_app_zero;
    apply Forall_take, c_str_no_zero.
Qed.

Lemma string_valid_spec v n :
  string_valid (Some v) n = true ↔
  c_str v ≠ [] ∧ (List.length (c_str v) < n)%nat.
Proof.
  assert ((nth 0 v 0 =? 0) = bool_decide (c_str v = [])) as E0.
  { destruct v as [|b v]; simpl; [done|]. by case_match. }
  assert (existsb (fun i => nth i v 0 =? 0) (seq 0 n) = true ↔
          (List.length (c_str v) < n)%nat) as E1.
  { rewrite existsb_exists. split.
    - intros (i & Hi%in_seq & Hz). bools. revert i Hi Hz.
      assert (∀ i, nth i v 0 = 0 → (List.length (c_str v) ≤ i)%nat) as Hle;
        [|intros i ? ?%Hle; lia].
      clear. induction v as [|b v IH]; intros [|i]; simpl; try case_match; simpl; bools;
        try lia.
      intros Hi%IH. lia.
    - intros H. exists (List.length (c_str v)). rewrite in_seq. split; [lia|].
      apply Z.eqb_eq. clear. induction v as [|b v IH]; simpl; [done|].
      destruct (b =? 0) eqn:E; bools; simpl; [done | exact IH]. }
  simpl. rewrite E0. case_bool_decide as Hnil.
  - split; [done | by intros []].
  - rewrite E1. tauto.
Qed.

(** ** Byte loops *)

(** [any |= bytes[i]] over the buffer, then [any == 0]; [None] is the null
    pointer, which counts as all zero. *)
Definition bytes_all_zero (l : option bytes) : bool :=
  match l with
  | None => true
  | Some l => if (List.length l =? 0)%nat then true else fold_left Z.lor l 0 =? 0
  end.

(** [diff |= a[i] ^ b[i]] over [len] bytes, then [diff == 0]. *)
Fixpoint xor_fold (a b : bytes) (len : nat) (diff : Z) : Z :=
  match len with
  | O => diff
  | S len' => xor_fold (tl a) (tl b) len' (Z.lor diff (Z.lxor (nth 0 a 0) (nth 0 b 0)))
  end.
Definition constant_time_equal (a b : bytes) (len : nat) : bool := xor_fold a b len 0 =? 0.

Lemma lor_eq_0 a b : Z.lor a b = 0 ↔ a = 0 ∧ b = 0.
Proof. apply Z.lor_eq_0_iff. Qed.

Lemma fold_lor_zero l acc : fold_left Z.lor l acc = 0 ↔ acc = 0 ∧ Forall (fun b => b = 0) l.
Proof.
  revert acc. induction l as [|b l IH]; intros acc; simpl.
  - split; [by intros ->|tauto].
  - rewrite IH, lor_eq_0, Forall_cons. tauto.
Qed.

Lemma bytes_all_zero_spec l : bytes_all_zero (Some l) = true ↔ Forall (fun b => b = 0) l.
Proof.
  simpl. destruct l as [|b l]; simpl; [split; [constructor|done]|].
  rewrite Z.eqb_eq, fold_lor_zero, Forall_cons, Z.lor_0_l. tauto.
Qed.

Lemma all_zero_iff l : Forall (fun b => b = 0) l ↔ l = zeros (List.length l).
Proof.
  unfold zeros. induction l as [|b l IH]; simpl; [split; [done | constructor]|].
  rewrite Forall_cons, IH. split; [by intros [-> <-] | by intros [= -> <-]].
Qed.

Lemma nth_tl (l : bytes) i : nth i (tl l) 0 = nth (S i) l 0.
Proof. destruct l; [by destruct i | done]. Qed.

Lemma xor_fold_zero a b len acc :
  xor_fold a b len acc = 0 ↔ acc = 0 ∧ ∀ i, (i < len)%nat → nth i a 0 = nth i b 0.
Proof.
  revert a b acc. induction len as [|len IH]; intros a b acc; simpl.
  - split; [split; [done|lia] | tauto].
  - rewrite IH, lor_eq_0, Z.lxor_eq_0_iff. split.
    + intros [[-> H0] H]. split; [done|]. intros [|i] Hi; [done|].
      rewrite <- !nth_tl. apply H. lia.
    + intros [-> H]. split; [split; [done | exact (H O ltac:(lia))]|].
      intros i Hi. rewrite !nth_tl. apply H. lia.
Qed.

(** The constant-time comparison decides equality of buffers of its length. *)
Lemma constant_time_equal_spec a b len :
  List.length a = len → List.length b = len →
  constant_time_equal a b len = true ↔ a = b.
Proof.
  intros Ha Hb. unfold constant_time_equal. rewrite Z.eqb_eq, xor_fold_zero.
  split; [|by intros ->].
  intros [_ H]. apply (nth_ext _ _ 0 0); [lia|]. intros i Hi. apply H. lia.
Qed.

(** One FNV-1a round, and the loop over a buffer. *)
Definition fnv1a_step (h b : Z) : Z := u32 (Z.lxor h b * 16777619).
Definition fnv1a (h : Z) (l : bytes) : Z := fold_left fnv1a_step l h.
Definition FNV_OFFSET : Z := 2166136261.

Lemma fnv1a_app h a b : fnv1a h (a ++ b) = fnv1a (fnv1a h a) b.
Proof. apply fold_left_app. Qed.

Lemma fnv1a_range h l : is_u32 h → is_u32 (fnv1a h l).
Proof.
  revert h. induction l as [|b l IH]; intros h H; simpl; [done|].
  apply IH, u32_range.
Qed.

(** ** Little-endian fields *)
Definition le16 (x : Z) : bytes := [Z.land x 255; Z.land (Z.shiftr x 8) 255].
Definition le32 (x : Z) : bytes :=
  [Z.land x 255; Z.land (Z.shiftr x 8) 255;
   Z.land (Z.shiftr x 16) 255; Z.land (Z.shiftr x 24) 255].
Definition of_le16 (l : bytes) : Z := nth 0 l 0 + 256 * nth 1 l 0.
Definition of_le32 (l : bytes) : Z :=
  nth 0 l 0 + 256 * nth 1 l 0 + 65536 * nth 2 l 0 + 16777216 * nth 3 l 0.
(** [int32_t] from its 32 bits. *)
Definition s32 (x : Z) : Z := if x <? 2147483648 then x else x - 4294967296.
Definition is_s32 (x : Z) : Prop := -2147483648 ≤ x < 2147483648.

Lemma land_255 x : Z.land x 255 = x mod 256.
Proof. apply (Z.land_ones x 8). lia. Qed.
Lemma shiftr_div x n : 0 ≤ n → Z.shiftr x n = x / 2 ^ n.
Proof. intros. by apply Z.shiftr_div_pow2. Qed.

Lemma le16_eq x : le16 x = [x mod 256; x / 256 mod 256].
Proof. unfold le16. by rewrite !land_255, !shiftr_div by lia. Qed.
Lemma le32_eq x :
  le32 x = [x mod 256; x / 256 mod 256; x / 65536 mod 256; x / 16777216 mod 256].
Proof. unfold le32. by rewrite !land_255, !shiftr_div by lia. Qed.

Lemma of_le16_le16 x t : is_u16 x → of_le16 (le16 x ++ t) = x.
Proof.
  unfold is_u16. intros. rewrite le16_eq. unfold of_le16. cbn.
  Z.div_mod_to_equations. lia.
Qed.
Lemma of_le32_le32 x t : is_u32 x → of_le32 (le32 x ++ t) = x.
Proof.
  unfold is_u32. intros. rewrite le32_eq. unfold of_le32. cbn.
  Z.div_mod_to_equations. lia.
Qed.

Lemma le16_inj x y : is_u16 x → is_u16 y → le16 x = le16 y → x = y.
Proof.
  intros Hx Hy H. rewrite <- (of_le16_le16 x []), <- (of_le16_le16 y []) by done.
  by rewrite H.
Qed.
Lemma le32_inj x y : is_u32 x → is_u32 y → le32 x = le32 y → x = y.
Proof.
  intros Hx Hy H. rewrite <- (of_le32_le32 x []), <- (of_le32_le32 y []) by done.
  by rewrite H.
Qed.

Lemma bytes_ok_le16 x : bytes_ok (le16 x).
Proof. rewrite le16_eq. repeat constructor; apply Z.mod_pos_bound; lia. Qed.
Lemma bytes_ok_le32 x : bytes_ok (le32 x).
Proof. rewrite le32_eq. repeat constructor; apply Z.mod_pos_bound; lia. Qed.

Lemma s32_u32 x : is_s32 x → s32 (u32 x) = x.
Proof.
  unfold is_s32, s32, u32. intros. case_match; bools; Z.div_mod_to_equations; lia.
Qed.

(** The slice [l[off .. off+len)]. *)
Definition slice (l : bytes) (off len : nat) : bytes := take len (drop off l).

Lemma of_le16_u16 b : Forall is_u8 b → is_u16 (of_le16 b).
Proof.
  intros Hb. unfold of_le16, is_u16. assert (∀ i, 0 ≤ nth i b 0 < 256) as Hn.
  { intros i. destruct (nth_in_or_default i b 0) as [Hi| ->]; [|lia].
    apply (proj1 (Forall_forall _ _) Hb). by apply list_elem_of_In. }
  pose proof (Hn 0%nat). pose proof (Hn 1%nat). lia.
Qed.

Lemma of_le32_u32 b : Forall is_u8 b → is_u32 (of_le32 b).
Proof.
  intros Hb. unfold of_le32, is_u32. assert (∀ i, 0 ≤ nth i b 0 < 256) as Hn.
  { intros i. destruct (nth_in_or_default i b 0) as [Hi| ->]; [|lia].
    apply (proj1 (Forall_forall _ _) Hb). by apply list_elem_of_In. }
  pose proof (Hn 0%nat). pose proof (Hn 1%nat). pose proof (Hn 2%nat). pose proof (Hn 3%nat). lia.
Qed.

Lemma slice_bytes b off n : Forall is_u8 b → Forall is_u8 (slice b off n).
Proof. intros Hb. unfold slice. by apply Forall_take, Forall_drop. Qed.

Lemma slice_app_skip a b off len :
  (List.length a ≤ off)%nat → slice (a ++ b) off len = slice b (off - List.length a) len.
Proof. intros. unfold slice. by rewrite drop_app_ge by lia. Qed.
Lemma slice_app_here a b len : List.length a = len → slice (a ++ b) 0 len = a.
Proof. intros <-. unfold slice. rewrite drop_0. by rewrite take_app_length. Qed.
Lemma slice_all a len : List.length a = len → slice a 0 len = a.
Proof. intros <-. unfold slice. rewrite drop_0. by rewrite firstn_all. Qed.
Lemma length_slice l off len :
  (off + len ≤ List.length l)%nat → List.length (slice l off len) = len.
Proof. intros. unfold slice. rewrite length_take, length_drop. lia. Qed.

(** A slice is cut in two at any point. *)
Lemma slice_split l off n m :
  slice l off (n + m) = slice l off n ++ slice l (off + n) m.
Proof. unfold slice. rewrite <- drop_drop. by rewrite take_take_drop. Qed.

Lemma bytes_ok_slice l off n : bytes_ok l → bytes_ok (slice l off n).
Proof. intros. by apply Forall_take, Forall_drop. Qed.
#[export] Hint Resolve bytes_ok_slice : blindnet.

Lemma slice_one l off : (off < List.length l)%nat → slice l off 1 = [nth off l 0].
Proof.
  intros H. unfold slice. rewrite (drop_S l (nth off l 0) off); [done|].
  destruct (lookup_lt_is_Some_2 l off H) as [x Hx]. by rewrite (nth_lookup_Some _ _ _ _ Hx).
Qed.

(** Four bytes and the integer they hold. *)
Lemma le32_of_le32 l : bytes_ok l → List.length l = 4%nat → le32 (of_le32 l) = l.
Proof.
  intros Hb Hl. destruct l as [|a [|b [|c [|d [|]]]]]; try done.
  unfold bytes_ok in Hb. rewrite !Forall_cons in Hb. unfold is_u8 in Hb.
  rewrite le32_eq. unfold of_le32. simpl.
  repeat f_equal; Z.div_mod_to_equations; lia.
Qed.
Lemma of_le32_range l : bytes_ok l → List.length l = 4%nat → is_u32 (of_le32 l).
Proof.
  intros Hb Hl. destruct l as [|a [|b [|c [|d [|]]]]]; try done.
  unfold bytes_ok in Hb. rewrite !Forall_cons in Hb. unfold is_u8 in Hb.
  unfold is_u32, of_le32. simpl. lia.
Qed.
Lemma u32_s32 x : is_u32 x → u32 (s32 x) = x.
Proof. unfold is_u32, s32, u32. intros. case_match; bools; Z.div_mod_to_equations; lia. Qed.
Lemma s32_range x : is_u32 x → is_s32 (s32 x).
Proof. unfold is_u32, s32, is_s32. intros. case_match; bools; lia. Qed.

(** [memcpy(dst, src, n)]: the first [n] bytes of [dst] replaced. *)
Definition memcpy (dst src : bytes) (n : nat) : bytes := take n src ++ drop n dst.

Lemma length_memcpy dst src n :
  (n ≤ List.length src)%nat → (n ≤ List.length dst)%nat →
  List.length (memcpy dst src n) = List.length dst.
Proof. intros. unfold memcpy. rewrite length_app, length_take, length_drop. lia. Qed.
Lemma take_memcpy dst src n :
  (n ≤ List.length src)%nat → take n (memcpy dst src n) = take n src.
Proof. intros. unfold memcpy. rewrite take_app_le by (rewrite length_take; lia). by rewrite take_take, Nat.min_id. Qed.

(** [tolower] of the C locale. *)
Definition tolower (c : Z) : Z := if (65 <=? c) && (c <=? 90) then c + 32 else c.

Lemma tolower_idemp c : tolower (tolower c) = tolower c.
Proof. unfold tolower. repeat case_match; bools; lia. Qed.
Lemma tolower_zero c : tolower c = 0 ↔ c = 0.
Proof. unfold tolower. repeat case_match; bools; lia. Qed.

(** ** Structs as sequences of fields *)
(** Cuts a memory image into fields of the given sizes. *)
Fixpoint chunks (sizes : list nat) (b : bytes) : list bytes :=
  match sizes with
  | [] => []
  | n :: sizes' => take n b :: chunks sizes' (drop n b)
  end.

Lemma chunks_concat sizes fields :
  Forall2 (fun n f => List.length f = n) sizes fields → chunks sizes (List.concat fields) = fields.
Proof.
  induction 1 as [|n f sizes fields Hf _ IH]; [done|]. cbn [chunks List.concat].
  subst n. by rewrite take_app_length, drop_app_length, IH.
Qed.

Lemma length_concat_fields sizes (fields : list bytes) :
  Forall2 (fun n f => List.length f = n) sizes fields →
  List.length (List.concat fields) = sum_list sizes.
Proof. induction 1 as [|n f sizes fields <- _ IH]; simpl; [done|]. rewrite length_app, IH. done. Qed.
