(* ===== verification/Slots.v ===== *)
(** * Slots: fixed arrays of in-use slots

    The flow table, the policy and rate rules, the rate buckets, the quarantine
    list, the device registry and the DNS rules all keep a static array of
    [{ bool in_use; T entry; }] slots and walk it with the same five loops:
    first match, first free slot, least recently used slot, best priority and
    expiry.  The loops are defined here on lists, with the lemmas that say what
    they compute; the class [Slot] is what a component provides to get the
    abstract view of its array, a finite map from keys to values. *)

From S2P Require Import Prelude.

(** ** The loops *)
Section loops.
Context {A : Type}.
Implicit Types (l : list A) (p : A → bool).

(** [for (i = 0; i < N; ++i) if (p(a[i])) return i; return -1;] with [None]
    for -1. *)
Fixpoint first_index p l : option nat :=
  match l with
  | [] => None
  | s :: l' => if p s then Some O else S <$> first_index p l'
  end.

(** The LRU scan: [oldest] starts at [UINT32_MAX], a used slot with a
    strictly smaller stamp takes over. *)
Fixpoint lru_loop (used : A → bool) (stamp : A → Z) l (i : nat)
    (lru : option nat) (oldest : Z) : option nat :=
  match l with
  | [] => lru
  | s :: l' =>
    if negb (used s) then lru_loop used stamp l' (S i) lru oldest
    else if stamp s <? oldest then lru_loop used stamp l' (S i) (Some i) (stamp s)
    else lru_loop used stamp l' (S i) lru oldest
  end.
Definition lru_index used stamp l := lru_loop used stamp l 0 None U32_MAX.

(** The rule scan: [if (!found || prio(s) >= best_priority) best = s]. *)
Fixpoint best_loop (ok : A → bool) (prio : A → Z) l (best : option A) : option A :=
  match l with
  | [] => best
  | s :: l' =>
    if negb (ok s) then best_loop ok prio l' best
    else match best with
         | None => best_loop ok prio l' (Some s)
         | Some b =>
           if prio b <=? prio s then best_loop ok prio l' (Some s)
           else best_loop ok prio l' best
         end
  end.

(** The expiry sweep: every used slot that is [dead] is zeroed, the active
    counter is decremented when positive and the expired counter bumped. *)
Fixpoint expire_loop (used dead : A → bool) (zero : A) l (active expired : Z)
    : list A * Z * Z :=
  match l with
  | [] => ([], active, expired)
  | s :: l' =>
    if used s && dead s then
      let '(l'', active', expired') :=
        expire_loop used dead zero l' (dec_if_pos active) (inc32 expired) in
      (zero :: l'', active', expired')
    else
      let '(l'', active', expired') := expire_loop used dead zero l' active expired in
      (s :: l'', active', expired')
  end.

Fixpoint count p l : nat :=
  match l with
  | [] => 0
  | s :: l' => (if p s then 1 else 0) + count p l'
  end.

(** *** First match *)
Lemma first_index_Some p l i :
  first_index p l = Some i ↔
  ∃ s, l !! i = Some s ∧ p s = true ∧
       ∀ j t, (j < i)%nat → l !! j = Some t → p t = false.
Proof.
  revert i. induction l as [|s l IH]; intros i; simpl.
  - split; [done|]. intros (s & Hs & _). by destruct i.
  - destruct (p s) eqn:E.
    + split.
      * intros [= <-]. exists s. split_and!; try done. intros; lia.
      * intros (t & Ht & Hp & Hlt). destruct i as [|i]; [done|].
        specialize (Hlt O s ltac:(lia) eq_refl). congruence.
    + rewrite fmap_Some. split.
      * intros (k & Hk & ->). apply IH in Hk as (t & Ht & Hp & Hlt).
        exists t. split_and!; try done. intros [|j] u Hj Hu; simpl in *; [congruence|].
        apply (Hlt j); [lia|done].
      * intros (t & Ht & Hp & Hlt). destruct i as [|i]; simpl in *; [congruence|].
        exists i. split; [|done]. apply IH. exists t. split_and!; try done.
        intros j u Hj Hu. apply (Hlt (S j)); [lia|done].
Qed.

Lemma first_index_None p l :
  first_index p l = None ↔ ∀ i s, l !! i = Some s → p s = false.
Proof.
  induction l as [|s l IH]; simpl; [split; [by intros _ [] | done]|].
  destruct (p s) eqn:E.
  - split; [done|]. intros H. specialize (H O s eq_refl). congruence.
  - rewrite fmap_None, IH. split.
    + intros H [|i] t Ht; simpl in *; [congruence | eauto].
    + intros H i t Ht. by apply (H (S i)).
Qed.

Lemma first_index_ext p q l :
  (∀ s, p s = q s) → first_index p l = first_index q l.
Proof. intros H. induction l as [|s l IH]; simpl; [done|]. by rewrite H, IH. Qed.

Lemma first_index_lookup p l i :
  first_index p l = Some i → ∃ s, l !! i = Some s ∧ p s = true.
Proof. intros (s & ? & ? & _)%first_index_Some. eauto. Qed.

Lemma first_index_lt p l i : first_index p l = Some i → (i < List.length l)%nat.
Proof. intros (s & Hs & _)%first_index_lookup. by eapply lookup_lt_Some. Qed.

(** *** Counting *)
Lemma count_le p l : (count p l ≤ List.length l)%nat.
Proof. induction l as [|s l IH]; simpl; [lia|]. destruct (p s); lia. Qed.

Lemma count_insert p l i s x :
  l !! i = Some s →
  (count p (<[i:=x]> l) + (if p s then 1 else 0) =
   count p l + (if p x then 1 else 0))%nat.
Proof.
  revert i. induction l as [|t l IH]; intros [|i] Hi; simplify_eq/=.
  - lia.
  - specialize (IH _ Hi). destruct (p t); lia.
Qed.

Lemma count_pos p l i s : l !! i = Some s → p s = true → (0 < count p l)%nat.
Proof.
  revert i. induction l as [|t l IH]; intros [|i] Hi Hp; simplify_eq/=.
  - rewrite Hp. lia.
  - specialize (IH _ Hi Hp). lia.
Qed.

Lemma count_full p l :
  count p l = List.length l ↔ ∀ i s, l !! i = Some s → p s = true.
Proof.
  induction l as [|t l IH]; simpl; [split; [by intros _ []|done]|].
  pose proof (count_le p l). split.
  - intros H1 i s. destruct (p t) eqn:E; [|lia].
    destruct i; simpl; [congruence|]. apply IH. lia.
  - intros H1. rewrite (H1 O t eq_refl). rewrite (proj2 IH); [lia|].
    intros i s Hi. by apply (H1 (S i)).
Qed.

Lemma count_zero_elem p n x : p x = false → count p (replicate n x) = O.
Proof. intros H. induction n; simpl; [done|]. by rewrite H. Qed.

(** A free slot exists exactly when the array is not full. *)
Lemma first_free_None p l :
  first_index (λ s, negb (p s)) l = None ↔ count p l = List.length l.
Proof.
  rewrite first_index_None, count_full. split; intros H i s Hi.
  - apply negb_false_iff. eauto.
  - apply negb_false_iff. eauto.
Qed.

Lemma count_lt_free p l i s n :
  l !! i = Some s → p s = false → List.length l = n → (count p l < n)%nat.
Proof.
  intros Hi Hs <-. pose proof (count_le p l).
  destruct (decide (count p l = List.length l)) as [Hf|]; [|lia].
  rewrite count_full in Hf. specialize (Hf _ _ Hi). congruence.
Qed.

Lemma alter_insert (f : A → A) l i s : l !! i = Some s → alter f i l = <[i := f s]> l.
Proof.
  revert i. induction l as [|t l IH]; intros [|i] Hi; simplify_eq/=; [done|].
  change (t :: alter f i l = t :: <[i:=f s]> l). by rewrite (IH i).
Qed.

Lemma Forall_map_expire (P : A → Prop) p zero l :
  Forall P l → P zero → Forall P (map (λ s, if p s : bool then zero else s) l).
Proof. intros Hl Hz. apply Forall_fmap. eapply Forall_impl; [done|]. intros s Hs. simpl. by case_match. Qed.

(** *** Least recently used *)
Lemma lru_loop_spec used stamp l i lru oldest :
  match lru_loop used stamp l i lru oldest with
  | Some k =>
    lru = Some k ∧ (∀ j s, l !! j = Some s → used s = true → oldest ≤ stamp s) ∨
    ∃ j s, k = (i + j)%nat ∧ l !! j = Some s ∧ used s = true ∧ stamp s < oldest ∧
           (∀ j' t, l !! j' = Some t → used t = true → stamp s ≤ stamp t) ∧
           (∀ j' t, (j' < j)%nat → l !! j' = Some t → used t = true → stamp s < stamp t)
  | None => lru = None ∧ ∀ j s, l !! j = Some s → used s = true → oldest ≤ stamp s
  end.
Proof.
  revert i lru oldest. induction l as [|s l IH]; intros i lru oldest; simpl.
  { destruct lru; [left|]; (split; [done|]); intros []; done. }
  destruct (used s) eqn:Eu; simpl.
  - destruct (stamp s <? oldest) eqn:El; bools.
    + specialize (IH (S i) (Some i) (stamp s)).
      destruct (lru_loop _ _ _ _ _ _) as [k|]; [|by destruct IH].
      right. destruct IH as [[[= <-] Hge]|(j & t & -> & Hj & Ht & Hlt & Hmin & Hstr)].
      * exists O, s. split_and!; [lia|done|done|done| |intros; lia].
        intros [|j] t; simpl; [intros [= <-] _; lia | eauto].
      * exists (S j), t. split_and!; [lia|done|done|lia| |].
        -- intros [|j'] u; simpl; [intros [= <-] _; lia | eauto].
        -- intros [|j'] u Hj' Hu; simpl in *; [simplify_eq; lia|].
           apply (Hstr j'); [lia|done].
    + specialize (IH (S i) lru oldest).
      destruct (lru_loop _ _ _ _ _ _) as [k|].
      * destruct IH as [[-> Hge]|(j & t & -> & Hj & Ht & Hlt & Hmin & Hstr)].
        -- left. split; [done|]. intros [|j] t; simpl; [intros [= <-] _; lia | eauto].
        -- right. exists (S j), t. split_and!; [lia|done|done|done| |].
           ++ intros [|j'] u; simpl; [intros [= <-] _; lia | eauto].
           ++ intros [|j'] u Hj' Hu; simpl in *; [simplify_eq; lia|].
              apply (Hstr j'); [lia|done].
      * destruct IH as [-> Hge]. split; [done|].
        intros [|j] t; simpl; [intros [= <-] _; lia | eauto].
  - specialize (IH (S i) lru oldest).
    destruct (lru_loop _ _ _ _ _ _) as [k|].
    + destruct IH as [[-> Hge]|(j & t & -> & Hj & Ht & Hlt & Hmin & Hstr)].
      * left. split; [done|]. intros [|j] t; simpl; [congruence | eauto].
      * right. exists (S j), t. split_and!; [lia|done|done|done| |].
        -- intros [|j'] u; simpl; [congruence | eauto].
        -- intros [|j'] u Hj' Hu; simpl in *; [congruence|]. apply (Hstr j'); [lia|done].
    + destruct IH as [-> Hge]. split; [done|].
      intros [|j] t; simpl; [congruence | eauto].
Qed.

Lemma lru_index_Some used stamp l k :
  lru_index used stamp l = Some k →
  ∃ s, l !! k = Some s ∧ used s = true ∧ stamp s < U32_MAX ∧
       (∀ j t, l !! j = Some t → used t = true → stamp s ≤ stamp t) ∧
       (∀ j t, (j < k)%nat → l !! j = Some t → used t = true → stamp s < stamp t).
Proof.
  unfold lru_index. pose proof (lru_loop_spec used stamp l 0 None U32_MAX) as H.
  intros E. rewrite E in H. destruct H as [[? _]|(j & s & -> & H)]; [done|].
  simpl. eauto 10.
Qed.

Lemma lru_index_None used stamp l :
  lru_index used stamp l = None →
  ∀ j s, l !! j = Some s → used s = true → U32_MAX ≤ stamp s.
Proof.
  unfold lru_index. pose proof (lru_loop_spec used stamp l 0 None U32_MAX) as H.
  intros E. rewrite E in H. by destruct H.
Qed.

(** *** Best priority *)
Lemma best_loop_spec ok prio l best :
  match best_loop ok prio l best with
  | None => best = None ∧ ∀ i s, l !! i = Some s → ok s = false
  | Some b =>
    (best = Some b ∧ ∀ i s, l !! i = Some s → ok s = true → prio s < prio b) ∨
    ∃ i, l !! i = Some b ∧ ok b = true ∧
         (∀ c, best = Some c → prio c ≤ prio b) ∧
         (∀ j s, l !! j = Some s → ok s = true → prio s ≤ prio b) ∧
         (∀ j s, (i < j)%nat → l !! j = Some s → ok s = true → prio s < prio b)
  end.
Proof.
  revert best. induction l as [|s l IH]; intros best; simpl.
  { destruct best; [left|]; (split; [done|]); by intros []. }
  destruct (ok s) eqn:Eo; simpl.
  - set (take := match best with None => true | Some b => prio b <=? prio s end).
    replace (match best with
             | None => best_loop ok prio l (Some s)
             | Some b => if prio b <=? prio s then best_loop ok prio l (Some s)
                         else best_loop ok prio l best
             end) with (best_loop ok prio l (if take then Some s else best))
      by (unfold take; destruct best; [by case_match|done]).
    specialize (IH (if take then Some s else best)).
    destruct (best_loop _ _ _ _) as [b|].
    + destruct IH as [[Hb Hlt]|(i & Hi & Hob & Hc & Hle & Hlt)].
      * destruct take eqn:Et; simplify_eq/=.
        -- right. exists O. split_and!; try done.
           ++ intros c ->. unfold take in Et. bools. lia.
           ++ intros [|j] t; simpl; [intros [= <-]; lia|].
              intros Ht Hot. specialize (Hlt _ _ Ht Hot). lia.
           ++ intros [|j] t Hj; [lia|]. eauto.
        -- left. split; [done|]. intros [|j] t; simpl; [|eauto].
           intros [= <-] _. unfold take in Et. bools. lia.
      * right. exists (S i). split_and!; try done.
        -- intros c ->. destruct take eqn:Et; [|eauto].
           unfold take in Et. bools. specialize (Hc s eq_refl). lia.
        -- intros [|j] t; simpl; [|eauto]. intros [= <-] _.
           destruct take eqn:Et; [by apply Hc|]. unfold take in Et.
           destruct best as [c|]; [|done]. bools. specialize (Hc c eq_refl). lia.
        -- intros [|j] t Hj; [lia|]. simpl. apply Hlt. lia.
    + destruct IH as [Hb _]. by destruct take eqn:Et, best; simplify_eq/=.
  - specialize (IH best). destruct (best_loop _ _ _ _) as [b|].
    + destruct IH as [[-> Hlt]|(i & Hi & Hob & Hc & Hle & Hlt)].
      * left. split; [done|]. intros [|j] t; simpl; [congruence | eauto].
      * right. exists (S i). split_and!; try done.
        -- intros [|j] t; simpl; [congruence | eauto].
        -- intros [|j] t Hj; [lia|]. simpl. apply Hlt. lia.
    + destruct IH as [-> Hn]. split; [done|]. intros [|j] t; simpl; [congruence | eauto].
Qed.

(** The winner is a match of maximal priority, the last one among equals. *)
Definition is_best (ok : A → bool) (prio : A → Z) l (b : A) : Prop :=
  ∃ i, l !! i = Some b ∧ ok b = true ∧
       (∀ j s, l !! j = Some s → ok s = true → prio s ≤ prio b) ∧
       (∀ j s, (i < j)%nat → l !! j = Some s → ok s = true → prio s < prio b).

Lemma best_loop_Some ok prio l b :
  best_loop ok prio l None = Some b → is_best ok prio l b.
Proof.
  intros E. pose proof (best_loop_spec ok prio l None) as H. rewrite E in H.
  destruct H as [[? _]|(i & Hi & Ho & _ & Hle & Hlt)]; [done|]. by exists i.
Qed.

Lemma best_loop_None ok prio l :
  best_loop ok prio l None = None ↔ ∀ i s, l !! i = Some s → ok s = false.
Proof.
  pose proof (best_loop_spec ok prio l None) as H.
  destruct (best_loop ok prio l None) as [b|] eqn:E.
  - split; [done|]. intros Hn. destruct H as [[? _]|(i & Hi & Ho & _)]; [done|].
    specialize (Hn _ _ Hi). congruence.
  - split; [by intros _; apply H | done].
Qed.

Lemma is_best_unique ok prio l b c :
  is_best ok prio l b → is_best ok prio l c → b = c.
Proof.
  intros (i & Hi & Ho & Hle & Hlt) (j & Hj & Ho' & Hle' & Hlt').
  destruct (Nat.lt_trichotomy i j) as [Hij|[->|Hij]]; [|congruence|].
  - specialize (Hlt _ _ Hij Hj Ho'). specialize (Hle' _ _ Hi Ho). lia.
  - specialize (Hlt' _ _ Hij Hi Ho). specialize (Hle _ _ Hj Ho'). lia.
Qed.

(** Slots that never match can be rewritten without changing the winner. *)
Lemma best_loop_map ok prio l best (f : A → A) :
  (∀ s, ok s = true → f s = s) → (∀ s, ok (f s) = ok s) →
  best_loop ok prio (map f l) best = best_loop ok prio l best.
Proof.
  intros Hid Hok. revert best. induction l as [|s l IH]; intros best; simpl; [done|].
  rewrite Hok. destruct (ok s) eqn:E; simpl; [|done].
  rewrite (Hid s E). destruct best; [case_match|]; apply IH.
Qed.

(** *** Expiry *)
Lemma expire_loop_spec used dead zero l active expired :
  used zero = false →
  Z.of_nat (count used l) ≤ active →
  0 ≤ expired → expired + Z.of_nat (List.length l) < U32_MAX →
  expire_loop used dead zero l active expired =
    (map (λ s, if used s && dead s then zero else s) l,
     active - Z.of_nat (count (λ s, used s && dead s) l),
     expired + Z.of_nat (count (λ s, used s && dead s) l)).
Proof.
  intros Hz. revert active expired.
  induction l as [|s l IH]; intros active expired Ha He Hlt; simpl in *.
  { f_equal; [f_equal|]; lia. }
  destruct (used s) eqn:Eu; simpl.
  - destruct (dead s) eqn:Ed; simpl.
    + unfold dec_if_pos. rewrite decide_True by lia.
      rewrite inc32_small by lia. rewrite IH by lia.
      f_equal; [f_equal|]; lia.
    + rewrite IH by lia. done.
  - rewrite IH by lia. done.
Qed.

Lemma count_expired used dead zero l :
  used zero = false →
  (count used (map (λ s, if used s && dead s then zero else s) l) +
   count (λ s, used s && dead s) l = count used l)%nat.
Proof.
  intros Hz. induction l as [|s l IH]; simpl; [done|].
  destruct (used s) eqn:Eu, (dead s) eqn:Ed; simpl;
    rewrite ?Hz, ?Eu; lia.
Qed.
End loops.

#[export] Hint Resolve count_le first_index_lt : blindnet.

(** ** The abstract view: a finite map

    [Slot A K V] says when a slot is in use and which key and value it then
    holds. *)
Class Slot (A K V : Type) := {
  s_used : A → bool;
  s_key : A → K;
  s_val : A → V;
}.

Section view.
Context {A K V : Type} `{Countable K} `{SA : Slot A K V}.
Implicit Types (l : list A).

Definition key_is (k : K) (s : A) : bool := s_used s && bool_decide (s_key s = k).

Fixpoint slots_map l : gmap K V :=
  match l with
  | [] => ∅
  | s :: l' =>
    if s_used s then <[s_key s := s_val s]> (slots_map l') else slots_map l'
  end.

(** No two used slots hold the same key. *)
Definition keys_unique l : Prop :=
  ∀ i j s t, l !! i = Some s → l !! j = Some t →
    s_used s = true → s_used t = true → s_key s = s_key t → i = j.

Lemma key_is_true k s : key_is k s = true ↔ s_used s = true ∧ s_key s = k.
Proof. unfold key_is. by rewrite andb_true_iff, bool_decide_eq_true. Qed.

Lemma slots_map_lookup l k :
  slots_map l !! k = first_index (key_is k) l ≫= λ i, s_val <$> l !! i.
Proof.
  induction l as [|s l IH]; simpl; [apply lookup_empty|].
  unfold key_is at 1. destruct (s_used s) eqn:E; simpl.
  - case_bool_decide as Hk.
    + subst. by rewrite lookup_insert_eq.
    + rewrite lookup_insert_ne, IH by done.
      by destruct (first_index (key_is k) l).
  - rewrite IH. by destruct (first_index (key_is k) l).
Qed.

Lemma slots_map_None l k :
  slots_map l !! k = None ↔ first_index (key_is k) l = None.
Proof.
  rewrite slots_map_lookup. destruct (first_index (key_is k) l) as [i|] eqn:E; simpl.
  - apply first_index_lookup in E as (s & -> & _). done.
  - done.
Qed.

Lemma slots_map_found l k i s :
  first_index (key_is k) l = Some i → l !! i = Some s →
  slots_map l !! k = Some (s_val s).
Proof. intros E Hi. rewrite slots_map_lookup, E. simpl. by rewrite Hi. Qed.

Lemma keys_unique_first l k i s :
  keys_unique l → l !! i = Some s → s_used s = true → s_key s = k →
  first_index (key_is k) l = Some i.
Proof.
  intros Hu Hi Hs Hk. destruct (first_index (key_is k) l) as [j|] eqn:E.
  - apply first_index_lookup in E as (t & Hj & [Ht Htk]%key_is_true).
    f_equal. eapply Hu; eauto. congruence.
  - rewrite first_index_None in E. specialize (E _ _ Hi).
    assert (key_is k s = true) by (by apply key_is_true). congruence.
Qed.

Lemma slots_map_elem l i s :
  keys_unique l → l !! i = Some s → s_used s = true →
  slots_map l !! s_key s = Some (s_val s).
Proof. intros. eapply slots_map_found; eauto. by eapply keys_unique_first. Qed.

Lemma slots_map_Some l k v :
  slots_map l !! k = Some v →
  ∃ i s, first_index (key_is k) l = Some i ∧ l !! i = Some s ∧ s_used s = true ∧
         s_key s = k ∧ s_val s = v.
Proof.
  rewrite slots_map_lookup. destruct (first_index (key_is k) l) as [i|] eqn:E; [|done].
  simpl. pose proof (first_index_lookup _ _ _ E) as (s & Hs & [? ?]%key_is_true).
  rewrite Hs. simpl. intros [= <-]. by exists i, s.
Qed.

(** Overwriting slot [i] with a used slot of key [k]: allowed when [k] is
    absent or already at [i]. *)
Lemma keys_unique_insert l i x :
  keys_unique l →
  (s_used x = true → ∀ j t, l !! j = Some t → j ≠ i → s_used t = true → s_key t ≠ s_key x) →
  keys_unique (<[i:=x]> l).
Proof.
  intros Hu Hx a b s t Ha Hb Hsu Htu Hk.
  apply list_lookup_insert_Some in Ha as [(<- & <- & _)|(Hna & Ha)];
  apply list_lookup_insert_Some in Hb as [(<- & <- & _)|(Hnb & Hb)].
  - done.
  - by destruct (Hx Hsu b t Hb (not_eq_sym Hnb) Htu).
  - by destruct (Hx Htu a s Ha (not_eq_sym Hna) Hsu).
  - by eapply Hu.
Qed.

Lemma absent_key l k :
  first_index (key_is k) l = None →
  ∀ j t, l !! j = Some t → s_used t = true → s_key t ≠ k.
Proof.
  intros E j t Hj Ht <-. rewrite first_index_None in E. specialize (E _ _ Hj).
  assert (key_is (s_key t) t = true) by (by apply key_is_true). congruence.
Qed.

Lemma keys_unique_add l i x :
  keys_unique l → first_index (key_is (s_key x)) l = None →
  keys_unique (<[i:=x]> l).
Proof.
  intros Hu E. apply keys_unique_insert; [done|]. intros _ j t Hj _ Ht.
  by eapply absent_key.
Qed.

Lemma keys_unique_update l i s x :
  keys_unique l → l !! i = Some s → s_used s = true → s_key x = s_key s →
  keys_unique (<[i:=x]> l).
Proof.
  intros Hu Hi Hs Hk. apply keys_unique_insert; [done|].
  intros _ j t Hj Hne Ht Heq. apply Hne. eapply Hu; eauto. congruence.
Qed.

Lemma keys_unique_clear l i x :
  keys_unique l → s_used x = false → keys_unique (<[i:=x]> l).
Proof. intros Hu Hx. apply keys_unique_insert; [done|]. congruence. Qed.

Lemma keys_unique_expire (dead : A → bool) zero l :
  keys_unique l → s_used zero = false →
  keys_unique (map (λ s, if s_used s && dead s then zero else s) l).
Proof.
  intros Hu Hz i j s t Hi Hj. rewrite list_lookup_fmap_Some in Hi, Hj.
  destruct Hi as (s' & -> & Hi), Hj as (t' & -> & Hj). intros.
  repeat case_match; simplify_eq; try congruence. by eapply Hu.
Qed.

Lemma keys_unique_zero n x : s_used x = false → keys_unique (replicate n x).
Proof.
  intros Hx i j s t Hi _ Hs. apply lookup_replicate in Hi as [<- _]. congruence.
Qed.

Lemma slots_map_zero n x : s_used x = false → slots_map (replicate n x) = ∅.
Proof. intros Hx. induction n; simpl; [done|]. by rewrite Hx. Qed.

Lemma slots_map_update l k i s x :
  keys_unique l → l !! i = Some s → s_used s = true → s_key s = k →
  s_used x = true → s_key x = k →
  slots_map (<[i:=x]> l) = <[k := s_val x]> (slots_map l).
Proof.
  intros Hu Hi Hs Hk Hx Hxk. apply map_eq. intros k'.
  assert ((i < List.length l)%nat) by (by eapply lookup_lt_Some).
  assert (keys_unique (<[i:=x]> l)) as Hu' by (eapply keys_unique_update; eauto; congruence).
  destruct (decide (k' = k)) as [->|Hne].
  - rewrite lookup_insert_eq. rewrite <- Hxk.
    eapply slots_map_elem; eauto. by apply list_lookup_insert_eq.
  - rewrite lookup_insert_ne by done. apply option_eq. intros v. split.
    + intros (j & t & _ & Hj & Ht & <- & <-)%slots_map_Some.
      apply list_lookup_insert_Some in Hj as [(<- & <- & _)|(_ & Hj)]; [done|].
      by eapply slots_map_elem.
    + intros (j & t & _ & Hj & Ht & <- & <-)%slots_map_Some.
      eapply slots_map_elem; eauto. rewrite list_lookup_insert_ne; [done|].
      intros ->. congruence.
Qed.

Lemma slots_map_add l k i s x :
  keys_unique l → l !! i = Some s → s_used s = false →
  first_index (key_is k) l = None → s_used x = true → s_key x = k →
  slots_map (<[i:=x]> l) = <[k := s_val x]> (slots_map l).
Proof.
  intros Hu Hi Hs Hk Hx Hxk. apply map_eq. intros k'.
  assert ((i < List.length l)%nat) by (by eapply lookup_lt_Some).
  assert (keys_unique (<[i:=x]> l)) as Hu' by (apply keys_unique_add; by rewrite ?Hxk).
  destruct (decide (k' = k)) as [->|Hne].
  - rewrite lookup_insert_eq. rewrite <- Hxk.
    eapply slots_map_elem; eauto. by apply list_lookup_insert_eq.
  - rewrite lookup_insert_ne by done. apply option_eq. intros v. split.
    + intros (j & t & _ & Hj & Ht & <- & <-)%slots_map_Some.
      apply list_lookup_insert_Some in Hj as [(<- & <- & _)|(_ & Hj)]; [done|].
      by eapply slots_map_elem.
    + intros (j & t & _ & Hj & Ht & <- & <-)%slots_map_Some.
      eapply slots_map_elem; eauto. rewrite list_lookup_insert_ne; [done|].
      intros ->. congruence.
Qed.

Lemma slots_map_clear l i s x :
  keys_unique l → l !! i = Some s → s_used s = true → s_used x = false →
  slots_map (<[i:=x]> l) = delete (s_key s) (slots_map l).
Proof.
  intros Hu Hi Hs Hx. apply map_eq. intros k'.
  assert ((i < List.length l)%nat) by (by eapply lookup_lt_Some).
  assert (keys_unique (<[i:=x]> l)) as Hu' by (by apply keys_unique_clear).
  apply option_eq. intros v. rewrite lookup_delete_Some. split.
  - intros (j & t & _ & Hj & Ht & <- & <-)%slots_map_Some.
    apply list_lookup_insert_Some in Hj as [(<- & <- & _)|(Hij & Hj)]; [congruence|].
    split; [|by eapply slots_map_elem]. intros Hk. apply Hij. eapply Hu; eauto.
  - intros [Hk (j & t & _ & Hj & Ht & <- & <-)%slots_map_Some].
    eapply slots_map_elem; eauto. rewrite list_lookup_insert_ne; [done|].
    intros ->. congruence.
Qed.

Lemma slots_map_size l : keys_unique l → size (slots_map l) = count s_used l.
Proof.
  induction l as [|s l IH]; intros Hu; simpl; [apply map_size_empty|].
  assert (keys_unique l) as Hl.
  { intros i j a b Ha Hb ???. assert (S i = S j) by (by eapply Hu). lia. }
  specialize (IH Hl). destruct (s_used s) eqn:E; simpl; [|lia].
  rewrite map_size_insert_None; [lia|]. apply eq_None_not_Some.
  intros [v (i & t & _ & Hi & Ht & Hk & _)%slots_map_Some].
  assert (O = S i) by (eapply Hu; eauto; congruence). lia.
Qed.

Lemma slots_map_expire (dead : A → bool) zero l k v :
  keys_unique l → s_used zero = false →
  slots_map (map (λ s, if s_used s && dead s then zero else s) l) !! k = Some v ↔
  ∃ i s, l !! i = Some s ∧ s_used s = true ∧ dead s = false ∧ s_key s = k ∧ s_val s = v.
Proof.
  intros Hu Hz. split.
  - intros (i & s & _ & Hi & Hs & <- & <-)%slots_map_Some.
    rewrite list_lookup_fmap_Some in Hi. destruct Hi as (t & -> & Hi).
    destruct (s_used t) eqn:Et; simpl in *; [|congruence].
    destruct (dead t) eqn:Ed; simpl in *; [congruence|]. by exists i, t.
  - intros (i & s & Hi & Hs & Hd & <- & <-).
    pose proof (keys_unique_expire dead zero l Hu Hz) as Hu'.
    eapply slots_map_elem; eauto. rewrite list_lookup_fmap, Hi. simpl. by rewrite Hs, Hd.
Qed.
End view.

#[export] Hint Resolve keys_unique_update keys_unique_add keys_unique_clear
  keys_unique_zero : blindnet.
