(* ===== verification/Flow_table.v ===== *)
(** * Flow_table: the per-flow counters

    Model of [firmware/components/flow_table/flow_table.c].  The static slot
    array, configuration, counters and initialisation flag are the record
    [ft_state]; every public call is a state transformer with the code's guards
    and early returns.  The critical sections make each call atomic.  A key
    pointer is an [option]; what the code stores through a non-null out pointer
    is part of the result. *)

From S2P Require Import Prelude Bytes Slots.

Definition FLOW_TABLE_MAX_ENTRIES : nat := 128.

Inductive flow_direction :=
| FLOW_DIRECTION_UNKNOWN
| FLOW_DIRECTION_ZONE_TO_UPLINK
| FLOW_DIRECTION_UPLINK_TO_ZONE
| FLOW_DIRECTION_ZONE_TO_ZONE.

Inductive flow_state :=
| FLOW_STATE_EMPTY
| FLOW_STATE_ACTIVE
| FLOW_STATE_QUARANTINED
| FLOW_STATE_BLOCKED
| FLOW_STATE_EXPIRED.

Inductive flow_touch_result :=
| FLOW_TOUCH_CREATED
| FLOW_TOUCH_UPDATED
| FLOW_TOUCH_EVICTED_OLD_ENTRY
| FLOW_TOUCH_FAILED_TABLE_DISABLED
| FLOW_TOUCH_FAILED_INVALID_ARG.

Record flow_key := mk_flow_key {
  fk_src_ip : Z;
  fk_dst_ip : Z;
  fk_src_port : Z;
  fk_dst_port : Z;
  fk_proto : Z;
}.

#[export] Instance flow_direction_eq_dec : EqDecision flow_direction.
Proof. solve_decision. Defined.
#[export] Instance flow_state_eq_dec : EqDecision flow_state.
Proof. solve_decision. Defined.
#[export] Instance flow_key_eq_dec : EqDecision flow_key.
Proof. solve_decision. Defined.
#[export] Instance flow_key_countable : Countable flow_key.
Proof.
  refine (inj_countable'
    (λ k, (fk_src_ip k, fk_dst_ip k, fk_src_port k, fk_dst_port k, fk_proto k))
    (λ '(a, b, c, d, e), mk_flow_key a b c d e) _).
  by intros [].
Defined.
#[export] Instance flow_direction_countable : Countable flow_direction.
Proof.
  refine (inj_countable
    (λ d, match d with
          | FLOW_DIRECTION_UNKNOWN => 0
          | FLOW_DIRECTION_ZONE_TO_UPLINK => 1
          | FLOW_DIRECTION_UPLINK_TO_ZONE => 2
          | FLOW_DIRECTION_ZONE_TO_ZONE => 3 end)
    (λ n, if n =? 0 then Some FLOW_DIRECTION_UNKNOWN
          else if n =? 1 then Some FLOW_DIRECTION_ZONE_TO_UPLINK
          else if n =? 2 then Some FLOW_DIRECTION_UPLINK_TO_ZONE
          else Some FLOW_DIRECTION_ZONE_TO_ZONE) _).
  by intros [].
Defined.

Record flow_entry := mk_flow_entry {
  fe_key : flow_key;
  fe_direction : flow_direction;
  fe_state : flow_state;
  fe_packets : Z;
  fe_bytes : Z;
  fe_first_seen_ms : Z;
  fe_last_seen_ms : Z;
  fe_last_policy_action : Z;
  fe_flags : Z;
  fe_risk_score : Z;
  fe_reserved : bytes;
}.
#[export] Instance flow_entry_settable : Settable flow_entry := fun r =>
  mk_flow_entry (fe_key r) (fe_direction r) (fe_state r) (fe_packets r) (fe_bytes r)
    (fe_first_seen_ms r) (fe_last_seen_ms r) (fe_last_policy_action r) (fe_flags r)
    (fe_risk_score r) (fe_reserved r).

Record flow_table_config := mk_flow_table_config {
  fc_max_idle_ms : Z;
  fc_hard_ttl_ms : Z;
  fc_evict_lru_when_full : bool;
}.
#[export] Instance flow_table_config_settable : Settable flow_table_config := fun r =>
  mk_flow_table_config (fc_max_idle_ms r) (fc_hard_ttl_ms r) (fc_evict_lru_when_full r).

Record flow_table_stats := mk_flow_table_stats {
  fts_capacity : Z;
  fts_active_entries : Z;
  fts_total_packets : Z;
  fts_total_bytes : Z;
  fts_created_flows : Z;
  fts_updated_flows : Z;
  fts_evicted_flows : Z;
  fts_expired_flows : Z;
  fts_dropped_updates : Z;
}.
#[export] Instance flow_table_stats_settable : Settable flow_table_stats := fun r =>
  mk_flow_table_stats (fts_capacity r) (fts_active_entries r) (fts_total_packets r)
    (fts_total_bytes r) (fts_created_flows r) (fts_updated_flows r) (fts_evicted_flows r)
    (fts_expired_flows r) (fts_dropped_updates r).

Record flow_slot := mk_flow_slot { fs_in_use : bool; fs_entry : flow_entry }.
#[export] Instance flow_slot_settable : Settable flow_slot := fun r =>
  mk_flow_slot (fs_in_use r) (fs_entry r).

Record ft_state := mk_ft_state {
  ft_slots : list flow_slot;
  ft_config : flow_table_config;
  ft_stats : flow_table_stats;
  ft_initialized : bool;
}.
#[export] Instance ft_state_settable : Settable ft_state := fun r =>
  mk_ft_state (ft_slots r) (ft_config r) (ft_stats r) (ft_initialized r).

(** Zeroed memory. *)
Definition flow_key_zero : flow_key := mk_flow_key 0 0 0 0 0.
Definition flow_entry_zero : flow_entry :=
  mk_flow_entry flow_key_zero FLOW_DIRECTION_UNKNOWN FLOW_STATE_EMPTY 0 0 0 0 0 0 0 [0; 0; 0].
Definition flow_slot_zero : flow_slot := mk_flow_slot false flow_entry_zero.
Definition flow_stats_zero : flow_table_stats := mk_flow_table_stats 0 0 0 0 0 0 0 0 0.
Definition flow_slots_zero : list flow_slot := replicate FLOW_TABLE_MAX_ENTRIES flow_slot_zero.

(** The statics before the first call. *)
Definition ft_boot : ft_state :=
  mk_ft_state flow_slots_zero (mk_flow_table_config 0 0 false) flow_stats_zero false.

(** ** Helpers *)
Definition now_ms (timer_us : Z) : Z := ms_of_us timer_us.

Definition load_default_config : flow_table_config :=
  mk_flow_table_config 60000 (10 * 60000) true.

Definition flow_table_key_equals (a b : option flow_key) : bool :=
  match a, b with
  | Some a, Some b =>
    (fk_src_ip a =? fk_src_ip b) && (fk_dst_ip a =? fk_dst_ip b) &&
    (fk_src_port a =? fk_src_port b) && (fk_dst_port a =? fk_dst_port b) &&
    (fk_proto a =? fk_proto b)
  | _, _ => false
  end.

(** The memory image of a [flow_key_t]; the three bytes after [proto] are
    padding, which no assignment of the code sets. *)
Definition flow_key_image (key : flow_key) (padding : bytes) : bytes :=
  le32 (fk_src_ip key) ++ le32 (fk_dst_ip key) ++ le16 (fk_src_port key) ++
  le16 (fk_dst_port key) ++ [fk_proto key] ++ padding.

Definition flow_table_hash_key (key : option flow_key) (padding : bytes) : Z :=
  match key with
  | None => 0
  | Some k => fnv1a FNV_OFFSET (flow_key_image k padding)
  end.

Definition find_existing_slot_locked (key : flow_key) (st : ft_state) : option nat :=
  first_index (λ s, fs_in_use s && flow_table_key_equals (Some (fe_key (fs_entry s))) (Some key))
    (ft_slots st).

Definition find_empty_slot_locked (st : ft_state) : option nat :=
  first_index (λ s, negb (fs_in_use s)) (ft_slots st).

Definition find_lru_slot_locked (st : ft_state) : option nat :=
  lru_index fs_in_use (λ s, fe_last_seen_ms (fs_entry s)) (ft_slots st).

Definition clear_slot_locked (index : nat) (st : ft_state) : ft_state :=
  match ft_slots st !! index with
  | None => st
  | Some s =>
    let st1 :=
      if fs_in_use s then st <| ft_stats ::= λ x, x <| fts_active_entries ::= dec_if_pos |> |>
      else st in
    st1 <| ft_slots ::= <[index := flow_slot_zero]> |>
  end.

Definition create_entry_locked (index : nat) (key : flow_key) (direction : flow_direction)
    (nbytes ts : Z) (st : ft_state) : ft_state :=
  let entry := flow_entry_zero
    <| fe_key := key |> <| fe_direction := direction |> <| fe_state := FLOW_STATE_ACTIVE |>
    <| fe_packets := 1 |> <| fe_bytes := nbytes |>
    <| fe_first_seen_ms := ts |> <| fe_last_seen_ms := ts |> in
  st <| ft_slots ::= alter (λ s, s <| fs_entry := entry |> <| fs_in_use := true |>) index |>
     <| ft_stats ::= λ x, x <| fts_active_entries ::= inc32 |> <| fts_total_packets ::= inc64 |>
          <| fts_total_bytes ::= λ b, u64 (b + nbytes) |> <| fts_created_flows ::= inc64 |> |>.

Definition update_entry (direction : flow_direction) (nbytes ts : Z) (e : flow_entry)
    : flow_entry :=
  let e1 := e <| fe_direction := direction |> <| fe_packets ::= inc64 |>
              <| fe_bytes ::= λ b, u64 (b + nbytes) |> <| fe_last_seen_ms := ts |> in
  match fe_state e1 with
  | FLOW_STATE_EMPTY | FLOW_STATE_EXPIRED => e1 <| fe_state := FLOW_STATE_ACTIVE |>
  | _ => e1
  end.

Definition update_entry_locked (index : nat) (direction : flow_direction) (nbytes ts : Z)
    (st : ft_state) : ft_state :=
  st <| ft_slots ::= alter (λ s, s <| fs_entry ::= update_entry direction nbytes ts |>) index |>
     <| ft_stats ::= λ x, x <| fts_total_packets ::= inc64 |>
          <| fts_total_bytes ::= λ b, u64 (b + nbytes) |> <| fts_updated_flows ::= inc64 |> |>.

(** ** Public calls *)
Definition flow_table_init (config : option flow_table_config) (st : ft_state) : ft_state * esp_err :=
  let cfg := match config with
    | None => load_default_config
    | Some c =>
      let c1 := if fc_max_idle_ms c =? 0 then c <| fc_max_idle_ms := 60000 |> else c in
      if fc_hard_ttl_ms c1 =? 0 then c1 <| fc_hard_ttl_ms := 10 * 60000 |> else c1
    end in
  (mk_ft_state flow_slots_zero cfg
     (flow_stats_zero <| fts_capacity := Z.of_nat FLOW_TABLE_MAX_ENTRIES |>) true, ESP_OK).

Definition flow_table_reset (st : ft_state) : ft_state :=
  st <| ft_slots := flow_slots_zero |>
     <| ft_stats := flow_stats_zero <| fts_capacity := Z.of_nat FLOW_TABLE_MAX_ENTRIES |> |>.

Definition entry_at (index : nat) (st : ft_state) : option flow_entry :=
  fs_entry <$> ft_slots st !! index.

Definition flow_table_touch (key : option flow_key) (direction : flow_direction)
    (nbytes timer_us : Z) (st : ft_state) : ft_state * flow_touch_result * option flow_entry :=
  match key with
  | None => (st, FLOW_TOUCH_FAILED_INVALID_ARG, None)
  | Some key =>
    if negb (ft_initialized st) then (st, FLOW_TOUCH_FAILED_TABLE_DISABLED, None) else
    let ts := now_ms timer_us in
    match find_existing_slot_locked key st with
    | Some index =>
      let st1 := update_entry_locked index direction nbytes ts st in
      (st1, FLOW_TOUCH_UPDATED, entry_at index st1)
    | None =>
      match find_empty_slot_locked st with
      | Some index =>
        let st1 := create_entry_locked index key direction nbytes ts st in
        (st1, FLOW_TOUCH_CREATED, entry_at index st1)
      | None =>
        let dropped := st <| ft_stats ::= λ x, x <| fts_dropped_updates ::= inc64 |> |> in
        if negb (fc_evict_lru_when_full (ft_config st))
        then (dropped, FLOW_TOUCH_FAILED_TABLE_DISABLED, None) else
        match find_lru_slot_locked st with
        | None => (dropped, FLOW_TOUCH_FAILED_TABLE_DISABLED, None)
        | Some index =>
          let st1 := clear_slot_locked index st in
          let st2 := st1 <| ft_stats ::= λ x, x <| fts_evicted_flows ::= inc64 |> |> in
          let st3 := create_entry_locked index key direction nbytes ts st2 in
          (st3, FLOW_TOUCH_EVICTED_OLD_ENTRY, entry_at index st3)
        end
      end
    end
  end.

Definition flow_table_find (key : option flow_key) (out_entry : bool) (st : ft_state)
    : option flow_entry :=
  match key with
  | None => None
  | Some key =>
    if negb out_entry || negb (ft_initialized st) then None else
    find_existing_slot_locked key st ≫= λ index, entry_at index st
  end.

(** The common shape of the three setters: [None] for the [false] result. *)
Definition set_entry (key : option flow_key) (f : flow_entry → flow_entry) (st : ft_state)
    : ft_state * bool :=
  match key with
  | None => (st, false)
  | Some key =>
    if negb (ft_initialized st) then (st, false) else
    match find_existing_slot_locked key st with
    | Some index =>
      (st <| ft_slots ::= alter (λ s, s <| fs_entry ::= f |>) index |>, true)
    | None => (st, false)
    end
  end.

Definition flow_table_set_state (key : option flow_key) (state : flow_state) (st : ft_state) :=
  set_entry key (λ e, e <| fe_state := state |>) st.

Definition flow_table_set_risk (key : option flow_key) (risk_score : Z) (st : ft_state) :=
  let risk := if risk_score >? 100 then 100 else risk_score in
  set_entry key (λ e, e <| fe_risk_score := risk |>) st.

Definition flow_table_set_policy_action (key : option flow_key) (action : Z) (st : ft_state) :=
  set_entry key (λ e, e <| fe_last_policy_action := action |>) st.

Definition entry_is_stale (cfg : flow_table_config) (ts : Z) (e : flow_entry) : bool :=
  (u32 (ts - fe_last_seen_ms e) >? fc_max_idle_ms cfg) ||
  (u32 (ts - fe_first_seen_ms e) >? fc_hard_ttl_ms cfg).

Definition flow_table_expire_old (timer_us : Z) (st : ft_state) : ft_state * Z :=
  if negb (ft_initialized st) then (st, 0) else
  let ts := now_ms timer_us in
  let '(slots, active, expired) :=
    expire_loop fs_in_use (λ s, entry_is_stale (ft_config st) ts (fs_entry s)) flow_slot_zero
      (ft_slots st) (fts_active_entries (ft_stats st)) 0 in
  (st <| ft_slots := slots |>
      <| ft_stats ::= λ x, x <| fts_active_entries := active |>
           <| fts_expired_flows ::= λ n, u64 (n + expired) |> |>, expired).

Definition flow_table_get_stats (st : ft_state) : flow_table_stats := ft_stats st.

(** The entries [flow_table_foreach] hands to its callback, in order. *)
Definition flow_table_foreach (st : ft_state) : list flow_entry :=
  if negb (ft_initialized st) then []
  else omap (λ s, if fs_in_use s then Some (fs_entry s) else None) (ft_slots st).

(** ** The abstract table *)
#[export] Instance flow_slot_view : Slot flow_slot flow_key flow_entry := {|
  s_used := fs_in_use;
  s_key s := fe_key (fs_entry s);
  s_val := fs_entry;
|}.

Definition ft_map (st : ft_state) : gmap flow_key flow_entry := slots_map (ft_slots st).

(** The entry a first packet creates. *)
Definition fresh_entry (key : flow_key) (direction : flow_direction) (nbytes ts : Z) : flow_entry :=
  mk_flow_entry key direction FLOW_STATE_ACTIVE 1 nbytes ts ts 0 0 0 [0; 0; 0].

(** The counters balance, modulo their 64 bits: every created flow is active,
    evicted or expired, and every packet created or updated a flow. *)
Record ft_balance (x : flow_table_stats) : Prop := {
  ft_balance_flows :
    u64 (fts_created_flows x) =
    u64 (fts_active_entries x + fts_evicted_flows x + fts_expired_flows x);
  ft_balance_packets :
    u64 (fts_total_packets x) = u64 (fts_created_flows x + fts_updated_flows x);
}.

Record ft_inv (st : ft_state) : Prop := {
  ft_inv_length : List.length (ft_slots st) = FLOW_TABLE_MAX_ENTRIES;
  ft_inv_unique : keys_unique (ft_slots st);
  ft_inv_active : fts_active_entries (ft_stats st) = Z.of_nat (count fs_in_use (ft_slots st));
  ft_inv_risk : Forall (λ s, fe_risk_score (fs_entry s) ≤ 100) (ft_slots st);
  ft_inv_balance : ft_balance (ft_stats st);
}.

(** What [flow_table_touch] promises, on the abstract table. *)
Inductive touch_spec (key : flow_key) (direction : flow_direction) (nbytes ts : Z) (evict : bool)
    (m : gmap flow_key flow_entry) : flow_touch_result → gmap flow_key flow_entry → Prop :=
| touch_updated e :
    m !! key = Some e →
    touch_spec key direction nbytes ts evict m FLOW_TOUCH_UPDATED
      (<[key := update_entry direction nbytes ts e]> m)
| touch_created :
    m !! key = None → (size m < FLOW_TABLE_MAX_ENTRIES)%nat →
    touch_spec key direction nbytes ts evict m FLOW_TOUCH_CREATED
      (<[key := fresh_entry key direction nbytes ts]> m)
| touch_evicted victim ve :
    m !! key = None → size m = FLOW_TABLE_MAX_ENTRIES → evict = true →
    m !! victim = Some ve →
    (∀ k e, m !! k = Some e → fe_last_seen_ms ve ≤ fe_last_seen_ms e) →
    touch_spec key direction nbytes ts evict m FLOW_TOUCH_EVICTED_OLD_ENTRY
      (<[key := fresh_entry key direction nbytes ts]> (delete victim m))
| touch_dropped :
    m !! key = None → size m = FLOW_TABLE_MAX_ENTRIES →
    (evict = false ∨ ∀ k e, m !! k = Some e → U32_MAX ≤ fe_last_seen_ms e) →
    touch_spec key direction nbytes ts evict m FLOW_TOUCH_FAILED_TABLE_DISABLED m.

(** ** Lemmas *)
Lemma flow_table_key_equals_spec a b :
  flow_table_key_equals (Some a) (Some b) = bool_decide (a = b).
Proof.
  destruct a, b; simpl. case_bool_decide as E.
  - inv E. by rewrite !Z.eqb_refl.
  - apply not_true_iff_false. intros H. bools. congruence.
Qed.

Lemma find_existing_eq key st :
  find_existing_slot_locked key st = first_index (key_is key) (ft_slots st).
Proof. apply first_index_ext. intros s. by rewrite flow_table_key_equals_spec. Qed.

Lemma find_existing_Some key st index :
  find_existing_slot_locked key st = Some index →
  ∃ s, ft_slots st !! index = Some s ∧ fs_in_use s = true ∧ fe_key (fs_entry s) = key ∧
       ft_map st !! key = Some (fs_entry s).
Proof.
  rewrite find_existing_eq. intros E.
  pose proof (first_index_lookup _ _ _ E) as (s & Hs & [Hu Hk]%key_is_true).
  exists s. split_and!; try done. exact (slots_map_found _ _ _ _ E Hs).
Qed.

Lemma find_existing_None key st :
  find_existing_slot_locked key st = None ↔ ft_map st !! key = None.
Proof. rewrite find_existing_eq. symmetry. apply slots_map_None. Qed.

Lemma find_empty_spec st :
  List.length (ft_slots st) = FLOW_TABLE_MAX_ENTRIES → keys_unique (ft_slots st) →
  match find_empty_slot_locked st with
  | Some index => (size (ft_map st) < FLOW_TABLE_MAX_ENTRIES)%nat ∧
                  ∃ s, ft_slots st !! index = Some s ∧ fs_in_use s = false
  | None => size (ft_map st) = FLOW_TABLE_MAX_ENTRIES
  end.
Proof.
  intros Hl Hu. unfold find_empty_slot_locked, ft_map. rewrite slots_map_size by done.
  destruct (first_index _ _) as [i|] eqn:E.
  - pose proof (first_index_lookup _ _ _ E) as (s & Hs & Hn%negb_true_iff).
    split; [|eauto]. exact (count_lt_free fs_in_use _ _ _ _ Hs Hn Hl).
  - apply first_free_None in E. simpl in *. congruence.
Qed.

Lemma update_entry_key d n ts e : fe_key (update_entry d n ts e) = fe_key e.
Proof. unfold update_entry. by destruct e, fe_state0. Qed.
Lemma update_entry_risk d n ts e : fe_risk_score (update_entry d n ts e) = fe_risk_score e.
Proof. unfold update_entry. by destruct e, fe_state0. Qed.

(** Storing into slot [i]: what an overwrite keeps of the invariant. *)
Lemma ft_inv_store st i s x stats' :
  ft_inv st → ft_slots st !! i = Some s →
  keys_unique (<[i:=x]> (ft_slots st)) →
  fe_risk_score (fs_entry x) ≤ 100 →
  fts_active_entries stats' + (if fs_in_use s then 1 else 0) =
    fts_active_entries (ft_stats st) + (if fs_in_use x then 1 else 0) →
  ft_balance stats' →
  ft_inv (mk_ft_state (<[i:=x]> (ft_slots st)) (ft_config st) stats' (ft_initialized st)).
Proof.
  intros [Hl Hu Ha Hr _] Hi Hux Hrx Hst Hb. constructor; simpl; try done.
  - by rewrite length_insert.
  - pose proof (count_insert fs_in_use _ _ _ x Hi). rewrite Ha in Hst.
    destruct (fs_in_use s), (fs_in_use x); lia.
  - by apply Forall_insert.
Qed.

Lemma active_inc st i s :
  ft_inv st → ft_slots st !! i = Some s → fs_in_use s = false →
  inc32 (fts_active_entries (ft_stats st)) = fts_active_entries (ft_stats st) + 1.
Proof.
  intros [Hl _ Ha _ _] Hi Hs. apply inc32_small.
  pose proof (count_le fs_in_use (ft_slots st)). unfold U32_MAX, FLOW_TABLE_MAX_ENTRIES in *. lia.
Qed.

(** *** The three slot operations *)
Lemma update_entry_locked_ok i s direction nbytes ts st :
  ft_inv st → ft_slots st !! i = Some s → fs_in_use s = true →
  let st' := update_entry_locked i direction nbytes ts st in
  ft_inv st' ∧ entry_at i st' = Some (update_entry direction nbytes ts (fs_entry s)) ∧
  ft_map st' = <[fe_key (fs_entry s) := update_entry direction nbytes ts (fs_entry s)]> (ft_map st).
Proof.
  intros Hinv Hi Hs. pose proof (lookup_lt_Some _ _ _ Hi).
  unfold update_entry_locked. fields. rewrite (alter_insert _ _ _ _ Hi). fields.
  set (x := mk_flow_slot (fs_in_use s) (update_entry direction nbytes ts (fs_entry s))).
  assert (fe_key (fs_entry x) = fe_key (fs_entry s)) as Hk by apply update_entry_key.
  split_and!.
  - apply (ft_inv_store st i s x); try done.
    + eapply keys_unique_update; eauto using ft_inv_unique.
    + simpl. rewrite update_entry_risk.
      apply (Forall_lookup_1 _ _ _ _ (ft_inv_risk _ Hinv) Hi).
    + destruct (ft_inv_balance _ Hinv) as [Hf Hp]. constructor; simpl; [done|].
      wrap_with Hp.
  - unfold entry_at. simpl. by rewrite list_lookup_insert_eq.
  - exact (slots_map_update _ _ i s x (ft_inv_unique _ Hinv) Hi Hs eq_refl Hs Hk).
Qed.

Lemma clear_slot_locked_ok i s st :
  ft_inv st → ft_slots st !! i = Some s → fs_in_use s = true →
  let st' := (clear_slot_locked i st) <| ft_stats ::= λ x, x <| fts_evicted_flows ::= inc64 |> |> in
  ft_inv st' ∧ ft_slots st' !! i = Some flow_slot_zero ∧
  ft_map st' = delete (fe_key (fs_entry s)) (ft_map st).
Proof.
  intros Hinv Hi Hs. pose proof (lookup_lt_Some _ _ _ Hi).
  pose proof (count_pos fs_in_use _ _ _ Hi Hs). pose proof (ft_inv_active _ Hinv).
  unfold clear_slot_locked. rewrite Hi, Hs. fields. unfold dec_if_pos.
  rewrite decide_True by lia. split_and!.
  - apply (ft_inv_store st i s flow_slot_zero); try done.
    + eapply keys_unique_clear; eauto using ft_inv_unique.
    + simpl. rewrite Hs. lia.
    + destruct (ft_inv_balance _ Hinv) as [Hf Hp]. constructor; simpl; [|done].
      wrap_with Hf.
  - by rewrite list_lookup_insert_eq.
  - exact (slots_map_clear _ i s flow_slot_zero (ft_inv_unique _ Hinv) Hi Hs eq_refl).
Qed.

Lemma create_entry_locked_ok i s key direction nbytes ts st :
  ft_inv st → ft_slots st !! i = Some s → fs_in_use s = false → ft_map st !! key = None →
  let st' := create_entry_locked i key direction nbytes ts st in
  ft_inv st' ∧ entry_at i st' = Some (fresh_entry key direction nbytes ts) ∧
  ft_map st' = <[key := fresh_entry key direction nbytes ts]> (ft_map st).
Proof.
  intros Hinv Hi Hs Hk. pose proof (lookup_lt_Some _ _ _ Hi).
  pose proof (active_inc _ _ _ Hinv Hi Hs) as Hinc. apply slots_map_None in Hk.
  unfold create_entry_locked. fields. rewrite (alter_insert _ _ _ _ Hi). fields.
  set (x := mk_flow_slot true (fresh_entry key direction nbytes ts)). split_and!.
  - apply (ft_inv_store st i s x); try done.
    + apply keys_unique_add; eauto using ft_inv_unique.
    + simpl. rewrite Hs, Hinc. lia.
    + destruct (ft_inv_balance _ Hinv) as [Hf Hp]. constructor; simpl; [rewrite Hinc; wrap_with Hf | wrap_with Hp].
  - unfold entry_at. simpl. by rewrite list_lookup_insert_eq.
  - exact (slots_map_add _ _ i s x (ft_inv_unique _ Hinv) Hi Hs Hk eq_refl eq_refl).
Qed.

Lemma find_lru_spec st :
  ft_inv st →
  match find_lru_slot_locked st with
  | Some i => ∃ s, ft_slots st !! i = Some s ∧ fs_in_use s = true ∧
      ft_map st !! fe_key (fs_entry s) = Some (fs_entry s) ∧
      ∀ k e, ft_map st !! k = Some e → fe_last_seen_ms (fs_entry s) ≤ fe_last_seen_ms e
  | None => ∀ k e, ft_map st !! k = Some e → U32_MAX ≤ fe_last_seen_ms e
  end.
Proof.
  intros Hinv. unfold find_lru_slot_locked. destruct (lru_index _ _ _) as [i|] eqn:E.
  - apply lru_index_Some in E as (s & Hi & Hs & _ & Hmin & _). exists s. split_and!; try done.
    + exact (slots_map_elem _ i s (ft_inv_unique _ Hinv) Hi Hs).
    + intros k e (j & t & _ & Hj & Ht & _ & <-)%slots_map_Some. eauto.
  - intros k e (j & t & _ & Hj & Ht & _ & <-)%slots_map_Some.
    exact (lru_index_None _ _ _ E j t Hj Ht).
Qed.

Lemma touch_ok key direction nbytes timer_us st :
  ft_inv st → ft_initialized st = true →
  let '(st', r, out) := flow_table_touch (Some key) direction nbytes timer_us st in
  touch_spec key direction nbytes (now_ms timer_us) (fc_evict_lru_when_full (ft_config st))
    (ft_map st) r (ft_map st') ∧
  ft_inv st' ∧
  (r ≠ FLOW_TOUCH_FAILED_TABLE_DISABLED → out = ft_map st' !! key) ∧
  (r = FLOW_TOUCH_FAILED_TABLE_DISABLED → out = None ∧ ft_slots st' = ft_slots st).
Proof.
  intros Hinv Hini. unfold flow_table_touch. rewrite Hini. simpl.
  destruct (find_existing_slot_locked key st) as [i|] eqn:E.
  { apply find_existing_Some in E as (s & Hi & Hs & <- & Hm).
    pose proof (update_entry_locked_ok i s direction nbytes (now_ms timer_us) st Hinv Hi Hs)
      as (Hinv' & -> & ->).
    split_and!; [by constructor|done| |done]. by rewrite lookup_insert_eq. }
  apply find_existing_None in E.
  pose proof (find_empty_spec st (ft_inv_length _ Hinv) (ft_inv_unique _ Hinv)) as Hemp.
  destruct (find_empty_slot_locked st) as [i|].
  { destruct Hemp as (Hsz & s & Hi & Hs).
    pose proof (create_entry_locked_ok i s key direction nbytes (now_ms timer_us) st Hinv Hi Hs E)
      as (Hinv' & -> & ->).
    split_and!; [by constructor|done| |done]. by rewrite lookup_insert_eq. }
  assert (ft_inv (st <| ft_stats ::= λ x, x <| fts_dropped_updates ::= inc64 |> |>)) as Hdrop.
  { destruct Hinv as [? ? ? ? []]. by repeat constructor. }
  destruct (fc_evict_lru_when_full (ft_config st)) eqn:Eev; simpl.
  2: { split_and!; [|done..]. apply touch_dropped; auto. }
  pose proof (find_lru_spec st Hinv) as Hlru.
  destruct (find_lru_slot_locked st) as [i|].
  2: { split_and!; [|done..]. apply touch_dropped; auto. }
  destruct Hlru as (s & Hi & Hs & Hm & Hmin).
  pose proof (clear_slot_locked_ok i s st Hinv Hi Hs) as (Hinv1 & Hi1 & Hm1).
  eapply create_entry_locked_ok in Hinv1 as (Hinv2 & -> & Hm2); [|exact Hi1|done|].
  - rewrite Hm1 in Hm2. rewrite Hm2. split_and!; [|done| |done].
    + eapply touch_evicted; eauto.
    + by rewrite lookup_insert_eq.
  - rewrite Hm1. rewrite lookup_delete_None. auto.
Qed.

(** *** The other calls *)
Lemma ft_inv_empty cfg ini :
  ft_inv (mk_ft_state flow_slots_zero cfg
    (flow_stats_zero <| fts_capacity := Z.of_nat FLOW_TABLE_MAX_ENTRIES |>) ini).
Proof.
  constructor; simpl; [done|by apply keys_unique_zero|done| |done].
  apply Forall_replicate. simpl. lia.
Qed.

Lemma ft_boot_inv : ft_inv ft_boot.
Proof.
  constructor; simpl; [done|by apply keys_unique_zero|done| |done].
  apply Forall_replicate. simpl. lia.
Qed.

Lemma set_entry_ok key f st :
  ft_inv st → (∀ e, fe_key (f e) = fe_key e) →
  (∀ e, fe_risk_score e ≤ 100 → fe_risk_score (f e) ≤ 100) →
  let '(st', ok) := set_entry key f st in
  ft_inv st' ∧ ft_initialized st' = ft_initialized st.
Proof.
  intros Hinv Hk Hr. unfold set_entry. destruct key as [key|]; [|done].
  destruct (ft_initialized st) eqn:Eini; simpl; [|done].
  destruct (find_existing_slot_locked key st) as [i|] eqn:E; [|done].
  apply find_existing_Some in E as (s & Hi & Hs & _ & _).
  fields. rewrite (alter_insert _ _ _ _ Hi). fields. split; [|done].
  apply (ft_inv_store st i s (mk_flow_slot (fs_in_use s) (f (fs_entry s)))); try done.
  - eapply keys_unique_update; eauto using ft_inv_unique. simpl. apply Hk.
  - apply Hr, (Forall_lookup_1 _ _ _ _ (ft_inv_risk _ Hinv) Hi).
  - apply (ft_inv_balance _ Hinv).
Qed.

Definition stale_slot (st : ft_state) (ts : Z) (s : flow_slot) : bool :=
  entry_is_stale (ft_config st) ts (fs_entry s).

Lemma expire_old_eq timer_us st :
  ft_inv st → ft_initialized st = true →
  let dead := stale_slot st (now_ms timer_us) in
  let n := Z.of_nat (count (λ s, fs_in_use s && dead s) (ft_slots st)) in
  flow_table_expire_old timer_us st =
    (mk_ft_state (map (λ s, if fs_in_use s && dead s then flow_slot_zero else s) (ft_slots st))
       (ft_config st)
       ((ft_stats st) <| fts_active_entries := fts_active_entries (ft_stats st) - n |>
          <| fts_expired_flows := u64 (fts_expired_flows (ft_stats st) + n) |>) true, n).
Proof.
  intros Hinv Hini dead n. unfold flow_table_expire_old. rewrite Hini. simpl.
  pose proof (ft_inv_length _ Hinv) as Hl. unfold FLOW_TABLE_MAX_ENTRIES in Hl.
  rewrite expire_loop_spec; try done; [|rewrite (ft_inv_active _ Hinv); lia|].
  2: { unfold U32_MAX. lia. }
  fields. rewrite Hini. done.
Qed.

Lemma expire_old_ok timer_us st :
  ft_inv st → ft_initialized st = true →
  let '(st', n) := flow_table_expire_old timer_us st in
  ft_inv st' ∧ ft_initialized st' = true ∧
  Z.of_nat (size (ft_map st)) = Z.of_nat (size (ft_map st')) + n ∧
  ∀ k e, ft_map st' !! k = Some e ↔
         ft_map st !! k = Some e ∧ entry_is_stale (ft_config st) (now_ms timer_us) e = false.
Proof.
  intros Hinv Hini. rewrite (expire_old_eq _ _ Hinv Hini).
  set (dead := stale_slot _ _). pose proof (ft_inv_unique _ Hinv) as Hu.
  pose proof (count_expired fs_in_use dead flow_slot_zero (ft_slots st) eq_refl) as Hc.
  pose proof (keys_unique_expire dead flow_slot_zero _ Hu eq_refl) as Hu'.
  fields. split_and!; try done.
  - constructor; simpl; [by rewrite length_map, (ft_inv_length _ Hinv)|done| | |].
    + rewrite (ft_inv_active _ Hinv). simpl in *. lia.
    + apply Forall_map_expire; [apply (ft_inv_risk _ Hinv)|]. simpl. lia.
    + destruct (ft_inv_balance _ Hinv) as [Hf Hp]. constructor; simpl; [|done]. wrap_with Hf.
  - unfold ft_map. rewrite !slots_map_size by done. simpl in *. lia.
  - intros k e. unfold ft_map. simpl. rewrite (slots_map_expire dead) by done. split.
    + intros (i & s & Hi & Hs & Hd & <- & <-). split; [|done]. exact (slots_map_elem _ i s Hu Hi Hs).
    + intros [(i & s & _ & Hi & Hs & <- & <-)%slots_map_Some Hd]. by exists i, s.
Qed.

(** *** Runs of the component *)
Inductive ft_op :=
| FtInit (config : option flow_table_config)
| FtReset
| FtTouch (key : option flow_key) (direction : flow_direction) (nbytes timer_us : Z)
| FtSetState (key : option flow_key) (state : flow_state)
| FtSetRisk (key : option flow_key) (risk_score : Z)
| FtSetPolicyAction (key : option flow_key) (action : Z)
| FtExpireOld (timer_us : Z).

Definition ft_step (st : ft_state) (op : ft_op) : ft_state :=
  match op with
  | FtInit config => (flow_table_init config st).1
  | FtReset => flow_table_reset st
  | FtTouch key direction nbytes timer_us => (flow_table_touch key direction nbytes timer_us st).1.1
  | FtSetState key state => (flow_table_set_state key state st).1
  | FtSetRisk key risk_score => (flow_table_set_risk key risk_score st).1
  | FtSetPolicyAction key action => (flow_table_set_policy_action key action st).1
  | FtExpireOld timer_us => (flow_table_expire_old timer_us st).1
  end.

Definition ft_run (ops : list ft_op) : ft_state := fold_left ft_step ops ft_boot.

Lemma ft_step_inv st op : ft_inv st → ft_inv (ft_step st op).
Proof.
  intros Hinv. destruct op as [cfg| |[key|] d n us|key fs|key r|key a|us]; cbn [ft_step].
  - apply ft_inv_empty.
  - apply ft_inv_empty.
  - destruct (ft_initialized st) eqn:E; [|by unfold flow_table_touch; rewrite E].
    pose proof (touch_ok key d n us st Hinv E) as H.
    destruct (flow_table_touch (Some key) d n us st) as [[st' r] out]. by destruct H as (_ & ? & _).
  - done.
  - pose proof (set_entry_ok key (λ e, e <| fe_state := fs |>) st Hinv) as H.
    unfold flow_table_set_state. destruct (set_entry _ _ _). by apply H.
  - pose proof (set_entry_ok key (λ e, e <| fe_risk_score := if r >? 100 then 100 else r |>) st Hinv) as H.
    unfold flow_table_set_risk. destruct (set_entry _ _ _). apply H; [done|].
    intros e _. simpl. case_match; lia.
  - pose proof (set_entry_ok key (λ e, e <| fe_last_policy_action := a |>) st Hinv) as H.
    unfold flow_table_set_policy_action. destruct (set_entry _ _ _). by apply H.
  - destruct (ft_initialized st) eqn:E; [|by unfold flow_table_expire_old; rewrite E].
    pose proof (expire_old_ok us st Hinv E) as H. destruct (flow_table_expire_old us st). by destruct H.
Qed.

Lemma ft_run_inv ops : ft_inv (ft_run ops).
Proof.
  unfold ft_run. generalize ft_boot_inv. generalize ft_boot as st.
  induction ops as [|op ops IH]; intros st H; simpl; [done|]. by apply IH, ft_step_inv.
Qed.

(** ** Properties *)

(** C19: in every state the calls of the component can reach, a touch of an
    initialised table is exactly one transition of the abstract table (a finite
    map from keys to entries): it updates the entry of a known key, creates one
    when there is room, replaces a least recently seen entry when the table is
    full and eviction is on, and otherwise changes no entry; the entry copied
    out is the one the map then holds. *)
Theorem flow_table_touch_refines ops key direction nbytes timer_us st' r out :
  ft_initialized (ft_run ops) = true →
  flow_table_touch (Some key) direction nbytes timer_us (ft_run ops) = (st', r, out) →
  touch_spec key direction nbytes (now_ms timer_us)
    (fc_evict_lru_when_full (ft_config (ft_run ops))) (ft_map (ft_run ops)) r (ft_map st') ∧
  (r ≠ FLOW_TOUCH_FAILED_TABLE_DISABLED → out = ft_map st' !! key) ∧
  (r = FLOW_TOUCH_FAILED_TABLE_DISABLED → out = None).
Proof.
  intros Hini E. pose proof (touch_ok key direction nbytes timer_us _ (ft_run_inv ops) Hini) as H.
  rewrite E in H. destruct H as (? & _ & ? & Hf). split_and!; [done..|]. intros Hr. by apply Hf.
Qed.

Definition witness_key : flow_key := mk_flow_key 3232236290 134744072 50000 443 6.

Lemma flow_table_touch_refines_witness :
  touch_spec witness_key FLOW_DIRECTION_ZONE_TO_UPLINK 60 5 true
    (ft_map (ft_run [FtInit None])) FLOW_TOUCH_CREATED
    (ft_map (flow_table_touch (Some witness_key) FLOW_DIRECTION_ZONE_TO_UPLINK 60 5000
      (ft_run [FtInit None])).1.1).
Proof.
  refine (proj1 (flow_table_touch_refines [FtInit None] witness_key FLOW_DIRECTION_ZONE_TO_UPLINK
    60 5000 _ _ _ _ _)); reflexivity.
Defined.

(** Whatever calls are made, in whatever order and at whatever times, no
    two slots ever hold the same key, the active counter is the number of
    entries of the abstract table and at most the capacity, risk scores stay at
    most 100, and the counters balance (created = active + evicted + expired,
    packets = created + updated, modulo 2^64). *)
Theorem flow_table_run_invariant ops :
  ft_inv (ft_run ops) ∧
  fts_active_entries (ft_stats (ft_run ops)) = Z.of_nat (size (ft_map (ft_run ops))) ∧
  (size (ft_map (ft_run ops)) ≤ FLOW_TABLE_MAX_ENTRIES)%nat.
Proof.
  pose proof (ft_run_inv ops) as Hinv. pose proof Hinv as [Hl Hu Ha _ _].
  split; [done|]. unfold ft_map. rewrite slots_map_size by done. split; [done|].
  rewrite <- Hl. apply count_le.
Qed.

(** The expiry sweep keeps exactly the entries that are neither idle longer
    than [max_idle_ms] nor older than [hard_ttl_ms] (ages modulo 2^32, as the
    code subtracts), unchanged, and returns how many it removed. *)
Theorem flow_table_expire_exact ops timer_us st' n :
  ft_initialized (ft_run ops) = true →
  flow_table_expire_old timer_us (ft_run ops) = (st', n) →
  n = Z.of_nat (size (ft_map (ft_run ops))) - Z.of_nat (size (ft_map st')) ∧
  ∀ key e, ft_map st' !! key = Some e ↔
    ft_map (ft_run ops) !! key = Some e ∧
    u32 (now_ms timer_us - fe_last_seen_ms e) ≤ fc_max_idle_ms (ft_config (ft_run ops)) ∧
    u32 (now_ms timer_us - fe_first_seen_ms e) ≤ fc_hard_ttl_ms (ft_config (ft_run ops)).
Proof.
  intros Hini E. pose proof (expire_old_ok timer_us _ (ft_run_inv ops) Hini) as H.
  rewrite E in H. destruct H as (_ & _ & Hsz & Hm). split; [lia|]. intros key e.
  rewrite Hm. unfold entry_is_stale. rewrite orb_false_iff, !Z.gtb_ltb, !Z.ltb_ge. tauto.
Qed.

Lemma flow_table_expire_exact_witness :
  let ops := [FtInit None; FtTouch (Some witness_key) FLOW_DIRECTION_ZONE_TO_UPLINK 60 5000] in
  let st' := (flow_table_expire_old 70000000 (ft_run ops)).1 in
  1 = Z.of_nat (size (ft_map (ft_run ops))) - Z.of_nat (size (ft_map st')).
Proof.
  intros ops st'.
  refine (proj1 (flow_table_expire_exact ops 70000000 st' 1 _ _)); vm_compute; reflexivity.
Defined.
