(* ===== verification/Policy_engine.v ===== *)
(** * Policy_engine: prioritised firewall rules

    Model of [firmware/components/policy_engine/policy_engine.c]: 64 rule slots,
    the matcher with its wildcards, the scan for the best rule, the expiry sweep
    and the counters.  The theorems characterise the decision, show that the
    sweep never changes one, and give the prefix reading of CIDR masks. *)

From S2P Require Import Prelude Bytes Slots Flow_table.

Definition POLICY_ENGINE_MAX_RULES : nat := 64.
Definition POLICY_ANY_MASK : Z := 0.
Definition POLICY_ANY_PORT : Z := 0.
Definition POLICY_ANY_PROTO : Z := 0.

Inductive policy_action :=
| POLICY_ACTION_ALLOW
| POLICY_ACTION_DENY
| POLICY_ACTION_RATE_LIMIT
| POLICY_ACTION_QUARANTINE
| POLICY_ACTION_REDIRECT
| POLICY_ACTION_LOG_ONLY
| POLICY_ACTION_ASK_SWARM.

Inductive policy_reason :=
| POLICY_REASON_DEFAULT
| POLICY_REASON_RULE_MATCH
| POLICY_REASON_NO_RULE
| POLICY_REASON_RULE_EXPIRED
| POLICY_REASON_INVALID_INPUT.

#[export] Instance policy_action_eq_dec : EqDecision policy_action.
Proof. solve_decision. Defined.
#[export] Instance policy_reason_eq_dec : EqDecision policy_reason.
Proof. solve_decision. Defined.

(** The enumerator's value, as stored in [uint32_t] fields. *)
Definition policy_action_value (a : policy_action) : Z :=
  match a with
  | POLICY_ACTION_ALLOW => 0 | POLICY_ACTION_DENY => 1 | POLICY_ACTION_RATE_LIMIT => 2
  | POLICY_ACTION_QUARANTINE => 3 | POLICY_ACTION_REDIRECT => 4 | POLICY_ACTION_LOG_ONLY => 5
  | POLICY_ACTION_ASK_SWARM => 6
  end.

Record policy_rule := mk_policy_rule {
  pr_rule_id : Z;
  pr_enabled : bool;
  pr_priority : Z;
  pr_direction : flow_direction;
  pr_src_ip : Z;
  pr_src_mask : Z;
  pr_dst_ip : Z;
  pr_dst_mask : Z;
  pr_src_port : Z;
  pr_dst_port : Z;
  pr_proto : Z;
  pr_action : policy_action;
  pr_risk_score : Z;
  pr_log_event : bool;
  pr_expires_at_ms : Z;
  pr_reason : bytes;
}.
#[export] Instance policy_rule_settable : Settable policy_rule := fun r =>
  mk_policy_rule (pr_rule_id r) (pr_enabled r) (pr_priority r) (pr_direction r) (pr_src_ip
    r) (pr_src_mask r) (pr_dst_ip r) (pr_dst_mask r) (pr_src_port r) (pr_dst_port r)
    (pr_proto r) (pr_action r) (pr_risk_score r) (pr_log_event r) (pr_expires_at_ms r)
    (pr_reason r).

Record policy_engine_config := mk_policy_engine_config {
  pc_default_action : policy_action;
  pc_default_log_event : bool;
  pc_default_risk_score : Z;
}.
#[export] Instance policy_engine_config_settable : Settable policy_engine_config := fun r =>
  mk_policy_engine_config (pc_default_action r) (pc_default_log_event r)
    (pc_default_risk_score r).

Record policy_decision := mk_policy_decision {
  pd_action : policy_action;
  pd_reason : policy_reason;
  pd_matched_rule_id : Z;
  pd_matched_priority : Z;
  pd_risk_score : Z;
  pd_log_event : bool;
  pd_reason_text : bytes;
}.
#[export] Instance policy_decision_settable : Settable policy_decision := fun r =>
  mk_policy_decision (pd_action r) (pd_reason r) (pd_matched_rule_id r)
    (pd_matched_priority r) (pd_risk_score r) (pd_log_event r) (pd_reason_text r).

Record policy_engine_stats := mk_policy_engine_stats {
  ps_capacity : Z;
  ps_active_rules : Z;
  ps_evaluations : Z;
  ps_allowed : Z;
  ps_denied : Z;
  ps_rate_limited : Z;
  ps_quarantined : Z;
  ps_redirected : Z;
  ps_log_only : Z;
  ps_ask_swarm : Z;
  ps_no_match : Z;
  ps_invalid_input : Z;
}.
#[export] Instance policy_engine_stats_settable : Settable policy_engine_stats := fun r =>
  mk_policy_engine_stats (ps_capacity r) (ps_active_rules r) (ps_evaluations r)
    (ps_allowed r) (ps_denied r) (ps_rate_limited r) (ps_quarantined r) (ps_redirected r)
    (ps_log_only r) (ps_ask_swarm r) (ps_no_match r) (ps_invalid_input r).

Record policy_slot := mk_policy_slot { pl_in_use : bool; pl_rule : policy_rule }.
#[export] Instance policy_slot_settable : Settable policy_slot := fun r =>
  mk_policy_slot (pl_in_use r) (pl_rule r).

Record pe_state := mk_pe_state {
  pe_rules : list policy_slot;
  pe_config : policy_engine_config;
  pe_stats : policy_engine_stats;
  pe_initialized : bool;
  pe_next_rule_id : Z;
}.
#[export] Instance pe_state_settable : Settable pe_state := fun r =>
  mk_pe_state (pe_rules r) (pe_config r) (pe_stats r) (pe_initialized r) (pe_next_rule_id
    r).

(** What [memset(.., 0, ..)] leaves. *)
Definition policy_rule_zero : policy_rule :=
  mk_policy_rule 0 false 0 FLOW_DIRECTION_UNKNOWN 0 0 0 0 0 0 0 POLICY_ACTION_ALLOW 0 false 0 (zeros 48).
Definition policy_slot_zero : policy_slot := mk_policy_slot false policy_rule_zero.
Definition policy_decision_zero : policy_decision :=
  mk_policy_decision POLICY_ACTION_ALLOW POLICY_REASON_DEFAULT 0 0 0 false (zeros 48).
Definition policy_stats_zero : policy_engine_stats :=
  mk_policy_engine_stats 0 0 0 0 0 0 0 0 0 0 0 0.
Definition policy_rules_zero : list policy_slot := replicate POLICY_ENGINE_MAX_RULES policy_slot_zero.

Definition pe_boot : pe_state :=
  mk_pe_state policy_rules_zero (mk_policy_engine_config POLICY_ACTION_ALLOW false 0)
    policy_stats_zero false 1.

(** ** Helpers *)
Definition now_ms (timer_us : Z) : Z := ms_of_us timer_us.
Definition safe_copy_reason := safe_copy.

Definition policy_engine_ipv4 := ipv4_of_octets.

Definition policy_engine_cidr_mask (cidr : Z) : Z :=
  if cidr =? 0 then 0
  else if cidr >=? 32 then 4294967295
  else u32 (Z.shiftl 4294967295 (32 - cidr)).

Definition policy_action_to_string (action : policy_action) : bytes :=
  match action with
  | POLICY_ACTION_ALLOW => lit "ALLOW"
  | POLICY_ACTION_DENY => lit "DENY"
  | POLICY_ACTION_RATE_LIMIT => lit "RATE_LIMIT"
  | POLICY_ACTION_QUARANTINE => lit "QUARANTINE"
  | POLICY_ACTION_REDIRECT => lit "REDIRECT"
  | POLICY_ACTION_LOG_ONLY => lit "LOG_ONLY"
  | POLICY_ACTION_ASK_SWARM => lit "ASK_SWARM"
  end.

Definition load_default_config : policy_engine_config :=
  mk_policy_engine_config POLICY_ACTION_ALLOW false 0.

Definition ip_matches (rule_ip rule_mask ip : Z) : bool :=
  if rule_mask =? POLICY_ANY_MASK then true
  else Z.land ip rule_mask =? Z.land rule_ip rule_mask.

Definition port_matches (rule_port port : Z) : bool :=
  if rule_port =? POLICY_ANY_PORT then true else rule_port =? port.

Definition proto_matches (rule_proto proto : Z) : bool :=
  if rule_proto =? POLICY_ANY_PROTO then true else rule_proto =? proto.

Definition direction_matches (rule_direction direction : flow_direction) : bool :=
  if bool_decide (rule_direction = FLOW_DIRECTION_UNKNOWN) then true
  else bool_decide (rule_direction = direction).

Definition rule_is_expired (rule : policy_rule) (ts : Z) : bool :=
  if pr_expires_at_ms rule =? 0 then false else ts >=? pr_expires_at_ms rule.

Definition rule_matches (rule : policy_rule) (key : flow_key) (direction : flow_direction) (ts : Z)
    : bool :=
  if negb (pr_enabled rule) then false
  else if rule_is_expired rule ts then false
  else if negb (direction_matches (pr_direction rule) direction) then false
  else if negb (ip_matches (pr_src_ip rule) (pr_src_mask rule) (fk_src_ip key)) then false
  else if negb (ip_matches (pr_dst_ip rule) (pr_dst_mask rule) (fk_dst_ip key)) then false
  else if negb (port_matches (pr_src_port rule) (fk_src_port key)) then false
  else if negb (port_matches (pr_dst_port rule) (fk_dst_port key)) then false
  else if negb (proto_matches (pr_proto rule) (fk_proto key)) then false
  else true.

Definition fill_default_decision (config : policy_engine_config) : policy_decision :=
  mk_policy_decision (pc_default_action config) POLICY_REASON_NO_RULE 0 0
    (pc_default_risk_score config) (pc_default_log_event config)
    (safe_copy_reason (zeros 48) (Some (lit "default_policy"))).

Definition fill_rule_decision (rule : policy_rule) : policy_decision :=
  mk_policy_decision (pr_action rule) POLICY_REASON_RULE_MATCH (pr_rule_id rule) (pr_priority rule)
    (pr_risk_score rule) (pr_log_event rule) (safe_copy_reason (zeros 48) (Some (pr_reason rule))).

Definition invalid_decision : policy_decision :=
  policy_decision_zero <| pd_action := POLICY_ACTION_DENY |>
    <| pd_reason := POLICY_REASON_INVALID_INPUT |>
    <| pd_reason_text := safe_copy_reason (zeros 48) (Some (lit "invalid_input")) |>.

Definition update_stats_for_action (action : policy_action) (stats : policy_engine_stats)
    : policy_engine_stats :=
  let stats1 := stats <| ps_evaluations ::= inc64 |> in
  match action with
  | POLICY_ACTION_ALLOW => stats1 <| ps_allowed ::= inc64 |>
  | POLICY_ACTION_DENY => stats1 <| ps_denied ::= inc64 |>
  | POLICY_ACTION_RATE_LIMIT => stats1 <| ps_rate_limited ::= inc64 |>
  | POLICY_ACTION_QUARANTINE => stats1 <| ps_quarantined ::= inc64 |>
  | POLICY_ACTION_REDIRECT => stats1 <| ps_redirected ::= inc64 |>
  | POLICY_ACTION_LOG_ONLY => stats1 <| ps_log_only ::= inc64 |>
  | POLICY_ACTION_ASK_SWARM => stats1 <| ps_ask_swarm ::= inc64 |>
  end.

Definition find_empty_slot_locked (st : pe_state) : option nat :=
  first_index (λ s, negb (pl_in_use s)) (pe_rules st).

Definition find_rule_slot_locked (rule_id : Z) (st : pe_state) : option nat :=
  first_index (λ s, pl_in_use s && (pr_rule_id (pl_rule s) =? rule_id)) (pe_rules st).

(** ** Public calls *)
Definition policy_engine_init (config : option policy_engine_config) (st : pe_state)
    : pe_state * esp_err :=
  (mk_pe_state policy_rules_zero (default load_default_config config)
     (policy_stats_zero <| ps_capacity := Z.of_nat POLICY_ENGINE_MAX_RULES |>) true 1, ESP_OK).

Definition policy_engine_reset (st : pe_state) : pe_state :=
  st <| pe_rules := policy_rules_zero |>
     <| pe_stats := policy_stats_zero <| ps_capacity := Z.of_nat POLICY_ENGINE_MAX_RULES |> |>
     <| pe_next_rule_id := 1 |>.

(** The third component is what the call writes through [out_rule_id]. *)
Definition policy_engine_add_rule (rule : option policy_rule) (st : pe_state)
    : pe_state * esp_err * option Z :=
  match rule with
  | None => (st, ESP_ERR_INVALID_ARG, None)
  | Some rule =>
    if negb (pe_initialized st) then (st, ESP_ERR_INVALID_ARG, None) else
    match find_empty_slot_locked st with
    | None => (st, ESP_ERR_NO_MEM, None)
    | Some slot =>
      let '(copy, next) :=
        if pr_rule_id rule =? 0
        then (rule <| pr_rule_id := pe_next_rule_id st |>, inc32 (pe_next_rule_id st))
        else (rule, pe_next_rule_id st) in
      let copy := copy <| pr_enabled := true |> in
      (st <| pe_rules ::= <[slot := mk_policy_slot true copy]> |>
          <| pe_stats ::= λ x, x <| ps_active_rules ::= inc32 |> |>
          <| pe_next_rule_id := next |>, ESP_OK, Some (pr_rule_id copy))
    end
  end.

Definition policy_engine_remove_rule (rule_id : Z) (st : pe_state) : pe_state * bool :=
  if negb (pe_initialized st) || (rule_id =? 0) then (st, false) else
  match find_rule_slot_locked rule_id st with
  | None => (st, false)
  | Some slot =>
    (st <| pe_rules ::= <[slot := policy_slot_zero]> |>
        <| pe_stats ::= λ x, x <| ps_active_rules ::= dec_if_pos |> |>, true)
  end.

Definition policy_engine_get_rule (rule_id : Z) (out_rule : bool) (st : pe_state)
    : option policy_rule :=
  if negb (pe_initialized st) || (rule_id =? 0) || negb out_rule then None else
  find_rule_slot_locked rule_id st ≫= λ slot, pl_rule <$> pe_rules st !! slot.

(** The match of one slot and the scan of [policy_engine_evaluate]. *)
Definition slot_matches (key : flow_key) (direction : flow_direction) (ts : Z) (s : policy_slot)
    : bool :=
  pl_in_use s && rule_matches (pl_rule s) key direction ts.

Definition best_rule (key : flow_key) (direction : flow_direction) (ts : Z) (st : pe_state)
    : option policy_rule :=
  pl_rule <$> best_loop (slot_matches key direction ts) (λ s, pr_priority (pl_rule s))
                (pe_rules st) None.

Definition policy_engine_evaluate (key : option flow_key) (direction : flow_direction)
    (out_decision : bool) (timer_us : Z) (st : pe_state)
    : pe_state * esp_err * option policy_decision :=
  if negb out_decision then (st, ESP_ERR_INVALID_ARG, None) else
  match key, pe_initialized st with
  | Some key, true =>
    let ts := now_ms timer_us in
    let '(decision, bump) :=
      match best_rule key direction ts st with
      | Some rule => (fill_rule_decision rule, λ x, x)
      | None => (fill_default_decision (pe_config st), λ x, x <| ps_no_match ::= inc64 |>)
      end in
    (st <| pe_stats ::= λ x, update_stats_for_action (pd_action decision) (bump x) |>,
     ESP_OK, Some decision)
  | _, _ =>
    (st <| pe_stats ::= λ x, x <| ps_invalid_input ::= inc64 |> |>,
     ESP_ERR_INVALID_ARG, Some invalid_decision)
  end.

Definition policy_engine_set_default_action (action : policy_action) (st : pe_state) : pe_state :=
  st <| pe_config ::= λ c, c <| pc_default_action := action |> |>.

Definition policy_engine_expire_rules (timer_us : Z) (st : pe_state) : pe_state * Z :=
  if negb (pe_initialized st) then (st, 0) else
  let ts := now_ms timer_us in
  let '(rules, active, expired) :=
    expire_loop pl_in_use (λ s, rule_is_expired (pl_rule s) ts) policy_slot_zero
      (pe_rules st) (ps_active_rules (pe_stats st)) 0 in
  (st <| pe_rules := rules |> <| pe_stats ::= λ x, x <| ps_active_rules := active |> |>, expired).

Definition policy_engine_get_stats (st : pe_state) : policy_engine_stats := pe_stats st.

(** The rules [policy_engine_foreach_rule] hands to its callback, in order. *)
Definition policy_engine_foreach_rule (st : pe_state) : list policy_rule :=
  if negb (pe_initialized st) then []
  else omap (λ s, if pl_in_use s then Some (pl_rule s) else None) (pe_rules st).

(** ** Specifications *)

(** The reading of a rule: every field constrains the packet or is a wildcard. *)
Definition field_covers (wild : Prop) (same : Prop) : Prop := wild ∨ same.

Record rule_covers (rule : policy_rule) (key : flow_key) (direction : flow_direction) (ts : Z)
    : Prop := {
  covers_enabled : pr_enabled rule = true;
  covers_time : field_covers (pr_expires_at_ms rule = 0) (ts < pr_expires_at_ms rule);
  covers_direction :
    field_covers (pr_direction rule = FLOW_DIRECTION_UNKNOWN) (pr_direction rule = direction);
  covers_src : field_covers (pr_src_mask rule = 0)
    (Z.land (fk_src_ip key) (pr_src_mask rule) = Z.land (pr_src_ip rule) (pr_src_mask rule));
  covers_dst : field_covers (pr_dst_mask rule = 0)
    (Z.land (fk_dst_ip key) (pr_dst_mask rule) = Z.land (pr_dst_ip rule) (pr_dst_mask rule));
  covers_src_port : field_covers (pr_src_port rule = 0) (pr_src_port rule = fk_src_port key);
  covers_dst_port : field_covers (pr_dst_port rule = 0) (pr_dst_port rule = fk_dst_port key);
  covers_proto : field_covers (pr_proto rule = 0) (pr_proto rule = fk_proto key);
}.

(** [rule] is what the table says about a packet: it is installed, covers the
    packet, no installed rule that covers it has a higher priority, and among
    equals it sits in the last slot. *)
Definition decides (st : pe_state) (key : flow_key) (direction : flow_direction) (ts : Z)
    (rule : policy_rule) : Prop :=
  ∃ i, pe_rules st !! i = Some (mk_policy_slot true rule) ∧ rule_covers rule key direction ts ∧
    (∀ j r, pe_rules st !! j = Some (mk_policy_slot true r) → rule_covers r key direction ts →
       pr_priority r ≤ pr_priority rule ∧ ((i < j)%nat → pr_priority r < pr_priority rule)).

Lemma wild_eqb (w a b : Z) (x y : Z) :
  (if w =? a then true else x =? y) = true ↔ field_covers (w = a) (x = y).
Proof. unfold field_covers. destruct (w =? a) eqn:E; bools; [tauto|]. rewrite Z.eqb_eq. tauto. Qed.

Lemma rule_matches_spec rule key direction ts :
  rule_matches rule key direction ts = true ↔ rule_covers rule key direction ts.
Proof.
  unfold rule_matches.
  assert (rule_is_expired rule ts = false ↔
    field_covers (pr_expires_at_ms rule = 0) (ts < pr_expires_at_ms rule)) as Ht.
  { unfold rule_is_expired, field_covers. destruct (_ =? 0) eqn:E; bools; [tauto|].
    rewrite Z.geb_leb, Z.leb_gt. tauto. }
  assert (direction_matches (pr_direction rule) direction = true ↔
    field_covers (pr_direction rule = FLOW_DIRECTION_UNKNOWN) (pr_direction rule = direction)) as Hd.
  { unfold direction_matches, field_covers. case_bool_decide; [tauto|].
    rewrite bool_decide_eq_true. tauto. }
  pose proof (λ a m i, wild_eqb m 0 0 (Z.land i m) (Z.land a m)) as Hip.
  pose proof (λ a b, wild_eqb a 0 0 a b) as Hp.
  fold (ip_matches) in *.
  split.
  - destruct (pr_enabled rule) eqn:Ee; simpl; [|done].
    destruct (rule_is_expired rule ts) eqn:Et; [done|].
    repeat (case_match; [done|]). bools. intros _.
    constructor; try tauto; first [by apply Hip | by apply Hp].
  - intros [-> H1 H2 H3 H4 H5 H6 H7]. simpl.
    apply Ht in H1 as ->. apply Hd in H2 as ->. simpl.
    apply Hip in H3, H4. apply Hp in H5, H6, H7.
    unfold ip_matches, port_matches, proto_matches, POLICY_ANY_MASK, POLICY_ANY_PORT, POLICY_ANY_PROTO.
    by rewrite H3, H4, H5, H6, H7.
Qed.

Lemma slot_matches_true key direction ts s :
  slot_matches key direction ts s = true ↔
  ∃ r, s = mk_policy_slot true r ∧ rule_covers r key direction ts.
Proof.
  unfold slot_matches. destruct s as [u r]; simpl. rewrite andb_true_iff, rule_matches_spec.
  split; [intros [-> ?]; eauto | intros (r' & [= -> ->] & ?); done].
Qed.

Lemma best_rule_Some key direction ts st r :
  best_rule key direction ts st = Some r → decides st key direction ts r.
Proof.
  unfold best_rule. rewrite fmap_Some. intros (s & E & ->).
  apply best_loop_Some in E as (i & Hi & Ho & Hle & Hlt).
  apply slot_matches_true in Ho as (r & -> & Hc). exists i. split_and!; try done.
  intros j r' Hj Hc'.
  assert (slot_matches key direction ts (mk_policy_slot true r') = true)
    by (apply slot_matches_true; eauto).
  split; [by apply (Hle _ _ Hj) | intros Hij; by apply (Hlt _ _ Hij Hj)].
Qed.

Lemma best_rule_None key direction ts st :
  best_rule key direction ts st = None ↔
  ∀ i r, pe_rules st !! i = Some (mk_policy_slot true r) → ¬ rule_covers r key direction ts.
Proof.
  unfold best_rule. rewrite fmap_None, best_loop_None. split.
  - intros H i r Hi Hc. specialize (H _ _ Hi). apply not_true_iff_false in H. apply H.
    apply slot_matches_true. eauto.
  - intros H i s Hi. apply not_true_iff_false. intros (r & -> & Hc)%slot_matches_true. by eapply H.
Qed.

(** ** Rules as a finite map *)
#[export] Instance policy_slot_view : Slot policy_slot Z policy_rule := {|
  s_used := pl_in_use;
  s_key s := pr_rule_id (pl_rule s);
  s_val := pl_rule;
|}.

Definition pe_map (st : pe_state) : gmap Z policy_rule := slots_map (pe_rules st).

(** What every call keeps, [n] bounding the identifiers handed out so far. *)
Record pe_inv (n : Z) (st : pe_state) : Prop := {
  pe_inv_length : List.length (pe_rules st) = POLICY_ENGINE_MAX_RULES;
  pe_inv_unique : keys_unique (pe_rules st);
  pe_inv_active : ps_active_rules (pe_stats st) = Z.of_nat (count pl_in_use (pe_rules st));
  pe_inv_ids : Forall (λ s, pl_in_use s = true → 0 < pr_rule_id (pl_rule s) < pe_next_rule_id st)
                 (pe_rules st);
  pe_inv_next : 1 ≤ pe_next_rule_id st ≤ 1 + n;
}.

Inductive pe_op :=
| PeInit (config : option policy_engine_config)
| PeReset
| PeAddRule (rule : option policy_rule)
| PeRemoveRule (rule_id : Z)
| PeEvaluate (key : option flow_key) (direction : flow_direction) (out_decision : bool) (timer_us : Z)
| PeSetDefaultAction (action : policy_action)
| PeExpireRules (timer_us : Z).

Definition pe_step (st : pe_state) (op : pe_op) : pe_state :=
  match op with
  | PeInit config => (policy_engine_init config st).1
  | PeReset => policy_engine_reset st
  | PeAddRule rule => (policy_engine_add_rule rule st).1.1
  | PeRemoveRule rule_id => (policy_engine_remove_rule rule_id st).1
  | PeEvaluate key direction out timer_us => (policy_engine_evaluate key direction out timer_us st).1.1
  | PeSetDefaultAction action => policy_engine_set_default_action action st
  | PeExpireRules timer_us => (policy_engine_expire_rules timer_us st).1
  end.

Definition pe_run (ops : list pe_op) : pe_state := fold_left pe_step ops pe_boot.

(** Calls that leave [rule_id] zero, so that the engine picks the identifier. *)
Definition auto_id (op : pe_op) : Prop :=
  match op with PeAddRule (Some rule) => pr_rule_id rule = 0 | _ => True end.

(** ** Invariant *)
Lemma pe_inv_empty n cfg stats ini :
  0 ≤ n → ps_active_rules stats = 0 → pe_inv n (mk_pe_state policy_rules_zero cfg stats ini 1).
Proof.
  intros Hn Ha. constructor; simpl; [done|by apply keys_unique_zero| | |lia].
  - by rewrite Ha.
  - by apply Forall_replicate.
Qed.

Lemma pe_inv_mono n n' st : n ≤ n' → pe_inv n st → pe_inv n' st.
Proof. intros Hle [? ? ? ? ?]. constructor; try done. lia. Qed.

Lemma find_rule_eq rule_id st :
  find_rule_slot_locked rule_id st = first_index (key_is rule_id) (pe_rules st).
Proof.
  apply first_index_ext. intros s. unfold key_is. simpl. f_equal.
  by destruct (Z.eqb_spec (pr_rule_id (pl_rule s)) rule_id); case_bool_decide.
Qed.

(** Adding a rule of an unused identifier. *)
Lemma add_rule_ok n rule st :
  pe_inv n st → pe_initialized st = true → pr_rule_id rule = 0 → n < U32_MAX - 1 →
  let '(st', e, out) := policy_engine_add_rule (Some rule) st in
  pe_inv (n + 1) st' ∧
  ((e = ESP_ERR_NO_MEM ∧ out = None ∧ st' = st ∧ size (pe_map st) = POLICY_ENGINE_MAX_RULES) ∨
   ∃ id, e = ESP_OK ∧ out = Some id ∧ id ≠ 0 ∧ pe_map st !! id = None ∧
     pe_initialized st' = true ∧
     pe_map st' = <[id := rule <| pr_rule_id := id |> <| pr_enabled := true |>]> (pe_map st)).
Proof.
  intros Hinv Hini Hid Hn. pose proof Hinv as [Hl Hu Ha Hids Hnext].
  unfold policy_engine_add_rule. rewrite Hini. simpl.
  destruct (find_empty_slot_locked st) as [i|] eqn:E; unfold find_empty_slot_locked in E.
  2: { split; [eapply pe_inv_mono; [|done]; lia|]. left. split_and!; try done.
       unfold pe_map. rewrite slots_map_size by done. rewrite <- Hl. by apply first_free_None. }
  apply first_index_lookup in E as (s & Hi & Hs%negb_true_iff).
  rewrite Hid. simpl. unfold U32_MAX in Hn. set (id := pe_next_rule_id st) in *.
  set (copy := (rule <| pr_rule_id := id |>) <| pr_enabled := true |>). fields.
  assert (first_index (key_is id) (pe_rules st) = None) as Hfresh.
  { apply first_index_None. intros j t Hj. apply not_true_iff_false.
    intros [Ht Hk]%key_is_true. pose proof (Forall_lookup_1 _ _ _ _ Hids Hj Ht). simpl in *. lia. }
  assert (inc32 id = id + 1) as Hinc by (apply inc32_small; unfold U32_MAX; lia).
  split.
  - constructor; simpl.
    + by rewrite length_insert.
    + by apply keys_unique_add.
    + pose proof (count_insert pl_in_use _ _ _ (mk_policy_slot true copy) Hi) as Hc.
      rewrite Hs in Hc. simpl in Hc.
      pose proof (count_le pl_in_use (pe_rules st)). unfold POLICY_ENGINE_MAX_RULES in Hl.
      rewrite inc32_small by (unfold U32_MAX; lia). lia.
    + rewrite Hinc. apply Forall_insert; [|simpl; lia].
      eapply Forall_impl; [done|]. simpl. intros t Ht Hu'. specialize (Ht Hu'). lia.
    + rewrite Hinc. lia.
  - right. exists id. split_and!; try done; [lia|by apply slots_map_None|].
    exact (slots_map_add _ id i s (mk_policy_slot true copy) Hu Hi Hs Hfresh eq_refl eq_refl).
Qed.

Lemma remove_rule_ok n rule_id st :
  pe_inv n st → pe_initialized st = true → rule_id ≠ 0 →
  let '(st', ok) := policy_engine_remove_rule rule_id st in
  pe_inv n st' ∧ pe_map st' = delete rule_id (pe_map st) ∧
  ok = bool_decide (is_Some (pe_map st !! rule_id)).
Proof.
  intros Hinv Hini Hid. pose proof Hinv as [Hl Hu Ha Hids Hnext].
  unfold policy_engine_remove_rule. rewrite Hini. simpl.
  destruct (rule_id =? 0) eqn:E0; bools; [done|]. rewrite find_rule_eq.
  destruct (first_index _ _) as [i|] eqn:E.
  - pose proof (first_index_lookup _ _ _ E) as (s & Hi & [Hs Hk]%key_is_true).
    simpl in Hs, Hk. pose proof (count_pos pl_in_use _ _ _ Hi Hs). fields. split_and!.
    + constructor; simpl; [by rewrite length_insert|by apply keys_unique_clear| | |done].
      * pose proof (count_insert pl_in_use _ _ _ policy_slot_zero Hi) as Hc.
        unfold dec_if_pos. rewrite decide_True by lia. rewrite Hs in Hc. simpl in *. lia.
      * by apply Forall_insert.
    + rewrite <- Hk. exact (slots_map_clear _ i s policy_slot_zero Hu Hi Hs eq_refl).
    + unfold pe_map. rewrite (slots_map_found _ _ _ _ E Hi). by rewrite bool_decide_eq_true_2.
  - apply slots_map_None in E. fold (pe_map st) in E. rewrite E.
    split_and!; [done|by rewrite delete_id|by rewrite bool_decide_eq_false_2 by (by intros [])].
Qed.

Lemma get_rule_spec rule_id st :
  pe_initialized st = true → rule_id ≠ 0 →
  policy_engine_get_rule rule_id true st = pe_map st !! rule_id.
Proof.
  intros Hini Hid. unfold policy_engine_get_rule. rewrite Hini. simpl.
  destruct (rule_id =? 0) eqn:E0; bools; [done|]. simpl. rewrite find_rule_eq.
  unfold pe_map. rewrite slots_map_lookup. reflexivity.
Qed.

Definition expired_slot (ts : Z) (s : policy_slot) : bool := rule_is_expired (pl_rule s) ts.
Definition sweep (ts : Z) (rules : list policy_slot) : list policy_slot :=
  map (λ s, if pl_in_use s && expired_slot ts s then policy_slot_zero else s) rules.

Lemma expire_rules_eq n timer_us st :
  pe_inv n st → pe_initialized st = true →
  let k := Z.of_nat (count (λ s, pl_in_use s && expired_slot (now_ms timer_us) s) (pe_rules st)) in
  policy_engine_expire_rules timer_us st =
    (mk_pe_state (sweep (now_ms timer_us) (pe_rules st)) (pe_config st)
       ((pe_stats st) <| ps_active_rules := ps_active_rules (pe_stats st) - k |>)
       true (pe_next_rule_id st), k).
Proof.
  intros Hinv Hini k. unfold policy_engine_expire_rules. rewrite Hini. simpl.
  pose proof (pe_inv_length _ _ Hinv) as Hl. unfold POLICY_ENGINE_MAX_RULES in Hl.
  rewrite expire_loop_spec; try done; [|rewrite (pe_inv_active _ _ Hinv); lia|].
  2: { unfold U32_MAX. lia. }
  fields. by rewrite Hini.
Qed.

Lemma expire_rules_inv n timer_us st :
  pe_inv n st → pe_inv n (policy_engine_expire_rules timer_us st).1.
Proof.
  intros Hinv. destruct (pe_initialized st) eqn:Hini.
  2: { unfold policy_engine_expire_rules. by rewrite Hini. }
  rewrite (expire_rules_eq n) by done. destruct Hinv as [Hl Hu Ha Hids Hnext].
  set (dead := expired_slot _). constructor; fields.
  - unfold sweep. by rewrite length_map.
  - exact (keys_unique_expire dead policy_slot_zero _ Hu eq_refl).
  - pose proof (count_expired pl_in_use dead policy_slot_zero (pe_rules st) eq_refl).
    rewrite Ha. unfold sweep. simpl in *. fold dead. lia.
  - by apply Forall_map_expire.
  - done.
Qed.

Lemma pe_step_inv n st op :
  pe_inv n st → auto_id op → 0 ≤ n < U32_MAX - 1 → pe_inv (n + 1) (pe_step st op).
Proof.
  intros Hinv Hauto Hn. pose proof (pe_inv_mono n (n + 1) _ ltac:(lia) Hinv) as Hinv'.
  destruct op as [cfg| |[rule|]|id|key d out us|a|us]; cbn [pe_step].
  - apply pe_inv_empty; [lia|done].
  - apply pe_inv_empty; [lia|done].
  - destruct (pe_initialized st) eqn:E.
    + pose proof (add_rule_ok n rule st Hinv E Hauto ltac:(lia)) as H.
      destruct (policy_engine_add_rule _ _) as [[? ?] ?]. apply H.
    + unfold policy_engine_add_rule. by rewrite E.
  - done.
  - destruct (pe_initialized st) eqn:E; [destruct (decide (id = 0)) as [->|]|].
    + unfold policy_engine_remove_rule. by rewrite orb_true_r.
    + pose proof (remove_rule_ok _ id st Hinv' E ltac:(done)) as H.
      destruct (policy_engine_remove_rule _ _). apply H.
    + unfold policy_engine_remove_rule. by rewrite E.
  - unfold policy_engine_evaluate. destruct Hinv' as [Hl Hu Ha Hids Hnext].
    destruct out; [|done]. simpl.
    destruct key, (pe_initialized st); [destruct (best_rule _ _ _ _)| | |];
      constructor; try done; cbn; try destruct (pr_action _); try destruct (pc_default_action _);
      apply Ha.
  - by destruct Hinv'.
  - by apply expire_rules_inv.
Qed.

Lemma pe_run_inv ops :
  Forall auto_id ops → Z.of_nat (List.length ops) < U32_MAX - 1 →
  pe_inv (Z.of_nat (List.length ops)) (pe_run ops).
Proof.
  induction ops as [|op ops IH] using rev_ind; intros Ha Hn.
  - by apply pe_inv_empty.
  - apply Forall_app in Ha as [Ha Hop%Forall_inv]. rewrite length_app in *. cbn [List.length] in Hn |- *.
    unfold pe_run. rewrite fold_left_app. simpl.
    replace (Z.of_nat (List.length ops + 1)) with (Z.of_nat (List.length ops) + 1) by lia.
    apply pe_step_inv; [apply IH; [done|lia]|done|lia].
Qed.

(** ** Properties *)

(** C10: the decision of an initialised engine is the one of the rule that
    decides the packet (installed, enabled, unexpired, every field a match or a
    wildcard, of maximal priority, the last slot among equals), and the default
    action with reason NO_RULE when no installed rule covers it; the call
    changes counters only. *)
Theorem policy_engine_evaluate_spec st key direction timer_us st' e out :
  pe_initialized st = true →
  policy_engine_evaluate (Some key) direction true timer_us st = (st', e, out) →
  e = ESP_OK ∧ pe_rules st' = pe_rules st ∧ pe_config st' = pe_config st ∧
  ((∃ rule, decides st key direction (now_ms timer_us) rule ∧
            out = Some (fill_rule_decision rule)) ∨
   ((∀ i rule, pe_rules st !! i = Some (mk_policy_slot true rule) →
               ¬ rule_covers rule key direction (now_ms timer_us)) ∧
    out = Some (fill_default_decision (pe_config st)))).
Proof.
  unfold policy_engine_evaluate. intros ->. simpl.
  destruct (best_rule _ _ _ _) as [r|] eqn:E; intros [= <- <- <-]; split_and!; try done.
  - left. eauto using best_rule_Some.
  - right. split; [by apply best_rule_None|done].
Qed.

Definition witness_rule : policy_rule :=
  policy_rule_zero <| pr_action := POLICY_ACTION_DENY |> <| pr_dst_port := 443 |>
    <| pr_priority := 7 |>.
Definition witness_st : pe_state := pe_run [PeInit None; PeAddRule (Some witness_rule)].

Lemma policy_engine_evaluate_spec_witness :
  let r := policy_engine_evaluate (Some witness_key) FLOW_DIRECTION_ZONE_TO_UPLINK true 5000
             witness_st in
  r.1.2 = ESP_OK ∧ pd_matched_rule_id <$> r.2 = Some 1.
Proof.
  split; [|vm_compute; reflexivity].
  refine (proj1 (policy_engine_evaluate_spec witness_st witness_key FLOW_DIRECTION_ZONE_TO_UPLINK
    5000 _ _ _ _ _)); vm_compute; reflexivity.
Defined.

Lemma slot_matches_sweep key direction ts ts' s :
  ts ≤ ts' →
  slot_matches key direction ts'
    (if pl_in_use s && expired_slot ts s then policy_slot_zero else s) =
  slot_matches key direction ts' s.
Proof.
  intros Hle. destruct (pl_in_use s) eqn:Eu; simpl; [|done].
  destruct (expired_slot ts s) eqn:Ed; [|done].
  unfold slot_matches. rewrite Eu. simpl. unfold rule_matches.
  assert (rule_is_expired (pl_rule s) ts' = true) as ->; [|by case_match].
  unfold expired_slot, rule_is_expired in *. case_match; [done|].
  rewrite Z.geb_leb in *. bools. apply Z.leb_le. lia.
Qed.

Lemma best_rule_sweep key direction ts ts' st cfg stats ini next :
  ts ≤ ts' →
  best_rule key direction ts' (mk_pe_state (sweep ts (pe_rules st)) cfg stats ini next) =
  best_rule key direction ts' st.
Proof.
  intros Hle. unfold best_rule. f_equal. simpl. apply best_loop_map.
  - intros s Hs. destruct (_ && _) eqn:E; [|done]. apply andb_true_iff in E as [Eu Ed].
    pose proof (slot_matches_sweep key direction ts ts' s Hle) as H.
    rewrite Eu, Ed, Hs in H. done.
  - intros s. by apply slot_matches_sweep.
Qed.

(** The expiry sweep is unobservable by evaluation: run at time [t1], it
    changes no decision taken at any later time [t2] (no wrap between the two),
    whatever rules are installed, duplicates included. *)
Theorem policy_engine_expire_unobservable n st t1 t2 key direction :
  pe_inv n st → pe_initialized st = true → now_ms t1 ≤ now_ms t2 →
  (policy_engine_evaluate key direction true t2 (policy_engine_expire_rules t1 st).1).2 =
  (policy_engine_evaluate key direction true t2 st).2.
Proof.
  intros Hinv Hini Hle. rewrite (expire_rules_eq n) by done. simpl.
  unfold policy_engine_evaluate. simpl. rewrite Hini. destruct key as [key|]; [|done].
  simpl. rewrite (best_rule_sweep _ _ _ _ st) by done. by destruct (best_rule _ _ _ _).
Qed.

Lemma policy_engine_expire_unobservable_witness :
  (policy_engine_evaluate (Some witness_key) FLOW_DIRECTION_ZONE_TO_UPLINK true 9000
     (policy_engine_expire_rules 5000 witness_st).1).2 =
  (policy_engine_evaluate (Some witness_key) FLOW_DIRECTION_ZONE_TO_UPLINK true 9000 witness_st).2.
Proof.
  apply (policy_engine_expire_unobservable 2).
  - apply (pe_run_inv [PeInit None; PeAddRule (Some witness_rule)]); repeat constructor.
  - reflexivity.
  - vm_compute. discriminate.
Defined.

(** Rule life cycle.  After any run of calls that let the engine number the
    rules, adding a rule gives an identifier that is nonzero and installed
    nowhere, stores the rule enabled under it and leaves the other rules alone;
    reading it back returns it, and removing it restores the previous table. *)
Theorem policy_engine_rule_lifecycle ops rule st' id :
  Forall auto_id ops → Z.of_nat (List.length ops) < U32_MAX - 1 → pr_rule_id rule = 0 →
  pe_initialized (pe_run ops) = true →
  policy_engine_add_rule (Some rule) (pe_run ops) = (st', ESP_OK, Some id) →
  let stored := rule <| pr_rule_id := id |> <| pr_enabled := true |> in
  id ≠ 0 ∧ pe_map (pe_run ops) !! id = None ∧
  pe_map st' = <[id := stored]> (pe_map (pe_run ops)) ∧
  policy_engine_get_rule id true st' = Some stored ∧
  (policy_engine_remove_rule id st').2 = true ∧
  pe_map (policy_engine_remove_rule id st').1 = pe_map (pe_run ops).
Proof.
  intros Hauto Hn Hid Hini E stored. pose proof (pe_run_inv _ Hauto Hn) as Hinv.
  pose proof (add_rule_ok _ rule _ Hinv Hini Hid Hn) as H. rewrite E in H.
  destruct H as (Hinv' & [(? & _)|(id' & _ & [= <-] & Hnz & Hnone & Hini' & Hm)]); [done|].
  pose proof (remove_rule_ok _ id st' Hinv' Hini' Hnz) as H.
  destruct (policy_engine_remove_rule id st') as [st'' ok]. destruct H as (_ & Hd & ->).
  rewrite Hm in *. simpl. split_and!; try done.
  - rewrite get_rule_spec by done. rewrite Hm. by rewrite lookup_insert_eq.
  - rewrite lookup_insert_eq. by apply bool_decide_eq_true_2.
  - rewrite Hd. by rewrite delete_insert_id.
Qed.

Lemma policy_engine_rule_lifecycle_witness :
  policy_engine_get_rule 2 true (policy_engine_add_rule (Some witness_rule) witness_st).1.1 =
  Some (witness_rule <| pr_rule_id := 2 |> <| pr_enabled := true |>).
Proof.
  refine (proj1 (proj2 (proj2 (proj2 (policy_engine_rule_lifecycle
    [PeInit None; PeAddRule (Some witness_rule)] witness_rule _ 2 _ _ _ _ _)))));
    first [reflexivity | repeat constructor].
Defined.

(** *** CIDR prefixes *)
Lemma cidr_mask_ones c :
  0 < c ≤ 32 → policy_engine_cidr_mask c = Z.shiftl (Z.ones c) (32 - c).
Proof.
  intros Hc.
  assert (forallb (λ n, let c := Z.of_nat n in
    policy_engine_cidr_mask c =? Z.shiftl (Z.ones c) (32 - c)) (seq 1 32) = true) as H
    by (vm_compute; reflexivity).
  rewrite forallb_forall in H. specialize (H (Z.to_nat c)). cbv zeta beta in H.
  rewrite Z2Nat.id in H by lia. apply Z.eqb_eq, H, in_seq. lia.
Qed.

Lemma land_cidr_mask c ip :
  0 < c ≤ 32 → is_u32 ip →
  Z.land ip (policy_engine_cidr_mask c) = Z.shiftl (Z.shiftr ip (32 - c)) (32 - c).
Proof.
  intros Hc Hip. rewrite cidr_mask_ones by done. apply Z.bits_inj'. intros n Hn.
  rewrite Z.land_spec, !Z.shiftl_spec by lia.
  destruct (decide (n < 32 - c)).
  - rewrite !(Z.testbit_neg_r _ (n - (32 - c))) by lia. by rewrite andb_false_r.
  - rewrite Z.shiftr_spec by lia. replace (n - (32 - c) + (32 - c)) with n by lia.
    destruct (decide (n < 32)).
    + rewrite Z.ones_spec_low by lia. by rewrite andb_true_r.
    + rewrite (Z.bits_above_log2 ip n); [done|unfold is_u32 in Hip; lia|].
      destruct (decide (ip = 0)) as [->|]; [simpl; lia|].
      apply Z.log2_lt_pow2; [unfold is_u32 in Hip; lia|].
      eapply Z.lt_le_trans; [apply Hip|]. change 4294967296 with (2 ^ 32).
      apply Z.pow_le_mono_r; lia.
Qed.

(** A rule whose mask is the one [policy_engine_cidr_mask] builds matches
    exactly the addresses of its /c network: those that agree with the rule's
    address on the first [c] bits; /0 matches every address. *)
Theorem policy_engine_cidr_prefix c rule_ip ip :
  0 ≤ c ≤ 32 → is_u32 rule_ip → is_u32 ip →
  ip_matches rule_ip (policy_engine_cidr_mask c) ip = true ↔
  ip / 2 ^ (32 - c) = rule_ip / 2 ^ (32 - c).
Proof.
  intros Hc Hr Hip. unfold ip_matches, POLICY_ANY_MASK.
  destruct (decide (c = 0)) as [->|].
  { simpl. rewrite !Z.div_small; [done|apply Hr|apply Hip]. }
  assert (policy_engine_cidr_mask c ≠ 0) as Hnz.
  { rewrite cidr_mask_ones by lia. rewrite Z.shiftl_mul_pow2, Z.ones_equiv by lia.
    pose proof (Z.pow_gt_1 2 c). nia. }
  rewrite (proj2 (Z.eqb_neq _ _) Hnz), Z.eqb_eq, !land_cidr_mask by (done || lia).
  rewrite !Z.shiftl_mul_pow2, !Z.shiftr_div_pow2 by lia. split; [|by intros ->].
  apply Z.mul_reg_r. lia.
Qed.

Lemma policy_engine_cidr_prefix_witness :
  ip_matches 3232236032 (policy_engine_cidr_mask 24) 3232236290 = true ↔
  3232236290 / 2 ^ (32 - 24) = 3232236032 / 2 ^ (32 - 24).
Proof. apply (policy_engine_cidr_prefix 24); unfold is_u32; lia. Defined.
