(* ===== verification/Rate_limiter.v ===== *)
(** * Rate_limiter: fixed-window packet and byte budgets per flow

    Model of [firmware/components/rate_limiter/rate_limiter.c]: 32 rules choose
    the budget of a packet, 128 buckets count the packets and bytes of a flow and
    direction in the current window.  The theorems relate one check to an
    abstract map of buckets, with the budget chosen by a specification that does
    not mention the code's search, and say exactly what every window lets
    through. *)

From S2P Require Import Prelude Bytes Slots Flow_table.

Definition RATE_LIMITER_MAX_BUCKETS : nat := 128.
Definition RATE_LIMITER_MAX_RULES : nat := 32.
Definition RATE_LIMIT_ANY_MASK : Z := 0.
Definition RATE_LIMIT_ANY_PORT : Z := 0.
Definition RATE_LIMIT_ANY_PROTO : Z := 0.

Inductive rate_limit_decision :=
| RATE_LIMIT_DECISION_ALLOW
| RATE_LIMIT_DECISION_EXCEEDED
| RATE_LIMIT_DECISION_ERROR.

Inductive rate_limit_reason :=
| RATE_LIMIT_REASON_DEFAULT
| RATE_LIMIT_REASON_RULE_MATCH
| RATE_LIMIT_REASON_NO_RULE
| RATE_LIMIT_REASON_INVALID_INPUT
| RATE_LIMIT_REASON_TABLE_FULL.

#[export] Instance rate_limit_decision_eq_dec : EqDecision rate_limit_decision.
Proof. solve_decision. Defined.

Record rate_limit_params := mk_rate_limit_params {
  rp_window_ms : Z;
  rp_max_packets : Z;
  rp_max_bytes : Z;
}.
#[export] Instance rate_limit_params_settable : Settable rate_limit_params := fun r =>
  mk_rate_limit_params (rp_window_ms r) (rp_max_packets r) (rp_max_bytes r).

Record rate_limit_rule := mk_rate_limit_rule {
  rr_rule_id : Z;
  rr_enabled : bool;
  rr_priority : Z;
  rr_direction : flow_direction;
  rr_src_ip : Z;
  rr_src_mask : Z;
  rr_dst_ip : Z;
  rr_dst_mask : Z;
  rr_src_port : Z;
  rr_dst_port : Z;
  rr_proto : Z;
  rr_params : rate_limit_params;
  rr_log_event : bool;
  rr_suggest_quarantine : bool;
  rr_reason : bytes;
}.
#[export] Instance rate_limit_rule_settable : Settable rate_limit_rule := fun r =>
  mk_rate_limit_rule (rr_rule_id r) (rr_enabled r) (rr_priority r) (rr_direction r)
    (rr_src_ip r) (rr_src_mask r) (rr_dst_ip r) (rr_dst_mask r) (rr_src_port r) (rr_dst_port
    r) (rr_proto r) (rr_params r) (rr_log_event r) (rr_suggest_quarantine r) (rr_reason r).

Record rate_limiter_config := mk_rate_limiter_config {
  rc_default_params : rate_limit_params;
  rc_max_idle_ms : Z;
  rc_evict_lru_when_full : bool;
}.
#[export] Instance rate_limiter_config_settable : Settable rate_limiter_config := fun r =>
  mk_rate_limiter_config (rc_default_params r) (rc_max_idle_ms r) (rc_evict_lru_when_full
    r).

Record rate_limit_result := mk_rate_limit_result {
  rx_decision : rate_limit_decision;
  rx_reason : rate_limit_reason;
  rx_matched_rule_id : Z;
  rx_matched_priority : Z;
  rx_window_ms : Z;
  rx_packets_in_window : Z;
  rx_bytes_in_window : Z;
  rx_max_packets : Z;
  rx_max_bytes : Z;
  rx_log_event : bool;
  rx_suggest_quarantine : bool;
  rx_reason_text : bytes;
}.
#[export] Instance rate_limit_result_settable : Settable rate_limit_result := fun r =>
  mk_rate_limit_result (rx_decision r) (rx_reason r) (rx_matched_rule_id r)
    (rx_matched_priority r) (rx_window_ms r) (rx_packets_in_window r) (rx_bytes_in_window r)
    (rx_max_packets r) (rx_max_bytes r) (rx_log_event r) (rx_suggest_quarantine r)
    (rx_reason_text r).

Record rate_limiter_stats := mk_rate_limiter_stats {
  rs_capacity_buckets : Z;
  rs_capacity_rules : Z;
  rs_active_buckets : Z;
  rs_active_rules : Z;
  rs_checks : Z;
  rs_allowed : Z;
  rs_exceeded : Z;
  rs_created_buckets : Z;
  rs_evicted_buckets : Z;
  rs_expired_buckets : Z;
  rs_invalid_input : Z;
}.
#[export] Instance rate_limiter_stats_settable : Settable rate_limiter_stats := fun r =>
  mk_rate_limiter_stats (rs_capacity_buckets r) (rs_capacity_rules r) (rs_active_buckets
    r) (rs_active_rules r) (rs_checks r) (rs_allowed r) (rs_exceeded r) (rs_created_buckets
    r) (rs_evicted_buckets r) (rs_expired_buckets r) (rs_invalid_input r).

Record bucket_key := mk_bucket_key { bk_key : flow_key; bk_direction : flow_direction }.
#[export] Instance bucket_key_settable : Settable bucket_key := fun r =>
  mk_bucket_key (bk_key r) (bk_direction r).

#[export] Instance bucket_key_eq_dec : EqDecision bucket_key.
Proof. solve_decision. Defined.
#[export] Instance bucket_key_countable : Countable bucket_key.
Proof.
  refine (inj_countable' (λ k, (bk_key k, bk_direction k)) (λ '(a, b), mk_bucket_key a b) _).
  by intros [].
Defined.

Record rate_bucket := mk_rate_bucket {
  rb_in_use : bool;
  rb_bucket_key : bucket_key;
  rb_window_start_ms : Z;
  rb_last_seen_ms : Z;
  rb_packets_in_window : Z;
  rb_bytes_in_window : Z;
  rb_exceeded_count : Z;
}.
#[export] Instance rate_bucket_settable : Settable rate_bucket := fun r =>
  mk_rate_bucket (rb_in_use r) (rb_bucket_key r) (rb_window_start_ms r) (rb_last_seen_ms
    r) (rb_packets_in_window r) (rb_bytes_in_window r) (rb_exceeded_count r).

Record rate_rule_slot := mk_rate_rule_slot { rsl_in_use : bool; rsl_rule : rate_limit_rule }.
#[export] Instance rate_rule_slot_settable : Settable rate_rule_slot := fun r =>
  mk_rate_rule_slot (rsl_in_use r) (rsl_rule r).

Record rl_state := mk_rl_state {
  rl_buckets : list rate_bucket;
  rl_rules : list rate_rule_slot;
  rl_config : rate_limiter_config;
  rl_stats : rate_limiter_stats;
  rl_initialized : bool;
  rl_next_rule_id : Z;
}.
#[export] Instance rl_state_settable : Settable rl_state := fun r =>
  mk_rl_state (rl_buckets r) (rl_rules r) (rl_config r) (rl_stats r) (rl_initialized r)
    (rl_next_rule_id r).

Definition rate_limit_rule_zero : rate_limit_rule :=
  mk_rate_limit_rule 0 false 0 FLOW_DIRECTION_UNKNOWN 0 0 0 0 0 0 0 (mk_rate_limit_params 0 0 0)
    false false (zeros 48).
Definition rate_rule_slot_zero : rate_rule_slot := mk_rate_rule_slot false rate_limit_rule_zero.
Definition rate_bucket_zero : rate_bucket :=
  mk_rate_bucket false (mk_bucket_key flow_key_zero FLOW_DIRECTION_UNKNOWN) 0 0 0 0 0.
Definition rate_stats_zero : rate_limiter_stats := mk_rate_limiter_stats 0 0 0 0 0 0 0 0 0 0 0.
Definition rate_result_zero : rate_limit_result :=
  mk_rate_limit_result RATE_LIMIT_DECISION_ALLOW RATE_LIMIT_REASON_DEFAULT 0 0 0 0 0 0 0 false false
    (zeros 48).
Definition rate_buckets_zero := replicate RATE_LIMITER_MAX_BUCKETS rate_bucket_zero.
Definition rate_rules_zero := replicate RATE_LIMITER_MAX_RULES rate_rule_slot_zero.

Definition rl_boot : rl_state :=
  mk_rl_state rate_buckets_zero rate_rules_zero
    (mk_rate_limiter_config (mk_rate_limit_params 0 0 0) 0 false) rate_stats_zero false 1.

(** ** Helpers *)
Definition now_ms (timer_us : Z) : Z := ms_of_us timer_us.
Definition safe_copy_reason := safe_copy.

Definition rate_limiter_ipv4 := ipv4_of_octets.

Definition rate_limiter_cidr_mask (cidr : Z) : Z :=
  if cidr =? 0 then 0
  else if cidr >=? 32 then 4294967295
  else u32 (Z.shiftl 4294967295 (32 - cidr)).

Definition rate_limit_decision_to_string (decision : rate_limit_decision) : bytes :=
  match decision with
  | RATE_LIMIT_DECISION_ALLOW => lit "ALLOW"
  | RATE_LIMIT_DECISION_EXCEEDED => lit "EXCEEDED"
  | RATE_LIMIT_DECISION_ERROR => lit "ERROR"
  end.

Definition load_default_config : rate_limiter_config :=
  mk_rate_limiter_config (mk_rate_limit_params 1000 60 0) 60000 true.

Definition bucket_key_equals (a b : bucket_key) : bool :=
  bool_decide (bk_direction a = bk_direction b) &&
  flow_table_key_equals (Some (bk_key a)) (Some (bk_key b)).

Definition ip_matches (rule_ip rule_mask ip : Z) : bool :=
  if rule_mask =? RATE_LIMIT_ANY_MASK then true
  else Z.land ip rule_mask =? Z.land rule_ip rule_mask.

Definition port_matches (rule_port port : Z) : bool :=
  if rule_port =? RATE_LIMIT_ANY_PORT then true else rule_port =? port.

Definition proto_matches (rule_proto proto : Z) : bool :=
  if rule_proto =? RATE_LIMIT_ANY_PROTO then true else rule_proto =? proto.

Definition direction_matches (rule_direction direction : flow_direction) : bool :=
  if bool_decide (rule_direction = FLOW_DIRECTION_UNKNOWN) then true
  else bool_decide (rule_direction = direction).

Definition rule_matches (rule : rate_limit_rule) (key : flow_key) (direction : flow_direction)
    : bool :=
  if negb (rr_enabled rule) then false
  else if negb (direction_matches (rr_direction rule) direction) then false
  else if negb (ip_matches (rr_src_ip rule) (rr_src_mask rule) (fk_src_ip key)) then false
  else if negb (ip_matches (rr_dst_ip rule) (rr_dst_mask rule) (fk_dst_ip key)) then false
  else if negb (port_matches (rr_src_port rule) (fk_src_port key)) then false
  else if negb (port_matches (rr_dst_port rule) (fk_dst_port key)) then false
  else if negb (proto_matches (rr_proto rule) (fk_proto key)) then false
  else true.

Definition find_best_rule_locked (key : flow_key) (direction : flow_direction) (st : rl_state)
    : option rate_limit_rule :=
  rsl_rule <$> best_loop (λ s, rsl_in_use s && rule_matches (rsl_rule s) key direction)
                 (λ s, rr_priority (rsl_rule s)) (rl_rules st) None.

Definition find_bucket_locked (key : bucket_key) (st : rl_state) : option nat :=
  first_index (λ b, rb_in_use b && bucket_key_equals (rb_bucket_key b) key) (rl_buckets st).

Definition find_empty_bucket_locked (st : rl_state) : option nat :=
  first_index (λ b, negb (rb_in_use b)) (rl_buckets st).

Definition find_lru_bucket_locked (st : rl_state) : option nat :=
  lru_index rb_in_use rb_last_seen_ms (rl_buckets st).

Definition find_empty_rule_locked (st : rl_state) : option nat :=
  first_index (λ s, negb (rsl_in_use s)) (rl_rules st).

Definition find_rule_slot_locked (rule_id : Z) (st : rl_state) : option nat :=
  first_index (λ s, rsl_in_use s && (rr_rule_id (rsl_rule s) =? rule_id)) (rl_rules st).

Definition clear_bucket_locked (index : nat) (st : rl_state) : rl_state :=
  match rl_buckets st !! index with
  | None => st
  | Some b =>
    let st1 :=
      if rb_in_use b then st <| rl_stats ::= λ x, x <| rs_active_buckets ::= dec_if_pos |> |>
      else st in
    st1 <| rl_buckets ::= <[index := rate_bucket_zero]> |>
  end.

(** The bucket [create_bucket_locked] writes. *)
Definition new_bucket (key : bucket_key) (ts : Z) : rate_bucket := mk_rate_bucket true key ts ts 0 0 0.

Definition create_bucket_locked (key : bucket_key) (ts : Z) (st : rl_state)
    : rl_state * option nat :=
  let put index st :=
    (st <| rl_buckets ::= <[index := new_bucket key ts]> |>
        <| rl_stats ::= λ x, x <| rs_active_buckets ::= inc32 |> <| rs_created_buckets ::= inc64 |> |>,
     Some index) in
  match find_empty_bucket_locked st with
  | Some index => put index st
  | None =>
    if negb (rc_evict_lru_when_full (rl_config st)) then (st, None) else
    match find_lru_bucket_locked st with
    | None => (st, None)
    | Some index =>
      let st1 := clear_bucket_locked index st in
      put index (st1 <| rl_stats ::= λ x, x <| rs_evicted_buckets ::= inc64 |> |>)
    end
  end.

Definition params_exceeded (params : rate_limit_params) (bucket : rate_bucket) : bool :=
  if (rp_max_packets params >? 0) && (rb_packets_in_window bucket >? rp_max_packets params) then true
  else if (rp_max_bytes params >? 0) && (rb_bytes_in_window bucket >? rp_max_bytes params) then true
  else false.

Definition fill_result (decision : rate_limit_decision) (reason : rate_limit_reason)
    (rule : option rate_limit_rule) (params : rate_limit_params) (bucket : option rate_bucket)
    : rate_limit_result :=
  let r0 := rate_result_zero <| rx_decision := decision |> <| rx_reason := reason |> in
  let r1 :=
    match rule with
    | Some rule =>
      r0 <| rx_matched_rule_id := rr_rule_id rule |> <| rx_matched_priority := rr_priority rule |>
         <| rx_log_event := rr_log_event rule |>
         <| rx_suggest_quarantine := rr_suggest_quarantine rule |>
         <| rx_reason_text := safe_copy_reason (zeros 48) (Some (rr_reason rule)) |>
    | None =>
      r0 <| rx_reason_text := safe_copy_reason (zeros 48) (Some (lit "default_rate_limit")) |>
    end in
  let r2 := r1 <| rx_window_ms := rp_window_ms params |>
               <| rx_max_packets := rp_max_packets params |>
               <| rx_max_bytes := rp_max_bytes params |> in
  match bucket with
  | Some b => r2 <| rx_packets_in_window := rb_packets_in_window b |>
                 <| rx_bytes_in_window := rb_bytes_in_window b |>
  | None => r2
  end.

(** ** Public calls *)
Definition capacity_stats : rate_limiter_stats :=
  rate_stats_zero <| rs_capacity_buckets := Z.of_nat RATE_LIMITER_MAX_BUCKETS |>
    <| rs_capacity_rules := Z.of_nat RATE_LIMITER_MAX_RULES |>.

Definition default_window (params : rate_limit_params) (w : Z) : rate_limit_params :=
  if rp_window_ms params =? 0
  then mk_rate_limit_params w (rp_max_packets params) (rp_max_bytes params) else params.

Definition rate_limiter_init (config : option rate_limiter_config) (st : rl_state)
    : rl_state * esp_err :=
  let cfg := match config with
    | None => load_default_config
    | Some c =>
      mk_rate_limiter_config (default_window (rc_default_params c) 1000)
        (if rc_max_idle_ms c =? 0 then 60000 else rc_max_idle_ms c) (rc_evict_lru_when_full c)
    end in
  (mk_rl_state rate_buckets_zero rate_rules_zero cfg capacity_stats true 1, ESP_OK).

Definition rate_limiter_reset (st : rl_state) : rl_state :=
  mk_rl_state rate_buckets_zero rate_rules_zero (rl_config st) capacity_stats (rl_initialized st) 1.

Definition rate_limiter_add_rule (rule : option rate_limit_rule) (st : rl_state)
    : rl_state * esp_err * option Z :=
  match rule with
  | None => (st, ESP_ERR_INVALID_ARG, None)
  | Some rule =>
    if negb (rl_initialized st) then (st, ESP_ERR_INVALID_ARG, None) else
    match find_empty_rule_locked st with
    | None => (st, ESP_ERR_NO_MEM, None)
    | Some slot =>
      let '(copy, next) :=
        if rr_rule_id rule =? 0
        then (rule <| rr_rule_id := rl_next_rule_id st |>, inc32 (rl_next_rule_id st))
        else (rule, rl_next_rule_id st) in
      let copy := copy <| rr_enabled := true |>
        <| rr_params ::= λ p, default_window p (rp_window_ms (rc_default_params (rl_config st))) |> in
      (st <| rl_rules ::= <[slot := mk_rate_rule_slot true copy]> |>
          <| rl_stats ::= λ x, x <| rs_active_rules ::= inc32 |> |>
          <| rl_next_rule_id := next |>, ESP_OK, Some (rr_rule_id copy))
    end
  end.

Definition rate_limiter_remove_rule (rule_id : Z) (st : rl_state) : rl_state * bool :=
  if negb (rl_initialized st) || (rule_id =? 0) then (st, false) else
  match find_rule_slot_locked rule_id st with
  | None => (st, false)
  | Some slot =>
    (st <| rl_rules ::= <[slot := rate_rule_slot_zero]> |>
        <| rl_stats ::= λ x, x <| rs_active_rules ::= dec_if_pos |> |>, true)
  end.

Definition rate_limiter_get_rule (rule_id : Z) (out_rule : bool) (st : rl_state)
    : option rate_limit_rule :=
  if negb (rl_initialized st) || (rule_id =? 0) || negb out_rule then None else
  find_rule_slot_locked rule_id st ≫= λ slot, rsl_rule <$> rl_rules st !! slot.

(** The budget of a packet: the best rule's, else the configured default. *)
Definition chosen_params (key : flow_key) (direction : flow_direction) (st : rl_state)
    : rate_limit_params :=
  default_window
    (match find_best_rule_locked key direction st with
     | Some rule => rr_params rule
     | None => rc_default_params (rl_config st)
     end) 1000.

(** The window bookkeeping of [rate_limiter_check] on the chosen bucket. *)
Definition count_packet (params : rate_limit_params) (packet_bytes ts : Z) (b : rate_bucket)
    : rate_bucket :=
  let elapsed := u32 (ts - rb_window_start_ms b) in
  let b1 :=
    if elapsed >=? rp_window_ms params
    then b <| rb_window_start_ms := ts |> <| rb_packets_in_window := 0 |>
           <| rb_bytes_in_window := 0 |>
    else b in
  b1 <| rb_packets_in_window ::= inc32 |> <| rb_bytes_in_window ::= λ n, u32 (n + packet_bytes) |>
     <| rb_last_seen_ms := ts |>.

(** [find_bucket_locked], then [create_bucket_locked] when it found none. *)
Definition locate_bucket (key : bucket_key) (ts : Z) (st : rl_state) : rl_state * option nat :=
  match find_bucket_locked key st with
  | Some i => (st, Some i)
  | None => create_bucket_locked key ts st
  end.

Definition rate_limiter_check (key : option flow_key) (direction : flow_direction)
    (packet_bytes : Z) (out_result : bool) (timer_us : Z) (st : rl_state)
    : rl_state * esp_err * option rate_limit_result :=
  if negb out_result then (st, ESP_ERR_INVALID_ARG, None) else
  match key, rl_initialized st with
  | Some key, true =>
    let ts := now_ms timer_us in
    let bkey := mk_bucket_key key direction in
    let st := st <| rl_stats ::= λ x, x <| rs_checks ::= inc64 |> |> in
    let matched_rule := find_best_rule_locked key direction st in
    let params := chosen_params key direction st in
    let '(st, bucket_index) := locate_bucket bkey ts st in
    match bucket_index ≫= λ i, rl_buckets st !! i with
    | None =>
      (st <| rl_stats ::= λ x, x <| rs_invalid_input ::= inc64 |> |>, ESP_ERR_NO_MEM,
       Some (fill_result RATE_LIMIT_DECISION_ERROR RATE_LIMIT_REASON_TABLE_FULL matched_rule
               params None))
    | Some b0 =>
      let bucket := count_packet params packet_bytes ts b0 in
      let put b st :=
        match bucket_index with Some i => st <| rl_buckets ::= <[i := b]> |> | None => st end in
      if params_exceeded params bucket then
        let bucket := bucket <| rb_exceeded_count ::= inc32 |> in
        (put bucket (st <| rl_stats ::= λ x, x <| rs_exceeded ::= inc64 |> |>), ESP_OK,
         Some (fill_result RATE_LIMIT_DECISION_EXCEEDED
                 (if matched_rule is Some _ then RATE_LIMIT_REASON_RULE_MATCH else RATE_LIMIT_REASON_NO_RULE)
                 matched_rule params (Some bucket)))
      else
        (put bucket (st <| rl_stats ::= λ x, x <| rs_allowed ::= inc64 |> |>), ESP_OK,
         Some (fill_result RATE_LIMIT_DECISION_ALLOW
                 (if matched_rule is Some _ then RATE_LIMIT_REASON_RULE_MATCH else RATE_LIMIT_REASON_DEFAULT)
                 matched_rule params (Some bucket)))
    end
  | _, _ =>
    (st <| rl_stats ::= λ x, x <| rs_invalid_input ::= inc64 |> |>, ESP_ERR_INVALID_ARG,
     Some (rate_result_zero <| rx_decision := RATE_LIMIT_DECISION_ERROR |>
             <| rx_reason := RATE_LIMIT_REASON_INVALID_INPUT |>))
  end.

Definition rate_limiter_expire_old (timer_us : Z) (st : rl_state) : rl_state * Z :=
  if negb (rl_initialized st) then (st, 0) else
  let ts := now_ms timer_us in
  let '(buckets, active, expired) :=
    expire_loop rb_in_use (λ b, u32 (ts - rb_last_seen_ms b) >? rc_max_idle_ms (rl_config st))
      rate_bucket_zero (rl_buckets st) (rs_active_buckets (rl_stats st)) 0 in
  (st <| rl_buckets := buckets |>
      <| rl_stats ::= λ x, x <| rs_active_buckets := active |>
           <| rs_expired_buckets ::= λ n, u64 (n + expired) |> |>, expired).

Definition rate_limiter_get_stats (st : rl_state) : rate_limiter_stats := rl_stats st.

Definition rate_limiter_foreach_rule (st : rl_state) : list rate_limit_rule :=
  if negb (rl_initialized st) then []
  else omap (λ s, if rsl_in_use s then Some (rsl_rule s) else None) (rl_rules st).

(** ** The abstract bucket table *)
#[export] Instance rate_bucket_view : Slot rate_bucket bucket_key rate_bucket := {|
  s_used := rb_in_use;
  s_key := rb_bucket_key;
  s_val b := b;
|}.

Definition rl_map (st : rl_state) : gmap bucket_key rate_bucket := slots_map (rl_buckets st).

Record rl_inv (st : rl_state) : Prop := {
  rl_inv_length : List.length (rl_buckets st) = RATE_LIMITER_MAX_BUCKETS;
  rl_inv_unique : keys_unique (rl_buckets st);
  rl_inv_active : rs_active_buckets (rl_stats st) = Z.of_nat (count rb_in_use (rl_buckets st));
}.

(** Which bucket a packet is charged to, and what the table keeps besides. *)
Inductive bucket_source (key : bucket_key) (ts : Z) (evict : bool) (m : gmap bucket_key rate_bucket)
    : option rate_bucket → gmap bucket_key rate_bucket → Prop :=
| source_known b :
    m !! key = Some b → bucket_source key ts evict m (Some b) m
| source_new :
    m !! key = None → (size m < RATE_LIMITER_MAX_BUCKETS)%nat →
    bucket_source key ts evict m (Some (mk_rate_bucket true key ts ts 0 0 0)) m
| source_evict victim vb :
    m !! key = None → size m = RATE_LIMITER_MAX_BUCKETS → evict = true →
    m !! victim = Some vb → (∀ k b, m !! k = Some b → rb_last_seen_ms vb ≤ rb_last_seen_ms b) →
    bucket_source key ts evict m (Some (mk_rate_bucket true key ts ts 0 0 0)) (delete victim m)
| source_full :
    m !! key = None → size m = RATE_LIMITER_MAX_BUCKETS →
    (evict = false ∨ ∀ k b, m !! k = Some b → U32_MAX ≤ rb_last_seen_ms b) →
    bucket_source key ts evict m None m.

(** A rule admits a packet: enabled, and every field a wildcard or a match. *)
Record rule_admits (rule : rate_limit_rule) (key : flow_key) (direction : flow_direction) : Prop := {
  admits_enabled : rr_enabled rule = true;
  admits_direction : rr_direction rule = FLOW_DIRECTION_UNKNOWN ∨ rr_direction rule = direction;
  admits_src : rr_src_mask rule = 0 ∨
    Z.land (fk_src_ip key) (rr_src_mask rule) = Z.land (rr_src_ip rule) (rr_src_mask rule);
  admits_dst : rr_dst_mask rule = 0 ∨
    Z.land (fk_dst_ip key) (rr_dst_mask rule) = Z.land (rr_dst_ip rule) (rr_dst_mask rule);
  admits_src_port : rr_src_port rule = 0 ∨ rr_src_port rule = fk_src_port key;
  admits_dst_port : rr_dst_port rule = 0 ∨ rr_dst_port rule = fk_dst_port key;
  admits_proto : rr_proto rule = 0 ∨ rr_proto rule = fk_proto key;
}.

(** The rule a packet falls under: an installed one that admits it, of the
    highest priority and in the last slot among equals; none when no installed
    rule admits it. *)
Definition rule_of (st : rl_state) (key : flow_key) (direction : flow_direction)
    (rule : option rate_limit_rule) : Prop :=
  match rule with
  | Some r => ∃ i, rl_rules st !! i = Some (mk_rate_rule_slot true r) ∧ rule_admits r key direction ∧
      ∀ j r', rl_rules st !! j = Some (mk_rate_rule_slot true r') → rule_admits r' key direction →
        rr_priority r' ≤ rr_priority r ∧ ((i < j)%nat → rr_priority r' < rr_priority r)
  | None => ∀ i r, rl_rules st !! i = Some (mk_rate_rule_slot true r) → ¬ rule_admits r key direction
  end.

(** The budget under a rule, or the configured default; a window of zero counts
    as one second. *)
Definition budget_of (st : rl_state) (rule : option rate_limit_rule) : rate_limit_params :=
  let params := match rule with Some r => rr_params r | None => rc_default_params (rl_config st) end in
  mk_rate_limit_params (if rp_window_ms params =? 0 then 1000 else rp_window_ms params)
    (rp_max_packets params) (rp_max_bytes params).

(** What charging a packet of [nbytes] at [ts] makes of the bucket [b]: a window
    that is over starts again at the packet, otherwise the packet is added to it;
    [over] says that the window's count now exceeds the budget. *)
Record charged (params : rate_limit_params) (nbytes ts : Z) (b b' : rate_bucket) (over : bool) : Prop := {
  ch_used : rb_in_use b' = rb_in_use b;
  ch_key : rb_bucket_key b' = rb_bucket_key b;
  ch_new : rp_window_ms params ≤ (ts - rb_window_start_ms b) mod 4294967296 →
    rb_window_start_ms b' = ts ∧ rb_packets_in_window b' = 1 ∧
    rb_bytes_in_window b' = nbytes mod 4294967296;
  ch_same : (ts - rb_window_start_ms b) mod 4294967296 < rp_window_ms params →
    rb_window_start_ms b' = rb_window_start_ms b ∧
    rb_packets_in_window b' = (rb_packets_in_window b + 1) mod 4294967296 ∧
    rb_bytes_in_window b' = (rb_bytes_in_window b + nbytes) mod 4294967296;
  ch_seen : rb_last_seen_ms b' = ts;
  ch_over : over = true ↔
    0 < rp_max_packets params < rb_packets_in_window b' ∨ 0 < rp_max_bytes params < rb_bytes_in_window b';
  ch_count : rb_exceeded_count b' =
    if over then (rb_exceeded_count b + 1) mod 4294967296 else rb_exceeded_count b;
}.

(** The answer to a charged packet: what the zone firewall reads of it. *)
Record answers (rule : option rate_limit_rule) (b' : rate_bucket) (over : bool) (r : rate_limit_result)
    : Prop := {
  an_decision : rx_decision r = if over then RATE_LIMIT_DECISION_EXCEEDED else RATE_LIMIT_DECISION_ALLOW;
  an_rule : rx_matched_rule_id r = from_option rr_rule_id 0 rule;
  an_quarantine : rx_suggest_quarantine r = from_option rr_suggest_quarantine false rule;
  an_log : rx_log_event r = from_option rr_log_event false rule;
  an_packets : rx_packets_in_window r = rb_packets_in_window b';
  an_bytes : rx_bytes_in_window r = rb_bytes_in_window b';
}.

(** ** Lemmas *)
Lemma bucket_key_equals_spec a b : bucket_key_equals a b = bool_decide (a = b).
Proof.
  unfold bucket_key_equals. rewrite flow_table_key_equals_spec.
  destruct a as [ka da], b as [kb db]; simpl. repeat case_bool_decide; simpl; congruence.
Qed.

Lemma find_bucket_eq key st : find_bucket_locked key st = first_index (key_is key) (rl_buckets st).
Proof. apply first_index_ext. intros s. by rewrite bucket_key_equals_spec. Qed.

Lemma rl_inv_empty cfg stats rules ini next :
  rs_active_buckets stats = 0 → rl_inv (mk_rl_state rate_buckets_zero rules cfg stats ini next).
Proof. intros Ha. constructor; simpl; [done|by apply keys_unique_zero|by rewrite Ha]. Qed.

Lemma rl_inv_store st i s x rules cfg stats' ini next :
  rl_inv st → rl_buckets st !! i = Some s → keys_unique (<[i:=x]> (rl_buckets st)) →
  rs_active_buckets stats' + (if rb_in_use s then 1 else 0) =
    rs_active_buckets (rl_stats st) + (if rb_in_use x then 1 else 0) →
  rl_inv (mk_rl_state (<[i:=x]> (rl_buckets st)) rules cfg stats' ini next).
Proof.
  intros [Hl Hu Ha] Hi Hux Hst. constructor; simpl; [by rewrite length_insert|done|].
  pose proof (count_insert rb_in_use _ _ _ x Hi). rewrite Ha in Hst.
  destruct (rb_in_use s), (rb_in_use x); lia.
Qed.

Lemma find_empty_bucket_spec st :
  rl_inv st →
  match find_empty_bucket_locked st with
  | Some i => (size (rl_map st) < RATE_LIMITER_MAX_BUCKETS)%nat ∧
              ∃ s, rl_buckets st !! i = Some s ∧ rb_in_use s = false
  | None => size (rl_map st) = RATE_LIMITER_MAX_BUCKETS
  end.
Proof.
  intros [Hl Hu _]. unfold find_empty_bucket_locked, rl_map. rewrite slots_map_size by done.
  destruct (first_index _ _) as [i|] eqn:E.
  - pose proof (first_index_lookup _ _ _ E) as (s & Hs & Hn%negb_true_iff). split; [|eauto].
    exact (count_lt_free rb_in_use _ _ _ _ Hs Hn Hl).
  - apply first_free_None in E. simpl in *. congruence.
Qed.

Lemma find_lru_bucket_spec st :
  rl_inv st →
  match find_lru_bucket_locked st with
  | Some i => ∃ s, rl_buckets st !! i = Some s ∧ rb_in_use s = true ∧
      rl_map st !! rb_bucket_key s = Some s ∧
      ∀ k b, rl_map st !! k = Some b → rb_last_seen_ms s ≤ rb_last_seen_ms b
  | None => ∀ k b, rl_map st !! k = Some b → U32_MAX ≤ rb_last_seen_ms b
  end.
Proof.
  intros Hinv. unfold find_lru_bucket_locked. destruct (lru_index _ _ _) as [i|] eqn:E.
  - apply lru_index_Some in E as (s & Hi & Hs & _ & Hmin & _). exists s. split_and!; try done.
    + exact (slots_map_elem _ i s (rl_inv_unique _ Hinv) Hi Hs).
    + intros k e (j & t & _ & Hj & Ht & _ & <-)%slots_map_Some. eauto.
  - intros k e (j & t & _ & Hj & Ht & _ & <-)%slots_map_Some.
    exact (lru_index_None _ _ _ E j t Hj Ht).
Qed.

(** Storing a fresh bucket into a free slot. *)
Lemma put_new_bucket i s key ts st :
  rl_inv st → rl_buckets st !! i = Some s → rb_in_use s = false → rl_map st !! key = None →
  let st' := st <| rl_buckets ::= <[i := new_bucket key ts]> |>
    <| rl_stats ::= λ x, x <| rs_active_buckets ::= inc32 |> <| rs_created_buckets ::= inc64 |> |> in
  rl_inv st' ∧ rl_buckets st' !! i = Some (new_bucket key ts) ∧
  rl_map st' = <[key := new_bucket key ts]> (rl_map st).
Proof.
  intros Hinv Hi Hs Hk. pose proof (lookup_lt_Some _ _ _ Hi). apply slots_map_None in Hk.
  pose proof (count_lt_free rb_in_use _ _ _ _ Hi Hs (rl_inv_length _ Hinv)) as Hc.
  pose proof (rl_inv_active _ Hinv) as Ha. unfold RATE_LIMITER_MAX_BUCKETS in Hc.
  fields. split_and!.
  - eapply rl_inv_store; eauto.
    + apply keys_unique_add; [apply Hinv|done].
    + simpl. rewrite inc32_small by (unfold U32_MAX; lia). rewrite Hs. lia.
  - by rewrite list_lookup_insert_eq.
  - exact (slots_map_add _ key i s (new_bucket key ts) (rl_inv_unique _ Hinv) Hi Hs Hk eq_refl eq_refl).
Qed.

(** Evicting slot [i]. *)
Lemma clear_bucket_ok i s st :
  rl_inv st → rl_buckets st !! i = Some s → rb_in_use s = true →
  let st' := (clear_bucket_locked i st) <| rl_stats ::= λ x, x <| rs_evicted_buckets ::= inc64 |> |> in
  rl_inv st' ∧ rl_buckets st' !! i = Some rate_bucket_zero ∧
  rl_map st' = delete (rb_bucket_key s) (rl_map st).
Proof.
  intros Hinv Hi Hs. pose proof (lookup_lt_Some _ _ _ Hi).
  pose proof (count_pos rb_in_use _ _ _ Hi Hs). pose proof (rl_inv_active _ Hinv).
  unfold clear_bucket_locked. rewrite Hi, Hs. fields. unfold dec_if_pos.
  rewrite decide_True by lia. split_and!.
  - eapply rl_inv_store; eauto; [|simpl; rewrite Hs; lia].
    apply keys_unique_clear; [apply Hinv|done].
  - by rewrite list_lookup_insert_eq.
  - exact (slots_map_clear _ i s rate_bucket_zero (rl_inv_unique _ Hinv) Hi Hs eq_refl).
Qed.

(** The parts of the state a check leaves alone. *)
Definition same_rules (st st' : rl_state) : Prop :=
  rl_rules st' = rl_rules st ∧ rl_config st' = rl_config st ∧
  rl_initialized st' = rl_initialized st ∧ rl_next_rule_id st' = rl_next_rule_id st.

Lemma clear_bucket_same i st : same_rules st (clear_bucket_locked i st).
Proof. unfold clear_bucket_locked. by repeat case_match. Qed.

Lemma create_bucket_ok key ts st :
  rl_inv st → rl_map st !! key = None →
  let '(st', index) := create_bucket_locked key ts st in
  rl_inv st' ∧ same_rules st st' ∧
  match index with
  | Some i => ∃ m0, bucket_source key ts (rc_evict_lru_when_full (rl_config st)) (rl_map st)
                      (Some (new_bucket key ts)) m0 ∧
      rl_buckets st' !! i = Some (new_bucket key ts) ∧ rl_map st' = <[key := new_bucket key ts]> m0
  | None => st' = st ∧ bucket_source key ts (rc_evict_lru_when_full (rl_config st)) (rl_map st)
                         None (rl_map st)
  end.
Proof.
  intros Hinv Hk. unfold create_bucket_locked.
  pose proof (find_empty_bucket_spec st Hinv) as Hemp.
  destruct (find_empty_bucket_locked st) as [i|].
  { destruct Hemp as (Hsz & s & Hi & Hs).
    pose proof (put_new_bucket i s key ts st Hinv Hi Hs Hk) as (H1 & H2 & H3).
    split_and!; try done. eexists. split_and!; [by apply source_new|done|done]. }
  destruct (rc_evict_lru_when_full (rl_config st)) eqn:Eev; simpl.
  2: { split_and!; try done. apply source_full; auto. }
  pose proof (find_lru_bucket_spec st Hinv) as Hlru.
  destruct (find_lru_bucket_locked st) as [i|].
  2: { split_and!; try done. apply source_full; auto. }
  destruct Hlru as (s & Hi & Hs & Hm & Hmin).
  pose proof (clear_bucket_ok i s st Hinv Hi Hs) as (Hinv1 & Hi1 & Hm1).
  eapply (put_new_bucket i _ key ts) in Hinv1 as (H1 & H2 & H3); [|exact Hi1|done|].
  2: { rewrite Hm1, lookup_delete_None. auto. }
  split_and!; [done| |].
  - destruct (clear_bucket_same i st) as (? & ? & ? & ?). by split_and!.
  - eexists. split_and!; [by eapply source_evict; eauto|done|]. by rewrite H3, Hm1.
Qed.

Lemma count_packet_key params n ts b :
  rb_bucket_key (count_packet params n ts b) = rb_bucket_key b ∧
  rb_in_use (count_packet params n ts b) = rb_in_use b.
Proof. unfold count_packet. by case_match. Qed.

Lemma locate_bucket_ok key ts st :
  rl_inv st →
  let '(st', index) := locate_bucket key ts st in
  let source := bucket_source key ts (rc_evict_lru_when_full (rl_config st)) (rl_map st) in
  rl_inv st' ∧ same_rules st st' ∧
  match index with
  | Some i => ∃ b m0, source (Some b) m0 ∧ rl_buckets st' !! i = Some b ∧ rb_in_use b = true ∧
      rb_bucket_key b = key ∧ ∀ b', <[key := b']> (rl_map st') = <[key := b']> m0
  | None => st' = st ∧ source None (rl_map st)
  end.
Proof.
  intros Hinv. unfold locate_bucket.
  destruct (find_bucket_locked key st) as [i|] eqn:E; rewrite find_bucket_eq in E.
  - pose proof (first_index_lookup _ _ _ E) as (b & Hb & [Hu Hk]%key_is_true).
    split_and!; try done. exists b, (rl_map st).
    split_and!; try done. constructor. exact (slots_map_found _ _ _ _ E Hb).
  - apply slots_map_None in E. pose proof (create_bucket_ok key ts st Hinv E) as H.
    destruct (create_bucket_locked _ _ _) as [st1 [i|]]; [|done].
    destruct H as (? & ? & m0 & ? & ? & ->). split_and!; try done.
    exists (new_bucket key ts), m0. split_and!; try done. intros b'. by rewrite insert_insert_eq.
Qed.

Lemma put_bucket_ok i b x rules cfg stats' ini next st :
  rl_inv st → rl_buckets st !! i = Some b → rb_in_use b = true →
  rb_bucket_key x = rb_bucket_key b → rb_in_use x = true →
  rs_active_buckets stats' = rs_active_buckets (rl_stats st) →
  let st' := mk_rl_state (<[i:=x]> (rl_buckets st)) rules cfg stats' ini next in
  rl_inv st' ∧ rl_map st' = <[rb_bucket_key b := x]> (rl_map st).
Proof.
  intros Hinv Hb Hu Hk Hx Hst. split.
  - eapply rl_inv_store; eauto; [|by rewrite Hx, Hu, Hst].
    eapply keys_unique_update; eauto; apply Hinv.
  - exact (slots_map_update _ _ i b x (rl_inv_unique _ Hinv) Hb Hu eq_refl Hx Hk).
Qed.

(** What one check does: it charges one bucket, found, fresh or recycled, with
    the budget of the packet's rule, and answers by that budget. *)
Definition check_spec (key : flow_key) (direction : flow_direction) (nbytes ts : Z)
    (st st' : rl_state) (e : esp_err) (out : option rate_limit_result) : Prop :=
  let bkey := mk_bucket_key key direction in
  ∃ rule src m0,
    rule_of st key direction rule ∧
    bucket_source bkey ts (rc_evict_lru_when_full (rl_config st)) (rl_map st) src m0 ∧
    match src with
    | None => e = ESP_ERR_NO_MEM ∧ rx_decision <$> out = Some RATE_LIMIT_DECISION_ERROR ∧
              rl_map st' = rl_map st
    | Some b => ∃ b' over r,
      charged (budget_of st rule) nbytes ts b b' over ∧ e = ESP_OK ∧ out = Some r ∧
      answers rule b' over r ∧ rl_map st' = <[bkey := b']> m0
    end.

(** *** The rule of a packet *)
Lemma rule_matches_admits rule key direction :
  rule_matches rule key direction = true ↔ rule_admits rule key direction.
Proof.
  assert (∀ w x y : Z, (if w =? 0 then true else x =? y) = true ↔ w = 0 ∨ x = y) as Hw
    by (intros w x y; destruct (w =? 0) eqn:E; bools; [tauto|]; rewrite Z.eqb_eq; tauto).
  assert (∀ d, direction_matches d direction = true ↔ d = FLOW_DIRECTION_UNKNOWN ∨ d = direction) as Hd
    by (intros d; unfold direction_matches; case_bool_decide; [tauto|]; rewrite bool_decide_eq_true; tauto).
  assert (∀ a m i, ip_matches a m i = true ↔ m = 0 ∨ Z.land i m = Z.land a m) as Hip by (intros; apply Hw).
  assert (∀ a b, port_matches a b = true ↔ a = 0 ∨ a = b) as Hp by (intros; apply Hw).
  assert (∀ a b, proto_matches a b = true ↔ a = 0 ∨ a = b) as Hq by (intros; apply Hw).
  unfold rule_matches. split.
  - destruct (rr_enabled rule) eqn:Ee; [|done]. cbn [negb].
    repeat (case_match; [done|]). bools. intros _.
    constructor; try done; first [by apply Hd | by apply Hip | by apply Hp | by apply Hq].
  - intros [-> H1 H2 H3 H4 H5 H6]. apply Hd in H1 as ->. apply Hip in H2 as ->, H3 as ->.
    apply Hp in H4 as ->, H5 as ->. by apply Hq in H6 as ->.
Qed.

Lemma find_best_rule_ok key direction st : rule_of st key direction (find_best_rule_locked key direction st).
Proof.
  unfold find_best_rule_locked. set (ok := λ s, rsl_in_use s && rule_matches (rsl_rule s) key direction).
  assert (∀ r, ok (mk_rate_rule_slot true r) = true ↔ rule_admits r key direction) as Hok
    by (intros r; apply rule_matches_admits).
  destruct (best_loop ok _ _ _) as [[u r]|] eqn:E; simpl.
  - apply best_loop_Some in E as (i & Hi & [Hu Hm]%andb_true_iff & Hle & Hlt).
    simpl in Hu. subst u. exists i.
    split_and!; [done|by apply rule_matches_admits|]. intros j r' Hj Hr'. apply Hok in Hr'.
    split; [exact (Hle _ _ Hj Hr')|]. intros Hij. exact (Hlt _ _ Hij Hj Hr').
  - intros i r Hi Hr. apply Hok in Hr. rewrite best_loop_None in E. rewrite (E _ _ Hi) in Hr. done.
Qed.

Lemma rule_of_unique st key direction rule rule' :
  rule_of st key direction rule → rule_of st key direction rule' → rule = rule'.
Proof.
  destruct rule as [r|], rule' as [r'|]; try done.
  - intros (i & Hi & Ha & Hb) (j & Hj & Ha' & Hb'). destruct (Hb _ _ Hj Ha'), (Hb' _ _ Hi Ha).
    destruct (Nat.lt_trichotomy i j) as [Hij|[->|Hij]]; [exfalso; lia|congruence|exfalso; lia].
  - intros (i & Hi & Ha & _) Hn. by destruct (Hn _ _ Hi).
  - intros Hn (i & Hi & Ha & _). by destruct (Hn _ _ Hi).
Qed.

Lemma chosen_budget key direction st :
  chosen_params key direction st = budget_of st (find_best_rule_locked key direction st).
Proof.
  unfold chosen_params, budget_of, default_window. destruct (find_best_rule_locked _ _ _) as [r|];
    cbv zeta; case_match; try done; [by destruct (rr_params r)|by destruct (rc_default_params _)].
Qed.

Lemma count_packet_charged params nbytes ts b :
  let b1 := count_packet params nbytes ts b in
  let over := params_exceeded params b1 in
  charged params nbytes ts b (if over then b1 <| rb_exceeded_count ::= inc32 |> else b1) over.
Proof.
  cbv zeta. set (b1 := count_packet params nbytes ts b).
  assert (params_exceeded params b1 = true ↔
    0 < rp_max_packets params < rb_packets_in_window b1 ∨ 0 < rp_max_bytes params < rb_bytes_in_window b1) as Hover.
  { unfold params_exceeded. rewrite !Z.gtb_ltb, <- !Z.ltb_lt, <- !andb_true_iff.
    destruct (_ && _); [tauto|]. destruct (_ && _); [tauto|]. split; [done|intros [?|?]; done]. }
  destruct (params_exceeded params b1); (constructor; [| | | | |exact Hover|]);
    subst b1; unfold count_packet, inc32, u32; rewrite Z.geb_leb;
    destruct (Z.leb_spec (rp_window_ms params) ((ts - rb_window_start_ms b) mod 4294967296)); fields;
    try done; intros ?; try lia; split_and!; try done; by rewrite ?Z.add_0_l.
Qed.

Lemma fill_result_decision decision reason rule params bucket :
  rx_decision (fill_result decision reason rule params bucket) = decision.
Proof. unfold fill_result. by destruct rule, bucket. Qed.
Lemma fill_result_answers over reason rule params b :
  answers rule b over (fill_result
    (if over then RATE_LIMIT_DECISION_EXCEEDED else RATE_LIMIT_DECISION_ALLOW) reason rule params (Some b)).
Proof. constructor; unfold fill_result; by destruct rule, over. Qed.
#[local] Opaque fill_result.

Lemma rate_check_ok key direction nbytes timer_us st :
  rl_inv st → rl_initialized st = true →
  let '(st', e, out) := rate_limiter_check (Some key) direction nbytes true timer_us st in
  rl_inv st' ∧ same_rules st st' ∧ check_spec key direction nbytes (now_ms timer_us) st st' e out.
Proof.
  intros Hinv Hini. unfold rate_limiter_check, check_spec. rewrite Hini. cbn [negb].
  set (st0 := st <| rl_stats ::= λ x, x <| rs_checks ::= inc64 |> |>). cbv zeta.
  change (chosen_params key direction st0) with (chosen_params key direction st).
  change (find_best_rule_locked key direction st0) with (find_best_rule_locked key direction st).
  rewrite chosen_budget. pose proof (find_best_rule_ok key direction st) as Hrule.
  set (rule := find_best_rule_locked key direction st) in *. set (params := budget_of st rule).
  set (bkey := mk_bucket_key key direction).
  pose proof (locate_bucket_ok bkey (now_ms timer_us) st0 ltac:(by destruct Hinv)) as H.
  destruct (locate_bucket _ _ _) as [st1 index]. destruct H as (Hinv1 & Hsame & Hsrc).
  destruct index as [i|]; simpl.
  2: { destruct Hsrc as [-> Hsrc]. split_and!; [by destruct Hinv1|done|].
       exists rule, None, (rl_map st). split_and!; [done..| |done]. simpl. by rewrite fill_result_decision. }
  destruct Hsrc as (b & m0 & Hsrc & Hb & Hu & Hk & Hm). rewrite Hb.
  pose proof (count_packet_charged params nbytes (now_ms timer_us) b) as Hch. cbv zeta in Hch.
  destruct (count_packet_key params nbytes (now_ms timer_us) b) as [Hck Hcu].
  remember (count_packet params nbytes (now_ms timer_us) b) as b1 eqn:Eb.
  destruct (params_exceeded params b1) eqn:Ex; fields.
  all: match goal with |- rl_inv (mk_rl_state (<[_:=?x]> _) ?r ?c ?s ?ini ?n) ∧ _ =>
    destruct (put_bucket_ok i b x r c s ini n st1 Hinv1 Hb Hu) as [Hi2 Hm2];
      [exact Hck|exact (eq_trans Hcu Hu)|done|];
    split_and!; [done|done|]; exists rule, (Some b), m0; split_and!; [done|done|];
    exists x; eexists _, _; split_and!; [exact Hch|done|done| |rewrite Hm2, Hk; apply Hm] end.
  - exact (fill_result_answers true _ _ _ _).
  - exact (fill_result_answers false _ _ _ _).
Qed.

(** ** Traces of checks *)
Record packet := mk_packet {
  pk_key : flow_key;
  pk_direction : flow_direction;
  pk_bytes : Z;
  pk_timer_us : Z;
}.
Definition pk_bucket (p : packet) : bucket_key := mk_bucket_key (pk_key p) (pk_direction p).

(** Checking a sequence of packets: the verdict on each, in order. *)
Fixpoint rl_checks (trace : list packet) (st : rl_state)
    : list (bucket_key * option rate_limit_decision) :=
  match trace with
  | [] => []
  | p :: trace' =>
    let '(st', _, out) :=
      rate_limiter_check (Some (pk_key p)) (pk_direction p) (pk_bytes p) true (pk_timer_us p) st in
    (pk_bucket p, rx_decision <$> out) :: rl_checks trace' st'
  end.

Definition verdicts (key : bucket_key) (res : list (bucket_key * option rate_limit_decision))
    : list (option rate_limit_decision) :=
  omap (λ r, if decide (r.1 = key) then Some r.2 else None) res.

(** Packets of these sizes are within the budget of one window; a maximum of
    zero is none. *)
Definition total (sizes : list Z) : Z := foldr Z.add 0 sizes.
Definition within (params : rate_limit_params) (sizes : list Z) : bool :=
  ((rp_max_packets params <=? 0) || (Z.of_nat (List.length sizes) <=? rp_max_packets params)) &&
  ((rp_max_bytes params <=? 0) || (total sizes <=? rp_max_bytes params)).

(** The verdicts on the packets of one window, in order: each is allowed when
    the packets up to and including it are within the budget. *)
Definition window_verdicts (params : rate_limit_params) (sizes : list Z) : list (option rate_limit_decision) :=
  imap (λ k _, Some (if within params (take (S k) sizes) then RATE_LIMIT_DECISION_ALLOW
                     else RATE_LIMIT_DECISION_EXCEEDED)) sizes.

Definition trace_of (key : bucket_key) (trace : list packet) : list packet :=
  filter (λ p, pk_bucket p = key) trace.

Lemma total_app a b : total (a ++ b) = total a + total b.
Proof. induction a; simpl in *; lia. Qed.
Lemma total_nonneg l : Forall (λ n, 0 ≤ n) l → 0 ≤ total l.
Proof. induction 1; simpl in *; lia. Qed.

(** What the bucket [b] holds for a packet at [ts]: the packets [seen] of the
    window that began at [w0]. *)
Definition counted (params : rate_limit_params) (w0 : Z) (seen : list Z) (ts : Z) (b : rate_bucket) : Prop :=
  rp_window_ms params ≤ u32 (ts - rb_window_start_ms b) ∧ w0 = ts ∧ seen = [] ∨
  rb_window_start_ms b = w0 ∧ u32 (ts - w0) < rp_window_ms params ∧
  rb_packets_in_window b = Z.of_nat (List.length seen) ∧ rb_bytes_in_window b = total seen.

Lemma charged_counts params w0 seen nbytes ts b b' over :
  charged params nbytes ts b b' over → counted params w0 seen ts b →
  Forall (λ n, 0 ≤ n) seen → 0 ≤ nbytes →
  Z.of_nat (List.length (seen ++ [nbytes])) ≤ U32_MAX → total (seen ++ [nbytes]) ≤ U32_MAX →
  rb_window_start_ms b' = w0 ∧ rb_packets_in_window b' = Z.of_nat (List.length (seen ++ [nbytes])) ∧
  rb_bytes_in_window b' = total (seen ++ [nbytes]) ∧ over = negb (within params (seen ++ [nbytes])).
Proof.
  intros [_ _ Hnew Hsame _ Hover _] Hc Hs Hn Hl Ht. pose proof (total_nonneg _ Hs).
  rewrite total_app in *. rewrite length_app in *. simpl in Hl, Ht. unfold U32_MAX in *.
  assert (rb_window_start_ms b' = w0 ∧ rb_packets_in_window b' = Z.of_nat (List.length seen + 1) ∧
          rb_bytes_in_window b' = total seen + nbytes) as (Hw & Hp & Hb).
  { destruct Hc as [(Hw & -> & ->)|(<- & Hw & Hp & Hb)]; unfold u32 in Hw.
    - destruct (Hnew Hw) as (-> & -> & ->). simpl. rewrite Z.mod_small by lia. done.
    - destruct (Hsame Hw) as (-> & -> & ->). rewrite Hp, Hb, !Z.mod_small by lia. split_and!; [done|lia|done]. }
  split_and!; [done..|simpl; lia|]. apply eq_true_iff_eq. rewrite Hover, Hp, Hb, negb_true_iff.
  unfold within. rewrite total_app, length_app. simpl.
  rewrite andb_false_iff, !orb_false_iff, !Z.leb_gt. lia.
Qed.

(** With the flows of the trace among at most 128 keys, nothing is evicted. *)
Lemma source_no_evict key ts evict (m : gmap bucket_key rate_bucket) src m0 (S : gset bucket_key) :
  bucket_source key ts evict m src m0 → dom m ⊆ S → key ∈ S →
  (size S ≤ RATE_LIMITER_MAX_BUCKETS)%nat →
  m0 = m ∧ src = Some (default (new_bucket key ts) (m !! key)).
Proof.
  intros Hs Hd Hk Hsz.
  assert (m !! key = None → size m = RATE_LIMITER_MAX_BUCKETS → False) as Hno.
  { intros Hn Hm. assert (({[key]} ∪ dom m : gset bucket_key) ⊆ S) as Hsub by set_solver.
    apply subseteq_size in Hsub. rewrite size_union, size_singleton, size_dom in Hsub.
    - lia.
    - apply disjoint_singleton_l. by apply not_elem_of_dom. }
  inversion Hs as [b Hb|Hn|v vb Hn Hm|Hn Hm]; subst.
  - by rewrite Hb.
  - by rewrite Hn.
  - by destruct Hno.
  - by destruct Hno.
Qed.

Lemma rule_of_same st st' key direction rule :
  same_rules st st' → rule_of st key direction rule → rule_of st' key direction rule.
Proof. intros (Hr & _). unfold rule_of. by rewrite Hr. Qed.
Lemma budget_of_same st st' rule : same_rules st st' → budget_of st' rule = budget_of st rule.
Proof. intros (_ & Hc & _). unfold budget_of. by rewrite Hc. Qed.

(** One check of a trace within capacity, on the abstract map. *)
Lemma check_fits p st (S : gset bucket_key) :
  rl_inv st → rl_initialized st = true → dom (rl_map st) ⊆ S → pk_bucket p ∈ S →
  (size S ≤ RATE_LIMITER_MAX_BUCKETS)%nat →
  let '(st', e, out) :=
    rate_limiter_check (Some (pk_key p)) (pk_direction p) (pk_bytes p) true (pk_timer_us p) st in
  let ts := now_ms (pk_timer_us p) in
  let b := default (new_bucket (pk_bucket p) ts) (rl_map st !! pk_bucket p) in
  rl_inv st' ∧ rl_initialized st' = true ∧ same_rules st st' ∧ dom (rl_map st') ⊆ S ∧
  ∃ rule b' over, rule_of st (pk_key p) (pk_direction p) rule ∧
    charged (budget_of st rule) (pk_bytes p) ts b b' over ∧
    rx_decision <$> out = Some (if over then RATE_LIMIT_DECISION_EXCEEDED else RATE_LIMIT_DECISION_ALLOW) ∧
    rl_map st' = <[pk_bucket p := b']> (rl_map st).
Proof.
  intros Hinv Hini Hd Hk Hsz.
  pose proof (rate_check_ok (pk_key p) (pk_direction p) (pk_bytes p) (pk_timer_us p) st Hinv Hini) as H.
  destruct (rate_limiter_check _ _ _ _ _ _) as [[st' e] out].
  destruct H as (Hinv' & Hsame & rule & src & m0 & Hrule & Hsrc & Hres).
  destruct (source_no_evict _ _ _ _ _ _ S Hsrc Hd Hk Hsz) as [-> ->].
  destruct Hres as (b' & over & r & Hch & _ & -> & Han & Hm).
  split_and!; [done|destruct Hsame as (_ & _ & -> & _); done|done| |].
  - rewrite Hm, dom_insert. unfold pk_bucket in *. set_solver.
  - exists rule, b', over. split_and!; [done|exact Hch| |exact Hm]. simpl. by rewrite (an_decision _ _ _ _ Han).
Qed.

Lemma verdicts_hit key v res : verdicts key ((key, v) :: res) = v :: verdicts key res.
Proof. unfold verdicts. simpl. by rewrite decide_True. Qed.
Lemma verdicts_miss key k v res : k ≠ key → verdicts key ((k, v) :: res) = verdicts key res.
Proof. intros H. unfold verdicts. simpl. by rewrite decide_False. Qed.
Lemma trace_of_hit key p trace : pk_bucket p = key → trace_of key (p :: trace) = p :: trace_of key trace.
Proof. intros H. unfold trace_of. by rewrite filter_cons_True. Qed.
Lemma trace_of_miss key p trace : pk_bucket p ≠ key → trace_of key (p :: trace) = trace_of key trace.
Proof. intros H. unfold trace_of. by rewrite filter_cons_False. Qed.
Lemma trace_total (S : gset bucket_key) key trace :
  Forall (λ p, pk_bucket p ∈ S ∧ 0 ≤ pk_bytes p) trace → 0 ≤ total (pk_bytes <$> trace_of key trace).
Proof.
  intros Htr. apply total_nonneg, Forall_fmap, Forall_forall. intros q [_ Hq]%list_elem_of_filter.
  rewrite Forall_forall in Htr. by apply Htr.
Qed.

(** The verdicts on a flow, and on further flows in between, whose window that
    began at [w0] has counted the packets [seen]: the first packet of the flow
    may be the one that begins it. *)
Lemma checks_window (S : gset bucket_key) key direction rule params w0 trace :
  (size S ≤ RATE_LIMITER_MAX_BUCKETS)%nat →
  let bkey := mk_bucket_key key direction in
  let sizes trace := pk_bytes <$> trace_of bkey trace in
  Forall (λ p, pk_bucket p ∈ S ∧ 0 ≤ pk_bytes p) trace →
  ∀ st seen b,
  rl_inv st → rl_initialized st = true → dom (rl_map st) ⊆ S →
  rule_of st key direction rule → budget_of st rule = params →
  rl_map st !! bkey = Some b →
  Forall (λ p, pk_bucket p = bkey → u32 (now_ms (pk_timer_us p) - w0) < rp_window_ms params) trace →
  rb_window_start_ms b = w0 →
  rb_packets_in_window b = Z.of_nat (List.length seen) → rb_bytes_in_window b = total seen →
  Forall (λ n, 0 ≤ n) seen →
  Z.of_nat (List.length (seen ++ sizes trace)) ≤ U32_MAX → total (seen ++ sizes trace) ≤ U32_MAX →
  verdicts bkey (rl_checks trace st) =
  imap (λ k _, Some (if within params (seen ++ take (k + 1) (sizes trace)) then RATE_LIMIT_DECISION_ALLOW
                     else RATE_LIMIT_DECISION_EXCEEDED)) (sizes trace).
Proof.
  intros HS bkey sizes Htr. induction Htr as [|p trace [HpS Hp0] Htr IH];
    intros st seen b Hinv Hini Hd Hrule Hpar Hm Hwin Hw0 Hpk Hby Hseen Hlen Htot; [done|].
  apply Forall_cons in Hwin as [Hpw Hwin]. simpl.
  pose proof (check_fits p st S Hinv Hini Hd HpS HS) as H.
  destruct (rate_limiter_check _ _ _ _ _ _) as [[st' e] out].
  destruct H as (Hinv' & Hini' & Hsame & Hd' & rule' & b' & over & Hrule' & Hch & Hdec & Hm').
  pose proof (rule_of_same _ _ _ _ _ Hsame Hrule) as Hrule2.
  pose proof (budget_of_same _ _ rule Hsame) as Hpar2. rewrite Hpar in Hpar2.
  subst sizes. cbv beta in *. pose proof (trace_total S bkey trace Htr) as Hrest.
  destruct (decide (pk_bucket p = bkey)) as [E|E].
  - specialize (Hpw E). pose proof E as E'. unfold pk_bucket, bkey in E'. injection E' as Ek Ed.
    rewrite Ek, Ed in Hrule'. rewrite <- (rule_of_unique _ _ _ _ _ Hrule Hrule'), Hpar, E, Hm in Hch. simpl in Hch.
    rewrite (trace_of_hit _ _ _ E), E, verdicts_hit in *. rewrite fmap_cons in *.
    rewrite cons_middle, app_assoc in Hlen, Htot.
    destruct (charged_counts params w0 seen (pk_bytes p) _ b b' over Hch) as (Hw' & Hp' & Hb' & Hov); try done.
    { right. by split_and!. }
    { rewrite length_app in Hlen. lia. }
    { rewrite total_app in Htot. lia. }
    rewrite imap_cons. f_equal.
    + simpl. rewrite Hdec, Hov. by destruct (within _ _).
    + rewrite (IH st' (seen ++ [pk_bytes p]) b'); try done.
      * apply imap_ext. intros k x _. simpl. by rewrite <- app_assoc.
      * by rewrite Hm', lookup_insert_eq.
      * apply Forall_app. by split; [|constructor].
  - rewrite (trace_of_miss _ _ _ E), (verdicts_miss _ _ _ _ E) in *.
    apply (IH st' seen b); try done. by rewrite Hm', lookup_insert_ne.
Qed.

(** ** Runs of the component *)
Inductive rl_op :=
| RlInit (config : option rate_limiter_config)
| RlReset
| RlAddRule (rule : option rate_limit_rule)
| RlRemoveRule (rule_id : Z)
| RlCheck (key : option flow_key) (direction : flow_direction) (packet_bytes : Z)
    (out_result : bool) (timer_us : Z)
| RlExpireOld (timer_us : Z).

Definition rl_step (st : rl_state) (op : rl_op) : rl_state :=
  match op with
  | RlInit config => (rate_limiter_init config st).1
  | RlReset => rate_limiter_reset st
  | RlAddRule rule => (rate_limiter_add_rule rule st).1.1
  | RlRemoveRule rule_id => (rate_limiter_remove_rule rule_id st).1
  | RlCheck key direction nbytes out us => (rate_limiter_check key direction nbytes out us st).1.1
  | RlExpireOld timer_us => (rate_limiter_expire_old timer_us st).1
  end.

Definition rl_run (ops : list rl_op) : rl_state := fold_left rl_step ops rl_boot.

Lemma rl_expire_inv timer_us st : rl_inv st → rl_inv (rate_limiter_expire_old timer_us st).1.
Proof.
  intros Hinv. unfold rate_limiter_expire_old. destruct (rl_initialized st); [|done]. simpl.
  pose proof Hinv as [Hl Hu Ha]. unfold RATE_LIMITER_MAX_BUCKETS in Hl.
  set (dead := λ b, u32 (now_ms timer_us - rb_last_seen_ms b) >? rc_max_idle_ms (rl_config st)).
  rewrite expire_loop_spec; [|done|rewrite Ha; lia|lia|unfold U32_MAX; lia].
  pose proof (count_expired rb_in_use dead rate_bucket_zero (rl_buckets st) eq_refl).
  fields. constructor; simpl.
  - by rewrite length_map.
  - exact (keys_unique_expire dead rate_bucket_zero _ Hu eq_refl).
  - rewrite Ha. simpl in *. lia.
Qed.

Lemma rl_inv_same st st' :
  rl_inv st → rl_buckets st' = rl_buckets st →
  rs_active_buckets (rl_stats st') = rs_active_buckets (rl_stats st) → rl_inv st'.
Proof. intros [Hl Hu Ha] Hb Hs. constructor; by rewrite ?Hb, ?Hs. Qed.

Lemma rl_step_inv st op : rl_inv st → rl_inv (rl_step st op).
Proof.
  intros Hinv. destruct op as [cfg| |[rule|]|id|key d n out us|us]; cbn [rl_step].
  - by apply rl_inv_empty.
  - by apply rl_inv_empty.
  - eapply rl_inv_same; [done|..]; unfold rate_limiter_add_rule; by repeat case_match.
  - done.
  - eapply rl_inv_same; [done|..]; unfold rate_limiter_remove_rule; by repeat case_match.
  - destruct out, key as [key|]; try done; [|by destruct Hinv].
    destruct (rl_initialized st) eqn:E.
    + pose proof (rate_check_ok key d n us st Hinv E) as H.
      destruct (rate_limiter_check _ _ _ _ _ _) as [[? ?] ?]. by destruct H.
    + unfold rate_limiter_check. rewrite E. by destruct Hinv.
  - by apply rl_expire_inv.
Qed.

Lemma rl_run_inv ops : rl_inv (rl_run ops).
Proof.
  unfold rl_run. assert (rl_inv rl_boot) as H by (by apply rl_inv_empty).
  revert H. generalize rl_boot as st.
  induction ops as [|op ops IH]; intros st H; simpl; [done|]. by apply IH, rl_step_inv.
Qed.

(** ** Properties *)

(** C20: in every state the calls of the component can reach, one check charges
    exactly one bucket, that of the packet's flow and direction (found, created,
    or created in place of a least recently used one).  The budget is that of the
    packet's rule, the installed one of highest priority that admits it (the last
    slot among equals), or the configured default.  A window that is over starts
    again at the packet, otherwise its packets and bytes grow; the answer is
    EXCEEDED exactly when they are past the budget, and carries the rule's id and
    its wish for a quarantine.  When the table is full and nothing can be evicted
    the answer is ERROR and no bucket changes.  Rules and configuration stay. *)
Theorem rate_limiter_check_refines ops key direction nbytes timer_us st' e out :
  rl_initialized (rl_run ops) = true →
  rate_limiter_check (Some key) direction nbytes true timer_us (rl_run ops) = (st', e, out) →
  same_rules (rl_run ops) st' ∧
  check_spec key direction nbytes (now_ms timer_us) (rl_run ops) st' e out.
Proof.
  intros Hini E. pose proof (rate_check_ok key direction nbytes timer_us _ (rl_run_inv ops) Hini) as H.
  rewrite E in H. by destruct H.
Qed.

Definition witness_config : rate_limiter_config :=
  mk_rate_limiter_config (mk_rate_limit_params 1000 2 0) 60000 true.
Definition witness_packet (t : Z) : packet :=
  mk_packet witness_key FLOW_DIRECTION_ZONE_TO_UPLINK 60 t.

Lemma rate_limiter_check_refines_witness :
  let ops := [RlInit (Some witness_config)] in
  let r := rate_limiter_check (Some witness_key) FLOW_DIRECTION_ZONE_TO_UPLINK 60 true 5000
             (rl_run ops) in
  check_spec witness_key FLOW_DIRECTION_ZONE_TO_UPLINK 60 5 (rl_run ops) r.1.1 ESP_OK r.2.
Proof.
  refine (proj2 (rate_limiter_check_refines [RlInit (Some witness_config)] witness_key
    FLOW_DIRECTION_ZONE_TO_UPLINK 60 5000 _ _ _ _ _)); vm_compute; reflexivity.
Defined.

(** C8: the budget of a window is exact, in every window.  Take any reachable
    state and a packet [p] that begins a window of its flow: the flow has no
    bucket yet, or its window is over.  Take any further checks, of this flow and
    of others, with no other call in between, whose flows together with those in
    the table fit its 128 buckets.  Of the flow's packets that fall within
    [window_ms] of [p], each is allowed exactly when the packets of the window up
    to and including it are within [max_packets] and their bytes within
    [max_bytes] (zero: no maximum) of the flow's rule or the default, and is
    EXCEEDED otherwise.  Sizes and their sum, and the number of the flow's
    packets, are those of 32-bit counters. *)
Theorem rate_limiter_window_exact ops (S : gset bucket_key) p trace rule :
  let st := rl_run ops in
  let params := budget_of st rule in
  let sizes := pk_bytes <$> trace_of (pk_bucket p) (p :: trace) in
  rl_initialized st = true → rule_of st (pk_key p) (pk_direction p) rule →
  dom (rl_map st) ⊆ S → (size S ≤ RATE_LIMITER_MAX_BUCKETS)%nat →
  Forall (λ q, pk_bucket q ∈ S ∧ 0 ≤ pk_bytes q) (p :: trace) →
  (∀ b, rl_map st !! pk_bucket p = Some b →
     rp_window_ms params ≤ u32 (now_ms (pk_timer_us p) - rb_window_start_ms b)) →
  Forall (λ q, pk_bucket q = pk_bucket p →
     u32 (now_ms (pk_timer_us q) - now_ms (pk_timer_us p)) < rp_window_ms params) trace →
  Z.of_nat (List.length sizes) ≤ U32_MAX → total sizes ≤ U32_MAX →
  verdicts (pk_bucket p) (rl_checks (p :: trace) st) = window_verdicts params sizes.
Proof.
  intros st params sizes Hini Hrule Hd HS [[HpS Hp0] Htr]%Forall_cons Hover Hwin Hlen Htot.
  pose proof (check_fits p st S (rl_run_inv ops) Hini Hd HpS HS) as H. simpl.
  destruct (rate_limiter_check _ _ _ _ _ _) as [[st' e] out].
  destruct H as (Hinv' & Hini' & Hsame & Hd' & rule' & b' & over & Hrule' & Hch & Hdec & Hm').
  rewrite <- (rule_of_unique _ _ _ _ _ Hrule Hrule') in Hch. fold params in Hch.
  pose proof (trace_total S (pk_bucket p) trace Htr) as Hrest. unfold window_verdicts.
  subst sizes. rewrite verdicts_hit, (trace_of_hit _ p) in * by done. rewrite fmap_cons in *.
  destruct (charged_counts params (now_ms (pk_timer_us p)) [] (pk_bytes p) _ _ b' over Hch)
    as (Hw' & Hp' & Hb' & Hov); [|done|done|simpl in *; lia|simpl in *; lia|].
  { destruct (rl_map st !! pk_bucket p) as [b|]; simpl; [left; eauto|].
    destruct (Z.le_gt_cases (rp_window_ms params) (u32 (now_ms (pk_timer_us p) - now_ms (pk_timer_us p))));
      [left; eauto|right; split_and!; done || lia]. }
  rewrite imap_cons. f_equal.
  - rewrite Hdec, Hov. simpl. by destruct (within _ _).
  - etrans; [apply (checks_window S (pk_key p) (pk_direction p) rule params (now_ms (pk_timer_us p)) trace HS Htr
      st' [pk_bytes p] b'); try done|].
    + by apply (rule_of_same st).
    + by rewrite (budget_of_same st).
    + by rewrite Hm', lookup_insert_eq.
    + by constructor.
    + apply imap_ext. intros k x _. simpl. by rewrite Nat.add_1_r.
Qed.

(** The second window of a flow, under a budget of three packets and 130 bytes. *)
Definition window_ops : list rl_op :=
  [RlInit (Some (mk_rate_limiter_config (mk_rate_limit_params 1000 3 130) 60000 true));
   RlCheck (Some witness_key) FLOW_DIRECTION_ZONE_TO_UPLINK 60 true 1000000].

Lemma rate_limiter_window_exact_witness :
  verdicts (pk_bucket (witness_packet 2000000))
    (rl_checks [witness_packet 2000000; witness_packet 2100000; witness_packet 2200000] (rl_run window_ops)) =
  [Some RATE_LIMIT_DECISION_ALLOW; Some RATE_LIMIT_DECISION_ALLOW; Some RATE_LIMIT_DECISION_EXCEEDED].
Proof.
  etrans; [apply (rate_limiter_window_exact window_ops {[pk_bucket (witness_packet 0)]}
    (witness_packet 2000000) [witness_packet 2100000; witness_packet 2200000] None)|vm_compute; reflexivity].
  - vm_compute. reflexivity.
  - replace None with (find_best_rule_locked witness_key FLOW_DIRECTION_ZONE_TO_UPLINK (rl_run window_ops))
      by (vm_compute; reflexivity). apply find_best_rule_ok.
  - apply (bool_decide_unpack _). vm_compute. exact I.
  - rewrite size_singleton. unfold RATE_LIMITER_MAX_BUCKETS. lia.
  - repeat constructor; try (by apply elem_of_singleton); vm_compute; discriminate.
  - intros b Hb. vm_compute in Hb. injection Hb as <-. vm_compute. discriminate.
  - repeat constructor; vm_compute; reflexivity.
  - vm_compute. discriminate.
  - vm_compute. discriminate.
Defined.
