(* ===== verification/Quarantine_manager.v ===== *)
(** * Quarantine_manager: subjects isolated until a deadline

    Model of [firmware/components/quarantine_manager/quarantine_manager.c]: 64
    entries keyed by an IP address, a MAC address or a device id.  The theorems
    relate the calls to a finite map of entries, show that a quarantine holds
    until the stored deadline while the table need not evict it, and what becomes
    of it when the deadline wraps or the table is flooded. *)

From S2P Require Import Prelude Bytes Slots Flow_table.

Definition QUARANTINE_MAX_ENTRIES : nat := 64.
Definition QUARANTINE_REASON_LEN : nat := 48.

(** [quarantine_subject_t]: the tag and the member of the union it selects. *)
Inductive quarantine_subject :=
| QUARANTINE_SUBJECT_NONE
| QUARANTINE_SUBJECT_IP (ip : Z)
| QUARANTINE_SUBJECT_MAC (mac : bytes)
| QUARANTINE_SUBJECT_DEVICE_ID (device_id : Z).

Inductive quarantine_mode :=
| QUARANTINE_MODE_BLOCK_ALL
| QUARANTINE_MODE_RESTRICTED
| QUARANTINE_MODE_LOG_ONLY.

Inductive quarantine_source :=
| QUARANTINE_SOURCE_LOCAL_POLICY
| QUARANTINE_SOURCE_RATE_LIMIT
| QUARANTINE_SOURCE_SWARM
| QUARANTINE_SOURCE_MANUAL
| QUARANTINE_SOURCE_UNKNOWN.

#[export] Instance quarantine_subject_eq_dec : EqDecision quarantine_subject.
Proof. solve_decision. Defined.
#[export] Instance quarantine_mode_eq_dec : EqDecision quarantine_mode.
Proof. solve_decision. Defined.
#[export] Instance quarantine_subject_countable : Countable quarantine_subject.
Proof.
  refine (inj_countable'
    (λ s, match s with
          | QUARANTINE_SUBJECT_NONE => (0, 0, [])
          | QUARANTINE_SUBJECT_IP ip => (1, ip, [])
          | QUARANTINE_SUBJECT_MAC mac => (2, 0, mac)
          | QUARANTINE_SUBJECT_DEVICE_ID d => (3, d, []) end)
    (λ '(t, z, m), if t =? 0 then QUARANTINE_SUBJECT_NONE
                   else if t =? 1 then QUARANTINE_SUBJECT_IP z
                   else if t =? 2 then QUARANTINE_SUBJECT_MAC m
                   else QUARANTINE_SUBJECT_DEVICE_ID z) _).
  by intros [].
Defined.

Record quarantine_entry := mk_quarantine_entry {
  qe_subject : quarantine_subject;
  qe_mode : quarantine_mode;
  qe_source : quarantine_source;
  qe_created_at_ms : Z;
  qe_expires_at_ms : Z;
  qe_last_hit_ms : Z;
  qe_hit_count : Z;
  qe_risk_score : Z;
  qe_reason : bytes;
}.
#[export] Instance quarantine_entry_settable : Settable quarantine_entry := fun r =>
  mk_quarantine_entry (qe_subject r) (qe_mode r) (qe_source r) (qe_created_at_ms r)
    (qe_expires_at_ms r) (qe_last_hit_ms r) (qe_hit_count r) (qe_risk_score r) (qe_reason
    r).

Record quarantine_manager_config := mk_quarantine_manager_config {
  qc_default_ttl_ms : Z;
  qc_evict_lru_when_full : bool;
}.
#[export] Instance quarantine_manager_config_settable : Settable quarantine_manager_config := fun r =>
  mk_quarantine_manager_config (qc_default_ttl_ms r) (qc_evict_lru_when_full r).

Record quarantine_check_result := mk_quarantine_check_result {
  qr_quarantined : bool;
  qr_mode : quarantine_mode;
  qr_source : quarantine_source;
  qr_expires_at_ms : Z;
  qr_remaining_ms : Z;
  qr_hit_count : Z;
  qr_risk_score : Z;
  qr_reason : bytes;
}.
#[export] Instance quarantine_check_result_settable : Settable quarantine_check_result := fun r =>
  mk_quarantine_check_result (qr_quarantined r) (qr_mode r) (qr_source r)
    (qr_expires_at_ms r) (qr_remaining_ms r) (qr_hit_count r) (qr_risk_score r) (qr_reason
    r).

Record quarantine_manager_stats := mk_quarantine_manager_stats {
  qs_capacity : Z;
  qs_active_entries : Z;
  qs_added : Z;
  qs_refreshed : Z;
  qs_removed : Z;
  qs_expired : Z;
  qs_hits : Z;
  qs_misses : Z;
  qs_evicted : Z;
  qs_invalid_input : Z;
}.
#[export] Instance quarantine_manager_stats_settable : Settable quarantine_manager_stats := fun r =>
  mk_quarantine_manager_stats (qs_capacity r) (qs_active_entries r) (qs_added r)
    (qs_refreshed r) (qs_removed r) (qs_expired r) (qs_hits r) (qs_misses r) (qs_evicted r)
    (qs_invalid_input r).

Record quarantine_slot := mk_quarantine_slot { ql_in_use : bool; ql_entry : quarantine_entry }.
#[export] Instance quarantine_slot_settable : Settable quarantine_slot := fun r =>
  mk_quarantine_slot (ql_in_use r) (ql_entry r).

Record qm_state := mk_qm_state {
  qm_slots : list quarantine_slot;
  qm_config : quarantine_manager_config;
  qm_stats : quarantine_manager_stats;
  qm_initialized : bool;
}.
#[export] Instance qm_state_settable : Settable qm_state := fun r =>
  mk_qm_state (qm_slots r) (qm_config r) (qm_stats r) (qm_initialized r).

Definition quarantine_entry_zero : quarantine_entry :=
  mk_quarantine_entry QUARANTINE_SUBJECT_NONE QUARANTINE_MODE_BLOCK_ALL
    QUARANTINE_SOURCE_LOCAL_POLICY 0 0 0 0 0 (zeros QUARANTINE_REASON_LEN).
Definition quarantine_slot_zero : quarantine_slot := mk_quarantine_slot false quarantine_entry_zero.
Definition quarantine_result_zero : quarantine_check_result :=
  mk_quarantine_check_result false QUARANTINE_MODE_BLOCK_ALL QUARANTINE_SOURCE_LOCAL_POLICY 0 0 0 0
    (zeros QUARANTINE_REASON_LEN).
Definition quarantine_stats_zero : quarantine_manager_stats :=
  mk_quarantine_manager_stats 0 0 0 0 0 0 0 0 0 0.
Definition quarantine_slots_zero := replicate QUARANTINE_MAX_ENTRIES quarantine_slot_zero.

Definition qm_boot : qm_state :=
  mk_qm_state quarantine_slots_zero (mk_quarantine_manager_config 0 false) quarantine_stats_zero false.

(** ** Helpers *)
Definition now_ms (timer_us : Z) : Z := ms_of_us timer_us.
Definition safe_copy_reason := safe_copy.

Definition quarantine_mode_to_string (mode : quarantine_mode) : bytes :=
  match mode with
  | QUARANTINE_MODE_BLOCK_ALL => lit "BLOCK_ALL"
  | QUARANTINE_MODE_RESTRICTED => lit "RESTRICTED"
  | QUARANTINE_MODE_LOG_ONLY => lit "LOG_ONLY"
  end.

Definition quarantine_source_to_string (source : quarantine_source) : bytes :=
  match source with
  | QUARANTINE_SOURCE_LOCAL_POLICY => lit "LOCAL_POLICY"
  | QUARANTINE_SOURCE_RATE_LIMIT => lit "RATE_LIMIT"
  | QUARANTINE_SOURCE_SWARM => lit "SWARM"
  | QUARANTINE_SOURCE_MANUAL => lit "MANUAL"
  | QUARANTINE_SOURCE_UNKNOWN => lit "UNKNOWN"
  end.

Definition load_default_config : quarantine_manager_config := mk_quarantine_manager_config 60000 true.

Definition quarantine_subject_from_ip (ip : Z) : quarantine_subject := QUARANTINE_SUBJECT_IP ip.
Definition quarantine_subject_from_mac (mac : option bytes) : quarantine_subject :=
  QUARANTINE_SUBJECT_MAC (match mac with Some m => take 6 m | None => zeros 6 end).
Definition quarantine_subject_from_device_id (device_id : Z) : quarantine_subject :=
  QUARANTINE_SUBJECT_DEVICE_ID device_id.

Definition subject_is_valid (subject : option quarantine_subject) : bool :=
  match subject with
  | Some (QUARANTINE_SUBJECT_IP ip) => negb (ip =? 0)
  | Some (QUARANTINE_SUBJECT_MAC mac) => negb (bool_decide (mac = zeros 6))
  | Some (QUARANTINE_SUBJECT_DEVICE_ID device_id) => negb (device_id =? 0)
  | Some QUARANTINE_SUBJECT_NONE | None => false
  end.

Definition subject_equals (a b : quarantine_subject) : bool :=
  match a, b with
  | QUARANTINE_SUBJECT_IP x, QUARANTINE_SUBJECT_IP y => x =? y
  | QUARANTINE_SUBJECT_MAC x, QUARANTINE_SUBJECT_MAC y => bool_decide (x = y)
  | QUARANTINE_SUBJECT_DEVICE_ID x, QUARANTINE_SUBJECT_DEVICE_ID y => x =? y
  | _, _ => false
  end.

Definition entry_is_expired (entry : quarantine_entry) (ts : Z) : bool :=
  if qe_expires_at_ms entry =? 0 then false else ts >=? qe_expires_at_ms entry.

Definition find_slot_locked (subject : quarantine_subject) (st : qm_state) : option nat :=
  first_index (λ s, ql_in_use s && subject_equals (qe_subject (ql_entry s)) subject) (qm_slots st).

Definition find_empty_slot_locked (st : qm_state) : option nat :=
  first_index (λ s, negb (ql_in_use s)) (qm_slots st).

Definition lru_stamp (e : quarantine_entry) : Z :=
  if qe_last_hit_ms e =? 0 then qe_created_at_ms e else qe_last_hit_ms e.

Definition find_lru_slot_locked (st : qm_state) : option nat :=
  lru_index ql_in_use (λ s, lru_stamp (ql_entry s)) (qm_slots st).

Definition clear_slot_locked (index : nat) (st : qm_state) : qm_state :=
  match qm_slots st !! index with
  | None => st
  | Some s =>
    let st1 :=
      if ql_in_use s then st <| qm_stats ::= λ x, x <| qs_active_entries ::= dec_if_pos |> |>
      else st in
    st1 <| qm_slots ::= <[index := quarantine_slot_zero]> |>
  end.

Definition fill_check_result (entry : quarantine_entry) (ts : Z) : quarantine_check_result :=
  mk_quarantine_check_result true (qe_mode entry) (qe_source entry) (qe_expires_at_ms entry)
    (if (qe_expires_at_ms entry =? 0) || (qe_expires_at_ms entry <=? ts) then 0
     else u32 (qe_expires_at_ms entry - ts))
    (qe_hit_count entry) (qe_risk_score entry)
    (safe_copy_reason (zeros QUARANTINE_REASON_LEN) (Some (qe_reason entry))).

(** ** Public calls *)
Definition quarantine_manager_init (config : option quarantine_manager_config) (st : qm_state)
    : qm_state * esp_err :=
  let cfg := match config with
    | None => load_default_config
    | Some c => if qc_default_ttl_ms c =? 0 then c <| qc_default_ttl_ms := 60000 |> else c
    end in
  (mk_qm_state quarantine_slots_zero cfg
     (quarantine_stats_zero <| qs_capacity := Z.of_nat QUARANTINE_MAX_ENTRIES |>) true, ESP_OK).

Definition quarantine_manager_reset (st : qm_state) : qm_state :=
  mk_qm_state quarantine_slots_zero (qm_config st)
    (quarantine_stats_zero <| qs_capacity := Z.of_nat QUARANTINE_MAX_ENTRIES |>) (qm_initialized st).

Definition refresh_entry (mode : quarantine_mode) (source : quarantine_source) (ttl_ms risk_score ts : Z)
    (reason : option bytes) (e : quarantine_entry) : quarantine_entry :=
  e <| qe_mode := mode |> <| qe_source := source |> <| qe_expires_at_ms := u32 (ts + ttl_ms) |>
    <| qe_risk_score := risk_score |> <| qe_reason ::= λ r, safe_copy_reason r reason |>.

Definition new_entry (subject : quarantine_subject) (mode : quarantine_mode) (source : quarantine_source)
    (ttl_ms risk_score ts : Z) (reason : option bytes) : quarantine_entry :=
  mk_quarantine_entry subject mode source ts (u32 (ts + ttl_ms)) 0 0 risk_score
    (safe_copy_reason (zeros QUARANTINE_REASON_LEN) reason).

(** The slot a new entry goes to: a free one, else the evicted one. *)
Definition alloc_slot (st : qm_state) : qm_state * option nat :=
  match find_empty_slot_locked st with
  | Some slot => (st, Some slot)
  | None =>
    if negb (qc_evict_lru_when_full (qm_config st)) then (st, None) else
    match find_lru_slot_locked st with
    | None => (st, None)
    | Some slot =>
      let st1 := clear_slot_locked slot st in
      (st1 <| qm_stats ::= λ x, x <| qs_evicted ::= inc64 |> |>, Some slot)
    end
  end.

Definition quarantine_manager_add (subject : option quarantine_subject) (mode : quarantine_mode)
    (source : quarantine_source) (ttl_ms risk_score : Z) (reason : option bytes) (timer_us : Z)
    (st : qm_state) : qm_state * esp_err :=
  match subject, qm_initialized st && subject_is_valid subject with
  | Some subject, true =>
    let ttl_ms := if ttl_ms =? 0 then qc_default_ttl_ms (qm_config st) else ttl_ms in
    let risk_score := if risk_score >? 100 then 100 else risk_score in
    let ts := now_ms timer_us in
    match find_slot_locked subject st with
    | Some slot =>
      (st <| qm_slots ::= alter (λ s, s <| ql_entry ::= refresh_entry mode source ttl_ms risk_score ts reason |>) slot |>
          <| qm_stats ::= λ x, x <| qs_refreshed ::= inc64 |> |>, ESP_OK)
    | None =>
      let '(st1, slot) := alloc_slot st in
      match slot with
      | None => (st1, ESP_ERR_NO_MEM)
      | Some slot =>
        (st1 <| qm_slots ::= <[slot := mk_quarantine_slot true (new_entry subject mode source ttl_ms risk_score ts reason)]> |>
             <| qm_stats ::= λ x, x <| qs_active_entries ::= inc32 |> <| qs_added ::= inc64 |> |>, ESP_OK)
      end
    end
  | _, _ => (st <| qm_stats ::= λ x, x <| qs_invalid_input ::= inc64 |> |>, ESP_ERR_INVALID_ARG)
  end.

Definition quarantine_manager_add_ip (ip : Z) := quarantine_manager_add (Some (quarantine_subject_from_ip ip)).
Definition quarantine_manager_add_mac (mac : option bytes) :=
  quarantine_manager_add (Some (quarantine_subject_from_mac mac)).
Definition quarantine_manager_add_device_id (device_id : Z) :=
  quarantine_manager_add (Some (quarantine_subject_from_device_id device_id)).

(** The counters of a miss on an expired entry, and of a removal. *)
Definition bump_expired (x : quarantine_manager_stats) : quarantine_manager_stats :=
  x <| qs_expired ::= inc64 |> <| qs_misses ::= inc64 |>.
Definition bump_removed (x : quarantine_manager_stats) : quarantine_manager_stats :=
  x <| qs_removed ::= inc64 |>.

Definition quarantine_manager_remove (subject : option quarantine_subject) (st : qm_state)
    : qm_state * bool :=
  match subject, qm_initialized st && subject_is_valid subject with
  | Some subject, true =>
    match find_slot_locked subject st with
    | None => (st, false)
    | Some slot =>
      let st1 := clear_slot_locked slot st in
      (st1 <| qm_stats ::= bump_removed |>, true)
    end
  | _, _ => (st, false)
  end.

Definition quarantine_manager_remove_ip (ip : Z) :=
  quarantine_manager_remove (Some (quarantine_subject_from_ip ip)).

Definition hit_entry (ts : Z) (e : quarantine_entry) : quarantine_entry :=
  e <| qe_hit_count ::= inc32 |> <| qe_last_hit_ms := ts |>.

(** The third component is what is left in [*out_result]. *)
Definition quarantine_manager_check (subject : option quarantine_subject) (out_result : bool)
    (timer_us : Z) (st : qm_state) : qm_state * bool * option quarantine_check_result :=
  if negb out_result then (st, false, None) else
  match subject, qm_initialized st && subject_is_valid subject with
  | Some subject, true =>
    let ts := now_ms timer_us in
    match find_slot_locked subject st ≫= λ i, pair i <$> qm_slots st !! i with
    | None => (st <| qm_stats ::= λ x, x <| qs_misses ::= inc64 |> |>, false, Some quarantine_result_zero)
    | Some (slot, s) =>
      if entry_is_expired (ql_entry s) ts then
        let st1 := clear_slot_locked slot st in
        (st1 <| qm_stats ::= bump_expired |>, false,
         Some quarantine_result_zero)
      else
        let entry := hit_entry ts (ql_entry s) in
        (st <| qm_slots ::= <[slot := s <| ql_entry := entry |>]> |>
            <| qm_stats ::= λ x, x <| qs_hits ::= inc64 |> |>, true,
         Some (fill_check_result entry ts))
    end
  | _, _ => (st <| qm_stats ::= λ x, x <| qs_invalid_input ::= inc64 |> |>, false,
             Some quarantine_result_zero)
  end.

Definition quarantine_manager_check_ip (ip : Z) :=
  quarantine_manager_check (Some (quarantine_subject_from_ip ip)).

Definition quarantine_manager_check_flow_src (key : option flow_key) (out_result : bool)
    (timer_us : Z) (st : qm_state) : qm_state * bool * option quarantine_check_result :=
  match key with
  | None => (st, false, if out_result then Some quarantine_result_zero else None)
  | Some key => quarantine_manager_check_ip (fk_src_ip key) out_result timer_us st
  end.

Definition quarantine_manager_expire_old (timer_us : Z) (st : qm_state) : qm_state * Z :=
  if negb (qm_initialized st) then (st, 0) else
  let ts := now_ms timer_us in
  let '(slots, active, expired) :=
    expire_loop ql_in_use (λ s, entry_is_expired (ql_entry s) ts) quarantine_slot_zero
      (qm_slots st) (qs_active_entries (qm_stats st)) 0 in
  (st <| qm_slots := slots |>
      <| qm_stats ::= λ x, x <| qs_active_entries := active |>
           <| qs_expired ::= λ n, u64 (n + expired) |> |>, expired).

Definition quarantine_manager_get_stats (st : qm_state) : quarantine_manager_stats := qm_stats st.

Definition quarantine_manager_foreach (st : qm_state) : list quarantine_entry :=
  if negb (qm_initialized st) then []
  else omap (λ s, if ql_in_use s then Some (ql_entry s) else None) (qm_slots st).

(** ** The abstract list: a finite map from subjects to entries *)
#[export] Instance quarantine_slot_view : Slot quarantine_slot quarantine_subject quarantine_entry := {|
  s_used := ql_in_use;
  s_key s := qe_subject (ql_entry s);
  s_val := ql_entry;
|}.

Definition qm_map (st : qm_state) : gmap quarantine_subject quarantine_entry := slots_map (qm_slots st).

(** Every entry added is active, removed, expired or evicted (counters wrap). *)
Definition qm_balance (x : quarantine_manager_stats) : Prop :=
  u64 (qs_added x) = u64 (qs_active_entries x + qs_removed x + qs_expired x + qs_evicted x).

Record qm_inv (st : qm_state) : Prop := {
  qm_inv_length : List.length (qm_slots st) = QUARANTINE_MAX_ENTRIES;
  qm_inv_unique : keys_unique (qm_slots st);
  qm_inv_active : qs_active_entries (qm_stats st) = Z.of_nat (count ql_in_use (qm_slots st));
  qm_inv_risk : Forall (λ s, qe_risk_score (ql_entry s) ≤ 100) (qm_slots st);
  qm_inv_balance : qm_balance (qm_stats st);
}.

(** What the two main calls do to the map. *)
Inductive add_spec (subject : quarantine_subject) (refresh : quarantine_entry → quarantine_entry)
    (fresh : quarantine_entry) (evict : bool) (m : gmap quarantine_subject quarantine_entry)
    : esp_err → gmap quarantine_subject quarantine_entry → Prop :=
| add_refreshed e :
    m !! subject = Some e → add_spec subject refresh fresh evict m ESP_OK (<[subject := refresh e]> m)
| add_new :
    m !! subject = None → (size m < QUARANTINE_MAX_ENTRIES)%nat →
    add_spec subject refresh fresh evict m ESP_OK (<[subject := fresh]> m)
| add_evicted victim ve :
    m !! subject = None → size m = QUARANTINE_MAX_ENTRIES → evict = true → m !! victim = Some ve →
    (∀ s e, m !! s = Some e → lru_stamp ve ≤ lru_stamp e) →
    add_spec subject refresh fresh evict m ESP_OK (<[subject := fresh]> (delete victim m))
| add_full :
    m !! subject = None → size m = QUARANTINE_MAX_ENTRIES →
    (evict = false ∨ ∀ s e, m !! s = Some e → U32_MAX ≤ lru_stamp e) →
    add_spec subject refresh fresh evict m ESP_ERR_NO_MEM m.

Definition check_map (subject : quarantine_subject) (ts : Z)
    (m : gmap quarantine_subject quarantine_entry) : gmap quarantine_subject quarantine_entry * bool :=
  match m !! subject with
  | None => (m, false)
  | Some e => if entry_is_expired e ts then (delete subject m, false)
              else (<[subject := hit_entry ts e]> m, true)
  end.

(** ** Lemmas *)
Lemma subject_equals_spec a b :
  b ≠ QUARANTINE_SUBJECT_NONE → subject_equals a b = bool_decide (a = b).
Proof.
  intros Hb. destruct a, b; simpl; try done.
  all: try (case_bool_decide as E; [discriminate E|done]).
  all: try (destruct (Z.eqb_spec ip ip0) || destruct (Z.eqb_spec device_id device_id0)
            || (case_bool_decide as E0)); case_bool_decide; congruence.
Qed.

Lemma valid_not_none subject : subject_is_valid (Some subject) = true → subject ≠ QUARANTINE_SUBJECT_NONE.
Proof. by intros ? ->. Qed.

Lemma find_slot_eq subject st :
  subject ≠ QUARANTINE_SUBJECT_NONE →
  find_slot_locked subject st = first_index (key_is subject) (qm_slots st).
Proof. intros H. apply first_index_ext. intros s. by rewrite subject_equals_spec. Qed.

Lemma qm_inv_empty cfg stats ini :
  qs_active_entries stats = 0 → qm_balance stats →
  qm_inv (mk_qm_state quarantine_slots_zero cfg stats ini).
Proof.
  intros Ha Hb. constructor; simpl; [done|by apply keys_unique_zero|by rewrite Ha| |done].
  apply Forall_replicate. simpl. lia.
Qed.

Lemma qm_inv_store st i s x cfg stats' ini :
  qm_inv st → qm_slots st !! i = Some s → keys_unique (<[i:=x]> (qm_slots st)) →
  qe_risk_score (ql_entry x) ≤ 100 →
  qs_active_entries stats' + (if ql_in_use s then 1 else 0) =
    qs_active_entries (qm_stats st) + (if ql_in_use x then 1 else 0) →
  qm_balance stats' → qm_inv (mk_qm_state (<[i:=x]> (qm_slots st)) cfg stats' ini).
Proof.
  intros [Hl Hu Ha Hr _] Hi Hux Hrx Hst Hb. constructor; simpl; try done.
  - by rewrite length_insert.
  - pose proof (count_insert ql_in_use _ _ _ x Hi). rewrite Ha in Hst.
    destruct (ql_in_use s), (ql_in_use x); lia.
  - by apply Forall_insert.
Qed.

(** Clearing a used slot and counting the removal in one of the three ways. *)
Lemma clear_slot_ok i s st (f : quarantine_manager_stats → quarantine_manager_stats) :
  qm_inv st → qm_slots st !! i = Some s → ql_in_use s = true →
  (∀ x, qs_active_entries (f x) = qs_active_entries x) →
  (∀ x, qs_added (f x) = qs_added x ∧
    u64 (qs_removed (f x) + qs_expired (f x) + qs_evicted (f x)) =
    u64 (qs_removed x + qs_expired x + qs_evicted x + 1)) →
  let st' := (clear_slot_locked i st) <| qm_stats ::= f |> in
  qm_inv st' ∧ qm_slots st' = <[i := quarantine_slot_zero]> (qm_slots st) ∧
  qm_map st' = delete (qe_subject (ql_entry s)) (qm_map st) ∧
  qm_config st' = qm_config st ∧ qm_initialized st' = qm_initialized st.
Proof.
  intros Hinv Hi Hs Hfa Hfb.
  pose proof (count_pos ql_in_use _ _ _ Hi Hs). pose proof (qm_inv_active _ Hinv) as Ha.
  unfold clear_slot_locked. rewrite Hi, Hs. fields. split_and!; try done.
  - eapply qm_inv_store; eauto.
    + apply keys_unique_clear; [apply Hinv|done].
    + simpl. lia.
    + rewrite Hfa. simpl. unfold dec_if_pos. rewrite decide_True by lia. rewrite Hs. lia.
    + pose proof (qm_inv_balance _ Hinv) as Hb. unfold qm_balance in *.
      match goal with |- context [f ?x] => destruct (Hfb x) as [-> Hsum]; rewrite (Hfa x) end.
      simpl in Hsum |- *. rewrite <- !Z.add_assoc in Hsum |- *.
      rewrite <- u64_add_r, Hsum, u64_add_r. unfold dec_if_pos. rewrite decide_True by lia.
      apply (u64_cong _ _ _ _ Hb). lia.
  - exact (slots_map_clear _ i s quarantine_slot_zero (qm_inv_unique _ Hinv) Hi Hs eq_refl).
Qed.

Lemma find_empty_slot_spec st :
  qm_inv st →
  match find_empty_slot_locked st with
  | Some i => (size (qm_map st) < QUARANTINE_MAX_ENTRIES)%nat ∧
              ∃ s, qm_slots st !! i = Some s ∧ ql_in_use s = false
  | None => size (qm_map st) = QUARANTINE_MAX_ENTRIES
  end.
Proof.
  intros [Hl Hu _ _ _]. unfold find_empty_slot_locked, qm_map. rewrite slots_map_size by done.
  destruct (first_index _ _) as [i|] eqn:E.
  - pose proof (first_index_lookup _ _ _ E) as (s & Hs & Hn%negb_true_iff). split; [|eauto].
    exact (count_lt_free ql_in_use _ _ _ _ Hs Hn Hl).
  - apply first_free_None in E. simpl in *. congruence.
Qed.

Lemma find_lru_slot_spec st :
  qm_inv st →
  match find_lru_slot_locked st with
  | Some i => ∃ s, qm_slots st !! i = Some s ∧ ql_in_use s = true ∧
      qm_map st !! qe_subject (ql_entry s) = Some (ql_entry s) ∧
      ∀ k e, qm_map st !! k = Some e → lru_stamp (ql_entry s) ≤ lru_stamp e
  | None => ∀ k e, qm_map st !! k = Some e → U32_MAX ≤ lru_stamp e
  end.
Proof.
  intros Hinv. unfold find_lru_slot_locked. destruct (lru_index _ _ _) as [i|] eqn:E.
  - apply lru_index_Some in E as (s & Hi & Hs & _ & Hmin & _). exists s. split_and!; try done.
    + exact (slots_map_elem _ i s (qm_inv_unique _ Hinv) Hi Hs).
    + intros k e (j & t & _ & Hj & Ht & _ & <-)%slots_map_Some. eauto.
  - intros k e (j & t & _ & Hj & Ht & _ & <-)%slots_map_Some.
    exact (lru_index_None _ _ _ E j t Hj Ht).
Qed.

(** [alloc_slot] yields a free slot and what the map keeps. *)
Lemma alloc_slot_ok subject refresh fresh st :
  qm_inv st → qm_map st !! subject = None →
  let '(st', slot) := alloc_slot st in
  let spec := add_spec subject refresh fresh (qc_evict_lru_when_full (qm_config st)) (qm_map st) in
  qm_inv st' ∧ qm_config st' = qm_config st ∧ qm_initialized st' = qm_initialized st ∧
  match slot with
  | Some i => (∃ s, qm_slots st' !! i = Some s ∧ ql_in_use s = false) ∧
              qm_map st' !! subject = None ∧ spec ESP_OK (<[subject := fresh]> (qm_map st'))
  | None => st' = st ∧ spec ESP_ERR_NO_MEM (qm_map st)
  end.
Proof.
  intros Hinv Hk. unfold alloc_slot. pose proof (find_empty_slot_spec st Hinv) as Hemp.
  destruct (find_empty_slot_locked st) as [i|].
  { destruct Hemp as (Hsz & Hs). split_and!; try done. by constructor. }
  destruct (qc_evict_lru_when_full (qm_config st)) eqn:Eev; simpl.
  2: { split_and!; try done. constructor; auto. }
  pose proof (find_lru_slot_spec st Hinv) as Hlru.
  destruct (find_lru_slot_locked st) as [i|].
  2: { split_and!; try done. constructor; auto. }
  destruct Hlru as (s & Hi & Hs & Hm & Hmin).
  pose proof (clear_slot_ok i s st (λ x : quarantine_manager_stats, x <| qs_evicted ::= inc64 |>) Hinv Hi Hs) as H.
  destruct H as (H1 & H2 & H3 & H4 & H5).
  { done. } { intros x. fields. split; [done|]. unfold inc64. rewrite u64_add_r. f_equal. lia. }
  split_and!; try done.
  - rewrite H2. eexists. split; [by apply list_lookup_insert_eq, (lookup_lt_Some _ _ _ Hi)|done].
  - rewrite H3, lookup_delete_None. auto.
  - rewrite H3. eapply add_evicted; eauto.
Qed.

(** Storing an entry: over the entry of the same subject, or into a free slot. *)
Lemma store_entry_ok i s e cfg stats' ini st :
  qm_inv st → qm_slots st !! i = Some s → qe_risk_score e ≤ 100 →
  (ql_in_use s = true ∧ qe_subject e = qe_subject (ql_entry s) ∨
   ql_in_use s = false ∧ qm_map st !! qe_subject e = None) →
  qs_active_entries stats' =
    qs_active_entries (qm_stats st) + (if ql_in_use s then 0 else 1) →
  qm_balance stats' →
  let st' := mk_qm_state (<[i := mk_quarantine_slot true e]> (qm_slots st)) cfg stats' ini in
  qm_inv st' ∧ qm_map st' = <[qe_subject e := e]> (qm_map st).
Proof.
  intros Hinv Hi Hr Hs Ha Hb. destruct Hs as [[Hs Hk]|[Hs Hk]].
  - split; [eapply qm_inv_store; eauto|].
    + eapply keys_unique_update; eauto; apply Hinv.
    + simpl. rewrite Ha, Hs. lia.
    + exact (slots_map_update _ _ i s (mk_quarantine_slot true e) (qm_inv_unique _ Hinv) Hi Hs
        (eq_sym Hk) eq_refl eq_refl).
  - apply slots_map_None in Hk. split; [eapply qm_inv_store; eauto|].
    + apply keys_unique_add; [apply Hinv|done].
    + simpl. rewrite Ha, Hs. lia.
    + exact (slots_map_add _ _ i s (mk_quarantine_slot true e) (qm_inv_unique _ Hinv) Hi Hs Hk
        eq_refl eq_refl).
Qed.

Lemma find_slot_Some subject st i :
  subject ≠ QUARANTINE_SUBJECT_NONE → find_slot_locked subject st = Some i →
  ∃ s, qm_slots st !! i = Some s ∧ ql_in_use s = true ∧ qe_subject (ql_entry s) = subject ∧
       qm_map st !! subject = Some (ql_entry s).
Proof.
  intros Hne. rewrite find_slot_eq by done. intros E.
  pose proof (first_index_lookup _ _ _ E) as (s & Hs & [Hu Hk]%key_is_true).
  exists s. split_and!; try done. exact (slots_map_found _ _ _ _ E Hs).
Qed.

Lemma find_slot_None subject st :
  subject ≠ QUARANTINE_SUBJECT_NONE → find_slot_locked subject st = None →
  qm_map st !! subject = None.
Proof. intros Hne. rewrite find_slot_eq by done. apply slots_map_None. Qed.

Lemma qm_active_inc st i s :
  qm_inv st → qm_slots st !! i = Some s → ql_in_use s = false →
  inc32 (qs_active_entries (qm_stats st)) = qs_active_entries (qm_stats st) + 1.
Proof.
  intros Hinv Hi Hs. apply inc32_small. rewrite (qm_inv_active _ Hinv).
  pose proof (count_lt_free ql_in_use _ _ _ _ Hi Hs (qm_inv_length _ Hinv)).
  unfold U32_MAX, QUARANTINE_MAX_ENTRIES in *. lia.
Qed.

(** The effective time to live and risk of an addition. *)
Definition effective_ttl (ttl_ms : Z) (st : qm_state) : Z :=
  if ttl_ms =? 0 then qc_default_ttl_ms (qm_config st) else ttl_ms.
Definition capped_risk (risk_score : Z) : Z := if risk_score >? 100 then 100 else risk_score.

Lemma refresh_entry_fields mode source ttl risk ts reason e :
  qe_subject (refresh_entry mode source ttl risk ts reason e) = qe_subject e ∧
  qe_risk_score (refresh_entry mode source ttl risk ts reason e) = risk.
Proof. done. Qed.
Lemma hit_entry_fields ts e :
  qe_subject (hit_entry ts e) = qe_subject e ∧ qe_risk_score (hit_entry ts e) = qe_risk_score e ∧
  qe_expires_at_ms (hit_entry ts e) = qe_expires_at_ms e.
Proof. done. Qed.
Lemma capped_risk_le risk_score : capped_risk risk_score ≤ 100.
Proof. unfold capped_risk. rewrite Z.gtb_ltb. case_match; bools; lia. Qed.
#[local] Opaque refresh_entry hit_entry.

(** Discharge a goal about a state built by one store, through [store_entry_ok]. *)
Ltac store_entry st Hinv Hi :=
  match goal with
  | |- context [mk_qm_state (<[?i := mk_quarantine_slot true ?e]> (qm_slots st)) ?c ?s ?ini] =>
    let H1 := fresh "Hinv'" in let H2 := fresh "Hmap'" in
    destruct (store_entry_ok i _ e c s ini st Hinv Hi) as [H1 H2]
  end.

Lemma add_ok subject mode source ttl_ms risk_score reason timer_us st :
  qm_inv st → qm_initialized st = true → subject_is_valid (Some subject) = true →
  let ttl := effective_ttl ttl_ms st in
  let risk := capped_risk risk_score in
  let ts := now_ms timer_us in
  let '(st', e) := quarantine_manager_add (Some subject) mode source ttl_ms risk_score reason timer_us st in
  qm_inv st' ∧ qm_config st' = qm_config st ∧ qm_initialized st' = true ∧
  add_spec subject (refresh_entry mode source ttl risk ts reason)
    (new_entry subject mode source ttl risk ts reason) (qc_evict_lru_when_full (qm_config st))
    (qm_map st) e (qm_map st').
Proof.
  intros Hinv Hini Hval. cbv zeta. unfold quarantine_manager_add. rewrite Hini, Hval. simpl.
  fold (effective_ttl ttl_ms st) (capped_risk risk_score). pose proof (valid_not_none _ Hval) as Hne.
  pose proof (capped_risk_le risk_score) as Hrisk.
  set (refresh := refresh_entry _ _ _ _ _ _). set (fresh := new_entry _ _ _ _ _ _ _).
  destruct (find_slot_locked subject st) as [i|] eqn:E.
  - apply find_slot_Some in E as (s & Hi & Hs & Hk & Hm); [|done].
    fields. rewrite (alter_insert _ _ _ _ Hi). rewrite Hs.
    destruct (refresh_entry_fields mode source (effective_ttl ttl_ms st) (capped_risk risk_score)
      (now_ms timer_us) reason (ql_entry s)) as [Hrk Hrr]. fold refresh in Hrk, Hrr.
    store_entry st Hinv Hi; [by rewrite Hrr|by left|by rewrite Hs, Z.add_0_r|apply Hinv|].
    split_and!; try done. rewrite Hmap', Hrk, Hk. by constructor.
  - apply find_slot_None in E; [|done].
    pose proof (alloc_slot_ok subject refresh fresh st Hinv E) as H.
    destruct (alloc_slot st) as [st1 [i|]]; destruct H as (Hinv1 & Hc & Hin & H).
    2: { destruct H as [-> ?]. done. }
    destruct H as ((s & Hi & Hs) & Hm & Hspec). fields.
    store_entry st1 Hinv1 Hi; [done|by right| | |].
    + simpl. by rewrite (qm_active_inc _ _ _ Hinv1 Hi Hs), Hs.
    + pose proof (qm_inv_balance _ Hinv1) as Hb. unfold qm_balance in *. simpl.
      rewrite (qm_active_inc _ _ _ Hinv1 Hi Hs). wrap_with Hb.
    + split_and!; try done; [congruence|]. by rewrite Hmap'.
Qed.

Lemma clear_expired x :
  let f := bump_expired in
  qs_added (f x) = qs_added x ∧
  u64 (qs_removed (f x) + qs_expired (f x) + qs_evicted (f x)) =
  u64 (qs_removed x + qs_expired x + qs_evicted x + 1).
Proof. simpl. unfold inc64. split; [done|]. rewrite u64_add_m. f_equal. lia. Qed.

Lemma clear_removed x :
  let f := bump_removed in
  qs_added (f x) = qs_added x ∧
  u64 (qs_removed (f x) + qs_expired (f x) + qs_evicted (f x)) =
  u64 (qs_removed x + qs_expired x + qs_evicted x + 1).
Proof.
  simpl. unfold inc64. split; [done|]. rewrite <- !Z.add_assoc, u64_add_l. f_equal. lia.
Qed.

Lemma quarantine_check_ok subject timer_us st :
  qm_inv st → qm_initialized st = true → subject_is_valid (Some subject) = true →
  let '(st', found, out) := quarantine_manager_check (Some subject) true timer_us st in
  qm_inv st' ∧ qm_config st' = qm_config st ∧ qm_initialized st' = true ∧
  (qm_map st', found) = check_map subject (now_ms timer_us) (qm_map st) ∧
  out = Some (match qm_map st' !! subject with
              | Some e => fill_check_result e (now_ms timer_us) | None => quarantine_result_zero end).
Proof.
  intros Hinv Hini Hval. unfold quarantine_manager_check. rewrite Hini, Hval. cbn [negb andb].
  pose proof (valid_not_none _ Hval) as Hne. unfold check_map.
  destruct (find_slot_locked subject st) as [i|] eqn:E; simpl.
  2: { apply find_slot_None in E; [|done]. unfold qm_map in *. simpl. rewrite E.
       split_and!; try done. by destruct Hinv. }
  apply find_slot_Some in E as (s & Hi & Hs & Hk & Hm); [|done]. rewrite Hi, Hm. simpl.
  destruct (entry_is_expired (ql_entry s) (now_ms timer_us)).
  - pose proof (clear_slot_ok i s st bump_expired Hinv Hi Hs (λ x, eq_refl) clear_expired) as (H1 & _ & H2 & H3 & H4).
    rewrite <- Hk. split_and!; [done|done|by rewrite H4|by rewrite H2|].
    by rewrite H2, lookup_delete_eq.
  - destruct (hit_entry_fields (now_ms timer_us) (ql_entry s)) as (Hhk & Hhr & _). fields. rewrite Hs.
    store_entry st Hinv Hi; [rewrite Hhr; apply (Forall_lookup_1 _ _ _ _ (qm_inv_risk _ Hinv) Hi)|
      by left|by rewrite Hs, Z.add_0_r|apply Hinv|].
    split_and!; [done|done|done| |]; rewrite Hmap', Hhk, Hk; [done|]. by rewrite lookup_insert_eq.
Qed.

Lemma quarantine_remove_ok subject st :
  qm_inv st → qm_initialized st = true → subject_is_valid (Some subject) = true →
  let '(st', removed) := quarantine_manager_remove (Some subject) st in
  qm_inv st' ∧ qm_config st' = qm_config st ∧ qm_initialized st' = true ∧
  qm_map st' = delete subject (qm_map st) ∧ removed = bool_decide (is_Some (qm_map st !! subject)).
Proof.
  intros Hinv Hini Hval. unfold quarantine_manager_remove. rewrite Hini, Hval. cbn [andb].
  pose proof (valid_not_none _ Hval) as Hne. destruct (find_slot_locked subject st) as [i|] eqn:E.
  - apply find_slot_Some in E as (s & Hi & Hs & Hk & Hm); [|done].
    pose proof (clear_slot_ok i s st bump_removed Hinv Hi Hs
      (λ x, eq_refl) clear_removed) as (H1 & _ & H2 & H3 & H4).
    split_and!; [done|done|by rewrite H4|by rewrite H2, Hk|by rewrite Hm, bool_decide_eq_true_2].
  - apply find_slot_None in E; [|done]. rewrite E.
    split_and!; [done..|by rewrite delete_id|by rewrite bool_decide_eq_false_2 by (by intros [])].
Qed.

Lemma expire_ok timer_us st :
  qm_inv st → qm_initialized st = true →
  let '(st', n) := quarantine_manager_expire_old timer_us st in
  qm_inv st' ∧ qm_config st' = qm_config st ∧ qm_initialized st' = true ∧
  Z.of_nat (size (qm_map st)) = Z.of_nat (size (qm_map st')) + n ∧
  ∀ subject e, qm_map st' !! subject = Some e ↔
    qm_map st !! subject = Some e ∧ entry_is_expired e (now_ms timer_us) = false.
Proof.
  intros Hinv Hini. pose proof Hinv as [Hl Hu Ha Hr Hb]. unfold quarantine_manager_expire_old.
  rewrite Hini. cbn [negb]. unfold QUARANTINE_MAX_ENTRIES in Hl.
  set (dead := λ s, entry_is_expired (ql_entry s) (now_ms timer_us)).
  rewrite expire_loop_spec; [|done|rewrite Ha; lia|lia|unfold U32_MAX; lia].
  pose proof (count_expired ql_in_use dead quarantine_slot_zero (qm_slots st) eq_refl) as Hc.
  pose proof (keys_unique_expire dead quarantine_slot_zero _ Hu eq_refl) as Hu'.
  fields. split_and!; try done.
  - constructor; simpl; [by rewrite length_map|done| | |].
    + rewrite Ha. simpl in *. lia.
    + apply Forall_map_expire; [done|]. simpl. lia.
    + unfold qm_balance in *. simpl. wrap_with Hb.
  - unfold qm_map. rewrite !slots_map_size by done. simpl in *. lia.
  - intros k e. unfold qm_map. simpl. rewrite (slots_map_expire dead) by done. split.
    + intros (i & s & Hi & Hs & Hd & <- & <-). split; [|done]. exact (slots_map_elem _ i s Hu Hi Hs).
    + intros [(i & s & _ & Hi & Hs & <- & <-)%slots_map_Some Hd]. by exists i, s.
Qed.

(** ** Runs of the component *)
Inductive qm_op :=
| QmInit (config : option quarantine_manager_config)
| QmReset
| QmAdd (subject : option quarantine_subject) (mode : quarantine_mode) (source : quarantine_source)
    (ttl_ms risk_score : Z) (reason : option bytes) (timer_us : Z)
| QmRemove (subject : option quarantine_subject)
| QmCheck (subject : option quarantine_subject) (out_result : bool) (timer_us : Z)
| QmExpireOld (timer_us : Z).

Definition qm_step (st : qm_state) (op : qm_op) : qm_state :=
  match op with
  | QmInit config => (quarantine_manager_init config st).1
  | QmReset => quarantine_manager_reset st
  | QmAdd subject mode source ttl risk reason us =>
    (quarantine_manager_add subject mode source ttl risk reason us st).1
  | QmRemove subject => (quarantine_manager_remove subject st).1
  | QmCheck subject out us => (quarantine_manager_check subject out us st).1.1
  | QmExpireOld us => (quarantine_manager_expire_old us st).1
  end.

Definition qm_run (ops : list qm_op) : qm_state := fold_left qm_step ops qm_boot.

(** An operation on a subject either fails its guard and only counts, or is one
    on an initialised table with a valid subject. *)
Lemma guard_cases subject st :
  (∃ s, subject = Some s ∧ qm_initialized st = true ∧ subject_is_valid (Some s) = true) ∨
  qm_initialized st && subject_is_valid subject = false.
Proof.
  destruct (qm_initialized st), subject as [s|]; simpl; eauto.
  destruct (subject_is_valid (Some s)) eqn:E; [left; eauto|by right].
Qed.

Lemma guard_false_add subject mode source ttl risk reason us st :
  qm_initialized st && subject_is_valid subject = false →
  quarantine_manager_add subject mode source ttl risk reason us st =
  (st <| qm_stats ::= λ x, x <| qs_invalid_input ::= inc64 |> |>, ESP_ERR_INVALID_ARG).
Proof. intros H. unfold quarantine_manager_add. destruct subject; [by rewrite H|done]. Qed.

Lemma guard_false_remove subject st :
  qm_initialized st && subject_is_valid subject = false →
  quarantine_manager_remove subject st = (st, false).
Proof. intros H. unfold quarantine_manager_remove. destruct subject; [by rewrite H|done]. Qed.

Lemma guard_false_check subject us st :
  qm_initialized st && subject_is_valid subject = false →
  quarantine_manager_check subject true us st =
  (st <| qm_stats ::= λ x, x <| qs_invalid_input ::= inc64 |> |>, false, Some quarantine_result_zero).
Proof. intros H. unfold quarantine_manager_check. destruct subject; [by rewrite H|done]. Qed.

Lemma qm_step_inv st op : qm_inv st → qm_inv (qm_step st op).
Proof.
  intros Hinv. destruct op as [cfg| |subject mode source ttl risk reason us|subject|subject out us|us];
    cbn [qm_step].
  - by apply qm_inv_empty.
  - by apply qm_inv_empty.
  - destruct (guard_cases subject st) as [(s & -> & Hi & Hv)|H].
    + pose proof (add_ok s mode source ttl risk reason us st Hinv Hi Hv) as H. cbv zeta in H.
      destruct (quarantine_manager_add _ _ _ _ _ _ _ _). apply H.
    + rewrite guard_false_add by done. by destruct Hinv.
  - destruct (guard_cases subject st) as [(s & -> & Hi & Hv)|H].
    + pose proof (quarantine_remove_ok s st Hinv Hi Hv) as H. destruct (quarantine_manager_remove _ _). apply H.
    + by rewrite guard_false_remove.
  - destruct out; [|done]. destruct (guard_cases subject st) as [(s & -> & Hi & Hv)|H].
    + pose proof (quarantine_check_ok s us st Hinv Hi Hv) as H. destruct (quarantine_manager_check _ _ _ _) as [[? ?] ?].
      apply H.
    + rewrite guard_false_check by done. by destruct Hinv.
  - destruct (qm_initialized st) eqn:Hi; [|by unfold quarantine_manager_expire_old; rewrite Hi].
    pose proof (expire_ok us st Hinv Hi) as H. destruct (quarantine_manager_expire_old us st). apply H.
Qed.

Lemma qm_run_from ops st : qm_inv st → qm_inv (fold_left qm_step ops st).
Proof. revert st. induction ops; simpl; auto using qm_step_inv. Qed.

Lemma qm_boot_inv : qm_inv qm_boot.
Proof. by apply qm_inv_empty. Qed.

(** *** A quarantine until its deadline *)

(** A stored deadline of zero is one that never passes. *)
Definition outlives (deadline ts : Z) : bool := (deadline =? 0) || (ts <? deadline).

Lemma expired_outlives e ts : entry_is_expired e ts = negb (outlives (qe_expires_at_ms e) ts).
Proof.
  unfold entry_is_expired, outlives. destruct (_ =? 0); [done|]. cbn [orb].
  by rewrite Z.geb_leb, Z.ltb_antisym, negb_involutive.
Qed.

Lemma outlives_le deadline ts ts' : ts' ≤ ts → outlives deadline ts = true → outlives deadline ts' = true.
Proof. unfold outlives. intros Hle [H|H]%orb_true_iff; bools; apply orb_true_iff; [left|right]; lia. Qed.

(** Calls that neither restart the table nor name [subject] in an addition or a
    removal; and calls that may let an entry expire do so at readings of the clock
    that satisfy [P]. *)
Definition untouched (subject : quarantine_subject) (op : qm_op) : Prop :=
  match op with
  | QmInit _ | QmReset => False
  | QmAdd s _ _ _ _ _ _ | QmRemove s => s ≠ Some subject
  | QmCheck _ _ _ | QmExpireOld _ => True
  end.
Definition expires_at (P : Z → Prop) (op : qm_op) : Prop :=
  match op with
  | QmCheck _ _ us | QmExpireOld us => P (now_ms us)
  | QmInit _ | QmReset | QmAdd _ _ _ _ _ _ _ | QmRemove _ => True
  end.
Definition op_added (op : qm_op) : gset quarantine_subject :=
  match op with QmAdd (Some s) _ _ _ _ _ _ => {[s]} | _ => ∅ end.

(** No addition of a subject of [S] evicts an entry: eviction is off, or all the
    subjects that may be listed fit the table. *)
Definition fits (S : gset quarantine_subject) (st : qm_state) : Prop :=
  qc_evict_lru_when_full (qm_config st) = false ∨
  dom (qm_map st) ⊆ S ∧ (size S ≤ QUARANTINE_MAX_ENTRIES)%nat.

Lemma fits_room S s (m : gmap quarantine_subject quarantine_entry) :
  dom m ⊆ S → (size S ≤ QUARANTINE_MAX_ENTRIES)%nat → s ∈ S → m !! s = None →
  (size m < QUARANTINE_MAX_ENTRIES)%nat.
Proof.
  intros Hd Hsz Hs Hk. assert (dom m ⊂ S) as Hsub.
  { split; [done|]. intros H. apply H in Hs. apply elem_of_dom in Hs. rewrite Hk in Hs. by destruct Hs. }
  apply subset_size in Hsub. rewrite size_dom in Hsub. lia.
Qed.

Lemma fits_no_evict S s st :
  fits S st → s ∈ S → qm_map st !! s = None → size (qm_map st) = QUARANTINE_MAX_ENTRIES →
  qc_evict_lru_when_full (qm_config st) = false.
Proof. intros [?|[Hd Hsz]] Hs Hk Hm; [done|]. pose proof (fits_room S s _ Hd Hsz Hs Hk). lia. Qed.

(** A call other than a restart keeps the configuration and lists at most the
    subject it adds. *)
Lemma qm_step_dom subject st op :
  qm_inv st → qm_initialized st = true → untouched subject op →
  qm_config (qm_step st op) = qm_config st ∧ qm_initialized (qm_step st op) = true ∧
  dom (qm_map (qm_step st op)) ⊆ dom (qm_map st) ∪ op_added op.
Proof.
  intros Hinv Hi Hu. destruct op as [cfg| |s m src ttl risk reason us|s|s out us|us]; try done; cbn [qm_step op_added].
  - destruct (guard_cases s st) as [(s' & -> & _ & Hv)|H];
      [|rewrite guard_false_add by done; split_and!; [done|done|apply union_subseteq_l]].
    pose proof (add_ok s' m src ttl risk reason us st Hinv Hi Hv) as H. cbv zeta in H.
    destruct (quarantine_manager_add _ _ _ _ _ _ _ _) as [st' err]. destruct H as (_ & Hc & Hi' & Hs).
    split_and!; [done|done|]. simpl. destruct Hs; set_solver.
  - destruct (guard_cases s st) as [(s' & -> & _ & Hv)|H]; [|rewrite guard_false_remove by done; set_solver].
    pose proof (quarantine_remove_ok s' st Hinv Hi Hv) as H. destruct (quarantine_manager_remove _ _) as [st' b].
    destruct H as (_ & Hc & Hi' & Hm & _). split_and!; [done|done|]. simpl. rewrite Hm. set_solver.
  - destruct out; [|set_solver]. destruct (guard_cases s st) as [(s' & -> & _ & Hv)|H];
      [|rewrite guard_false_check by done; split_and!; [done|done|apply union_subseteq_l]].
    pose proof (quarantine_check_ok s' us st Hinv Hi Hv) as H.
    destruct (quarantine_manager_check _ _ _ _) as [[st' b] out]. destruct H as (_ & Hc & Hi' & Hm & _).
    split_and!; [done|done|]. simpl. unfold check_map in Hm. destruct (qm_map st !! s') as [e|] eqn:E;
      [destruct (entry_is_expired _ _)|]; injection Hm as -> _; [set_solver| |set_solver].
    rewrite dom_insert_lookup_L by eauto. set_solver.
  - pose proof (expire_ok us st Hinv Hi) as H. destruct (quarantine_manager_expire_old us st) as [st' n].
    destruct H as (_ & Hc & Hi' & _ & Hm). split_and!; [done|done|]. simpl. intros k [e He]%elem_of_dom.
    apply Hm in He as [He _]. apply elem_of_union_l, elem_of_dom. eauto.
Qed.

(** [subject] is listed until [deadline] in [mode]. *)
Definition held (subject : quarantine_subject) (deadline : Z) (mode : quarantine_mode) (st : qm_state)
    : Prop :=
  ∃ e, qm_map st !! subject = Some e ∧ qe_expires_at_ms e = deadline ∧ qe_mode e = mode.

(** What one call does to the entry of a subject it does not touch: it stays,
    with its deadline and mode, unless its deadline has passed; and none comes
    to be. *)
Lemma untouched_entry S subject st op :
  qm_inv st → qm_initialized st = true → untouched subject op →
  (∀ e', qm_map (qm_step st op) !! subject = Some e' →
     ∃ e, qm_map st !! subject = Some e ∧ qe_expires_at_ms e' = qe_expires_at_ms e ∧ qe_mode e' = qe_mode e) ∧
  (fits S st → op_added op ⊆ S → ∀ e, qm_map st !! subject = Some e →
     expires_at (λ ts, outlives (qe_expires_at_ms e) ts = true) op → is_Some (qm_map (qm_step st op) !! subject)).
Proof.
  intros Hinv Hi Hu. destruct op as [cfg| |s m src ttl risk reason us|s|s out us|us]; try done;
    cbn [qm_step op_added expires_at] in *.
  - destruct (guard_cases s st) as [(s' & -> & _ & Hv)|H];
      [|rewrite guard_false_add by done; split; [intros e'; exists e'; by split_and!|eauto]].
    pose proof (add_ok s' m src ttl risk reason us st Hinv Hi Hv) as H. cbv zeta in H.
    destruct (quarantine_manager_add _ _ _ _ _ _ _ _) as [st' err]. destruct H as (_ & _ & _ & Hs).
    assert (s' ≠ subject) as Hne by (intros ->; done). simpl. split.
    + intros e' He'. exists e'. split; [|done]. destruct Hs; rewrite ?lookup_insert_ne in He' by done; try done.
      by apply lookup_delete_Some in He' as [_ ?].
    + intros Hf Hin e He _. destruct Hs as [|H1 _|victim ve H1 H2 H3|]; rewrite ?lookup_insert_ne by done; try (by eexists).
      rewrite (fits_no_evict S s' st Hf) in H3 by (done || set_solver). done.
  - destruct (guard_cases s st) as [(s' & -> & _ & Hv)|H];
      [|rewrite guard_false_remove by done; split; [intros e'; exists e'; by split_and!|eauto]].
    pose proof (quarantine_remove_ok s' st Hinv Hi Hv) as H. destruct (quarantine_manager_remove _ _) as [st' b].
    destruct H as (_ & _ & _ & Hm & _). assert (s' ≠ subject) as Hne by (intros ->; done).
    simpl. rewrite Hm, lookup_delete_ne by done. split; [intros e'; exists e'; by split_and!|eauto].
  - destruct out; [|split; [intros e'; exists e'; by split_and!|eauto]].
    destruct (guard_cases s st) as [(s' & -> & _ & Hv)|H];
      [|rewrite guard_false_check by done; split; [intros e'; exists e'; by split_and!|eauto]].
    pose proof (quarantine_check_ok s' us st Hinv Hi Hv) as H.
    destruct (quarantine_manager_check _ _ _ _) as [[st' b] out]. destruct H as (_ & _ & _ & Hm & _). simpl.
    unfold check_map in Hm. destruct (decide (s' = subject)) as [->|Hne].
    + destruct (qm_map st !! subject) as [e|] eqn:E; [|injection Hm as -> _; rewrite E; split; done].
      destruct (entry_is_expired e _) eqn:Ex; injection Hm as -> _.
      * rewrite lookup_delete_eq. split; [done|]. intros _ _ e0 [= <-]. by rewrite expired_outlives in Ex; destruct (outlives _ _).
      * rewrite lookup_insert_eq. split; [intros e' [= <-]; exists e; by split_and!|eauto].
    + destruct (qm_map st !! s') as [e1|]; [destruct (entry_is_expired _ _)|]; injection Hm as -> _;
        rewrite ?lookup_delete_ne, ?lookup_insert_ne by done; (split; [intros e'; exists e'; by split_and!|eauto]).
  - pose proof (expire_ok us st Hinv Hi) as H. destruct (quarantine_manager_expire_old us st) as [st' n].
    destruct H as (_ & _ & _ & _ & Hm). simpl. split; [intros e' He'; exists e'; by apply Hm in He' as [? _]|].
    intros _ _ e He Ho. exists e. apply Hm. split; [done|]. by rewrite expired_outlives, Ho.
Qed.

(** The calls [later] keep the entry of [subject] while its deadline is ahead. *)
Lemma held_run S subject deadline mode later st :
  qm_inv st → qm_initialized st = true → fits S st →
  Forall (λ op, untouched subject op ∧ op_added op ⊆ S ∧
    expires_at (λ ts, outlives deadline ts = true) op) later →
  held subject deadline mode st →
  let st' := fold_left qm_step later st in
  qm_inv st' ∧ qm_initialized st' = true ∧ qm_config st' = qm_config st ∧ fits S st' ∧
  held subject deadline mode st'.
Proof.
  intros Hinv Hi Hf Hl. revert st Hinv Hi Hf.
  induction Hl as [|op later (Hu & Hin & Ho) _ IH]; intros st Hinv Hi Hf Hh; [by split_and!|].
  destruct (qm_step_dom subject st op Hinv Hi Hu) as (Hc & Hi' & Hd).
  destruct (untouched_entry S subject st op Hinv Hi Hu) as [Hb Hk]. destruct Hh as (e & He & <- & <-).
  cbn [fold_left]. rewrite <- Hc. apply IH; [by apply qm_step_inv|done| |].
  - destruct Hf as [Hf|[Hf1 Hf2]]; [left; by rewrite Hc|right; split; [set_solver|done]].
  - destruct (Hk Hf Hin e He Ho) as [e' He']. exists e'. split; [done|].
    destruct (Hb e' He') as (e0 & He0 & H). assert (e0 = e) as -> by congruence. exact H.
Qed.

(** Whatever the calls [later], no entry of [subject] gets another deadline. *)
Lemma deadline_run subject deadline later st :
  qm_inv st → qm_initialized st = true → Forall (untouched subject) later →
  (∀ e, qm_map st !! subject = Some e → qe_expires_at_ms e = deadline) →
  let st' := fold_left qm_step later st in
  qm_inv st' ∧ qm_initialized st' = true ∧
  ∀ e, qm_map st' !! subject = Some e → qe_expires_at_ms e = deadline.
Proof.
  intros Hinv Hi Hl. revert st Hinv Hi. induction Hl as [|op later Hu _ IH]; intros st Hinv Hi Hh; [done|].
  destruct (qm_step_dom subject st op Hinv Hi Hu) as (_ & Hi' & _). cbn [fold_left].
  apply IH; [by apply qm_step_inv|done|]. intros e' He'.
  destruct (untouched_entry ∅ subject st op Hinv Hi Hu) as [Hb _].
  destruct (Hb e' He') as (e & He & -> & _). eauto.
Qed.

(** The deadline an addition stores: computed modulo 2^32. *)
Definition deadline_of (ttl_ms timer_us : Z) (st : qm_state) : Z :=
  u32 (now_ms timer_us + effective_ttl ttl_ms st).

Lemma added_held subject mode source ttl risk reason us st st' :
  qm_inv st → qm_initialized st = true → subject_is_valid (Some subject) = true →
  quarantine_manager_add (Some subject) mode source ttl risk reason us st = (st', ESP_OK) →
  qm_inv st' ∧ qm_initialized st' = true ∧ qm_config st' = qm_config st ∧
  held subject (deadline_of ttl us st) mode st'.
Proof.
  intros Hinv Hi Hv Hadd. pose proof (add_ok subject mode source ttl risk reason us st Hinv Hi Hv) as H.
  cbv zeta in H. rewrite Hadd in H. destruct H as (Hinv' & Hc & Hi' & Hs). split_and!; try done.
  unfold held. remember ESP_OK as ok eqn:Eok. destruct Hs; try done; rewrite lookup_insert_eq; eexists; split_and!; done.
Qed.

(** A check of a listed subject. *)
Lemma check_held subject deadline mode us st :
  qm_inv st → qm_initialized st = true → subject_is_valid (Some subject) = true →
  held subject deadline mode st →
  let '(_, found, out) := quarantine_manager_check (Some subject) true us st in
  found = outlives deadline (now_ms us) ∧
  (found = true → qr_quarantined <$> out = Some true ∧ qr_mode <$> out = Some mode).
Proof.
  intros Hinv Hi Hv (e & He & <- & <-). pose proof (quarantine_check_ok subject us _ Hinv Hi Hv) as H.
  destruct (quarantine_manager_check _ _ _ _) as [[st2 found] out]. destruct H as (_ & _ & _ & Hm & ->).
  unfold check_map in Hm. rewrite He, expired_outlives in Hm.
  destruct (outlives _ _); injection Hm as -> ->; (split; [done|]); [|done]. intros _.
  by rewrite lookup_insert_eq.
Qed.

(** ** Properties *)

(** Whatever calls are made, in whatever order: at most one entry per
    subject, an active counter equal to the size of the abstract list and within
    capacity, risk scores at most 100, and counters that balance (added =
    active + removed + expired + evicted, modulo 2^64). *)
Theorem quarantine_manager_run_invariant ops :
  qm_inv (qm_run ops) ∧
  qs_active_entries (qm_stats (qm_run ops)) = Z.of_nat (size (qm_map (qm_run ops))) ∧
  (size (qm_map (qm_run ops)) ≤ QUARANTINE_MAX_ENTRIES)%nat.
Proof.
  pose proof (qm_run_from ops _ qm_boot_inv) as Hinv. fold (qm_run ops) in Hinv.
  pose proof Hinv as [Hl Hu Ha _ _]. split; [done|].
  unfold qm_map. rewrite slots_map_size by done. split; [done|]. rewrite <- Hl. apply count_le.
Qed.

(** C9: a quarantine holds until its deadline and not longer.  Take a successful
    addition of a subject, and any later calls other than a restart of the table
    and an addition or removal of that same subject, no check or sweep among them
    at a clock reading past the final check's.  Let eviction be off, or (it is
    on by default) let the subjects listed and those added later fit the 64 slots.  Then the check finds
    the subject, with the mode it was given, exactly when the clock is before the
    deadline the addition stored, which is now + time to live modulo 2^32 (zero:
    never passes). *)
Theorem quarantine_holds_until_deadline ops subject mode source ttl risk reason t0 st1 later t :
  qm_initialized (qm_run ops) = true → subject_is_valid (Some subject) = true →
  quarantine_manager_add (Some subject) mode source ttl risk reason t0 (qm_run ops) = (st1, ESP_OK) →
  qc_evict_lru_when_full (qm_config st1) = false ∨
    (size (dom (qm_map st1) ∪ ⋃ (op_added <$> later)) ≤ QUARANTINE_MAX_ENTRIES)%nat →
  Forall (λ op, untouched subject op ∧ expires_at (λ ts, ts ≤ now_ms t) op) later →
  let deadline := u32 (now_ms t0 + effective_ttl ttl (qm_run ops)) in
  let '(_, found, out) :=
    quarantine_manager_check (Some subject) true t (fold_left qm_step later st1) in
  found = (deadline =? 0) || (now_ms t <? deadline) ∧
  (found = true → qr_quarantined <$> out = Some true ∧ qr_mode <$> out = Some mode).
Proof.
  intros Hi Hv Hadd Hfit Hl deadline. fold (outlives deadline (now_ms t)).
  pose proof (qm_run_from ops _ qm_boot_inv) as Hinv. fold (qm_run ops) in Hinv.
  destruct (added_held _ _ _ _ _ _ _ _ _ Hinv Hi Hv Hadd) as (Hinv1 & Hi1 & _ & Hh).
  change (deadline_of ttl t0 (qm_run ops)) with deadline in Hh.
  destruct (outlives deadline (now_ms t)) eqn:Eo.
  - set (S := dom (qm_map st1) ∪ ⋃ (op_added <$> later)) in Hfit.
    destruct (held_run S subject deadline mode later st1 Hinv1 Hi1) as (Hinv2 & Hi2 & _ & _ & Hh2); [| |done|].
    + destruct Hfit as [?|?]; [by left|right]. split; [apply union_subseteq_l|done].
    + apply Forall_forall. intros op Hop. rewrite Forall_forall in Hl. destruct (Hl op Hop) as [Hu Hc].
      split_and!; [done| |destruct op; try done; cbn [expires_at] in *; by eapply outlives_le].
      by apply union_subseteq_r', subseteq_union_list, list_elem_of_fmap_2.
    + pose proof (check_held _ _ _ t _ Hinv2 Hi2 Hv Hh2) as H. by rewrite Eo in H.
  - destruct (deadline_run subject deadline later st1 Hinv1 Hi1) as (Hinv2 & Hi2 & Hd).
    + eapply Forall_impl; [exact Hl|]. tauto.
    + destruct Hh as (e & He & <- & _). congruence.
    + pose proof (quarantine_check_ok subject t _ Hinv2 Hi2 Hv) as H.
      destruct (quarantine_manager_check _ _ _ _) as [[st2 found] out]. destruct H as (_ & _ & _ & Hm & _).
      unfold check_map in Hm. destruct (qm_map _ !! subject) as [e|] eqn:E; [|by injection Hm as _ ->].
      rewrite expired_outlives, (Hd e eq_refl), Eo in Hm. by injection Hm as _ ->.
Qed.

(** The default configuration, with eviction on. *)
Definition witness_ops : list qm_op := [QmInit None].
Definition witness_subject : quarantine_subject := QUARANTINE_SUBJECT_IP 3232236290.
Definition witness_other : quarantine_subject := QUARANTINE_SUBJECT_IP 3232236291.

Lemma quarantine_holds_until_deadline_witness :
  let st1 := (quarantine_manager_add (Some witness_subject) QUARANTINE_MODE_BLOCK_ALL
    QUARANTINE_SOURCE_MANUAL 60000 90 (Some (lit "scan")) 1000000 (qm_run witness_ops)).1 in
  let later := [QmCheck (Some witness_subject) true 2000000;
    QmAdd (Some witness_other) QUARANTINE_MODE_BLOCK_ALL QUARANTINE_SOURCE_MANUAL 0 50 None 3000000;
    QmExpireOld 60000000] in
  (quarantine_manager_check (Some witness_subject) true 60999000 (fold_left qm_step later st1)).1.2 =
  (61000 =? 0) || (now_ms 60999000 <? 61000).
Proof.
  intros st1 later.
  pose proof (quarantine_holds_until_deadline witness_ops witness_subject QUARANTINE_MODE_BLOCK_ALL
    QUARANTINE_SOURCE_MANUAL 60000 90 (Some (lit "scan")) 1000000 st1 later 60999000) as H.
  destruct (quarantine_manager_check _ _ _ _) as [[st2 found] out].
  refine (proj1 (H _ _ _ _ _)); [vm_compute; reflexivity..| |].
  - right. apply Nat.leb_le. vm_compute. reflexivity.
  - repeat constructor; vm_compute; discriminate.
Defined.

(** The deadline is computed modulo 2^32 milliseconds: an addition less
    than its time to live before the wrap of the clock gets a deadline that has
    already passed, and the very next check at the same instant answers that the
    subject is not quarantined and deletes the entry. *)
Theorem quarantine_deadline_wrap ops subject mode source ttl risk reason t0 st1 :
  qm_initialized (qm_run ops) = true → subject_is_valid (Some subject) = true →
  quarantine_manager_add (Some subject) mode source ttl risk reason t0 (qm_run ops) = (st1, ESP_OK) →
  0 ≤ effective_ttl ttl (qm_run ops) < 4294967296 →
  4294967296 < now_ms t0 + effective_ttl ttl (qm_run ops) →
  let '(st2, found, _) := quarantine_manager_check (Some subject) true t0 st1 in
  found = false ∧ qm_map st2 !! subject = None.
Proof.
  intros Hi Hv Hadd Httl Hwrap.
  pose proof (qm_run_from ops _ qm_boot_inv) as Hinv. fold (qm_run ops) in Hinv.
  destruct (added_held _ _ _ _ _ _ _ _ _ Hinv Hi Hv Hadd) as (Hinv' & Hi' & _ & e & He & Hdl & _).
  set (deadline := now_ms t0 + effective_ttl ttl (qm_run ops) - 4294967296).
  pose proof (ms_of_us_range t0 : is_u32 (now_ms t0)) as Hr. unfold is_u32 in Hr.
  assert (deadline_of ttl t0 (qm_run ops) = deadline) as Hu.
  { unfold deadline_of, u32. symmetry. apply (Z.mod_unique_pos _ _ 1); subst deadline; lia. }
  assert (outlives deadline (now_ms t0) = false) as Ho
    by (apply orb_false_iff; split; bools; subst deadline; lia).
  pose proof (quarantine_check_ok subject t0 _ Hinv' Hi' Hv) as H.
  destruct (quarantine_manager_check _ _ _ _) as [[st2 found] out]. destruct H as (_ & _ & _ & Hm & _).
  unfold check_map in Hm. rewrite He, expired_outlives, Hdl, Hu, Ho in Hm.
  injection Hm as -> ->. by rewrite lookup_delete_eq.
Qed.

Lemma quarantine_deadline_wrap_witness :
  let st1 := (quarantine_manager_add (Some witness_subject) QUARANTINE_MODE_BLOCK_ALL
    QUARANTINE_SOURCE_MANUAL 0 90 None 4294940000000 (qm_run [QmInit None])).1 in
  (quarantine_manager_check (Some witness_subject) true 4294940000000 st1).1.2 = false.
Proof.
  intros st1.
  pose proof (quarantine_deadline_wrap [QmInit None] witness_subject QUARANTINE_MODE_BLOCK_ALL
    QUARANTINE_SOURCE_MANUAL 0 90 None 4294940000000 st1) as H.
  destruct (quarantine_manager_check _ _ _ _) as [[st2 found] out].
  refine (proj1 (H _ _ _ _ _)); [vm_compute; reflexivity..|vm_compute; split; [discriminate|reflexivity]|
    vm_compute; reflexivity].
Defined.

(** Beyond the bound of C9: under the default configuration 64 additions of
    other subjects evict a subject, and lift its quarantine, long before its
    deadline. *)
Lemma quarantine_evicted_early :
  let st1 := (quarantine_manager_add (Some witness_subject) QUARANTINE_MODE_BLOCK_ALL
    QUARANTINE_SOURCE_MANUAL 60000 90 None 1000000 (qm_run witness_ops)).1 in
  let later := (λ n, QmAdd (Some (QUARANTINE_SUBJECT_IP (Z.of_nat n))) QUARANTINE_MODE_BLOCK_ALL
    QUARANTINE_SOURCE_RATE_LIMIT 0 80 None 2000000) <$> seq 1 QUARANTINE_MAX_ENTRIES in
  (quarantine_manager_check (Some witness_subject) true 3000000 (fold_left qm_step later st1)).1.2 = false.
Proof. vm_compute. reflexivity. Qed.
