(* ===== verification/Event_bus.v ===== *)
(** * Event_bus: publish and subscribe over one queue

    Model of [firmware/components/event_bus/event_bus.c].  The FreeRTOS queue is
    an interface ([Queue], with its documented laws in [QueueLaws]); the bus is
    the state it keeps around it and the three calls, plus one turn of the
    dispatch task.  The theorem is that accepted events are delivered in order,
    each once, to every listener. *)

From S2P Require Import Prelude Bytes Slots.

(** ** The FreeRTOS queue *)
Class Queue (E : Type) := {
  queue : Type;
  xQueueCreate : nat → option queue;
  xQueueSend : queue → E → option queue;
  xQueueReceive : queue → option (E * queue);
}.
Arguments queue E {_}.

(** What FreeRTOS documents of a queue of fixed length: sends append and fail
    exactly when it is full, receives take the oldest item. *)
Class QueueLaws (E : Type) `{Queue E} := {
  contents : queue E → list E;
  capacity : queue E → nat;
  create_empty n q : xQueueCreate n = Some q → contents q = [] ∧ capacity q = n;
  send_room q e : (List.length (contents q) < capacity q)%nat →
    ∃ q', xQueueSend q e = Some q' ∧ contents q' = contents q ++ [e] ∧ capacity q' = capacity q;
  send_full q e : (capacity q ≤ List.length (contents q))%nat → xQueueSend q e = None;
  receive_some q e l : contents q = e :: l →
    ∃ q', xQueueReceive q = Some (e, q') ∧ contents q' = l ∧ capacity q' = capacity q;
  receive_none q : contents q = [] → xQueueReceive q = None;
}.

Definition EVENT_BUS_QUEUE_LEN : nat := 32.
Definition EVENT_BUS_MAX_LISTENERS : nat := 8.

Inductive zg_event_type :=
| ZG_EVENT_NONE
| ZG_EVENT_DEVICE_JOINED
| ZG_EVENT_DEVICE_LEFT
| ZG_EVENT_DEVICE_QUARANTINED
| ZG_EVENT_DEVICE_RELEASED
| ZG_EVENT_FLOW_SEEN
| ZG_EVENT_POLICY_DENY
| ZG_EVENT_RATE_EXCEEDED
| ZG_EVENT_DNS_QUERY
| ZG_EVENT_DNS_BLOCKED
| ZG_EVENT_SWARM_QUARANTINE_NOTICE
| ZG_EVENT_SWARM_FLOW_EVENT
| ZG_EVENT_GATEWAY_UP
| ZG_EVENT_GATEWAY_DOWN
| ZG_EVENT_CONFIG_UPDATED
| ZG_EVENT_ERROR
| ZG_EVENT_AP_CLIENT_JOINED
| ZG_EVENT_AP_CLIENT_LEFT.

Record zg_event := mk_zg_event {
  ev_type : zg_event_type;
  ev_ts_ms : Z;
  ev_zone_id : Z;
  ev_device_id : Z;
  ev_src_ip : Z;
  ev_dst_ip : Z;
  ev_src_port : Z;
  ev_dst_port : Z;
  ev_proto : Z;
  ev_risk_score : Z;
  ev_code : Z;
  ev_reason : bytes;
}.

(** [zg_event_t ev = {0};]. *)
Definition zg_event_zero : zg_event := mk_zg_event ZG_EVENT_NONE 0 0 0 0 0 0 0 0 0 0 (zeros 48).

(** A callback address (0 for NULL) and its context. *)
Record listener_slot := mk_listener_slot { ls_cb : Z; ls_ctx : Z }.

Definition listeners_zero : list listener_slot := replicate EVENT_BUS_MAX_LISTENERS (mk_listener_slot 0 0).

Section bus.
  Context `{Q : Queue zg_event}.

Record eb_state := mk_eb_state {
  eb_queue : option (queue zg_event);
  eb_listeners : list listener_slot;
  eb_initialized : bool;
}.

Definition eb_boot : eb_state := mk_eb_state None listeners_zero false.

Definition now_ms (timer_us : Z) : Z := ms_of_us timer_us.

(** [task_created] is the result of [xTaskCreate]. *)
Definition event_bus_init (task_created : bool) (st : eb_state) : eb_state * esp_err :=
  if eb_initialized st then (st, ESP_OK) else
  match xQueueCreate EVENT_BUS_QUEUE_LEN with
  | None => (mk_eb_state None listeners_zero false, ESP_ERR_NO_MEM)
  | Some q =>
    if negb task_created then (mk_eb_state None listeners_zero false, ESP_ERR_NO_MEM)
    else (mk_eb_state (Some q) listeners_zero true, ESP_OK)
  end.

(** The copy [event_bus_publish] enqueues. *)
Definition stamp_event (timer_us : Z) (event : zg_event) : zg_event :=
  if ev_ts_ms event =? 0
  then mk_zg_event (ev_type event) (now_ms timer_us) (ev_zone_id event) (ev_device_id event)
         (ev_src_ip event) (ev_dst_ip event) (ev_src_port event) (ev_dst_port event)
         (ev_proto event) (ev_risk_score event) (ev_code event) (ev_reason event)
  else event.

Definition event_bus_publish (event : option zg_event) (timer_us : Z) (st : eb_state)
    : eb_state * esp_err :=
  match event, eb_initialized st, eb_queue st with
  | Some event, true, Some q =>
    match xQueueSend q (stamp_event timer_us event) with
    | Some q' => (mk_eb_state (Some q') (eb_listeners st) true, ESP_OK)
    | None => (st, ESP_ERR_NO_MEM)
    end
  | _, _, _ => (st, ESP_ERR_INVALID_ARG)
  end.

Definition event_bus_subscribe (cb ctx : Z) (st : eb_state) : eb_state * esp_err :=
  if negb (eb_initialized st) || (cb =? 0) then (st, ESP_ERR_INVALID_ARG) else
  match first_index (λ l, ls_cb l =? 0) (eb_listeners st) with
  | None => (st, ESP_ERR_NO_MEM)
  | Some i => (mk_eb_state (eb_queue st) (<[i := mk_listener_slot cb ctx]> (eb_listeners st))
                 (eb_initialized st), ESP_OK)
  end.

(** One turn of [dispatch_task]: the event it received, with the callbacks it
    runs on it, in order. *)
Definition dispatch_task (st : eb_state) : eb_state * option (zg_event * list listener_slot) :=
  match eb_queue st with
  | None => (st, None)
  | Some q =>
    match xQueueReceive q with
    | None => (st, None)
    | Some (event, q') =>
      (mk_eb_state (Some q') (eb_listeners st) (eb_initialized st),
       Some (event, filter (λ l, ls_cb l ≠ 0) (eb_listeners st)))
    end
  end.

(** ** Runs of the bus after its initialisation *)
Inductive eb_op :=
| EbPublish (event : option zg_event) (timer_us : Z)
| EbSubscribe (cb ctx : Z)
| EbDispatch.

(** The state, the events accepted so far and the events dispatched so far. *)
Record eb_history := mk_eb_history {
  eh_state : eb_state;
  eh_accepted : list zg_event;
  eh_dispatched : list zg_event;
}.

Definition eb_step (h : eb_history) (op : eb_op) : eb_history :=
  match op with
  | EbPublish event us =>
    let '(st', e) := event_bus_publish event us (eh_state h) in
    mk_eb_history st'
      (match e, event with ESP_OK, Some ev => eh_accepted h ++ [stamp_event us ev] | _, _ => eh_accepted h end)
      (eh_dispatched h)
  | EbSubscribe cb ctx =>
    mk_eb_history (event_bus_subscribe cb ctx (eh_state h)).1 (eh_accepted h) (eh_dispatched h)
  | EbDispatch =>
    let '(st', d) := dispatch_task (eh_state h) in
    mk_eb_history st' (eh_accepted h)
      (match d with Some (ev, _) => eh_dispatched h ++ [ev] | None => eh_dispatched h end)
  end.

Definition eb_run (st : eb_state) (ops : list eb_op) : eb_history :=
  fold_left eb_step ops (mk_eb_history st [] []).

  Context `{QL : !QueueLaws zg_event}.

(** The bus is up, its queue within the length it was created with, and the
    listener table full size. *)
Definition eb_ready (st : eb_state) : Prop :=
  eb_initialized st = true ∧ List.length (eb_listeners st) = EVENT_BUS_MAX_LISTENERS ∧
  ∃ q, eb_queue st = Some q ∧ capacity q = EVENT_BUS_QUEUE_LEN ∧
       (List.length (contents q) ≤ EVENT_BUS_QUEUE_LEN)%nat.

Definition eb_pending (st : eb_state) : list zg_event :=
  match eb_queue st with Some q => contents q | None => [] end.

Lemma init_ready task_created st st' :
  eb_initialized st = false → event_bus_init task_created st = (st', ESP_OK) →
  eb_ready st' ∧ eb_pending st' = [].
Proof.
  intros Hi. unfold event_bus_init. rewrite Hi. destruct (xQueueCreate _) as [q|] eqn:E; [|done].
  destruct task_created; [|done]. intros [= <-]. apply create_empty in E as [Hc Hcap].
  split; [|done]. split_and!; try done. exists q. simpl. rewrite Hc. split_and!; try done. simpl. lia.
Qed.

Lemma publish_ready event timer_us st :
  eb_ready st →
  let '(st', e) := event_bus_publish event timer_us st in
  eb_ready st' ∧
  match event with
  | None => e = ESP_ERR_INVALID_ARG ∧ st' = st
  | Some ev =>
    if decide (List.length (eb_pending st) < EVENT_BUS_QUEUE_LEN)%nat
    then e = ESP_OK ∧ eb_pending st' = eb_pending st ++ [stamp_event timer_us ev]
    else e = ESP_ERR_NO_MEM ∧ st' = st
  end.
Proof.
  intros Hr. pose proof Hr as (Hi & Hl & q & Hq & Hcap & Hlen). unfold event_bus_publish, eb_pending.
  rewrite Hi, Hq. destruct event as [ev|]; [|done]. rewrite <- Hcap.
  case_decide as Hd.
  - destruct (send_room q (stamp_event timer_us ev) Hd) as (q' & -> & Hc & Hcap').
    split; [|done]. split_and!; try done. exists q'. split_and!; [done|congruence|].
    rewrite Hc, length_app. simpl. lia.
  - rewrite send_full by lia. done.
Qed.

Lemma dispatch_ready st :
  eb_ready st →
  let '(st', d) := dispatch_task st in
  eb_ready st' ∧
  match eb_pending st with
  | [] => d = None ∧ st' = st
  | ev :: rest => d = Some (ev, filter (λ l, ls_cb l ≠ 0) (eb_listeners st)) ∧ eb_pending st' = rest
  end.
Proof.
  intros Hr. pose proof Hr as (Hi & Hl & q & Hq & Hcap & Hlen). unfold dispatch_task, eb_pending.
  rewrite Hq. destruct (contents q) as [|ev rest] eqn:Ec.
  - by rewrite receive_none.
  - destruct (receive_some q ev rest Ec) as (q' & -> & Hc & Hcap').
    split; [|done]. split_and!; try done. exists q'. rewrite Hc, Hcap'. simpl in Hlen.
    split_and!; try done. lia.
Qed.

Lemma subscribe_ready cb ctx st :
  eb_ready st →
  let '(st', e) := event_bus_subscribe cb ctx st in
  eb_ready st' ∧ eb_pending st' = eb_pending st.
Proof.
  intros Hr. pose proof Hr as (Hi & Hl & Hq). unfold event_bus_subscribe.
  destruct (_ || _); [done|]. destruct (first_index _ _); [|done].
  split; [|done]. split_and!; try done. simpl. by rewrite length_insert.
Qed.

Lemma eb_run_inv st ops :
  eb_ready st →
  let h := eb_run st ops in
  eb_ready (eh_state h) ∧ eb_pending st ++ eh_accepted h = eh_dispatched h ++ eb_pending (eh_state h).
Proof.
  intros Hr. unfold eb_run.
  assert (∀ h, eb_ready (eh_state h) →
    eb_pending st ++ eh_accepted h = eh_dispatched h ++ eb_pending (eh_state h) →
    let h' := fold_left eb_step ops h in
    eb_ready (eh_state h') ∧ eb_pending st ++ eh_accepted h' = eh_dispatched h' ++ eb_pending (eh_state h'))
    as Hgen; [|apply Hgen; [done|]; simpl; by rewrite app_nil_r].
  induction ops as [|op ops IH]; intros h Hh He; simpl; [done|]. apply IH; clear IH.
  - destruct op as [ev us|cb ctx|]; simpl.
    + pose proof (publish_ready ev us _ Hh) as H. destruct (event_bus_publish _ _ _). apply H.
    + pose proof (subscribe_ready cb ctx _ Hh) as H. destruct (event_bus_subscribe _ _ _). apply H.
    + pose proof (dispatch_ready _ Hh) as H. destruct (dispatch_task _). apply H.
  - destruct op as [ev us|cb ctx|]; simpl.
    + pose proof (publish_ready ev us _ Hh) as H. destruct (event_bus_publish _ _ _) as [st' e].
      destruct H as [_ H]. simpl. destruct ev as [ev|]; [|by destruct H as [-> ->]].
      case_decide; destruct H as [-> H]; [|by rewrite H].
      by rewrite H, !app_assoc, He.
    + pose proof (subscribe_ready cb ctx _ Hh) as H. destruct (event_bus_subscribe _ _ _) as [st' e].
      simpl. by destruct H as [_ ->].
    + pose proof (dispatch_ready _ Hh) as H. destruct (dispatch_task _) as [st' d]. destruct H as [_ H]. simpl.
      destruct (eb_pending (eh_state h)) as [|ev rest] eqn:Ep; destruct H as [-> H]; rewrite H.
      * by rewrite Ep.
      * by rewrite He, <- app_assoc.
Qed.
End bus.

Arguments eb_state {Q}.

(** A list with a length bound is a queue. *)
#[export] Instance list_queue {E} : Queue E := {|
  queue := nat * list E;
  xQueueCreate n := Some (n, []);
  xQueueSend q e := if decide (List.length q.2 < q.1)%nat then Some (q.1, q.2 ++ [e]) else None;
  xQueueReceive q := match q.2 with [] => None | e :: l => Some (e, (q.1, l)) end;
|}.

#[export] Instance list_queue_laws {E} : QueueLaws E.
Proof.
  refine {| contents := (λ q : queue E, q.2); capacity := (λ q : queue E, q.1) |}; simpl.
  - by intros n q [= <-].
  - intros q e Hlt. rewrite decide_True by done. eauto.
  - intros q e Hle. by rewrite decide_False by lia.
  - intros q e l ->. eauto.
  - by intros q ->.
Defined.

(** ** Properties *)

(** C22: the bus is a bounded FIFO.  From a successful initialisation on, for
    every interleaving of publishers, subscribers and turns of the dispatch
    task, the events accepted so far are, in order, the events dispatched
    followed by those still queued: none is lost, duplicated or reordered, and
    at most 32 wait. *)
Theorem event_bus_fifo `{QL : QueueLaws zg_event} task_created st0 st ops :
  eb_initialized st0 = false → event_bus_init task_created st0 = (st, ESP_OK) →
  let h := eb_run st ops in
  eh_accepted h = eh_dispatched h ++ eb_pending (eh_state h) ∧
  (List.length (eb_pending (eh_state h)) ≤ EVENT_BUS_QUEUE_LEN)%nat.
Proof.
  intros Hi E. apply init_ready in E as [Hr Hp]; [|done].
  pose proof (eb_run_inv st ops Hr) as [(_ & _ & q & Hq & _ & Hlen) He]. rewrite Hp in He.
  split; [done|]. unfold eb_pending at 1. by rewrite Hq.
Qed.

Lemma event_bus_fifo_witness :
  let st := (event_bus_init true eb_boot).1 in
  let h := eb_run st [EbPublish (Some zg_event_zero) 5000; EbSubscribe 7 1; EbDispatch] in
  eh_accepted h = eh_dispatched h ++ eb_pending (eh_state h).
Proof.
  intros st h.
  refine (proj1 (event_bus_fifo true eb_boot st
    [EbPublish (Some zg_event_zero) 5000; EbSubscribe 7 1; EbDispatch] _ _)); reflexivity.
Defined.
