(* ===== verification/Device_registry.v ===== *)
(** * Device_registry: the devices of the zone

    Model of [firmware/components/device_registry/device_registry.c]: 32 records
    found by MAC, by IP or by device id, and the events a join or a quarantine
    publishes on the bus.  The theorems give the invariant of the table, the
    exact effect of the upsert, and what it does when an address is reused. *)

From S2P Require Import Prelude Bytes Slots Event_bus.

Definition DEVICE_REGISTRY_MAX_DEVICES : nat := 32.
Definition DEVICE_REGISTRY_NAME_LEN : nat := 32.
Definition DEVICE_REGISTRY_PROFILE_LEN : nat := 24.

Inductive device_state :=
| DEVICE_STATE_UNKNOWN
| DEVICE_STATE_TRUSTED
| DEVICE_STATE_SUSPICIOUS
| DEVICE_STATE_QUARANTINED
| DEVICE_STATE_BLOCKED.

#[export] Instance device_state_eq_dec : EqDecision device_state.
Proof. solve_decision. Defined.

Record device_record := mk_device_record {
  dv_device_id : Z;
  dv_mac : bytes;
  dv_ip : Z;
  dv_zone_id : Z;
  dv_state : device_state;
  dv_risk_score : Z;
  dv_first_seen_ms : Z;
  dv_last_seen_ms : Z;
  dv_name : bytes;
  dv_profile : bytes;
}.
#[export] Instance device_record_settable : Settable device_record := fun r =>
  mk_device_record (dv_device_id r) (dv_mac r) (dv_ip r) (dv_zone_id r) (dv_state r)
    (dv_risk_score r) (dv_first_seen_ms r) (dv_last_seen_ms r) (dv_name r) (dv_profile r).

Record device_registry_stats := mk_device_registry_stats {
  ds_capacity : Z;
  ds_active_devices : Z;
  ds_added : Z;
  ds_updated : Z;
  ds_removed : Z;
  ds_lookups : Z;
  ds_misses : Z;
}.
#[export] Instance device_registry_stats_settable : Settable device_registry_stats := fun r =>
  mk_device_registry_stats (ds_capacity r) (ds_active_devices r) (ds_added r) (ds_updated
    r) (ds_removed r) (ds_lookups r) (ds_misses r).

Record device_slot := mk_device_slot { dl_in_use : bool; dl_record : device_record }.
#[export] Instance device_slot_settable : Settable device_slot := fun r =>
  mk_device_slot (dl_in_use r) (dl_record r).

Record dr_state := mk_dr_state {
  dr_devices : list device_slot;
  dr_stats : device_registry_stats;
  dr_zone_id : Z;
  dr_initialized : bool;
}.
#[export] Instance dr_state_settable : Settable dr_state := fun r =>
  mk_dr_state (dr_devices r) (dr_stats r) (dr_zone_id r) (dr_initialized r).

Definition device_record_zero : device_record :=
  mk_device_record 0 (zeros 6) 0 0 DEVICE_STATE_UNKNOWN 0 0 0
    (zeros DEVICE_REGISTRY_NAME_LEN) (zeros DEVICE_REGISTRY_PROFILE_LEN).
Definition device_slot_zero : device_slot := mk_device_slot false device_record_zero.
Definition devices_zero := replicate DEVICE_REGISTRY_MAX_DEVICES device_slot_zero.
Definition device_stats_zero : device_registry_stats := mk_device_registry_stats 0 0 0 0 0 0 0.

Definition dr_boot : dr_state := mk_dr_state devices_zero device_stats_zero 1 false.

(** ** Helpers *)
Definition now_ms (timer_us : Z) : Z := ms_of_us timer_us.

Definition mac_valid (mac : option bytes) : bool :=
  match mac with None => false | Some m => negb (bool_decide (m = zeros 6)) end.

Definition mac_equal (a b : bytes) : bool := bool_decide (a = b).

Definition device_registry_make_id_from_mac (mac : option bytes) : Z :=
  match mac with
  | None => 0
  | Some m => let h := fnv1a FNV_OFFSET (take 6 m) in if h =? 0 then 1 else h
  end.

Definition device_state_to_string (state : device_state) : bytes :=
  match state with
  | DEVICE_STATE_UNKNOWN => lit "UNKNOWN"
  | DEVICE_STATE_TRUSTED => lit "TRUSTED"
  | DEVICE_STATE_SUSPICIOUS => lit "SUSPICIOUS"
  | DEVICE_STATE_QUARANTINED => lit "QUARANTINED"
  | DEVICE_STATE_BLOCKED => lit "BLOCKED"
  end.

Definition find_by_ip_locked (ip : Z) (st : dr_state) : option nat :=
  first_index (λ s, dl_in_use s && (dv_ip (dl_record s) =? ip)) (dr_devices st).
Definition find_by_mac_locked (mac : bytes) (st : dr_state) : option nat :=
  first_index (λ s, dl_in_use s && mac_equal (dv_mac (dl_record s)) mac) (dr_devices st).
Definition find_by_id_locked (device_id : Z) (st : dr_state) : option nat :=
  first_index (λ s, dl_in_use s && (dv_device_id (dl_record s) =? device_id)) (dr_devices st).
Definition find_empty_locked (st : dr_state) : option nat :=
  first_index (λ s, negb (dl_in_use s)) (dr_devices st).

(** ** Public calls *)
Definition device_registry_init (zone_id : Z) (st : dr_state) : dr_state * esp_err :=
  (mk_dr_state devices_zero
     (device_stats_zero <| ds_capacity := Z.of_nat DEVICE_REGISTRY_MAX_DEVICES |>) zone_id true, ESP_OK).

Definition device_registry_reset (st : dr_state) : dr_state :=
  mk_dr_state devices_zero (device_stats_zero <| ds_capacity := Z.of_nat DEVICE_REGISTRY_MAX_DEVICES |>)
    (dr_zone_id st) (dr_initialized st).

(** The record [memset] and the assignments of a first sighting leave. *)
Definition new_record (mac : bytes) (zone_id ts : Z) : device_record :=
  device_record_zero <| dv_device_id := device_registry_make_id_from_mac (Some mac) |>
    <| dv_mac := take 6 mac |> <| dv_zone_id := zone_id |>
    <| dv_state := DEVICE_STATE_UNKNOWN |> <| dv_first_seen_ms := ts |>.

Definition refresh_record (ip ts : Z) (name profile : option bytes) (r : device_record) : device_record :=
  let r1 := r <| dv_ip := ip |> <| dv_last_seen_ms := ts |> in
  let r2 := match name with Some _ => r1 <| dv_name ::= λ b, safe_copy b name |> | None => r1 end in
  match profile with Some _ => r2 <| dv_profile ::= λ b, safe_copy b profile |> | None => r2 end.

(** The critical section: the new table, the record, and whether it was created. *)
Definition upsert_locked (mac : bytes) (ip ts : Z) (name profile : option bytes) (st : dr_state)
    : option (dr_state * device_record * bool) :=
  let found := match find_by_mac_locked mac st with
               | Some i => Some i | None => find_by_ip_locked ip st end in
  match found with
  | Some i =>
    match dr_devices st !! i with
    | None => None
    | Some s =>
      let r := refresh_record ip ts name profile (dl_record s) in
      Some (st <| dr_devices ::= <[i := mk_device_slot (dl_in_use s) r]> |>
               <| dr_stats ::= λ x, x <| ds_updated ::= inc64 |> |>, r, false)
    end
  | None =>
    match find_empty_locked st with
    | None => None
    | Some i =>
      let r := refresh_record ip ts name profile (new_record mac (dr_zone_id st) ts) in
      Some (st <| dr_devices ::= <[i := mk_device_slot true r]> |>
               <| dr_stats ::= λ x, x <| ds_active_devices ::= inc32 |> <| ds_added ::= inc64 |> |>, r, true)
    end
  end.

Section with_bus.
  Context `{Q : Queue zg_event}.
  Implicit Types (bus : eb_state).

(** The calls that publish take the bus along; [event_us] is the clock when the
    event is stamped. *)
Definition device_registry_upsert_mac_ip (mac : option bytes) (ip : Z) (name profile : option bytes)
    (timer_us event_us : Z) (st : dr_state) bus
    : dr_state * eb_state * esp_err * option device_record :=
  match mac, dr_initialized st && mac_valid mac && negb (ip =? 0) with
  | Some mac, true =>
    match upsert_locked mac ip (now_ms timer_us) name profile st with
    | None => (st, bus, ESP_ERR_NO_MEM, None)
    | Some (st', copy, created) =>
      let bus' :=
        if (created : bool) then
          (event_bus_publish (Some (mk_zg_event ZG_EVENT_DEVICE_JOINED 0 (dr_zone_id st)
             (dv_device_id copy) (dv_ip copy) 0 0 0 0 0 0
             (safe_copy (zeros 48) (Some (lit "device_joined"))))) event_us bus).1
        else bus in
      (st', bus', ESP_OK, Some copy)
    end
  | _, _ => (st, bus, ESP_ERR_INVALID_ARG, None)
  end.

(** The common body of the three lookups. *)
Definition find_record (index : option nat) (st : dr_state) : dr_state * option device_record :=
  let st1 := st <| dr_stats ::= λ x, x <| ds_lookups ::= inc64 |> |> in
  match index ≫= λ i, dr_devices st !! i with
  | Some s => (st1, Some (dl_record s))
  | None => (st1 <| dr_stats ::= λ x, x <| ds_misses ::= inc64 |> |>, None)
  end.

Definition device_registry_find_by_ip (ip : Z) (out_record : bool) (st : dr_state)
    : dr_state * option device_record :=
  if negb (dr_initialized st) || negb out_record || (ip =? 0) then (st, None)
  else find_record (find_by_ip_locked ip st) st.

Definition device_registry_find_by_mac (mac : option bytes) (out_record : bool) (st : dr_state)
    : dr_state * option device_record :=
  match mac with
  | Some m => if negb (dr_initialized st) || negb out_record || negb (mac_valid mac) then (st, None)
              else find_record (find_by_mac_locked m st) st
  | None => (st, None)
  end.

Definition device_registry_find_by_id (device_id : Z) (out_record : bool) (st : dr_state)
    : dr_state * option device_record :=
  if negb (dr_initialized st) || negb out_record || (device_id =? 0) then (st, None)
  else find_record (find_by_id_locked device_id st) st.

(** The common body of the two state setters: [ev_id] and [ev_ip] read the
    identity the event carries from the record or the argument. *)
Definition set_state (index : option nat) (state : device_state) (risk_score : Z)
    (ev_id ev_ip : device_record → Z) (event_us : Z) (st : dr_state) bus : dr_state * eb_state * bool :=
  match index ≫= λ i, pair i <$> dr_devices st !! i with
  | None => (st, bus, false)
  | Some (i, s) =>
    let r := (dl_record s) <| dv_state := state |>
               <| dv_risk_score := if risk_score >? 100 then 100 else risk_score |> in
    let st' := st <| dr_devices ::= <[i := mk_device_slot (dl_in_use s) r]> |> in
    let bus' :=
      if bool_decide (state = DEVICE_STATE_QUARANTINED) then
        (event_bus_publish (Some (mk_zg_event ZG_EVENT_DEVICE_QUARANTINED 0 (dr_zone_id st)
           (ev_id r) (ev_ip r) 0 0 0 0 risk_score 0
           (safe_copy (zeros 48) (Some (lit "registry_state_quarantined"))))) event_us bus).1
      else bus in
    (st', bus', true)
  end.

Definition device_registry_set_state_by_ip (ip : Z) (state : device_state) (risk_score event_us : Z)
    (st : dr_state) bus : dr_state * eb_state * bool :=
  if negb (dr_initialized st) || (ip =? 0) then (st, bus, false)
  else set_state (find_by_ip_locked ip st) state risk_score dv_device_id (λ _, ip) event_us st bus.

Definition device_registry_set_state_by_id (device_id : Z) (state : device_state)
    (risk_score event_us : Z) (st : dr_state) bus : dr_state * eb_state * bool :=
  if negb (dr_initialized st) || (device_id =? 0) then (st, bus, false)
  else set_state (find_by_id_locked device_id st) state risk_score (λ _, device_id) dv_ip event_us st bus.
End with_bus.

Definition device_registry_remove_by_ip (ip : Z) (st : dr_state) : dr_state * bool :=
  if negb (dr_initialized st) || (ip =? 0) then (st, false) else
  match find_by_ip_locked ip st with
  | None => (st, false)
  | Some i =>
    (st <| dr_devices ::= <[i := device_slot_zero]> |>
        <| dr_stats ::= λ x, x <| ds_active_devices ::= dec_if_pos |> <| ds_removed ::= inc64 |> |>, true)
  end.

(** The records [device_registry_foreach] hands to its callback, in order. *)
Definition device_registry_foreach (st : dr_state) : list device_record :=
  if negb (dr_initialized st) then []
  else omap (λ s, if dl_in_use s then Some (dl_record s) else None) (dr_devices st).

Definition device_registry_get_stats (st : dr_state) : device_registry_stats := dr_stats st.

(** ** The abstract registry: a finite map from MAC addresses to records *)
#[export] Instance device_slot_view : Slot device_slot bytes device_record := {|
  s_used := dl_in_use;
  s_key s := dv_mac (dl_record s);
  s_val := dl_record;
|}.

Definition dr_map (st : dr_state) : gmap bytes device_record := slots_map (dr_devices st).

(** A record of the table carries a usable address and the identifier made from it. *)
Definition record_ok (r : device_record) : Prop :=
  dv_mac r ≠ zeros 6 ∧ dv_device_id r = device_registry_make_id_from_mac (Some (dv_mac r)) ∧
  dv_risk_score r ≤ 100.

Definition dr_balance (x : device_registry_stats) : Prop :=
  u64 (ds_added x) = u64 (ds_active_devices x + ds_removed x).

Record dr_inv (st : dr_state) : Prop := {
  dr_inv_length : List.length (dr_devices st) = DEVICE_REGISTRY_MAX_DEVICES;
  dr_inv_unique : keys_unique (dr_devices st);
  dr_inv_active : ds_active_devices (dr_stats st) = Z.of_nat (count dl_in_use (dr_devices st));
  dr_inv_records : Forall (λ s, dl_in_use s = true → record_ok (dl_record s)) (dr_devices st);
  dr_inv_balance : dr_balance (dr_stats st);
}.

(** What an upsert of [mac] at [ip] does, [None] when it fails. *)
Inductive upsert_spec (mac : bytes) (ip : Z) (refresh : device_record → device_record)
    (fresh : device_record) (m : gmap bytes device_record)
    : option device_record → gmap bytes device_record → Prop :=
| upsert_known r :
    m !! mac = Some r → upsert_spec mac ip refresh fresh m (Some (refresh r)) (<[mac := refresh r]> m)
| upsert_same_ip mac' r :
    m !! mac = None → m !! mac' = Some r → dv_ip r = ip →
    upsert_spec mac ip refresh fresh m (Some (refresh r)) (<[mac' := refresh r]> m)
| upsert_new :
    m !! mac = None → (∀ mac' r, m !! mac' = Some r → dv_ip r ≠ ip) →
    (size m < DEVICE_REGISTRY_MAX_DEVICES)%nat →
    upsert_spec mac ip refresh fresh m (Some (refresh fresh)) (<[mac := refresh fresh]> m)
| upsert_full :
    m !! mac = None → (∀ mac' r, m !! mac' = Some r → dv_ip r ≠ ip) →
    size m = DEVICE_REGISTRY_MAX_DEVICES → upsert_spec mac ip refresh fresh m None m.

(** ** Lemmas *)
Lemma refresh_record_fields ip ts name profile r :
  dv_mac (refresh_record ip ts name profile r) = dv_mac r ∧
  dv_device_id (refresh_record ip ts name profile r) = dv_device_id r ∧
  dv_risk_score (refresh_record ip ts name profile r) = dv_risk_score r ∧
  dv_state (refresh_record ip ts name profile r) = dv_state r ∧
  dv_ip (refresh_record ip ts name profile r) = ip ∧
  dv_last_seen_ms (refresh_record ip ts name profile r) = ts.
Proof. unfold refresh_record. by destruct name, profile. Qed.

Lemma refresh_record_ok ip ts name profile r :
  record_ok r → record_ok (refresh_record ip ts name profile r).
Proof.
  unfold record_ok. by destruct (refresh_record_fields ip ts name profile r) as (-> & -> & -> & _).
Qed.

Lemma new_record_ok mac zone_id ts :
  List.length mac = 6%nat → mac_valid (Some mac) = true →
  record_ok (new_record mac zone_id ts) ∧ dv_mac (new_record mac zone_id ts) = mac.
Proof.
  intros Hl Hv. unfold mac_valid in Hv. bools. assert (take 6 mac = mac) as E by (apply take_ge; lia).
  unfold record_ok, new_record. fields. rewrite !E. split_and!; (done || lia).
Qed.

Lemma find_by_mac_eq mac st : find_by_mac_locked mac st = first_index (key_is mac) (dr_devices st).
Proof. by apply first_index_ext. Qed.

Lemma find_by_ip_Some ip st i :
  dr_inv st → find_by_ip_locked ip st = Some i →
  ∃ s, dr_devices st !! i = Some s ∧ dl_in_use s = true ∧ dv_ip (dl_record s) = ip ∧
       dr_map st !! dv_mac (dl_record s) = Some (dl_record s).
Proof.
  intros Hinv E. apply first_index_lookup in E as (s & Hs & Hu). bools. exists s.
  split_and!; try done. exact (slots_map_elem _ i s (dr_inv_unique _ Hinv) Hs ltac:(done)).
Qed.

Lemma find_by_ip_None ip st mac r :
  find_by_ip_locked ip st = None → dr_map st !! mac = Some r → dv_ip r ≠ ip.
Proof.
  intros E (i & s & _ & Hi & Hs & _ & <-)%slots_map_Some.
  unfold find_by_ip_locked in E. rewrite first_index_None in E. specialize (E _ _ Hi). simpl in Hs.
  rewrite Hs in E. simpl in E. bools. done.
Qed.

Lemma dr_inv_empty stats zone_id ini :
  ds_active_devices stats = 0 → dr_balance stats → dr_inv (mk_dr_state devices_zero stats zone_id ini).
Proof.
  intros Ha Hb. constructor; simpl; [done|by apply keys_unique_zero|by rewrite Ha| |done].
  by apply Forall_replicate.
Qed.

Lemma dr_store_ok i s r stats' zone_id ini st :
  dr_inv st → dr_devices st !! i = Some s → record_ok r →
  (dl_in_use s = true ∧ dv_mac r = dv_mac (dl_record s) ∨
   dl_in_use s = false ∧ dr_map st !! dv_mac r = None) →
  ds_active_devices stats' = ds_active_devices (dr_stats st) + (if dl_in_use s then 0 else 1) →
  dr_balance stats' →
  let st' := mk_dr_state (<[i := mk_device_slot true r]> (dr_devices st)) stats' zone_id ini in
  dr_inv st' ∧ dr_map st' = <[dv_mac r := r]> (dr_map st).
Proof.
  intros Hinv Hi Hr Hs Ha Hb. pose proof Hinv as [Hl Hu Hact Hrec _].
  assert (dr_map (mk_dr_state (<[i := mk_device_slot true r]> (dr_devices st)) stats' zone_id ini) =
          <[dv_mac r := r]> (dr_map st) ∧ keys_unique (<[i := mk_device_slot true r]> (dr_devices st)))
    as [Hm Hu'].
  { destruct Hs as [[Hs Hk]|[Hs Hk]].
    - split; [|by eapply keys_unique_update].
      exact (slots_map_update _ _ i s (mk_device_slot true r) Hu Hi Hs (eq_sym Hk) eq_refl eq_refl).
    - apply slots_map_None in Hk. split; [|by apply keys_unique_add].
      exact (slots_map_add _ _ i s (mk_device_slot true r) Hu Hi Hs Hk eq_refl eq_refl). }
  split; [|done]. constructor; simpl; try done.
  - by rewrite length_insert.
  - pose proof (count_insert dl_in_use _ _ _ (mk_device_slot true r) Hi) as Hc. simpl in Hc.
    rewrite Ha, Hact. destruct (dl_in_use s); lia.
  - by apply Forall_insert.
Qed.

(** Refreshing the record of a used slot. *)
Lemma upsert_update_ok i s ip ts name profile st :
  dr_inv st → dr_devices st !! i = Some s → dl_in_use s = true →
  let r := refresh_record ip ts name profile (dl_record s) in
  let st' := st <| dr_devices ::= <[i := mk_device_slot (dl_in_use s) r]> |>
                <| dr_stats ::= λ x, x <| ds_updated ::= inc64 |> |> in
  dr_inv st' ∧ dr_map st' = <[dv_mac (dl_record s) := r]> (dr_map st).
Proof.
  intros Hinv Hi Hs. simpl. rewrite Hs.
  destruct (refresh_record_fields ip ts name profile (dl_record s)) as (Hk & _). rewrite <- Hk.
  apply dr_store_ok with (s := s); try done; [|by left|by rewrite Hs, Z.add_0_r|apply Hinv].
  apply refresh_record_ok. exact (Forall_lookup_1 _ _ _ _ (dr_inv_records _ Hinv) Hi Hs).
Qed.

(** Filling a free slot with a first sighting. *)
Lemma upsert_create_ok i mac ip ts name profile st :
  dr_inv st → List.length mac = 6%nat → mac_valid (Some mac) = true →
  find_empty_locked st = Some i → dr_map st !! mac = None →
  let r := refresh_record ip ts name profile (new_record mac (dr_zone_id st) ts) in
  let st' := st <| dr_devices ::= <[i := mk_device_slot true r]> |>
    <| dr_stats ::= λ x, x <| ds_active_devices ::= inc32 |> <| ds_added ::= inc64 |> |> in
  dr_inv st' ∧ dr_map st' = <[mac := r]> (dr_map st) ∧
  (size (dr_map st) < DEVICE_REGISTRY_MAX_DEVICES)%nat.
Proof.
  intros Hinv Hl Hv Ee Hm. apply first_index_lookup in Ee as (s & Hi & Hs%negb_true_iff).
  destruct (new_record_ok mac (dr_zone_id st) ts Hl Hv) as [Hok Hmac].
  pose proof (count_lt_free dl_in_use _ _ _ _ Hi Hs (dr_inv_length _ Hinv)) as Hlt.
  pose proof (dr_inv_active _ Hinv) as Ha. pose proof (dr_inv_balance _ Hinv) as Hb.
  assert (inc32 (ds_active_devices (dr_stats st)) = ds_active_devices (dr_stats st) + 1) as Hinc.
  { apply inc32_small. unfold U32_MAX, DEVICE_REGISTRY_MAX_DEVICES in *. lia. }
  destruct (refresh_record_fields ip ts name profile (new_record mac (dr_zone_id st) ts)) as (Hk & _).
  rewrite Hmac in Hk. set (r := refresh_record _ _ _ _ _) in *. rewrite <- Hk.
  cbv zeta. apply and_assoc. split.
  - apply dr_store_ok with (s := s); try done.
    + by apply refresh_record_ok.
    + right. by rewrite Hk.
    + simpl. by rewrite Hs, Hinc.
    + unfold dr_balance in *. simpl. rewrite Hinc. wrap_with Hb.
  - unfold dr_map. rewrite slots_map_size by apply Hinv. done.
Qed.

Lemma upsert_ok mac ip ts name profile st :
  dr_inv st → List.length mac = 6%nat → mac_valid (Some mac) = true →
  let spec := upsert_spec mac ip (refresh_record ip ts name profile)
                (new_record mac (dr_zone_id st) ts) (dr_map st) in
  match upsert_locked mac ip ts name profile st with
  | Some (st', r, _) =>
    spec (Some r) (dr_map st') ∧ dr_inv st' ∧ dr_initialized st' = dr_initialized st ∧
    dr_zone_id st' = dr_zone_id st
  | None => spec None (dr_map st)
  end.
Proof.
  intros Hinv Hl Hv spec. unfold upsert_locked. destruct (find_by_mac_locked mac st) as [i|] eqn:Em.
  { rewrite find_by_mac_eq in Em.
    pose proof (first_index_lookup _ _ _ Em) as (s & Hi & [Hs Hk]%key_is_true). rewrite Hi.
    destruct (upsert_update_ok i s ip ts name profile st Hinv Hi Hs) as [H1 ->].
    split; [|done]. simpl in Hk. rewrite Hk. constructor. exact (slots_map_found _ _ _ _ Em Hi). }
  rewrite find_by_mac_eq in Em. apply slots_map_None in Em.
  destruct (find_by_ip_locked ip st) as [i|] eqn:Eip.
  { apply find_by_ip_Some in Eip as (s & Hi & Hs & Hip & Hms); [|done]. rewrite Hi.
    destruct (upsert_update_ok i s ip ts name profile st Hinv Hi Hs) as [H1 ->].
    split; [|done]. by eapply upsert_same_ip. }
  pose proof (λ m r, find_by_ip_None ip st m r Eip) as Hip.
  destruct (find_empty_locked st) as [i|] eqn:Ee.
  - destruct (upsert_create_ok i mac ip ts name profile st Hinv Hl Hv Ee Em) as (H1 & -> & H3).
    split; [|done]. by apply upsert_new.
  - apply upsert_full; [done|done|]. unfold dr_map.
    rewrite slots_map_size by apply Hinv. rewrite <- (dr_inv_length _ Hinv). by apply first_free_None.
Qed.

Section runs.
  Context `{Q : Queue zg_event}.

Lemma set_state_inv index state risk ev_id ev_ip event_us st bus :
  dr_inv st → (∀ i s, index = Some i → dr_devices st !! i = Some s → dl_in_use s = true) →
  let '(st', _, _) := set_state index state risk ev_id ev_ip event_us st bus in
  dr_inv st' ∧ dr_initialized st' = dr_initialized st ∧ dr_zone_id st' = dr_zone_id st.
Proof.
  intros Hinv Hidx. unfold set_state. destruct index as [i|]; [|done]. simpl.
  destruct (dr_devices st !! i) as [s|] eqn:Hi; [|done]. simpl. split; [|done].
  pose proof (Hidx i s eq_refl Hi) as Hs. fields. rewrite Hs.
  pose proof (Forall_lookup_1 _ _ _ _ (dr_inv_records _ Hinv) Hi Hs) as (Hm & Hid & Hr).
  apply dr_store_ok with (s := s); try done; [|by left|by rewrite Hs, Z.add_0_r|apply Hinv].
  split_and!; try done. simpl. rewrite Z.gtb_ltb. case_match; bools; lia.
Qed.

Lemma find_by_ip_used ip st i s :
  find_by_ip_locked ip st = Some i → dr_devices st !! i = Some s → dl_in_use s = true.
Proof.
  intros (s' & Hs' & Hu)%first_index_lookup Hi. assert (s' = s) as -> by congruence. by bools.
Qed.

Lemma find_by_id_used device_id st i s :
  find_by_id_locked device_id st = Some i → dr_devices st !! i = Some s → dl_in_use s = true.
Proof.
  intros (s' & Hs' & Hu)%first_index_lookup Hi. assert (s' = s) as -> by congruence. by bools.
Qed.

Lemma device_remove_ok ip st :
  dr_inv st →
  let '(st', removed) := device_registry_remove_by_ip ip st in
  dr_inv st' ∧ dr_initialized st' = dr_initialized st ∧ dr_zone_id st' = dr_zone_id st ∧
  (removed = true → ∃ mac r, dr_map st !! mac = Some r ∧ dv_ip r = ip ∧ dr_map st' = delete mac (dr_map st)).
Proof.
  intros Hinv. unfold device_registry_remove_by_ip.
  destruct (_ || _); [done|]. destruct (find_by_ip_locked ip st) as [i|] eqn:E; [|done].
  apply find_by_ip_Some in E as (s & Hi & Hs & Hip & Hm); [|done]. fields.
  pose proof Hinv as [Hl Hu Ha Hr Hb]. pose proof (count_pos dl_in_use _ _ _ Hi Hs).
  split_and!; try done.
  - constructor; simpl; [by rewrite length_insert|by apply keys_unique_clear| | |].
    + pose proof (count_insert dl_in_use _ _ _ device_slot_zero Hi) as Hc. rewrite Hs in Hc. simpl in Hc.
      unfold dec_if_pos. rewrite decide_True by lia. lia.
    + by apply Forall_insert.
    + unfold dr_balance in *. simpl. unfold dec_if_pos. rewrite decide_True by lia. wrap_with Hb.
  - intros _. exists (dv_mac (dl_record s)), (dl_record s). split_and!; try done.
    exact (slots_map_clear _ i s device_slot_zero Hu Hi Hs eq_refl).
Qed.

Inductive dr_op :=
| DrInit (zone_id : Z)
| DrReset
| DrUpsert (mac : option bytes) (ip : Z) (name profile : option bytes) (timer_us event_us : Z)
| DrFindByIp (ip : Z)
| DrFindByMac (mac : option bytes)
| DrFindById (device_id : Z)
| DrSetStateByIp (ip : Z) (state : device_state) (risk_score event_us : Z)
| DrSetStateById (device_id : Z) (state : device_state) (risk_score event_us : Z)
| DrRemoveByIp (ip : Z).

(** A [const uint8_t mac[6]] argument points to six bytes or is null. *)
Definition op_ok (op : dr_op) : Prop :=
  match op with DrUpsert (Some mac) _ _ _ _ _ => List.length mac = 6%nat | _ => True end.

Definition dr_step (s : dr_state * eb_state) (op : dr_op) : dr_state * eb_state :=
  let '(st, bus) := s in
  match op with
  | DrInit zone_id => ((device_registry_init zone_id st).1, bus)
  | DrReset => (device_registry_reset st, bus)
  | DrUpsert mac ip name profile us event_us =>
    (device_registry_upsert_mac_ip mac ip name profile us event_us st bus).1.1
  | DrFindByIp ip => ((device_registry_find_by_ip ip true st).1, bus)
  | DrFindByMac mac => ((device_registry_find_by_mac mac true st).1, bus)
  | DrFindById device_id => ((device_registry_find_by_id device_id true st).1, bus)
  | DrSetStateByIp ip state risk us => (device_registry_set_state_by_ip ip state risk us st bus).1
  | DrSetStateById device_id state risk us =>
    (device_registry_set_state_by_id device_id state risk us st bus).1
  | DrRemoveByIp ip => ((device_registry_remove_by_ip ip st).1, bus)
  end.

Definition dr_run (bus : eb_state) (ops : list dr_op) : dr_state * eb_state :=
  fold_left dr_step ops (dr_boot, bus).

Lemma find_record_inv index st : dr_inv st → dr_inv (find_record index st).1.
Proof.
  intros [Hl Hu Ha Hr Hb]. unfold find_record. destruct (index ≫= _); by constructor.
Qed.

Lemma upsert_call_ok mac ip name profile us event_us st bus :
  dr_inv st → match mac with Some m => List.length m = 6%nat | None => True end →
  dr_inv (device_registry_upsert_mac_ip mac ip name profile us event_us st bus).1.1.1.
Proof.
  intros Hinv Hl. unfold device_registry_upsert_mac_ip. destruct mac as [mac|]; [|done].
  destruct (dr_initialized st && mac_valid (Some mac) && negb (ip =? 0)) eqn:Eg; [|done]. bools.
  pose proof (upsert_ok mac ip (now_ms us) name profile st Hinv Hl ltac:(done)) as Hx.
  destruct (upsert_locked _ _ _ _ _ _) as [[[st' r] c]|]; [|done]. apply Hx.
Qed.

Lemma dr_step_inv s op : dr_inv s.1 → op_ok op → dr_inv (dr_step s op).1.
Proof.
  destruct s as [st bus]. intros Hinv Hop. cbn [fst] in Hinv.
  destruct op as [z| |mac ip nm pf us eus|ip|mac|id|ip state risk us|id state risk us|ip]; cbn [dr_step fst].
  - by apply dr_inv_empty.
  - by apply dr_inv_empty.
  - by apply upsert_call_ok.
  - unfold device_registry_find_by_ip. case_match; [done|by apply find_record_inv].
  - unfold device_registry_find_by_mac. destruct mac; [|done]. case_match; [done|by apply find_record_inv].
  - unfold device_registry_find_by_id. case_match; [done|by apply find_record_inv].
  - unfold device_registry_set_state_by_ip. case_match; [done|].
    pose proof (set_state_inv (find_by_ip_locked ip st) state risk dv_device_id (λ _, ip) us st bus Hinv
      (λ i s, find_by_ip_used ip st i s)) as Hx.
    destruct (set_state _ _ _ _ _ _ _ _) as [[st' b'] ok]. apply Hx.
  - unfold device_registry_set_state_by_id. case_match; [done|].
    pose proof (set_state_inv (find_by_id_locked id st) state risk (λ _, id) dv_ip us st bus Hinv
      (λ i s, find_by_id_used id st i s)) as Hx.
    destruct (set_state _ _ _ _ _ _ _ _) as [[st' b'] ok]. apply Hx.
  - pose proof (device_remove_ok ip st Hinv) as Hx. destruct (device_registry_remove_by_ip ip st). apply Hx.
Qed.

Lemma dr_run_inv bus ops : Forall op_ok ops → dr_inv (dr_run bus ops).1.
Proof.
  intros Hops. unfold dr_run. assert (dr_inv (dr_boot, bus).1) as H0 by (by apply dr_inv_empty).
  revert H0. generalize (dr_boot, bus) as s. induction Hops as [|op ops Hop _ IH]; intros s H0; simpl; [done|].
  by apply IH, dr_step_inv.
Qed.
End runs.

(** ** Properties *)

(** C21: in every state the calls of the registry can reach, an upsert is one
    transition of the map from MAC addresses to records: it refreshes the record
    of a known MAC; otherwise it refreshes the record that holds the IP;
    otherwise it adds a record for the MAC, or fails with the table full.  The
    invariant (unique MACs, identifiers made from them, risk at most 100, active
    counter equal to the size of the map) holds before and after. *)
Theorem device_registry_upsert_refines `{Q : Queue zg_event} bus0 ops mac ip name profile us event_us
    bus st' bus' e out :
  Forall op_ok ops → List.length mac = 6%nat →
  let st := (dr_run bus0 ops).1 in
  dr_initialized st = true → mac ≠ zeros 6 → ip ≠ 0 →
  device_registry_upsert_mac_ip (Some mac) ip name profile us event_us st bus = (st', bus', e, out) →
  dr_inv st ∧ dr_inv st' ∧ e = (if out is Some _ then ESP_OK else ESP_ERR_NO_MEM) ∧
  upsert_spec mac ip (refresh_record ip (now_ms us) name profile)
    (new_record mac (dr_zone_id st) (now_ms us)) (dr_map st) out (dr_map st').
Proof.
  intros Hops Hl st Hini Hm Hip. pose proof (dr_run_inv bus0 ops Hops) as Hinv. fold st in Hinv.
  assert (mac_valid (Some mac) = true) as Hv by (simpl; by rewrite bool_decide_eq_false_2).
  unfold device_registry_upsert_mac_ip. rewrite Hini, Hv, (proj2 (Z.eqb_neq ip 0)) by done. simpl.
  pose proof (upsert_ok mac ip (now_ms us) name profile st Hinv Hl Hv) as H.
  destruct (upsert_locked _ _ _ _ _ _) as [[[st1 r] c]|]; intros [= <- <- <- <-].
  - destruct H as (Hs & Hinv' & _). done.
  - done.
Qed.

Definition mac_a : bytes := [2; 0; 0; 0; 0; 10].
Definition mac_b : bytes := [2; 0; 0; 0; 0; 11].
Definition witness_registry_ops : list dr_op :=
  [DrInit 1; DrUpsert (Some mac_a) 3232236290 None None 1000 1000].

Lemma device_registry_upsert_refines_witness :
  let st := (dr_run eb_boot witness_registry_ops).1 in
  let r := device_registry_upsert_mac_ip (Some mac_b) 3232236291 None None 2000 2000 st eb_boot in
  upsert_spec mac_b 3232236291 (refresh_record 3232236291 2 None None)
    (new_record mac_b 1 2) (dr_map st) r.2 (dr_map r.1.1.1).
Proof.
  intros st r.
  refine (proj2 (proj2 (proj2 (device_registry_upsert_refines eb_boot witness_registry_ops mac_b 3232236291
    None None 2000 2000 eb_boot r.1.1.1 r.1.1.2 r.1.2 r.2 _ _ _ _ _ _))));
    try (vm_compute; reflexivity); try discriminate.
  repeat constructor.
Defined.

(** Address reuse.  When the address of a registered device is handed to a
    device with another, unknown MAC, the upsert succeeds and publishes no join,
    but the registry still does not know the new MAC: it refreshes the old
    device's record, whose MAC, identifier and state it keeps and returns. *)
Theorem device_registry_ip_reuse `{Q : Queue zg_event} bus0 ops mac mac' r ip us event_us bus :
  Forall op_ok ops → List.length mac = 6%nat →
  let st := (dr_run bus0 ops).1 in
  dr_initialized st = true → mac ≠ zeros 6 → ip ≠ 0 →
  dr_map st !! mac = None → dr_map st !! mac' = Some r → dv_ip r = ip →
  ∃ st' r', device_registry_upsert_mac_ip (Some mac) ip None None us event_us st bus =
              (st', bus, ESP_OK, Some r') ∧
    dr_map st' !! mac = None ∧ dv_mac r' ≠ mac ∧
    ∃ r0, dr_map st !! dv_mac r' = Some r0 ∧ dv_state r' = dv_state r0 ∧
          dv_device_id r' = dv_device_id r0.
Proof.
  intros Hops Hl st Hini Hm Hip Hnone Hr Hrip. pose proof (dr_run_inv bus0 ops Hops) as Hinv. fold st in Hinv.
  assert (mac_valid (Some mac) = true) as Hv by (simpl; by rewrite bool_decide_eq_false_2).
  unfold device_registry_upsert_mac_ip. rewrite Hini, Hv, (proj2 (Z.eqb_neq ip 0)) by done. simpl.
  unfold upsert_locked. pose proof Hnone as Em. apply slots_map_None in Em. rewrite find_by_mac_eq, Em.
  destruct (find_by_ip_locked ip st) as [i|] eqn:Eip.
  2: { by destruct (find_by_ip_None ip st mac' r Eip Hr). }
  apply find_by_ip_Some in Eip as (s & Hi & Hs & _ & Hms); [|done]. rewrite Hi.
  destruct (upsert_update_ok i s ip (now_ms us) None None st Hinv Hi Hs) as [_ Hmap].
  destruct (refresh_record_fields ip (now_ms us) None None (dl_record s)) as (Hk & Hid & _ & Hst & _).
  assert (dv_mac (dl_record s) ≠ mac) as Hne by congruence.
  do 2 eexists. split; [reflexivity|]. rewrite Hmap, lookup_insert_ne by done.
  split_and!; [done|congruence|]. exists (dl_record s). by rewrite Hk.
Qed.

Lemma device_registry_ip_reuse_witness :
  let st := (dr_run eb_boot witness_registry_ops).1 in
  ∃ st' r', device_registry_upsert_mac_ip (Some mac_b) 3232236290 None None 2000 2000 st eb_boot =
              (st', eb_boot, ESP_OK, Some r') ∧
    dr_map st' !! mac_b = None ∧ dv_mac r' ≠ mac_b ∧
    ∃ r0, dr_map st !! dv_mac r' = Some r0 ∧ dv_state r' = dv_state r0 ∧
          dv_device_id r' = dv_device_id r0.
Proof.
  refine (device_registry_ip_reuse eb_boot witness_registry_ops mac_b mac_a
    (refresh_record 3232236290 1 None None (new_record mac_a 1 1)) 3232236290 2000 2000 eb_boot
    _ _ _ _ _ _ _ _); try (vm_compute; reflexivity); try discriminate.
  repeat constructor.
Defined.
