(* ===== verification/Zone_firewall.v ===== *)
(** * Zone_firewall: the verdict on a packet

    Model of [firmware/components/zone_firewall/zone_firewall.c], which drives
    the flow table, the quarantine list, the policy engine, the rate limiter and
    the device registry, and publishes on the event bus.  The state of all of
    them is [fw_world]; one evaluation is the composition of their calls in the
    order of the code. *)

From S2P Require Import Prelude Bytes Slots.
From S2P Require Flow_table Policy_engine Rate_limiter Quarantine_manager Event_bus Device_registry.
Import Flow_table Policy_engine Rate_limiter Quarantine_manager Event_bus Device_registry.

Inductive zone_firewall_verdict :=
| ZONE_FIREWALL_VERDICT_ALLOW
| ZONE_FIREWALL_VERDICT_DROP
| ZONE_FIREWALL_VERDICT_REDIRECT
| ZONE_FIREWALL_VERDICT_LOG_ONLY.

#[export] Instance zone_firewall_verdict_eq_dec : EqDecision zone_firewall_verdict.
Proof. solve_decision. Defined.

Record zone_firewall_config := mk_zone_firewall_config {
  zc_zone_id : Z;
  zc_default_allow : bool;
  zc_auto_quarantine_on_rate_limit : bool;
  zc_quarantine_ttl_ms : Z;
}.

Record zone_firewall_decision := mk_zone_firewall_decision {
  zd_verdict : zone_firewall_verdict;
  zd_policy_action : policy_action;
  zd_rate_exceeded : bool;
  zd_quarantined : bool;
  zd_risk_score : Z;
  zd_reason : bytes;
}.

Record zone_firewall_stats := mk_zone_firewall_stats {
  zs_evaluations : Z;
  zs_allowed : Z;
  zs_dropped : Z;
  zs_redirected : Z;
  zs_quarantined_hits : Z;
  zs_rate_exceeded : Z;
  zs_policy_denied : Z;
}.

(** The instants at which the calls of one evaluation read the clock. *)
Record fw_times := mk_fw_times {
  t_touch : Z;
  t_quarantine : Z;
  t_policy : Z;
  t_rate : Z;
  t_add : Z;
  t_event : Z;
}.

Definition zone_firewall_verdict_to_string (verdict : zone_firewall_verdict) : bytes :=
  match verdict with
  | ZONE_FIREWALL_VERDICT_ALLOW => lit "ALLOW"
  | ZONE_FIREWALL_VERDICT_DROP => lit "DROP"
  | ZONE_FIREWALL_VERDICT_REDIRECT => lit "REDIRECT"
  | ZONE_FIREWALL_VERDICT_LOG_ONLY => lit "LOG_ONLY"
  end.

(** [set_reason] on the 64 bytes of a decision's reason. *)
Definition set_reason (d : zone_firewall_decision) (reason : bytes) : zone_firewall_decision :=
  mk_zone_firewall_decision (zd_verdict d) (zd_policy_action d) (zd_rate_exceeded d)
    (zd_quarantined d) (zd_risk_score d) (safe_copy (zd_reason d) (Some reason)).

Definition zone_decision_zero : zone_firewall_decision :=
  mk_zone_firewall_decision ZONE_FIREWALL_VERDICT_ALLOW POLICY_ACTION_ALLOW false false 0 (zeros 64).
Definition zone_stats_zero : zone_firewall_stats := mk_zone_firewall_stats 0 0 0 0 0 0 0.

Section firewall.
  Context `{Q : Queue zg_event}.

Record fw_world := mk_fw_world {
  fw_config : zone_firewall_config;
  fw_stats : zone_firewall_stats;
  fw_initialized : bool;
  fw_flows : ft_state;
  fw_quarantine : qm_state;
  fw_policy : pe_state;
  fw_rate : rl_state;
  fw_registry : dr_state;
  fw_bus : eb_state;
}.
#[export] Instance fw_world_settable : Settable fw_world := fun r =>
  mk_fw_world (fw_config r) (fw_stats r) (fw_initialized r) (fw_flows r) (fw_quarantine r)
    (fw_policy r) (fw_rate r) (fw_registry r) (fw_bus r).

(** [snprintf(ev.reason, sizeof(ev.reason), "%s", reason)] into zeroed bytes is
    the truncating copy. *)
Definition publish_event (type : zg_event_type) (key : flow_key) (risk : Z) (reason : bytes)
    (timer_us : Z) (w : fw_world) : fw_world :=
  let ev := mk_zg_event type 0 (zc_zone_id (fw_config w)) 0 (fk_src_ip key) (fk_dst_ip key)
              (fk_src_port key) (fk_dst_port key) (fk_proto key) risk 0
              (safe_copy (zeros 48) (Some reason)) in
  w <| fw_bus ::= λ b, (event_bus_publish (Some ev) timer_us b).1 |>.

Definition zone_firewall_init (config : option zone_firewall_config) (w : fw_world)
    : fw_world * esp_err :=
  let c := match config with Some c => c | None => mk_zone_firewall_config 0 false false 0 end in
  let c := if zc_quarantine_ttl_ms c =? 0
           then mk_zone_firewall_config (zc_zone_id c) (zc_default_allow c)
                  (zc_auto_quarantine_on_rate_limit c) 60000 else c in
  (w <| fw_config := c |> <| fw_stats := zone_stats_zero |> <| fw_initialized := true |>, ESP_OK).

(** [quarantine_manager_add_ip] then [device_registry_set_state_by_ip]. *)
Definition isolate_source (key : flow_key) (source : quarantine_source) (risk : Z) (reason : bytes)
    (t : fw_times) (w : fw_world) : fw_world :=
  let qm' := (quarantine_manager_add_ip (fk_src_ip key) QUARANTINE_MODE_BLOCK_ALL source
                (zc_quarantine_ttl_ms (fw_config w)) risk (Some reason) (t_add t) (fw_quarantine w)).1 in
  let '(dr', bus', _) :=
    device_registry_set_state_by_ip (fk_src_ip key) DEVICE_STATE_QUARANTINED risk (t_event t)
      (fw_registry w) (fw_bus w) in
  w <| fw_quarantine := qm' |> <| fw_registry := dr' |> <| fw_bus := bus' |>.

Definition count_stat (f : zone_firewall_stats → zone_firewall_stats) (w : fw_world) : fw_world :=
  w <| fw_stats ::= f |>.
Definition bump (e a d r q x p : bool) (s : zone_firewall_stats) : zone_firewall_stats :=
  let inc (b : bool) n := if b then inc64 n else n in
  mk_zone_firewall_stats (inc e (zs_evaluations s)) (inc a (zs_allowed s)) (inc d (zs_dropped s))
    (inc r (zs_redirected s)) (inc q (zs_quarantined_hits s)) (inc x (zs_rate_exceeded s))
    (inc p (zs_policy_denied s)).
Definition count_evaluation := count_stat (bump true false false false false false false).
Definition count_allowed := count_stat (bump false true false false false false false).
Definition count_dropped := count_stat (bump false false true false false false false).
Definition count_redirected := count_stat (bump false false false true false false false).
Definition count_quarantine_drop := count_stat (bump false false true false true false false).
Definition count_policy_drop := count_stat (bump false false true false false false true).
Definition count_rate_exceeded := count_stat (bump false false false false false true false).

(** The last part of [zone_firewall_evaluate_flow]: the rate limit, then the
    final verdict. *)
Definition rate_stage (key : flow_key) (direction : flow_direction) (packet_bytes : Z) (t : fw_times)
    (d : zone_firewall_decision) (w : fw_world) : fw_world * zone_firewall_decision :=
  let '(rl', e, r) :=
    rate_limiter_check (Some key) direction packet_bytes true (t_rate t) (fw_rate w) in
  let w := w <| fw_rate := rl' |> in
  let exceeded :=
    match r with
    | Some r => if err_ok e && bool_decide (rx_decision r = RATE_LIMIT_DECISION_EXCEEDED)
                then Some r else None
    | None => None
    end in
  match exceeded with
  | Some r =>
    let risk := if zd_risk_score d <? 80 then 80 else zd_risk_score d in
    let d := mk_zone_firewall_decision (zd_verdict d) (zd_policy_action d) true (zd_quarantined d)
               risk (zd_reason d) in
    let d := set_reason d (rx_reason_text r) in
    let w := count_rate_exceeded w in
    let w := publish_event ZG_EVENT_RATE_EXCEEDED key risk (rx_reason_text r) (t_event t) w in
    let w :=
      if zc_auto_quarantine_on_rate_limit (fw_config w) && rx_suggest_quarantine r
      then isolate_source key QUARANTINE_SOURCE_RATE_LIMIT risk (rx_reason_text r) t w
      else w in
    (count_dropped w,
     mk_zone_firewall_decision ZONE_FIREWALL_VERDICT_DROP (zd_policy_action d) true
       (zd_quarantined d) (zd_risk_score d) (zd_reason d))
  | None =>
    if bool_decide (zd_policy_action d = POLICY_ACTION_LOG_ONLY) then
      let w := publish_event ZG_EVENT_FLOW_SEEN key (zd_risk_score d) (zd_reason d) (t_event t) w in
      (count_allowed w,
       mk_zone_firewall_decision ZONE_FIREWALL_VERDICT_LOG_ONLY (zd_policy_action d)
         (zd_rate_exceeded d) (zd_quarantined d) (zd_risk_score d) (zd_reason d))
    else
      (count_allowed w,
       mk_zone_firewall_decision ZONE_FIREWALL_VERDICT_ALLOW (zd_policy_action d)
         (zd_rate_exceeded d) (zd_quarantined d) (zd_risk_score d) (zd_reason d))
  end.

(** The middle part: the policy, which may decide alone. *)
Definition policy_stage (key : flow_key) (direction : flow_direction) (packet_bytes : Z)
    (t : fw_times) (d : zone_firewall_decision) (w : fw_world) : fw_world * zone_firewall_decision :=
  let '(pe', e, p) := policy_engine_evaluate (Some key) direction true (t_policy t) (fw_policy w) in
  let w := w <| fw_policy := pe' |> in
  let with_verdict v d := mk_zone_firewall_decision v (zd_policy_action d) (zd_rate_exceeded d)
                            (zd_quarantined d) (zd_risk_score d) (zd_reason d) in
  match p, err_ok e with
  | Some p, true =>
    let d := set_reason (mk_zone_firewall_decision (zd_verdict d) (pd_action p) (zd_rate_exceeded d)
                           (zd_quarantined d) (pd_risk_score p) (zd_reason d)) (pd_reason_text p) in
    if bool_decide (pd_action p = POLICY_ACTION_DENY) then
      let w := count_policy_drop w in
      (publish_event ZG_EVENT_POLICY_DENY key (pd_risk_score p) (pd_reason_text p) (t_event t) w,
       with_verdict ZONE_FIREWALL_VERDICT_DROP d)
    else if bool_decide (pd_action p = POLICY_ACTION_QUARANTINE) then
      let w := isolate_source key QUARANTINE_SOURCE_LOCAL_POLICY (pd_risk_score p) (pd_reason_text p) t w in
      let w := count_policy_drop w in
      (publish_event ZG_EVENT_DEVICE_QUARANTINED key (pd_risk_score p) (pd_reason_text p) (t_event t) w,
       with_verdict ZONE_FIREWALL_VERDICT_DROP d)
    else if bool_decide (pd_action p = POLICY_ACTION_REDIRECT) then
      (count_redirected w, with_verdict ZONE_FIREWALL_VERDICT_REDIRECT d)
    else rate_stage key direction packet_bytes t d w
  | _, _ =>
    let v := if zc_default_allow (fw_config w) then ZONE_FIREWALL_VERDICT_ALLOW
             else ZONE_FIREWALL_VERDICT_DROP in
    rate_stage key direction packet_bytes t (with_verdict v d) w
  end.

Definition zone_firewall_evaluate_flow (key : option flow_key) (direction : flow_direction)
    (packet_bytes : Z) (out_decision : bool) (t : fw_times) (w : fw_world)
    : fw_world * esp_err * option zone_firewall_decision :=
  match key, fw_initialized w && out_decision with
  | Some key, true =>
    let w := count_evaluation w in
    let w := w <| fw_flows ::= λ f, (flow_table_touch (Some key) direction packet_bytes (t_touch t) f).1.1 |> in
    let '(qm', found, q) :=
      quarantine_manager_check_flow_src (Some key) true (t_quarantine t) (fw_quarantine w) in
    let w := w <| fw_quarantine := qm' |> in
    match q, found with
    | Some q, true =>
      let d := set_reason (mk_zone_firewall_decision ZONE_FIREWALL_VERDICT_ALLOW POLICY_ACTION_ALLOW
                             false true (qr_risk_score q) (zeros 64)) (qr_reason q) in
      if bool_decide (qr_mode q = QUARANTINE_MODE_BLOCK_ALL) then
        let d := mk_zone_firewall_decision ZONE_FIREWALL_VERDICT_DROP (zd_policy_action d)
                   (zd_rate_exceeded d) (zd_quarantined d) (zd_risk_score d) (zd_reason d) in
        let w := count_quarantine_drop w in
        let w := publish_event ZG_EVENT_POLICY_DENY key (qr_risk_score q) (lit "quarantine_block")
                   (t_event t) w in
        (w, ESP_OK, Some d)
      else
        let '(w, d) := policy_stage key direction packet_bytes t d w in (w, ESP_OK, Some d)
    | _, _ =>
      let '(w, d) := policy_stage key direction packet_bytes t zone_decision_zero w in
      (w, ESP_OK, Some d)
    end
  | _, _ => (w, ESP_ERR_INVALID_ARG, None)
  end.

Definition zone_firewall_get_stats (w : fw_world) : zone_firewall_stats := fw_stats w.
End firewall.

(** ** The verdict as a function of what the components answer *)

(** [blocked]: the source is in BLOCK_ALL quarantine; [action]: the policy's
    action, [None] when the engine failed; [exceeded]: the rate limit is hit. *)
Definition verdict_of (blocked : bool) (action : option policy_action) (exceeded : bool)
    : zone_firewall_verdict :=
  if blocked then ZONE_FIREWALL_VERDICT_DROP else
  match action with
  | Some POLICY_ACTION_DENY | Some POLICY_ACTION_QUARANTINE => ZONE_FIREWALL_VERDICT_DROP
  | Some POLICY_ACTION_REDIRECT => ZONE_FIREWALL_VERDICT_REDIRECT
  | Some POLICY_ACTION_LOG_ONLY =>
    if exceeded then ZONE_FIREWALL_VERDICT_DROP else ZONE_FIREWALL_VERDICT_LOG_ONLY
  | _ => if exceeded then ZONE_FIREWALL_VERDICT_DROP else ZONE_FIREWALL_VERDICT_ALLOW
  end.

Section theory.
  Context `{Q : Queue zg_event}.
  Implicit Types (w : fw_world).

Definition source_blocked (key : flow_key) (t : fw_times) (w : fw_world) : bool :=
  let '(_, found, q) :=
    quarantine_manager_check_flow_src (Some key) true (t_quarantine t) (fw_quarantine w) in
  match q with
  | Some q => found && bool_decide (qr_mode q = QUARANTINE_MODE_BLOCK_ALL)
  | None => false
  end.

Definition policy_answer (key : flow_key) (direction : flow_direction) (t : fw_times) (w : fw_world)
    : option policy_action :=
  let '(_, e, p) := policy_engine_evaluate (Some key) direction true (t_policy t) (fw_policy w) in
  if err_ok e then pd_action <$> p else None.

Definition rate_exceeded (key : flow_key) (direction : flow_direction) (nbytes : Z) (t : fw_times)
    (w : fw_world) : bool :=
  let '(_, e, r) := rate_limiter_check (Some key) direction nbytes true (t_rate t) (fw_rate w) in
  err_ok e && bool_decide (rx_decision <$> r = Some RATE_LIMIT_DECISION_EXCEEDED).

Lemma rate_stage_verdict key direction nbytes t d w :
  zd_verdict (rate_stage key direction nbytes t d w).2 =
  if rate_exceeded key direction nbytes t w then ZONE_FIREWALL_VERDICT_DROP
  else if bool_decide (zd_policy_action d = POLICY_ACTION_LOG_ONLY)
       then ZONE_FIREWALL_VERDICT_LOG_ONLY else ZONE_FIREWALL_VERDICT_ALLOW.
Proof.
  unfold rate_stage, rate_exceeded. destruct (rate_limiter_check _ _ _ _ _ _) as [[rl' e] [r|]]; simpl.
  - destruct (err_ok e); simpl; [|by case_bool_decide].
    assert (bool_decide (Some (rx_decision r) = Some RATE_LIMIT_DECISION_EXCEEDED) =
            bool_decide (rx_decision r = RATE_LIMIT_DECISION_EXCEEDED)) as -> by (apply bool_decide_ext; split; [by intros [=]|by intros ->]).
    by repeat case_bool_decide.
  - rewrite andb_comm. simpl. by case_bool_decide.
Qed.

Lemma policy_stage_verdict key direction nbytes t d w :
  zd_policy_action d = POLICY_ACTION_ALLOW →
  zd_verdict (policy_stage key direction nbytes t d w).2 =
  verdict_of false (policy_answer key direction t w) (rate_exceeded key direction nbytes t w).
Proof.
  intros Hd. unfold policy_stage, policy_answer.
  destruct (policy_engine_evaluate _ _ _ _ _) as [[pe' e] p].
  assert (∀ w', fw_rate w' = fw_rate w →
    rate_exceeded key direction nbytes t w' = rate_exceeded key direction nbytes t w) as Hrate
    by (intros w' E; unfold rate_exceeded; by rewrite E).
  destruct p as [p|]; simpl; [destruct (err_ok e); simpl|].
  - destruct (pd_action p) eqn:Ea; simpl; try done;
      rewrite rate_stage_verdict; simpl; rewrite Hrate by done; by destruct (rate_exceeded _ _ _ _ _).
  - rewrite rate_stage_verdict. simpl. rewrite Hd, Hrate by done. by destruct (rate_exceeded _ _ _ _ _).
  - destruct (err_ok e); rewrite rate_stage_verdict; simpl; rewrite Hd, Hrate by done;
      by destruct (rate_exceeded _ _ _ _ _).
Qed.

(** ** What one evaluation does to the quarantine list *)
Definition adds_source (key : flow_key) (op : qm_op) : Prop :=
  ∃ source ttl risk reason us,
    op = QmAdd (Some (QUARANTINE_SUBJECT_IP (fk_src_ip key))) QUARANTINE_MODE_BLOCK_ALL source ttl risk reason us.

(** The parts of the world the later stages leave alone. *)
Definition same_setup w w' : Prop :=
  fw_config w' = fw_config w ∧ fw_initialized w' = fw_initialized w.

Lemma isolate_source_quarantine key source risk reason t w :
  fw_quarantine (isolate_source key source risk reason t w) =
    qm_step (fw_quarantine w) (QmAdd (Some (QUARANTINE_SUBJECT_IP (fk_src_ip key)))
      QUARANTINE_MODE_BLOCK_ALL source (zc_quarantine_ttl_ms (fw_config w)) risk (Some reason) (t_add t)) ∧
  same_setup w (isolate_source key source risk reason t w).
Proof.
  unfold isolate_source.
  by destruct (device_registry_set_state_by_ip _ _ _ _ _ _) as [[dr' bus'] ok].
Qed.

Lemma rate_stage_quarantine key direction nbytes t d w :
  let w' := (rate_stage key direction nbytes t d w).1 in
  same_setup w w' ∧
  ∃ adds, fw_quarantine w' = fold_left qm_step adds (fw_quarantine w) ∧ Forall (adds_source key) adds.
Proof.
  unfold rate_stage. destruct (rate_limiter_check _ _ _ _ _ _) as [[rl' e] r]. cbv zeta.
  destruct (match r with Some r0 => _ | None => None end) as [r0|].
  - destruct (_ && rx_suggest_quarantine r0).
    + cbn [fst]. set (w1 := publish_event _ _ _ _ _ _).
      destruct (isolate_source_quarantine key QUARANTINE_SOURCE_RATE_LIMIT
        (if zd_risk_score d <? 80 then 80 else zd_risk_score d) (rx_reason_text r0) t w1) as [Hq Hs].
      split; [exact Hs|]. eexists [_]. split; [exact Hq|].
      constructor; [|constructor]. repeat eexists.
    + split; [done|]. by exists [].
  - case_bool_decide; (split; [done|]; by exists []).
Qed.

(** The addition a policy verdict of QUARANTINE makes. *)
Definition policy_add (key : flow_key) (t : fw_times) (ttl risk : Z) (reason : bytes) : qm_op :=
  QmAdd (Some (QUARANTINE_SUBJECT_IP (fk_src_ip key))) QUARANTINE_MODE_BLOCK_ALL
    QUARANTINE_SOURCE_LOCAL_POLICY ttl risk (Some reason) (t_add t).

Lemma policy_stage_quarantine key direction nbytes t d w :
  let w' := (policy_stage key direction nbytes t d w).1 in
  same_setup w w' ∧
  ∃ adds, fw_quarantine w' = fold_left qm_step adds (fw_quarantine w) ∧ Forall (adds_source key) adds ∧
    (policy_answer key direction t w = Some POLICY_ACTION_QUARANTINE →
     ∃ risk reason, adds = [policy_add key t (zc_quarantine_ttl_ms (fw_config w)) risk reason]).
Proof.
  unfold policy_stage, policy_answer. destruct (policy_engine_evaluate _ _ _ _ _) as [[pe' e] p]. cbv zeta.
  set (w0 := w <| fw_policy := pe' |>).
  assert (∀ d' (P : Prop) R, ¬ P → let w' := (rate_stage key direction nbytes t d' w0).1 in same_setup w w' ∧
    ∃ adds, fw_quarantine w' = fold_left qm_step adds (fw_quarantine w) ∧ Forall (adds_source key) adds ∧
      (P → R adds)) as Hrate.
  { intros d' P R HP. destruct (rate_stage_quarantine key direction nbytes t d' w0) as (Hs & adds & Hq & Hf).
    split; [exact Hs|]. exists adds. split_and!; [exact Hq|done|tauto]. }
  destruct p as [p|]; [destruct (err_ok e)|destruct (err_ok e)].
  2-4: apply Hrate; intros HP; simpl in HP; discriminate HP.
  cbn [fmap option_fmap option_map]. destruct (pd_action p) eqn:Ea; simpl; try (apply Hrate; intros HP; simpl in HP; discriminate HP).
  - split; [done|]. by exists [].
  - destruct (isolate_source_quarantine key QUARANTINE_SOURCE_LOCAL_POLICY (pd_risk_score p)
      (pd_reason_text p) t w0) as [Hq Hs].
    split; [exact Hs|]. eexists [_]. split_and!; [exact Hq| |intros _; do 2 eexists; reflexivity].
    constructor; [|constructor]. repeat eexists.
  - split; [done|]. by exists [].
Qed.

(** One evaluation checks the source, and may then add it; a source in
    BLOCK_ALL quarantine is only checked. *)
Lemma evaluate_quarantine key direction nbytes t w :
  fw_initialized w = true →
  let w' := (zone_firewall_evaluate_flow (Some key) direction nbytes true t w).1.1 in
  let check := QmCheck (Some (QUARANTINE_SUBJECT_IP (fk_src_ip key))) true (t_quarantine t) in
  same_setup w w' ∧
  ∃ adds, fw_quarantine w' = fold_left qm_step (check :: adds) (fw_quarantine w) ∧
    Forall (adds_source key) adds ∧ (source_blocked key t w = true → adds = []) ∧
    (source_blocked key t w = false → policy_answer key direction t w = Some POLICY_ACTION_QUARANTINE →
     ∃ risk reason, adds = [policy_add key t (zc_quarantine_ttl_ms (fw_config w)) risk reason]).
Proof.
  intros Hi. unfold zone_firewall_evaluate_flow. rewrite Hi. cbn [andb]. cbv zeta.
  set (w0 := (count_evaluation w) <| fw_flows ::= _ |>).
  change (fw_quarantine w0) with (fw_quarantine w). unfold source_blocked.
  cbn [fold_left qm_step]. fold (quarantine_subject_from_ip (fk_src_ip key)).
  fold (quarantine_manager_check_ip (fk_src_ip key)).
  change (quarantine_manager_check_ip (fk_src_ip key) true (t_quarantine t) (fw_quarantine w))
    with (quarantine_manager_check_flow_src (Some key) true (t_quarantine t) (fw_quarantine w)).
  destruct (quarantine_manager_check_flow_src _ _ _ _) as [[qm' found] q]. cbn [fst].
  set (w1 := w0 <| fw_quarantine := qm' |>).
  assert (∀ d, let w' := (policy_stage key direction nbytes t d w1).1 in same_setup w w' ∧
    ∃ adds, fw_quarantine w' = fold_left qm_step adds qm' ∧ Forall (adds_source key) adds ∧
    (policy_answer key direction t w = Some POLICY_ACTION_QUARANTINE →
     ∃ risk reason, adds = [policy_add key t (zc_quarantine_ttl_ms (fw_config w)) risk reason])) as Hpol
    by (intros d; exact (policy_stage_quarantine key direction nbytes t d w1)).
  assert (∀ d (b : bool), b = false → let w' := (let '(w', d') := policy_stage key direction nbytes t d w1 in
     (w', ESP_OK, Some d')).1.1 in same_setup w w' ∧
    ∃ adds, fw_quarantine w' = fold_left qm_step adds qm' ∧ Forall (adds_source key) adds ∧
    (b = true → adds = []) ∧
    (b = false → policy_answer key direction t w = Some POLICY_ACTION_QUARANTINE →
     ∃ risk reason, adds = [policy_add key t (zc_quarantine_ttl_ms (fw_config w)) risk reason])) as Hp2.
  { intros d b ->. specialize (Hpol d). destruct (policy_stage _ _ _ _ _ _) as [w' d'].
    destruct Hpol as (Hs & adds & Hq & Hf & Hp). split; [done|]. exists adds. by split_and!. }
  destruct q as [q|]; [|by apply Hp2]. destruct found; [|by apply Hp2]. simpl andb.
  case_bool_decide as Hm; [|by apply Hp2].
  split; [done|]. exists []. by split_and!.
Qed.

(** *** Sequences of evaluations *)
Record flow_packet := mk_flow_packet {
  fp_key : flow_key;
  fp_direction : flow_direction;
  fp_bytes : Z;
  fp_times : fw_times;
}.

Definition fw_step w (p : flow_packet) : fw_world :=
  (zone_firewall_evaluate_flow (Some (fp_key p)) (fp_direction p) (fp_bytes p) true (fp_times p) w).1.1.
Definition fw_run (ps : list flow_packet) w : fw_world := fold_left fw_step ps w.

(** The firewall's own counters: every evaluation ends in exactly one verdict. *)
Definition fw_balance (x : zone_firewall_stats) : Prop :=
  u64 (zs_evaluations x) = u64 (zs_allowed x + zs_dropped x + zs_redirected x).

(** [n] evaluations are under way, started and not yet counted by verdict. *)
Definition fw_open (n : Z) (x : zone_firewall_stats) : Prop :=
  u64 (zs_evaluations x) = u64 (zs_allowed x + zs_dropped x + zs_redirected x + n).

Lemma rate_stage_stats key direction nbytes t d w :
  fw_open 1 (fw_stats w) → fw_open 0 (fw_stats (rate_stage key direction nbytes t d w).1).
Proof.
  intros Ho. unfold rate_stage. destruct (rate_limiter_check _ _ _ _ _ _) as [[rl' e] r]. cbv zeta.
  destruct (match r with Some r0 => _ | None => None end) as [r0|].
  - destruct (_ && rx_suggest_quarantine r0).
    + unfold isolate_source.
      destruct (device_registry_set_state_by_ip _ _ _ _ _ _) as [[dr' bus'] ok].
      unfold fw_open in *. simpl. wrap_with Ho.
    + unfold fw_open in *. simpl. wrap_with Ho.
  - unfold fw_open in *. case_bool_decide; simpl; wrap_with Ho.
Qed.

Lemma policy_stage_stats key direction nbytes t d w :
  fw_open 1 (fw_stats w) → fw_open 0 (fw_stats (policy_stage key direction nbytes t d w).1).
Proof.
  intros Ho. unfold policy_stage. destruct (policy_engine_evaluate _ _ _ _ _) as [[pe' e] p]. cbv zeta.
  destruct p as [p|]; [destruct (err_ok e)|]; try (by apply rate_stage_stats).
  destruct (pd_action p) eqn:Ea; simpl; try (by apply rate_stage_stats).
  - unfold fw_open in *. simpl. wrap_with Ho.
  - unfold isolate_source. destruct (device_registry_set_state_by_ip _ _ _ _ _ _) as [[dr' bus'] ok].
    unfold fw_open in *. simpl. wrap_with Ho.
  - unfold fw_open in *. simpl. wrap_with Ho.
Qed.

Lemma evaluate_stats key direction nbytes out t w :
  fw_balance (fw_stats w) →
  fw_balance (fw_stats (zone_firewall_evaluate_flow key direction nbytes out t w).1.1).
Proof.
  intros Hb. unfold zone_firewall_evaluate_flow. destruct key as [key|]; [|done].
  destruct (_ && _); [|done]. cbv zeta. set (w0 := (count_evaluation w) <| fw_flows ::= _ |>).
  assert (fw_open 1 (fw_stats w0)) as Ho.
  { unfold fw_open, fw_balance in *. simpl. wrap_with Hb. }
  clearbody w0. destruct (quarantine_manager_check_flow_src _ _ _ _) as [[qm' found] q].
  assert (∀ w', fw_open 0 (fw_stats w') → fw_balance (fw_stats w')) as Hclose
    by (intros w'; unfold fw_open, fw_balance; by rewrite Z.add_0_r).
  assert (∀ w1 d, fw_open 1 (fw_stats w1) → fw_balance (fw_stats (let '(w', d') :=
    policy_stage key direction nbytes t d w1 in (w', ESP_OK, Some d')).1.1)) as Hp.
  { intros w1 d Ho1. pose proof (policy_stage_stats key direction nbytes t d w1 Ho1) as Hps.
    destruct (policy_stage _ _ _ _ _ _). apply Hclose, Hps. }
  destruct q as [q|]; [destruct found|]; try (by apply Hp). case_bool_decide; [|by apply Hp].
  apply Hclose. unfold fw_open in *. simpl. wrap_with Ho.
Qed.

(** *** Quarantine across evaluations *)
Definition source_subject (key : flow_key) : quarantine_subject := QUARANTINE_SUBJECT_IP (fk_src_ip key).

Lemma source_valid key : fk_src_ip key ≠ 0 → subject_is_valid (Some (source_subject key)) = true.
Proof. intros H. simpl. by apply negb_true_iff, Z.eqb_neq. Qed.

(** The source of [key] is listed for BLOCK_ALL until [deadline], in a list that
    the subjects [S] fit. *)
Record guarded (S : gset quarantine_subject) (key : flow_key) (deadline : Z) w : Prop := {
  gd_up : fw_initialized w = true;
  gd_inv : qm_inv (fw_quarantine w);
  gd_list_up : qm_initialized (fw_quarantine w) = true;
  gd_fits : fits S (fw_quarantine w);
  gd_held : held (source_subject key) deadline QUARANTINE_MODE_BLOCK_ALL (fw_quarantine w);
}.

Lemma guarded_blocked S key key' t w deadline :
  guarded S key deadline w → fk_src_ip key ≠ 0 → fk_src_ip key' = fk_src_ip key →
  outlives deadline (Quarantine_manager.now_ms (t_quarantine t)) = true →
  source_blocked key' t w = true.
Proof.
  intros [_ Hinv Hi _ Hh] Hip Hsrc Ho.
  pose proof (check_held _ _ _ (t_quarantine t) _ Hinv Hi (source_valid _ Hip) Hh) as H. unfold source_blocked.
  change (quarantine_manager_check_flow_src (Some key') true (t_quarantine t) (fw_quarantine w)) with
    (quarantine_manager_check (Some (source_subject key')) true (t_quarantine t) (fw_quarantine w)).
  unfold source_subject in *. rewrite Hsrc. destruct (quarantine_manager_check _ _ _ _) as [[qm' found] q].
  destruct H as [-> H]. rewrite Ho in *. destruct (H eq_refl) as [_ Hm]. destruct q as [q|]; [|done].
  injection Hm as ->. by rewrite bool_decide_eq_true_2.
Qed.

Lemma fw_step_guarded S key deadline p w :
  fk_src_ip key ≠ 0 → source_subject (fp_key p) ∈ S →
  outlives deadline (Quarantine_manager.now_ms (t_quarantine (fp_times p))) = true →
  guarded S key deadline w → guarded S key deadline (fw_step w p).
Proof.
  intros Hip Hin Ho Hg. pose proof Hg as [Hi Hinv Hqi Hf Hh]. unfold fw_step.
  destruct (evaluate_quarantine (fp_key p) (fp_direction p) (fp_bytes p) (fp_times p) w Hi)
    as ([_ Hi'] & adds & Hq & Hadds & Hb & _).
  destruct (held_run S (source_subject key) deadline QUARANTINE_MODE_BLOCK_ALL
    (QmCheck (Some (source_subject (fp_key p))) true (t_quarantine (fp_times p)) :: adds) _ Hinv Hqi Hf)
    as (H1 & H2 & _ & H3 & H4); [|done|split; [congruence|rewrite Hq; assumption..]].
  constructor; [split_and!; [done|apply empty_subseteq|exact Ho]|].
  destruct (decide (fk_src_ip (fp_key p) = fk_src_ip key)) as [E|E].
  - rewrite Hb; [constructor|]. by eapply guarded_blocked.
  - eapply Forall_impl; [exact Hadds|]. intros op (src & ttl & risk & reason & us & ->). split_and!; simpl.
    + unfold source_subject. congruence.
    + by apply singleton_subseteq_l.
    + done.
Qed.

Lemma fw_run_guarded S key deadline ps w :
  fk_src_ip key ≠ 0 →
  Forall (λ p, source_subject (fp_key p) ∈ S ∧
    outlives deadline (Quarantine_manager.now_ms (t_quarantine (fp_times p))) = true) ps →
  guarded S key deadline w → guarded S key deadline (fw_run ps w).
Proof.
  intros Hip Hps. revert w. induction Hps as [|p ps [Hin Ho] _ IH]; intros w Hg; simpl; [done|].
  by apply IH, fw_step_guarded.
Qed.

(** A blocked source gets DROP, marked as quarantined. *)
Lemma evaluate_blocked key direction nbytes t w :
  fw_initialized w = true → source_blocked key t w = true →
  ∃ w' d, zone_firewall_evaluate_flow (Some key) direction nbytes true t w = (w', ESP_OK, Some d) ∧
          zd_verdict d = ZONE_FIREWALL_VERDICT_DROP ∧ zd_quarantined d = true.
Proof.
  intros Hi. unfold source_blocked, zone_firewall_evaluate_flow. rewrite Hi. cbv zeta. cbn [andb].
  set (w0 := (count_evaluation w) <| fw_flows ::= _ |>). change (fw_quarantine w0) with (fw_quarantine w).
  destruct (quarantine_manager_check_flow_src _ _ _ _) as [[qm' found] [q|]]; [|done].
  intros Hb. bools. subst found. rewrite bool_decide_eq_true_2 by done. do 2 eexists. by split.
Qed.

(** A check never grows the list. *)
Lemma check_size subject us qm :
  qm_inv qm → qm_initialized qm = true → subject_is_valid (Some subject) = true →
  (size (qm_map (qm_step qm (QmCheck (Some subject) true us))) ≤ size (qm_map qm))%nat.
Proof.
  intros Hinv Hi Hv. rewrite <- !size_dom. apply subseteq_size.
  destruct (qm_step_dom subject qm (QmCheck (Some subject) true us) Hinv Hi I) as (_ & _ & Hd). set_solver.
Qed.

(** An addition to a list with room, or whose subjects fit, succeeds. *)
Lemma add_succeeds S qm subject mode source ttl risk reason us :
  qm_inv qm → qm_initialized qm = true → subject_is_valid (Some subject) = true → subject ∈ S →
  (size (qm_map qm) < QUARANTINE_MAX_ENTRIES)%nat ∨
    dom (qm_map qm) ⊆ S ∧ (size S ≤ QUARANTINE_MAX_ENTRIES)%nat →
  (quarantine_manager_add (Some subject) mode source ttl risk reason us qm).2 = ESP_OK.
Proof.
  intros Hinv Hi Hv Hs Hroom. pose proof (add_ok subject mode source ttl risk reason us qm Hinv Hi Hv) as H.
  cbv zeta in H. destruct (quarantine_manager_add _ _ _ _ _ _ _ _) as [qm' e].
  destruct H as (_ & _ & _ & Ha). simpl. destruct Ha as [| | |Hk Hsz _]; try done.
  destruct Hroom as [?|[Hd Hle]]; [lia|]. pose proof (fits_room S subject _ Hd Hle Hs Hk). lia.
Qed.

(** The evaluation that sends a source to quarantine leaves it guarded. *)
Lemma quarantine_verdict_guards S p w :
  let key := fp_key p in
  fw_initialized w = true → qm_inv (fw_quarantine w) → qm_initialized (fw_quarantine w) = true →
  fk_src_ip key ≠ 0 → source_subject key ∈ S →
  (qc_evict_lru_when_full (qm_config (fw_quarantine w)) = false ∧
     (size (qm_map (fw_quarantine w)) < QUARANTINE_MAX_ENTRIES)%nat) ∨
    dom (qm_map (fw_quarantine w)) ⊆ S ∧ (size S ≤ QUARANTINE_MAX_ENTRIES)%nat →
  source_blocked key (fp_times p) w = false →
  policy_answer key (fp_direction p) (fp_times p) w = Some POLICY_ACTION_QUARANTINE →
  guarded S key (deadline_of (zc_quarantine_ttl_ms (fw_config w)) (t_add (fp_times p)) (fw_quarantine w))
    (fw_step w p).
Proof.
  intros key Hi Hinv Hqi Hip Hin Hroom Hnb Hpol. pose proof (source_valid key Hip) as Hv.
  pose proof (evaluate_quarantine key (fp_direction p) (fp_bytes p) (fp_times p) w Hi) as H. cbv zeta in H.
  change (zone_firewall_evaluate_flow (Some key) (fp_direction p) (fp_bytes p) true (fp_times p) w).1.1
    with (fw_step w p) in H. revert H. generalize (fw_step w p). intros w'.
  intros ([_ Hi'] & adds & Hq & _ & _ & Hadd). destruct (Hadd Hnb Hpol) as (risk & reason & ->).
  set (check := QmCheck (Some (source_subject key)) true (t_quarantine (fp_times p))) in *.
  destruct (qm_step_dom (source_subject key) (fw_quarantine w) check Hinv Hqi I) as (Hc1 & Hi1 & Hd1).
  pose proof (check_size (source_subject key) (t_quarantine (fp_times p)) _ Hinv Hqi Hv) as Hsz. fold check in Hsz.
  pose proof (qm_step_inv _ check Hinv) as Hinv1.
  cbn [fold_left] in Hq. change (QmCheck _ _ _) with check in Hq.
  set (qm1 := qm_step (fw_quarantine w) check) in *. clearbody qm1.
  set (ttl := zc_quarantine_ttl_ms (fw_config w)) in *. cbn [qm_step policy_add] in Hq.
  assert (dom (qm_map qm1) ⊆ dom (qm_map (fw_quarantine w))) as Hd1' by (simpl in Hd1; set_solver).
  pose proof (add_succeeds S qm1 (source_subject key) QUARANTINE_MODE_BLOCK_ALL QUARANTINE_SOURCE_LOCAL_POLICY
    ttl risk (Some reason) (t_add (fp_times p)) Hinv1 Hi1 Hv Hin) as Hok.
  unfold policy_add in Hq. cbn [qm_step] in Hq. fold (source_subject key) ttl in Hq.
  destruct (quarantine_manager_add _ _ _ _ _ _ _ qm1) as [qm2 e] eqn:Ea. simpl in Hok, Hq.
  rewrite Hok in Ea by (destruct Hroom as [[_ ?]|[? ?]]; [left; lia|right; split; [set_solver|done]]).
  destruct (added_held _ _ _ _ _ _ _ _ _ Hinv1 Hi1 Hv Ea) as (Hinv2 & Hi2 & Hc2 & Hh).
  assert (deadline_of ttl (t_add (fp_times p)) qm1 = deadline_of ttl (t_add (fp_times p)) (fw_quarantine w)) as <-
    by (unfold deadline_of, effective_ttl; by rewrite Hc1).
  destruct Hroom as [[Hev _]|[Hd Hle]].
  - split; [congruence|rewrite Hq; try done..]. left. by rewrite Hc2, Hc1.
  - split; [congruence|rewrite Hq; try done..]. right. split; [|done].
    destruct (qm_step_dom (QUARANTINE_SUBJECT_NONE) qm1 (QmAdd (Some (source_subject key)) QUARANTINE_MODE_BLOCK_ALL
      QUARANTINE_SOURCE_LOCAL_POLICY ttl risk (Some reason) (t_add (fp_times p))) Hinv1 Hi1) as (_ & _ & Hd2); [done|].
    cbn [qm_step] in Hd2. rewrite Ea in Hd2. cbn [fst op_added] in Hd2. set_solver.
Qed.

End theory.

(** ** Properties *)

(** C2: the verdict is a function of three answers only: whether the source is
    in BLOCK_ALL quarantine (DROP, whatever the policy says), the action of the
    policy engine (DENY and QUARANTINE drop, REDIRECT redirects), and whether
    the rate limit is exceeded (DROP); LOG_ONLY and ALLOW remain. *)
Theorem zone_firewall_verdict_table `{Q : Queue zg_event} key direction nbytes t w w' e d :
  fw_initialized w = true →
  zone_firewall_evaluate_flow (Some key) direction nbytes true t w = (w', e, Some d) →
  e = ESP_OK ∧
  zd_verdict d = verdict_of (source_blocked key t w) (policy_answer key direction t w)
                   (rate_exceeded key direction nbytes t w).
Proof.
  intros Hi. unfold zone_firewall_evaluate_flow, source_blocked. rewrite Hi. cbv zeta. cbn [andb].
  set (w0 := (count_evaluation w) <| fw_flows ::= _ |>). change (fw_quarantine w0) with (fw_quarantine w).
  destruct (quarantine_manager_check_flow_src _ _ _ _) as [[qm' found] q].
  assert (∀ w1 d1 b, fw_policy w1 = fw_policy w → fw_rate w1 = fw_rate w → zd_policy_action d1 = POLICY_ACTION_ALLOW →
    b = false →
    (let '(w2, d2) := policy_stage key direction nbytes t d1 w1 in (w2, ESP_OK, Some d2)) = (w', e, Some d) →
    e = ESP_OK ∧ zd_verdict d = verdict_of b (policy_answer key direction t w)
      (rate_exceeded key direction nbytes t w)) as Hpol.
  { intros w1 d1 b Hp Hr Hd1 ->. pose proof (policy_stage_verdict key direction nbytes t d1 w1 Hd1) as H.
    unfold policy_answer, rate_exceeded in *. rewrite Hp, Hr in H.
    destruct (policy_stage _ _ _ _ _ _). intros [= <- <- <-]. done. }
  destruct q as [q|]; [|by apply Hpol]. destruct found; [|by apply Hpol].
  case_bool_decide; simpl andb; [|by apply Hpol]. by intros [= <- <- <-].
Qed.

(** Every evaluation ends in exactly one counted verdict: for any sequence
    of evaluations, evaluations = allowed + dropped + redirected (modulo 2^64),
    LOG_ONLY counting as allowed. *)
Theorem zone_firewall_counts `{Q : Queue zg_event} config w ps :
  let w0 := (zone_firewall_init config w).1 in
  let x := fw_stats (fw_run ps w0) in
  u64 (zs_evaluations x) = u64 (zs_allowed x + zs_dropped x + zs_redirected x).
Proof.
  cbv zeta. assert (fw_balance (fw_stats (zone_firewall_init config w).1)) as Hb by done. revert Hb.
  generalize (zone_firewall_init config w).1 as w0.
  induction ps as [|p ps IH]; intros w0 Hb; [done|]. apply IH. by apply evaluate_stats.
Qed.

(** C1: isolation.  Once the policy sends a source (of nonzero address, from any
    state the quarantine calls can reach) to quarantine, then whatever other flows
    are evaluated in between, by whatever policies and rate limits, every flow of
    that source evaluated before the deadline is dropped as quarantined.  The
    deadline is the one the list stores: now + time to live modulo 2^32 (a result
    of zero never passes), with the list's default for a time to live of zero.
    The list must not evict the source: eviction is off and the list has a free
    slot, or (eviction is on by default) the subjects listed and the sources of the flows evaluated are at
    most its 64 slots. *)
Theorem zone_firewall_quarantine_enforced `{Q : Queue zg_event} qops p ps key' direction' nbytes' t' w :
  let key := fp_key p in
  let list := fw_quarantine w in
  let deadline := u32 (Quarantine_manager.now_ms (t_add (fp_times p)) +
                       effective_ttl (zc_quarantine_ttl_ms (fw_config w)) list) in
  let alive t := outlives deadline (Quarantine_manager.now_ms (t_quarantine t)) = true in
  fw_initialized w = true → list = qm_run qops → qm_initialized list = true → fk_src_ip key ≠ 0 →
  (qc_evict_lru_when_full (qm_config list) = false ∧ (size (qm_map list) < QUARANTINE_MAX_ENTRIES)%nat) ∨
    (size (dom (qm_map list) ∪ list_to_set ((λ q, source_subject (fp_key q)) <$> p :: ps))
       ≤ QUARANTINE_MAX_ENTRIES)%nat →
  source_blocked key (fp_times p) w = false →
  policy_answer key (fp_direction p) (fp_times p) w = Some POLICY_ACTION_QUARANTINE →
  Forall (λ q, alive (fp_times q)) ps → fk_src_ip key' = fk_src_ip key → alive t' →
  ∃ w' d, zone_firewall_evaluate_flow (Some key') direction' nbytes' true t' (fw_run (p :: ps) w)
            = (w', ESP_OK, Some d) ∧
          zd_verdict d = ZONE_FIREWALL_VERDICT_DROP ∧ zd_quarantined d = true.
Proof.
  intros key list deadline alive Hi Hqr Hqi Hip Hroom Hnb Hpol Hps Hsrc Ht'.
  assert (qm_inv (fw_quarantine w)) as Hinv by (fold list; rewrite Hqr; apply (qm_run_from qops), qm_boot_inv).
  set (S := dom (qm_map list) ∪ list_to_set ((λ q, source_subject (fp_key q)) <$> p :: ps)) in Hroom.
  assert (∀ q, q ∈ p :: ps → source_subject (fp_key q) ∈ S) as HS.
  { intros q Hq. apply elem_of_union_r, elem_of_list_to_set, list_elem_of_fmap. eauto. }
  assert (guarded S key deadline (fw_step w p)) as Hg.
  { apply quarantine_verdict_guards; try done; [apply HS; constructor|].
    destruct Hroom as [?|?]; [by left|right]. split; [apply union_subseteq_l|done]. }
  apply (fw_run_guarded S key deadline ps) in Hg; [|done|].
  - apply evaluate_blocked; [apply Hg|]. by eapply guarded_blocked.
  - apply Forall_forall. intros q Hq. rewrite Forall_forall in Hps. split; [|by apply Hps].
    apply HS. by constructor.
Qed.

(** A world in which every component is up: one policy rule sends a source to
    quarantine. *)
Definition witness_policy : policy_rule :=
  mk_policy_rule 0 true 7 FLOW_DIRECTION_UNKNOWN 3232236290 4294967295 0 0 0 666 0
    POLICY_ACTION_QUARANTINE 90 true 0 (lit "botnet").
Definition witness_qops : list qm_op := [QmInit None].
Definition witness_world : fw_world :=
  (zone_firewall_init (Some (mk_zone_firewall_config 1 false true 60000))
    (mk_fw_world (mk_zone_firewall_config 0 false false 0) zone_stats_zero false
       (ft_run [FtInit None]) (qm_run witness_qops) (pe_run [PeInit None; PeAddRule (Some witness_policy)])
       (rl_run [RlInit None]) (dr_run eb_boot [DrInit 1]).1 (event_bus_init true eb_boot).1)).1.
Definition witness_times (ms : Z) : fw_times :=
  let us := ms * 1000 in mk_fw_times us us us us us us.
Definition bad_flow : flow_packet :=
  mk_flow_packet (mk_flow_key 3232236290 134744072 50000 666 6) FLOW_DIRECTION_ZONE_TO_UPLINK 60
    (witness_times 1000).
Definition good_flow : flow_packet :=
  mk_flow_packet (mk_flow_key 3232236291 134744072 50000 443 6) FLOW_DIRECTION_ZONE_TO_UPLINK 60
    (witness_times 2000).

Lemma zone_firewall_verdict_table_witness :
  zd_verdict <$> (zone_firewall_evaluate_flow (Some (fp_key bad_flow)) FLOW_DIRECTION_ZONE_TO_UPLINK 60
    true (witness_times 1000) witness_world).2 = Some (verdict_of false (Some POLICY_ACTION_QUARANTINE) false).
Proof.
  pose proof (zone_firewall_verdict_table (fp_key bad_flow) FLOW_DIRECTION_ZONE_TO_UPLINK 60
    (witness_times 1000) witness_world) as H.
  destruct (zone_firewall_evaluate_flow _ _ _ _ _ _) as [[w' e] [d|]] eqn:E; [|vm_compute in E; discriminate E].
  destruct (H w' e d eq_refl eq_refl) as [_ Hv]. simpl. f_equal. rewrite Hv. vm_compute. reflexivity.
Defined.

Lemma zone_firewall_quarantine_enforced_witness :
  ∃ w' d, zone_firewall_evaluate_flow (Some (mk_flow_key 3232236290 16843009 1 53 17))
            FLOW_DIRECTION_ZONE_TO_UPLINK 60 true (witness_times 60999)
            (fw_run [bad_flow; good_flow] witness_world) = (w', ESP_OK, Some d) ∧
          zd_verdict d = ZONE_FIREWALL_VERDICT_DROP ∧ zd_quarantined d = true.
Proof.
  apply (zone_firewall_quarantine_enforced witness_qops bad_flow [good_flow]
    (mk_flow_key 3232236290 16843009 1 53 17) FLOW_DIRECTION_ZONE_TO_UPLINK 60 (witness_times 60999)
    witness_world).
  - vm_compute. reflexivity.
  - vm_compute. reflexivity.
  - vm_compute. reflexivity.
  - vm_compute. discriminate.
  - right. apply Nat.leb_le. vm_compute. reflexivity.
  - vm_compute. reflexivity.
  - vm_compute. reflexivity.
  - constructor; [vm_compute; reflexivity|constructor].
  - vm_compute. reflexivity.
  - vm_compute. reflexivity.
Defined.

(** Fail-open.  When the policy engine cannot answer (it is not
    initialised), a flow that is neither quarantined nor over its rate is
    allowed and counted as allowed, also under a configuration whose
    [default_allow] is false. *)
Theorem zone_firewall_engine_failure_allows `{Q : Queue zg_event} key direction nbytes t w w' e d :
  fw_initialized w = true → pe_initialized (fw_policy w) = false →
  zc_default_allow (fw_config w) = false →
  source_blocked key t w = false → rate_exceeded key direction nbytes t w = false →
  zone_firewall_evaluate_flow (Some key) direction nbytes true t w = (w', e, Some d) →
  zd_verdict d = ZONE_FIREWALL_VERDICT_ALLOW.
Proof.
  intros Hi Hpe _ Hb Hr. unfold zone_firewall_evaluate_flow, source_blocked in *. rewrite Hi. cbv zeta. cbn [andb].
  set (w0 := (count_evaluation w) <| fw_flows ::= _ |>). change (fw_quarantine w0) with (fw_quarantine w).
  destruct (quarantine_manager_check_flow_src _ _ _ _) as [[qm' found] q].
  assert (∀ w1 d1, fw_policy w1 = fw_policy w → fw_rate w1 = fw_rate w → zd_policy_action d1 = POLICY_ACTION_ALLOW →
    (let '(w2, d2) := policy_stage key direction nbytes t d1 w1 in (w2, ESP_OK, Some d2)) = (w', e, Some d) →
    zd_verdict d = ZONE_FIREWALL_VERDICT_ALLOW) as Hpol.
  { intros w1 d1 Hp Hrt Hd1. pose proof (policy_stage_verdict key direction nbytes t d1 w1 Hd1) as H.
    unfold policy_answer, rate_exceeded in *. rewrite Hp, Hrt, Hr in H.
    unfold policy_engine_evaluate in H. rewrite Hpe in H. simpl in H.
    destruct (policy_stage _ _ _ _ _ _). intros [= <- <- <-]. done. }
  destruct q as [q|]; [|by apply Hpol]. destruct found; [|by apply Hpol]. simpl andb in Hb.
  rewrite Hb. by apply Hpol.
Qed.

Lemma zone_firewall_engine_failure_allows_witness :
  let w := witness_world <| fw_policy := pe_boot |> in
  zd_verdict <$> (zone_firewall_evaluate_flow (Some (fp_key bad_flow)) FLOW_DIRECTION_ZONE_TO_UPLINK 60
    true (witness_times 1000) w).2 = Some ZONE_FIREWALL_VERDICT_ALLOW.
Proof.
  intros w.
  pose proof (zone_firewall_engine_failure_allows (fp_key bad_flow) FLOW_DIRECTION_ZONE_TO_UPLINK 60
    (witness_times 1000) w) as H.
  destruct (zone_firewall_evaluate_flow _ _ _ _ _ _) as [[w' e] [d|]] eqn:E; [|vm_compute in E; discriminate E].
  simpl. f_equal. apply (H w' e d); vm_compute; reflexivity.
Defined.
