(* ===== verification/Dns_filter.v ===== *)
(** * DNS filter: the resolver of the zone

    [dns_filter/dns_filter.c].  Rules with wildcard patterns decide what happens
    to a query: a forged A record (0.0.0.0 or a redirect address), or a place in
    the queue of the worker that forwards it upstream.  Packets are lists of
    bytes; what the sockets deliver is an input of a turn, what is sent is its
    output.  The FreeRTOS queue is the interface of [Event_bus]. *)

From S2P Require Import Prelude Bytes Slots Event_bus.

Definition DNS_FILTER_MAX_RULES : nat := 32.
Definition DNS_FILTER_DOMAIN_LEN : nat := 128.
Definition DNS_BUF_SIZE : nat := 512.
Definition DNS_JOB_QUEUE_LEN : nat := 8.

(** ** Data *)
Inductive dns_filter_action :=
| DNS_FILTER_ALLOW
| DNS_FILTER_BLOCK
| DNS_FILTER_REDIRECT
| DNS_FILTER_LOG_ONLY.

#[export] Instance dns_filter_action_eq_dec : EqDecision dns_filter_action.
Proof. solve_decision. Defined.

Record dns_filter_rule := mk_dns_filter_rule {
  dr_rule_id : Z;
  dr_enabled : bool;
  dr_priority : Z;
  dr_pattern : bytes;
  dr_action : dns_filter_action;
  dr_redirect_ip : Z;
  dr_risk_score : Z;
  dr_reason : bytes
}.
#[export] Instance dns_filter_rule_settable : Settable dns_filter_rule := fun r =>
  mk_dns_filter_rule (dr_rule_id r) (dr_enabled r) (dr_priority r) (dr_pattern r)
    (dr_action r) (dr_redirect_ip r) (dr_risk_score r) (dr_reason r).

Record dns_filter_config := mk_dns_filter_config {
  dc_listen_port : Z;
  dc_upstream_dns_ip : Z;
  dc_default_allow : bool
}.
#[export] Instance dns_filter_config_settable : Settable dns_filter_config := fun r =>
  mk_dns_filter_config (dc_listen_port r) (dc_upstream_dns_ip r) (dc_default_allow r).

Record dns_filter_stats := mk_dns_filter_stats {
  dst_queries : Z;
  dst_allowed : Z;
  dst_blocked : Z;
  dst_redirected : Z;
  dst_errors : Z;
  dst_active_rules : Z
}.
#[export] Instance dns_filter_stats_settable : Settable dns_filter_stats := fun r =>
  mk_dns_filter_stats (dst_queries r) (dst_allowed r) (dst_blocked r) (dst_redirected r)
    (dst_errors r) (dst_active_rules r).

Record dns_rule_slot := mk_dns_rule_slot {
  dl_in_use : bool;
  dl_rule : dns_filter_rule
}.
#[export] Instance dns_rule_slot_settable : Settable dns_rule_slot := fun r =>
  mk_dns_rule_slot (dl_in_use r) (dl_rule r).

(** A UDP peer: address and port in host order. *)
Record sockaddr := mk_sockaddr { sa_ip : Z; sa_port : Z }.
#[export] Instance sockaddr_settable : Settable sockaddr := fun r =>
  mk_sockaddr (sa_ip r) (sa_port r).

Record dns_job := mk_dns_job {
  dj_query : bytes;
  dj_query_len : nat;
  dj_client_addr : sockaddr;
  dj_domain : bytes;
  dj_risk : Z
}.
#[export] Instance dns_job_settable : Settable dns_job := fun r =>
  mk_dns_job (dj_query r) (dj_query_len r) (dj_client_addr r) (dj_domain r) (dj_risk r).

Definition dns_rule_zero : dns_filter_rule :=
  mk_dns_filter_rule 0 false 0 (zeros DNS_FILTER_DOMAIN_LEN) DNS_FILTER_ALLOW 0 0 (zeros 48).
Definition dns_slot_zero : dns_rule_slot := mk_dns_rule_slot false dns_rule_zero.
Definition dns_slots_zero : list dns_rule_slot := replicate DNS_FILTER_MAX_RULES dns_slot_zero.
Definition dns_stats_zero : dns_filter_stats := mk_dns_filter_stats 0 0 0 0 0 0.

(** ** Strings *)
Definition dns_filter_ipv4 (a b c d : Z) : Z := ipv4_of_octets a b c d.

(** [str_lower]: in place, up to the terminator. *)
Definition str_lower (s : bytes) : bytes := map tolower (c_str s) ++ drop (List.length (c_str s)) s.

(** Patterns and domains are C strings; [None] is the null pointer. *)
Definition domain_match (pattern domain : option bytes) : bool :=
  match pattern, domain with
  | Some p, Some d =>
    if nth 0 p 0 =? 0 then false
    else if strcmp_eq p (lit "*") then true
    else
      let dn := strlen d in
      if nth 0 p 0 =? 42 then
        let suffix := drop 1 p in
        let s := strlen suffix in
        (s <=? dn)%nat && strcmp_eq (drop (dn - s) d) suffix
      else strcmp_eq p d
  | _, _ => false
  end.

(** ** Packets *)
(** [for (i = 0; i < label_len && off < out_len - 1; ++i) out[off++] = buf[pos++]];
    [out] is what was written so far, its length is [off]. *)
Fixpoint copy_label (n : nat) (buf : bytes) (out_len pos : nat) (out : bytes) : bytes * nat :=
  match n with
  | O => (out, pos)
  | S n' =>
    if (List.length out <? out_len - 1)%nat
    then copy_label n' buf out_len (S pos) (out ++ [nth pos buf 0])
    else (out, pos)
  end.

(** The label loop; [None] is [return false].  Every turn advances [pos], so
    [len] turns are enough. *)
Fixpoint parse_labels (fuel : nat) (buf : bytes) (len out_len pos : nat) (out : bytes) :
    option bytes :=
  match fuel with
  | O => Some out
  | S fuel' =>
    if negb (pos <? len)%nat then Some out
    else
      let label_len := nth pos buf 0 in
      let pos := S pos in
      if label_len =? 0 then Some out
      else if negb (Z.land label_len 192 =? 0) then None
      else if (len <? pos + Z.to_nat label_len)%nat then None
      else
        let out :=
          if negb (List.length out =? 0)%nat && (List.length out <? out_len - 1)%nat
          then out ++ [46] else out in
        let '(out, pos) := copy_label (Z.to_nat label_len) buf out_len pos out in
        parse_labels fuel' buf len out_len pos out
  end.

(** The name as the string left in [out]; [None] when the function returns
    false. *)
Definition parse_dns_qname (buf : option bytes) (len : nat) (out_len : nat) : option bytes :=
  match buf with
  | None => None
  | Some buf =>
    if (len <? 12)%nat || (out_len =? 0)%nat then None
    else
      match parse_labels len buf len out_len 12 [] with
      | None => None
      | Some out => if (0 <? List.length out)%nat then Some (str_lower (out ++ [0])) else None
      end
  end.

(** The offset after the name; [None] is -1. *)
Fixpoint qname_end_loop (fuel : nat) (buf : bytes) (len pos : nat) : option nat :=
  match fuel with
  | O => None
  | S fuel' =>
    if negb (pos <? len)%nat then None
    else
      let l := nth pos buf 0 in
      let pos := S pos in
      if l =? 0 then Some pos
      else if negb (Z.land l 192 =? 0) then None
      else qname_end_loop fuel' buf len (pos + Z.to_nat l)
  end.
Definition find_qname_end (buf : bytes) (len : nat) : option nat := qname_end_loop len buf len 12.

(** The four bytes of [htonl(ip)]. *)
Definition be32 (ip : Z) : bytes :=
  [Z.land (Z.shiftr ip 24) 255; Z.land (Z.shiftr ip 16) 255; Z.land (Z.shiftr ip 8) 255; Z.land ip 255].

(** The response and its length; [None] is -1. *)
Definition build_a_response (query : option bytes) (qlen : nat) (rsize : nat) (ip_host_order : Z) :
    option bytes :=
  match query with
  | None => None
  | Some query =>
    if (qlen <? 12)%nat || (rsize <? qlen + 16)%nat then None
    else
      match find_qname_end query qlen with
      | None => None
      | Some qname_end =>
        if (qlen <? qname_end + 4)%nat then None
        else
          let question_len := (qname_end + 4)%nat in
          let resp := take question_len query in
          let resp := <[2%nat := 129]> resp in
          let resp := <[3%nat := 128]> resp in
          let resp := <[6%nat := 0]> resp in
          let resp := <[7%nat := 1]> resp in
          Some (resp ++ [192; 12; 0; 1; 0; 1; 0; 0; 0; 60; 0; 4] ++ be32 ip_host_order)
      end
  end.

(** ** State *)
Section dns.
Context `{QJ : Queue dns_job} `{QE : Queue zg_event}.

Record dns_state := mk_dns_state {
  dn_rules : list dns_rule_slot;
  dn_config : dns_filter_config;
  dn_stats : dns_filter_stats;
  dn_next_rule_id : Z;
  dn_queue : option (queue dns_job);
  dn_sock : bool;
  dn_upstream_sock : bool;
  dn_running : bool;
  dn_stop : bool
}.
#[export] Instance dns_state_settable : Settable dns_state := fun r =>
  mk_dns_state (dn_rules r) (dn_config r) (dn_stats r) (dn_next_rule_id r) (dn_queue r)
    (dn_sock r) (dn_upstream_sock r) (dn_running r) (dn_stop r).

Definition dns_boot : dns_state :=
  mk_dns_state dns_slots_zero (mk_dns_filter_config 0 0 false) dns_stats_zero 1 None false false
    false false.

(** A state with other rules, statistics, or sockets. *)
Definition with_rules (rules : list dns_rule_slot) (stats : dns_filter_stats) (next : Z)
    (st : dns_state) : dns_state :=
  mk_dns_state rules (dn_config st) stats next (dn_queue st) (dn_sock st) (dn_upstream_sock st)
    (dn_running st) (dn_stop st).
Definition with_stats (stats : dns_filter_stats) (st : dns_state) : dns_state :=
  with_rules (dn_rules st) stats (dn_next_rule_id st) st.
Definition with_queue (q : option (queue dns_job)) (st : dns_state) : dns_state :=
  mk_dns_state (dn_rules st) (dn_config st) (dn_stats st) (dn_next_rule_id st) q (dn_sock st)
    (dn_upstream_sock st) (dn_running st) (dn_stop st).
Definition with_sockets (sock upstream running stop : bool) (st : dns_state) : dns_state :=
  mk_dns_state (dn_rules st) (dn_config st) (dn_stats st) (dn_next_rule_id st) (dn_queue st)
    sock upstream running stop.

Definition count_query (s : dns_filter_stats) : dns_filter_stats :=
  mk_dns_filter_stats (inc64 (dst_queries s)) (dst_allowed s) (dst_blocked s) (dst_redirected s)
    (dst_errors s) (dst_active_rules s).
Definition count_forwarded (s : dns_filter_stats) : dns_filter_stats :=
  mk_dns_filter_stats (dst_queries s) (inc64 (dst_allowed s)) (dst_blocked s) (dst_redirected s)
    (dst_errors s) (dst_active_rules s).
Definition count_blocked (s : dns_filter_stats) : dns_filter_stats :=
  mk_dns_filter_stats (dst_queries s) (dst_allowed s) (inc64 (dst_blocked s)) (dst_redirected s)
    (dst_errors s) (dst_active_rules s).
Definition count_redirect (s : dns_filter_stats) : dns_filter_stats :=
  mk_dns_filter_stats (dst_queries s) (dst_allowed s) (dst_blocked s) (inc64 (dst_redirected s))
    (dst_errors s) (dst_active_rules s).
Definition count_error (s : dns_filter_stats) : dns_filter_stats :=
  mk_dns_filter_stats (dst_queries s) (dst_allowed s) (dst_blocked s) (dst_redirected s)
    (inc64 (dst_errors s)) (dst_active_rules s).
Definition set_active (n : Z) (s : dns_filter_stats) : dns_filter_stats :=
  mk_dns_filter_stats (dst_queries s) (dst_allowed s) (dst_blocked s) (dst_redirected s)
    (dst_errors s) n.

(** ** Rules *)
Definition dns_filter_init (config : option dns_filter_config) (st : dns_state) :
    dns_state * esp_err :=
  let c := mk_dns_filter_config 53 (dns_filter_ipv4 8 8 8 8) true in
  let c := match config with Some c' => c' | None => c end in
  let c := if dc_listen_port c =? 0
           then mk_dns_filter_config 53 (dc_upstream_dns_ip c) (dc_default_allow c) else c in
  (mk_dns_state dns_slots_zero c dns_stats_zero 1 (dn_queue st) (dn_sock st) (dn_upstream_sock st)
     (dn_running st) (dn_stop st), ESP_OK).

(** The state, the status and [*out_rule_id] when it is written. *)
Definition dns_filter_add_rule (rule : option dns_filter_rule) (st : dns_state) :
    dns_state * esp_err * option Z :=
  match rule with
  | None => (st, ESP_ERR_INVALID_ARG, None)
  | Some r =>
    match first_index (fun s => negb (dl_in_use s)) (dn_rules st) with
    | None => (st, ESP_ERR_NO_MEM, None)
    | Some i =>
      let id := if dr_rule_id r =? 0 then dn_next_rule_id st else dr_rule_id r in
      let next := if dr_rule_id r =? 0 then inc32 (dn_next_rule_id st) else dn_next_rule_id st in
      let r' := mk_dns_filter_rule id true (dr_priority r) (str_lower (dr_pattern r)) (dr_action r)
                  (dr_redirect_ip r) (dr_risk_score r) (dr_reason r) in
      (with_rules (<[i := mk_dns_rule_slot true r']> (dn_rules st))
         (set_active (inc32 (dst_active_rules (dn_stats st))) (dn_stats st)) next st,
       ESP_OK, Some id)
    end
  end.

Definition dns_filter_remove_rule (rule_id : Z) (st : dns_state) : dns_state * bool :=
  match first_index (fun s => dl_in_use s && (dr_rule_id (dl_rule s) =? rule_id)) (dn_rules st) with
  | None => (st, false)
  | Some i =>
    (with_rules (<[i := dns_slot_zero]> (dn_rules st))
       (set_active (dec_if_pos (dst_active_rules (dn_stats st))) (dn_stats st))
       (dn_next_rule_id st) st, true)
  end.

Definition dns_slot_matches (domain : option bytes) (s : dns_rule_slot) : bool :=
  dl_in_use s && dr_enabled (dl_rule s) && domain_match (Some (dr_pattern (dl_rule s))) domain.
Definition best_dns_rule (domain : option bytes) (st : dns_state) : option dns_filter_rule :=
  dl_rule <$> best_loop (dns_slot_matches domain) (fun s => dr_priority (dl_rule s)) (dn_rules st) None.

(** The action, and what the call leaves in [*out_redirect_ip],
    [*out_risk_score] and [out_reason] (a buffer of its size). *)
Definition dns_filter_evaluate_domain (domain : option bytes) (out_reason : bytes) (st : dns_state) :
    dns_filter_action * Z * Z * bytes :=
  match best_dns_rule domain st with
  | None =>
    (if dc_default_allow (dn_config st) then DNS_FILTER_ALLOW else DNS_FILTER_BLOCK, 0, 0,
     safe_copy out_reason (Some (lit "dns_default")))
  | Some best =>
    (dr_action best, dr_redirect_ip best, dr_risk_score best,
     safe_copy out_reason (Some (dr_reason best)))
  end.

Definition dns_filter_get_stats (st : dns_state) : dns_filter_stats := dn_stats st.

(** ** The worker: forwarding upstream *)
Definition open_upstream_dns_socket (socket_ok : bool) (st : dns_state) : dns_state * esp_err :=
  if dn_upstream_sock st then (st, ESP_OK)
  else if socket_ok
  then (with_sockets (dn_sock st) true (dn_running st) (dn_stop st) st, ESP_OK)
  else (st, ESP_FAIL).

(** What [sendto] may answer: sent, [errno == 12], another error. *)
Inductive send_result := SEND_OK | SEND_NO_MEM | SEND_FAILED.

(** The attempt loop: [true] when the datagram was sent. *)
Fixpoint send_attempts (attempts : nat) (results : list send_result) : bool :=
  match attempts, results with
  | S attempts', r :: results' =>
    match r with
    | SEND_OK => true
    | SEND_NO_MEM => send_attempts attempts' results'
    | SEND_FAILED => false
    end
  | _, _ => false
  end.

(** What the network does during a forward: the socket call, the sends, the
    answer ([None]: an error or the timeout). *)
Record upstream_io := mk_upstream_io {
  io_socket_ok : bool;
  io_sends : list send_result;
  io_received : option bytes
}.

(** The answer ([None] is -1) and the datagrams sent to the upstream server. *)
Definition forward_dns_to_upstream (query : bytes) (query_len response_size : nat) (io : upstream_io)
    (st : dns_state) : dns_state * option bytes * list bytes :=
  if (query_len =? 0)%nat || (response_size =? 0)%nat then (st, None, [])
  else
    let '(st, err) := open_upstream_dns_socket (io_socket_ok io) st in
    if negb (err_ok err) then (st, None, [])
    else if negb (send_attempts 3 (io_sends io))
    then (with_sockets (dn_sock st) false (dn_running st) (dn_stop st) st, None, [])
    else (st, take response_size <$> io_received io, [take query_len query]).

(** One turn of [dns_worker_task]: the replies to clients and the datagrams to
    the upstream server. *)
Definition dns_worker_turn (io : upstream_io) (st : dns_state) :
    dns_state * list (sockaddr * bytes) * list bytes :=
  match dn_stop st, dn_queue st with
  | false, Some q =>
    match xQueueReceive q with
    | None => (st, [], [])
    | Some (job, q') =>
      let st := with_queue (Some q') st in
      let '(st, response, sent) :=
        forward_dns_to_upstream (dj_query job) (dj_query_len job) DNS_BUF_SIZE io st in
      match response with
      | Some (b :: resp) =>
        (with_stats (count_forwarded (dn_stats st)) st, [(dj_client_addr job, b :: resp)], sent)
      | _ => (with_stats (count_error (dn_stats st)) st, [], sent)
      end
    end
  | _, _ => (st, [], [])
  end.

(** ** The listener *)
(** [snprintf(ev.reason, 48, "%.15s:%.31s", reason, domain)]. *)
Definition event_reason (reason domain : bytes) : bytes :=
  let s := take 15 (c_str reason) ++ [58] ++ take 31 (c_str domain) in
  memcpy (zeros 48) s (List.length s).

Definition dns_event (action : dns_filter_action) (src : sockaddr) (risk : Z) (reason domain : bytes) :
    zg_event :=
  mk_zg_event (if bool_decide (action = DNS_FILTER_BLOCK) then ZG_EVENT_DNS_BLOCKED else ZG_EVENT_DNS_QUERY)
    0 0 0 (sa_ip src) 0 0 0 0 risk 0 (event_reason reason domain).

Definition make_job (buf : bytes) (src : sockaddr) (domain : bytes) (risk : Z) : dns_job :=
  mk_dns_job (memcpy (zeros DNS_BUF_SIZE) buf (List.length buf)) (List.length buf) src
    (safe_copy (zeros DNS_FILTER_DOMAIN_LEN) (Some domain)) risk.

Definition send_reply (src : sockaddr) (response : option bytes) : list (sockaddr * bytes) :=
  match response with Some r => if (0 <? List.length r)%nat then [(src, r)] else [] | None => [] end.

(** One turn of [dns_task] on what [recvfrom] delivered ([None] or an empty
    datagram: nothing): the state, the bus and the replies sent. *)
Definition dns_task_turn (received : option (bytes * sockaddr)) (timer_us : Z) (st : dns_state)
    (bus : eb_state) : dns_state * eb_state * list (sockaddr * bytes) :=
  match dn_stop st, received with
  | false, Some (buf, src) =>
    if (List.length buf =? 0)%nat then (st, bus, [])
    else
      match parse_dns_qname (Some buf) (List.length buf) DNS_FILTER_DOMAIN_LEN with
      | None => (with_stats (count_error (dn_stats st)) st, bus, [])
      | Some domain =>
        let st := with_stats (count_query (dn_stats st)) st in
        let '(action, redirect_ip, risk, reason) :=
          dns_filter_evaluate_domain (Some domain) (zeros 48) st in
        let bus :=
          match action with
          | DNS_FILTER_BLOCK | DNS_FILTER_REDIRECT =>
            (event_bus_publish (Some (dns_event action src risk reason domain)) timer_us bus).1
          | _ => bus
          end in
        match action with
        | DNS_FILTER_BLOCK =>
          (with_stats (count_blocked (dn_stats st)) st, bus,
           send_reply src (build_a_response (Some buf) (List.length buf) DNS_BUF_SIZE 0))
        | DNS_FILTER_REDIRECT =>
          (with_stats (count_redirect (dn_stats st)) st, bus,
           send_reply src (build_a_response (Some buf) (List.length buf) DNS_BUF_SIZE redirect_ip))
        | _ =>
          match dn_queue st with
          | None => (st, bus, [])
          | Some q =>
            match xQueueSend q (make_job buf src domain risk) with
            | Some q' => (with_queue (Some q') st, bus, [])
            | None => (with_stats (count_error (dn_stats st)) st, bus, [])
            end
          end
        end
      end
  | _, _ => (st, bus, [])
  end.

(** ** Start and stop *)
(** What the system calls of [dns_filter_start] answer. *)
Record start_io := mk_start_io {
  so_socket_ok : bool;
  so_bind_ok : bool;
  so_worker_ok : bool;
  so_task_ok : bool
}.

Definition dns_filter_start (io : start_io) (st : dns_state) : dns_state * esp_err :=
  if dn_running st then (st, ESP_OK)
  else
    let st := with_sockets (dn_sock st) (dn_upstream_sock st) false false st in
    let closed s := with_sockets false (dn_upstream_sock s) false (dn_stop s) s in
    if negb (so_socket_ok io) then (closed st, ESP_FAIL)
    else if negb (so_bind_ok io) then (closed st, ESP_FAIL)
    else
      match xQueueCreate DNS_JOB_QUEUE_LEN with
      | None => (closed (with_queue None st), ESP_ERR_NO_MEM)
      | Some q =>
        if negb (so_worker_ok io) then (closed (with_queue None st), ESP_ERR_NO_MEM)
        else if negb (so_task_ok io) then
          (with_sockets false (dn_upstream_sock st) false true (with_queue None st), ESP_ERR_NO_MEM)
        else
          (with_sockets true (dn_upstream_sock st) true (dn_stop st) (with_queue (Some q) st), ESP_OK)
      end.

Definition dns_filter_stop (st : dns_state) : dns_state * esp_err :=
  if negb (dn_running st) then (st, ESP_OK)
  else (with_sockets false false false true (with_queue None st), ESP_OK).
End dns.

Arguments dns_state {QJ}.

(** ** Specification: names and queries *)
Definition label_size (l : bytes) : Prop := (1 ≤ List.length l ≤ 63)%nat.
Definition label_ok (l : bytes) : Prop := label_size l ∧ Forall (fun b => b ≠ 0) l.

(** The wire form of a name, and its text. *)
Definition encode_name (labels : list bytes) : bytes :=
  concat ((fun l => Z.of_nat (List.length l) :: l) <$> labels) ++ [0].
Definition join_label (out l : bytes) : bytes :=
  (if (List.length out =? 0)%nat then out else out ++ [46]) ++ l.
Definition dotted (labels : list bytes) : bytes := fold_left join_label labels [].

(** A query packet: header, question name, type and class, and whatever
    follows. *)
Definition query_packet (h0 h1 h2 h3 h4 h5 h6 h7 h8 h9 h10 h11 : Z) (labels : list bytes)
    (type_class rest : bytes) : bytes :=
  [h0; h1; h2; h3; h4; h5; h6; h7; h8; h9; h10; h11] ++ encode_name labels ++ type_class ++ rest.

(** ** Reading a name *)
Lemma label_len_small n : (n ≤ 63)%nat → Z.land (Z.of_nat n) 192 = 0.
Proof.
  intros Hn.
  assert (Forall (fun n => Z.land (Z.of_nat n) 192 = 0) (seq 0 64)) as H
    by (apply (bool_decide_unpack _); vm_compute; exact I).
  rewrite Forall_forall in H. apply H. rewrite elem_of_seq. lia.
Qed.

Lemma nth_app_here {A} (pre : list A) x post d : nth (List.length pre) (pre ++ x :: post) d = x.
Proof. by rewrite app_nth2, Nat.sub_diag by lia. Qed.

Lemma copy_label_all l pre post out_len out :
  (List.length out + List.length l ≤ out_len - 1)%nat →
  copy_label (List.length l) (pre ++ l ++ post) out_len (List.length pre) out =
  (out ++ l, (List.length pre + List.length l)%nat).
Proof.
  revert pre out. induction l as [|b l IH]; intros pre out Hl.
  - cbn. by rewrite app_nil_r, Nat.add_0_r.
  - cbn [List.length copy_label] in *.
    assert ((List.length out <? out_len - 1)%nat = true) as -> by (apply Nat.ltb_lt; lia).
    cbn [app]. rewrite nth_app_here.
    assert (pre ++ b :: l ++ post = (pre ++ [b]) ++ l ++ post) as -> by (by rewrite <- app_assoc).
    replace (S (List.length pre)) with (List.length (pre ++ [b])) by (rewrite length_app; simpl; lia).
    rewrite IH by (rewrite length_app; simpl; lia).
    f_equal; [by rewrite <- app_assoc | rewrite length_app; simpl; lia].
Qed.

Lemma join_label_length out l : (List.length out ≤ List.length (join_label out l))%nat.
Proof. unfold join_label. case_match; rewrite ?length_app; simpl; lia. Qed.

Lemma join_length out labels : (List.length out ≤ List.length (fold_left join_label labels out))%nat.
Proof.
  revert out. induction labels as [|l ls IH]; intros out; simpl; [lia|].
  etransitivity; [apply (join_label_length out l) | apply IH].
Qed.

(** The label loop reads the labels of a name and stops at its end. *)
Lemma labels_size labels : Forall label_ok labels → Forall label_size labels.
Proof. intros H. eapply Forall_impl; [exact H|]. by intros l [? _]. Qed.

Lemma parse_labels_name labels fuel pre post out_len out :
  Forall label_size labels → (List.length labels < fuel)%nat →
  (List.length (fold_left join_label labels out) ≤ out_len - 1)%nat →
  parse_labels fuel (pre ++ encode_name labels ++ post)
    (List.length (pre ++ encode_name labels ++ post)) out_len (List.length pre) out =
  Some (fold_left join_label labels out).
Proof.
  intros Hok. revert fuel pre out. induction Hok as [|l ls Hl _ IH]; intros fuel pre out Hf Hj; [|unfold label_size in Hl];
    (destruct fuel as [|fuel]; [simpl in Hf; lia|]); cbn [parse_labels].
  - assert ((List.length pre <? List.length (pre ++ encode_name [] ++ post))%nat = true) as ->
      by (apply Nat.ltb_lt; rewrite length_app; simpl; lia).
    cbn [negb encode_name fmap list_fmap concat app]. by rewrite nth_app_here.
  - assert (encode_name (l :: ls) = Z.of_nat (List.length l) :: l ++ encode_name ls) as ->
      by (unfold encode_name; cbn; by rewrite <- app_assoc).
    cbn [app]. rewrite nth_app_here.
    assert ((List.length pre <? List.length (pre ++ Z.of_nat (List.length l) ::
              (l ++ encode_name ls) ++ post))%nat = true) as ->
      by (apply Nat.ltb_lt; rewrite length_app; simpl; lia).
    cbn [negb]. assert ((Z.of_nat (List.length l) =? 0) = false) as -> by (apply Z.eqb_neq; lia).
    rewrite label_len_small, Z.eqb_refl, Nat2Z.id by lia. cbn [negb].
    assert ((List.length (pre ++ Z.of_nat (List.length l) :: (l ++ encode_name ls) ++ post) <?
             S (List.length pre) + List.length l)%nat = false) as ->
      by (apply Nat.ltb_ge; rewrite !length_app; simpl; rewrite !length_app; lia).
    cbn [fold_left] in Hj. pose proof (join_length (join_label out l) ls) as Hlen.
    set (out' := if negb _ && _ then _ else _).
    assert (out' ++ l = join_label out l ∧ (List.length out' + List.length l ≤ out_len - 1)%nat) as [Ho Hb].
    { unfold out', join_label in *. destruct (List.length out =? 0)%nat eqn:E0; cbn [negb andb].
      - split; [done|]. rewrite length_app in Hlen. lia.
      - assert ((List.length out <? out_len - 1)%nat = true) as ->
          by (apply Nat.ltb_lt; rewrite !length_app in Hlen; simpl in Hlen; lia).
        split; [done|]. rewrite !length_app in *. simpl in *. lia. }
    assert (pre ++ Z.of_nat (List.length l) :: (l ++ encode_name ls) ++ post =
            (pre ++ [Z.of_nat (List.length l)]) ++ l ++ encode_name ls ++ post) as ->
      by (rewrite <- !app_assoc; done).
    replace (S (List.length pre)) with (List.length (pre ++ [Z.of_nat (List.length l)]))
      by (rewrite length_app; simpl; lia).
    rewrite copy_label_all by done. rewrite Ho.
    rewrite <- (length_app (pre ++ [Z.of_nat (List.length l)]) l), app_assoc.
    rewrite IH; [done | simpl in Hf; lia | done].
Qed.

Lemma qname_end_name labels fuel pre post :
  Forall label_ok labels → (List.length labels < fuel)%nat →
  qname_end_loop fuel (pre ++ encode_name labels ++ post)
    (List.length (pre ++ encode_name labels ++ post)) (List.length pre) =
  Some (List.length pre + List.length (encode_name labels))%nat.
Proof.
  intros Hok. revert fuel pre. induction Hok as [|l ls [Hl _] _ IH]; intros fuel pre Hf; [|unfold label_size in Hl];
    (destruct fuel as [|fuel]; [simpl in Hf; lia|]); cbn [qname_end_loop].
  - assert ((List.length pre <? List.length (pre ++ encode_name [] ++ post))%nat = true) as ->
      by (apply Nat.ltb_lt; rewrite length_app; simpl; lia).
    cbn [negb encode_name fmap list_fmap concat app List.length]. rewrite nth_app_here. cbn. f_equal. lia.
  - assert (encode_name (l :: ls) = Z.of_nat (List.length l) :: l ++ encode_name ls) as ->
      by (unfold encode_name; cbn; by rewrite <- app_assoc).
    cbn [app]. rewrite nth_app_here.
    assert ((List.length pre <? List.length (pre ++ Z.of_nat (List.length l) ::
              (l ++ encode_name ls) ++ post))%nat = true) as ->
      by (apply Nat.ltb_lt; rewrite length_app; simpl; lia).
    cbn [negb]. assert ((Z.of_nat (List.length l) =? 0) = false) as -> by (apply Z.eqb_neq; lia).
    rewrite label_len_small, Z.eqb_refl, Nat2Z.id by lia. cbn [negb].
    assert (pre ++ Z.of_nat (List.length l) :: (l ++ encode_name ls) ++ post =
            (pre ++ Z.of_nat (List.length l) :: l) ++ encode_name ls ++ post) as ->
      by (rewrite <- !app_assoc; done).
    replace (S (List.length pre) + List.length l)%nat with
      (List.length (pre ++ Z.of_nat (List.length l) :: l)) by (rewrite length_app; simpl; lia).
    rewrite IH by (simpl in Hf; lia). f_equal. rewrite !length_app. simpl. rewrite length_app. lia.
Qed.

Lemma dotted_no_zero labels out :
  Forall label_ok labels → Forall (fun b => b ≠ 0) out →
  Forall (fun b => b ≠ 0) (fold_left join_label labels out).
Proof.
  intros Hok. revert out. induction Hok as [|l ls [_ Hl] _ IH]; intros out Ho; simpl; [done|].
  apply IH. unfold join_label. apply Forall_app. split; [|done].
  case_match; [done|]. apply Forall_app. split; [done|]. by constructor.
Qed.

Lemma encode_name_fuel labels : Forall label_size labels → (List.length labels < List.length (encode_name labels))%nat.
Proof.
  induction 1 as [|l ls Hl _ IH]; [cbn; lia|]. unfold label_size in Hl.
  unfold encode_name in *. cbn [fmap list_fmap concat app List.length] in *.
  rewrite <- app_assoc, length_app. lia.
Qed.

Lemma str_lower_string s :
  Forall (fun b => b ≠ 0) s → str_lower (s ++ [0]) = map tolower s ++ [0].
Proof.
  intros Hs. unfold str_lower. rewrite c_str_app_zero by done. by rewrite drop_app_length.
Qed.

(** ** Specification: the deciding rule *)
(** The names a rule covers: every name with the suffix after a leading ['*'],
    otherwise the name itself; an empty pattern covers nothing. *)
Definition pattern_covers (pattern name : bytes) : Prop :=
  match pattern with
  | [] => False
  | c :: suffix => if c =? 42 then suffix `suffix_of` name else pattern = name
  end.
Definition dns_covers (name : bytes) (s : dns_rule_slot) : Prop :=
  dl_in_use s = true ∧ dr_enabled (dl_rule s) = true ∧ pattern_covers (c_str (dr_pattern (dl_rule s))) name.

(** The rule that decides about a name: of the covering rules one of maximal
    priority, the last of them in the table; [None] when no rule covers it. *)
Definition dns_decides (name : bytes) (rules : list dns_rule_slot) (r : option dns_filter_rule) : Prop :=
  match r with
  | None => ∀ i s, rules !! i = Some s → ¬ dns_covers name s
  | Some r =>
    ∃ i s, rules !! i = Some s ∧ dl_rule s = r ∧ dns_covers name s ∧
      (∀ j t, rules !! j = Some t → dns_covers name t → dr_priority (dl_rule t) ≤ dr_priority r) ∧
      (∀ j t, (i < j)%nat → rules !! j = Some t → dns_covers name t →
              dr_priority (dl_rule t) < dr_priority r)
  end.
Definition decided_action (config : dns_filter_config) (r : option dns_filter_rule) : dns_filter_action :=
  match r with
  | Some r => dr_action r
  | None => if dc_default_allow config then DNS_FILTER_ALLOW else DNS_FILTER_BLOCK
  end.

Lemma c_str_head s : nth 0 s 0 = nth 0 (c_str s) 0.
Proof. destruct s as [|c s]; [done|]. simpl. destruct (c =? 0) eqn:E; [|done]. by apply Z.eqb_eq in E. Qed.

Lemma c_str_tail c s t : c_str s = c :: t → c_str (drop 1 s) = t.
Proof. destruct s as [|b s]; simpl; [done|]. case_match; [done|]. intros [= _ <-]. by rewrite drop_0. Qed.

Lemma suffix_drop (a b : bytes) :
  (List.length a ≤ List.length b)%nat → drop (List.length b - List.length a) b = a ↔ a `suffix_of` b.
Proof.
  intros Hl. split.
  - intros E. exists (take (List.length b - List.length a) b). rewrite <- E at 2. by rewrite take_drop.
  - intros [k ->]. rewrite length_app, Nat.add_sub. apply drop_app_length.
Qed.

Lemma c_str_drop s n : (n ≤ List.length (c_str s))%nat → c_str (drop n s) = drop n (c_str s).
Proof.
  revert n. induction s as [|b s IH]; intros [|n]; simpl; try done.
  case_match; simpl; [lia|]. intros Hn. apply IH. lia.
Qed.

(** The matcher decides what a pattern covers. *)
Lemma domain_match_covers p d :
  domain_match (Some p) (Some d) = true ↔ pattern_covers (c_str p) (c_str d).
Proof.
  unfold domain_match. rewrite (c_str_head p). destruct (c_str p) as [|c t] eqn:E; simpl; [done|].
  pose proof (c_str_no_zero p) as Hz. rewrite E in Hz. apply Forall_cons in Hz as [Hc _].
  assert ((c =? 0) = false) as -> by (by apply Z.eqb_neq).
  assert (strcmp_eq p (lit "*") = bool_decide (c :: t = [42])) as ->
    by (unfold strcmp_eq; by rewrite E).
  assert (strcmp_eq p d = bool_decide (c :: t = c_str d)) as ->
    by (unfold strcmp_eq; by rewrite E).
  destruct (c =? 42) eqn:E42.
  - apply Z.eqb_eq in E42 as ->. unfold strlen. rewrite (c_str_tail _ _ _ E).
    case_bool_decide as Es.
    + injection Es as ->. split; [|done]. intros _. exists (c_str d). by rewrite app_nil_r.
    + destruct (Nat.leb_spec (List.length t) (List.length (c_str d))) as [Hl|Hl]; simpl.
      * unfold strcmp_eq. rewrite (c_str_tail _ _ _ E), c_str_drop by lia.
        rewrite bool_decide_eq_true. by apply suffix_drop.
      * split; [done|]. intros [k Hk]. apply (f_equal List.length) in Hk. rewrite length_app in Hk. lia.
  - rewrite bool_decide_eq_false_2 by (intros [= -> _]; by rewrite Z.eqb_refl in E42).
    by rewrite bool_decide_eq_true.
Qed.

Lemma slot_matches_covers name s :
  dns_slot_matches (Some name) s = true ↔ dns_covers (c_str name) s.
Proof. unfold dns_slot_matches, dns_covers. rewrite !andb_true_iff, domain_match_covers. tauto. Qed.

Lemma best_dns_rule_decides `{QJ : Queue dns_job} name (st : dns_state) r :
  dns_decides (c_str name) (dn_rules st) r ↔ best_dns_rule (Some name) st = r.
Proof.
  unfold best_dns_rule. set (ok := dns_slot_matches (Some name)). set (pr := fun s => dr_priority (dl_rule s)).
  assert (∀ s, ok s = true ↔ dns_covers (c_str name) s) as Hok by (intros; apply slot_matches_covers).
  destruct (best_loop ok pr (dn_rules st) None) as [b|] eqn:E; simpl.
  - apply best_loop_Some in E as Hb. split.
    + destruct r as [r|]; simpl.
      * intros (i & s & Hi & <- & Hc & Hle & Hlt). f_equal. f_equal.
        apply (is_best_unique ok pr (dn_rules st)); [done|]. exists i. setoid_rewrite Hok. eauto.
      * destruct Hb as (i & Hi & Ho & _). intros H. exfalso. apply (H i b Hi). by apply Hok.
    + intros <-. destruct Hb as (i & Hi & Ho & Hle & Hlt). setoid_rewrite Hok in Hle.
      setoid_rewrite Hok in Hlt. rewrite Hok in Ho. exists i, b. eauto 6.
  - assert (∀ i s, dn_rules st !! i = Some s → ¬ dns_covers (c_str name) s) as Hn.
    { intros i s Hi Hc. apply Hok in Hc. rewrite best_loop_None in E. rewrite (E i s Hi) in Hc. done. }
    split; [|by intros <-]. destruct r as [r|]; simpl; [|done].
    intros (i & s & Hi & _ & Hc & _). by destruct (Hn i s Hi).
Qed.

(** ** Answers *)
(** The forged answer: the question echoed under a response header, with one
    A record of one minute. *)
Definition forged_answer (h0 h1 h4 h5 h8 h9 h10 h11 : Z) (labels : list bytes) (type_class : bytes)
    (ip : Z) : bytes :=
  [h0; h1; 129; 128; h4; h5; 0; 1; h8; h9; h10; h11] ++ encode_name labels ++ type_class ++
  [192; 12; 0; 1; 0; 1; 0; 0; 0; 60; 0; 4] ++ be32 ip.

Lemma query_packet_length h0 h1 h2 h3 h4 h5 h6 h7 h8 h9 h10 h11 labels tc rest :
  List.length (query_packet h0 h1 h2 h3 h4 h5 h6 h7 h8 h9 h10 h11 labels tc rest) =
  (12 + List.length (encode_name labels) + List.length tc + List.length rest)%nat.
Proof. unfold query_packet. rewrite !length_app. simpl. lia. Qed.

Lemma map_tolower_no_zero s : Forall (fun b => b ≠ 0) s → Forall (fun b => b ≠ 0) (map tolower s).
Proof. induction 1; simpl; constructor; [|done]. by rewrite tolower_zero. Qed.

(** Whatever bytes the labels hold, the name read is their text. *)
Lemma parse_text h0 h1 h2 h3 h4 h5 h6 h7 h8 h9 h10 h11 labels tc rest :
  Forall label_size labels → labels ≠ [] → (List.length (dotted labels) ≤ 127)%nat →
  let packet := query_packet h0 h1 h2 h3 h4 h5 h6 h7 h8 h9 h10 h11 labels tc rest in
  parse_dns_qname (Some packet) (List.length packet) DNS_FILTER_DOMAIN_LEN = Some (str_lower (dotted labels ++ [0])).
Proof.
  intros Hok Hne Hl packet. unfold parse_dns_qname.
  pose proof (encode_name_fuel labels Hok) as Hf.
  pose proof (query_packet_length h0 h1 h2 h3 h4 h5 h6 h7 h8 h9 h10 h11 labels tc rest) as Hlen.
  fold packet in Hlen.
  assert ((List.length packet <? 12)%nat = false) as -> by (apply Nat.ltb_ge; lia).
  change (DNS_FILTER_DOMAIN_LEN =? 0)%nat with false. unfold DNS_FILTER_DOMAIN_LEN.
  assert (parse_labels (List.length packet) packet (List.length packet) 128 12 [] = Some (dotted labels)) as ->.
  { apply (parse_labels_name labels _ [h0; h1; h2; h3; h4; h5; h6; h7; h8; h9; h10; h11] (tc ++ rest) 128 []);
      [done | lia | done]. }
  assert ((0 <? List.length (dotted labels))%nat = true) as ->; [|done].
  apply Nat.ltb_lt. destruct labels as [|l ls]; [done|]. inversion Hok as [|? ? Hll]; subst. unfold label_size in Hll.
  unfold dotted. simpl. pose proof (join_length (join_label [] l) ls) as Hj. unfold join_label at 1 in Hj.
  simpl in Hj. lia.
Qed.

Lemma parse_query h0 h1 h2 h3 h4 h5 h6 h7 h8 h9 h10 h11 labels tc rest :
  Forall label_ok labels → labels ≠ [] → (List.length (dotted labels) ≤ 127)%nat →
  let packet := query_packet h0 h1 h2 h3 h4 h5 h6 h7 h8 h9 h10 h11 labels tc rest in
  parse_dns_qname (Some packet) (List.length packet) DNS_FILTER_DOMAIN_LEN =
  Some (map tolower (dotted labels) ++ [0]).
Proof.
  intros Hok Hne Hl packet. unfold packet. rewrite parse_text by (try apply labels_size; done).
  by rewrite str_lower_string by (apply dotted_no_zero; [done|constructor]).
Qed.




Lemma answer_query h0 h1 h2 h3 h4 h5 h6 h7 h8 h9 h10 h11 labels tc rest ip :
  Forall label_ok labels → List.length tc = 4%nat →
  let packet := query_packet h0 h1 h2 h3 h4 h5 h6 h7 h8 h9 h10 h11 labels tc rest in
  (List.length packet + 16 ≤ DNS_BUF_SIZE)%nat →
  build_a_response (Some packet) (List.length packet) DNS_BUF_SIZE ip =
  Some (forged_answer h0 h1 h4 h5 h8 h9 h10 h11 labels tc ip).
Proof.
  intros Hok Htc packet Hl. unfold build_a_response.
  pose proof (encode_name_fuel labels (labels_size _ Hok)) as Hf.
  pose proof (query_packet_length h0 h1 h2 h3 h4 h5 h6 h7 h8 h9 h10 h11 labels tc rest) as Hlen.
  fold packet in Hlen.
  assert ((List.length packet <? 12)%nat = false) as -> by (apply Nat.ltb_ge; lia).
  assert ((DNS_BUF_SIZE <? List.length packet + 16)%nat = false) as -> by (by apply Nat.ltb_ge).
  assert (find_qname_end packet (List.length packet) = Some (12 + List.length (encode_name labels))%nat) as ->.
  { apply (qname_end_name labels _ [h0; h1; h2; h3; h4; h5; h6; h7; h8; h9; h10; h11] (tc ++ rest));
      [done | lia]. }
  assert ((List.length packet <? 12 + List.length (encode_name labels) + 4)%nat = false) as ->
    by (apply Nat.ltb_ge; lia).
  assert (take (12 + List.length (encode_name labels) + 4) packet =
          [h0; h1; h2; h3; h4; h5; h6; h7; h8; h9; h10; h11] ++ encode_name labels ++ tc) as ->.
  { unfold packet, query_packet. rewrite (app_assoc (encode_name labels) tc rest), (app_assoc _ (_ ++ tc) rest).
    rewrite take_app_le by (rewrite !length_app; simpl; lia).
    apply take_ge. rewrite !length_app. simpl. lia. }
  cbn [app insert list_insert]. unfold forged_answer. cbn [app]. by rewrite <- !app_assoc.
Qed.

Lemma job_query buf src domain risk :
  (List.length buf ≤ DNS_BUF_SIZE)%nat →
  take (dj_query_len (make_job buf src domain risk)) (dj_query (make_job buf src domain risk)) = buf.
Proof.
  intros Hl. cbn [make_job dj_query dj_query_len]. rewrite take_memcpy by done. by rewrite take_ge.
Qed.

(** Splits on the answer of the queue to the job [j] and shows the fate of the
    query. *)
Ltac exploit_send j :=
  let E := fresh in
  destruct (xQueueSend _ j) eqn:E; split_and!; try done;
  exists j; rewrite E; split_and!; try done; apply job_query; lia.

Section turns.
Context `{QJ : Queue dns_job} `{QE : Queue zg_event}.

(** ** Properties: what the listener does with a query *)

(** C11: a well-formed query is understood and decided by its rule.  For every
    packet that carries a name of labels without NUL bytes whose text fits the
    buffer, the turn of the listener takes the action of the deciding rule for
    the lower-case name (of the covering rules one of the highest priority, the
    last of the table among equals; the configured default without one): a
    blocked or redirected query is answered by the listener itself, by the
    question echoed with one A record for 0.0.0.0 or the rule's address, with
    the publication of an event and nothing queued; any other query is queued
    for the worker without an answer, or dropped and counted when the queue is
    full. *)
Theorem dns_task_handles_query
    h0 h1 h2 h3 h4 h5 h6 h7 h8 h9 h10 h11 labels type_class rest src timer (st : dns_state) bus q r :
  let packet := query_packet h0 h1 h2 h3 h4 h5 h6 h7 h8 h9 h10 h11 labels type_class rest in
  let answer ip := forged_answer h0 h1 h4 h5 h8 h9 h10 h11 labels type_class ip in
  Forall label_ok labels → labels ≠ [] → (List.length (dotted labels) ≤ 127)%nat →
  List.length type_class = 4%nat → (List.length packet + 16 ≤ DNS_BUF_SIZE)%nat →
  dn_stop st = false → dn_queue st = Some q →
  dns_decides (map tolower (dotted labels)) (dn_rules st) r →
  let '(st', bus', replies) := dns_task_turn (Some (packet, src)) timer st bus in
  dn_rules st' = dn_rules st ∧ dn_config st' = dn_config st ∧ dn_stop st' = false ∧
  dst_queries (dn_stats st') = inc64 (dst_queries (dn_stats st)) ∧
  match decided_action (dn_config st) r with
  | DNS_FILTER_BLOCK =>
    replies = [(src, answer 0)] ∧ dn_queue st' = Some q ∧
    dst_blocked (dn_stats st') = inc64 (dst_blocked (dn_stats st)) ∧
    ∃ ev, bus' = (event_bus_publish (Some ev) timer bus).1 ∧ ev_type ev = ZG_EVENT_DNS_BLOCKED ∧
          ev_src_ip ev = sa_ip src
  | DNS_FILTER_REDIRECT =>
    (∃ rule, r = Some rule ∧ replies = [(src, answer (dr_redirect_ip rule))]) ∧
    dn_queue st' = Some q ∧
    dst_redirected (dn_stats st') = inc64 (dst_redirected (dn_stats st)) ∧
    ∃ ev, bus' = (event_bus_publish (Some ev) timer bus).1 ∧ ev_type ev = ZG_EVENT_DNS_QUERY ∧
          ev_src_ip ev = sa_ip src
  | _ =>
    replies = [] ∧ bus' = bus ∧
    ∃ job, take (dj_query_len job) (dj_query job) = packet ∧ dj_client_addr job = src ∧
      match xQueueSend q job with
      | Some q' => dn_queue st' = Some q'
      | None => dn_queue st' = Some q ∧
                dst_errors (dn_stats st') = inc64 (dst_errors (dn_stats st))
      end
  end.
Proof.
  intros packet answer Hok Hne Hd Htc Hl Hs Hq Hr.
  pose proof (parse_query h0 h1 h2 h3 h4 h5 h6 h7 h8 h9 h10 h11 labels type_class rest Hok Hne Hd) as Hp.
  pose proof (fun ip => answer_query h0 h1 h2 h3 h4 h5 h6 h7 h8 h9 h10 h11 labels type_class rest ip Hok Htc Hl) as Ha.
  set (name := map tolower (dotted labels)) in *. cbn zeta in Hp.
  fold packet in Hp, Ha. change (forged_answer _ _ _ _ _ _ _ _ _ _) with answer in Ha.
  assert (best_dns_rule (Some (name ++ [0])) st = r) as Hb.
  { apply best_dns_rule_decides. rewrite c_str_app_zero; [done|]. apply map_tolower_no_zero.
    apply dotted_no_zero; [done|constructor]. }
  pose proof (query_packet_length h0 h1 h2 h3 h4 h5 h6 h7 h8 h9 h10 h11 labels type_class rest) as Hlen.
  fold packet in Hlen.
  assert ((List.length packet =? 0)%nat = false) as Hz by (apply Nat.eqb_neq; lia).
  unfold dns_task_turn. rewrite Hs, Hz, Hp. unfold dns_filter_evaluate_domain.
  change (best_dns_rule ?d (with_stats _ st)) with (best_dns_rule d st). rewrite Hb.
  cbn [with_stats with_rules dn_config dn_queue]. rewrite Hq.
  assert (∀ ip, send_reply src (Some (answer ip)) = [(src, answer ip)]) as Hsend by (intros ip; reflexivity).
  clear Hp Hb Hr.
  destruct r as [rule|]; cbn [decided_action];
    [destruct (dr_action rule) | destruct (dc_default_allow (dn_config st))];
    cbn -[event_bus_publish build_a_response packet answer dns_event make_job forged_answer inc64 xQueueSend];
    rewrite ?Ha, ?Hsend.
  all: try (split_and!; eauto; eexists; split_and!; done).
  all: match goal with |- context [xQueueSend _ ?j] => exploit_send j end.
Qed.
End turns.

(** ** Runs: packets, worker turns and rule changes in any order *)
Section runs.
Context `{QJ : Queue dns_job} `{QE : Queue zg_event}.

(** The policy in force lets the query of this packet go upstream. *)
Definition forwardable (st : dns_state) (packet : bytes) : bool :=
  match parse_dns_qname (Some packet) (List.length packet) DNS_FILTER_DOMAIN_LEN with
  | None => false
  | Some domain =>
    match (dns_filter_evaluate_domain (Some domain) (zeros 48) st).1.1.1 with
    | DNS_FILTER_BLOCK | DNS_FILTER_REDIRECT => false
    | _ => true
    end
  end.

Inductive dns_op :=
| DnsPacket (packet : bytes) (src : sockaddr) (timer_us : Z)
| DnsWorker (io : upstream_io)
| DnsAddRule (rule : option dns_filter_rule)
| DnsRemoveRule (rule_id : Z).

(** [recvfrom] delivers at most the buffer. *)
Definition dns_op_ok (op : dns_op) : Prop :=
  match op with DnsPacket packet _ _ => (List.length packet ≤ DNS_BUF_SIZE)%nat | _ => True end.

(** The queries allowed when they arrived, with who asked; what was sent
    upstream; the clients the worker answered. *)
Record dns_history := mk_dns_history {
  dh_state : dns_state;
  dh_bus : eb_state;
  dh_allowed : list (sockaddr * bytes);
  dh_upstream : list bytes;
  dh_relayed : list sockaddr
}.

Definition dns_step (h : dns_history) (op : dns_op) : dns_history :=
  match op with
  | DnsPacket packet src timer_us =>
    let '(st', bus', _) := dns_task_turn (Some (packet, src)) timer_us (dh_state h) (dh_bus h) in
    mk_dns_history st' bus'
      (dh_allowed h ++ (if forwardable (dh_state h) packet then [(src, packet)] else []))
      (dh_upstream h) (dh_relayed h)
  | DnsWorker io =>
    let '(st', replies, sent) := dns_worker_turn io (dh_state h) in
    mk_dns_history st' (dh_bus h) (dh_allowed h) (dh_upstream h ++ sent) (dh_relayed h ++ replies.*1)
  | DnsAddRule rule =>
    mk_dns_history (dns_filter_add_rule rule (dh_state h)).1.1 (dh_bus h) (dh_allowed h)
      (dh_upstream h) (dh_relayed h)
  | DnsRemoveRule rule_id =>
    mk_dns_history (dns_filter_remove_rule rule_id (dh_state h)).1 (dh_bus h) (dh_allowed h)
      (dh_upstream h) (dh_relayed h)
  end.
Definition dns_run (st : dns_state) (bus : eb_state) (ops : list dns_op) : dns_history :=
  fold_left dns_step ops (mk_dns_history st bus [] [] []).

Context `{QL : !QueueLaws dns_job}.

Definition dns_pending (st : dns_state) : list dns_job :=
  match dn_queue st with Some q => contents q | None => [] end.
Definition job_packet (j : dns_job) : bytes := take (dj_query_len j) (dj_query j).

(** What was sent or answered, and the jobs that wait, come in order from the
    allowed queries. *)
Definition dns_inv (h : dns_history) : Prop :=
  (dh_upstream h ++ (job_packet <$> dns_pending (dh_state h))) `sublist_of` (dh_allowed h).*2 ∧
  (dh_relayed h ++ (dj_client_addr <$> dns_pending (dh_state h))) `sublist_of` (dh_allowed h).*1.

Lemma send_some (q q' : queue dns_job) job :
  xQueueSend q job = Some q' → contents q' = contents q ++ [job].
Proof.
  intros E. destruct (decide (List.length (contents q) < capacity q)%nat) as [Hl|Hl].
  - destruct (send_room q job Hl) as (q'' & E' & Hc & _). congruence.
  - rewrite send_full in E by lia. done.
Qed.

(** A turn of the listener queues at most the packet it got, and that only when
    the policy lets it through. *)
Lemma dns_task_turn_pending packet src timer (st : dns_state) bus :
  (List.length packet ≤ DNS_BUF_SIZE)%nat →
  let '(st', _, _) := dns_task_turn (Some (packet, src)) timer st bus in
  dns_pending st' = dns_pending st ∨
  ∃ job, forwardable st packet = true ∧ dns_pending st' = dns_pending st ++ [job] ∧
         job_packet job = packet ∧ dj_client_addr job = src.
Proof.
  intros Hl. unfold dns_task_turn, forwardable.
  destruct (dn_stop st); [by left|]. destruct (_ =? 0)%nat; [by left|].
  destruct (parse_dns_qname _ _ _) as [domain|]; [|by left].
  unfold dns_filter_evaluate_domain.
  change (best_dns_rule ?d (with_stats _ st)) with (best_dns_rule d st).
  change (dn_config (with_stats _ st)) with (dn_config st).
  set (job := make_job packet src domain).
  assert (∀ risk, job_packet (job risk) = packet ∧ dj_client_addr (job risk) = src) as Hj
    by (intros risk; split; [apply (job_query packet src domain risk Hl) | done]).
  destruct (best_dns_rule _ st) as [rule|];
    [destruct (dr_action rule) eqn:Ea | destruct (dc_default_allow _)];
    cbn -[event_bus_publish build_a_response job]; rewrite ?Ea; try (by left).
  all: destruct (dn_queue st) eqn:Hq; [|left; unfold dns_pending; cbn; by rewrite Hq].
  all: match goal with |- context [xQueueSend _ ?j] => destruct (xQueueSend _ j) eqn:Es end;
    [|left; unfold dns_pending; cbn; by rewrite Hq].
  all: right; eexists; split; [done|]; split; [|apply Hj]; unfold dns_pending; cbn; rewrite Hq;
    by apply send_some.
Qed.

Lemma forward_sends query query_len size io (st : dns_state) :
  let '(st', _, sent) := forward_dns_to_upstream query query_len size io st in
  dn_queue st' = dn_queue st ∧ (sent = [] ∨ sent = [take query_len query]).
Proof.
  unfold forward_dns_to_upstream, open_upstream_dns_socket.
  repeat (case_match; simplify_eq/=); auto.
Qed.

(** A turn of the worker takes the oldest job; it sends only that job's packet
    and answers only its client. *)
Lemma dns_worker_turn_pending io (st : dns_state) :
  let '(st', replies, sent) := dns_worker_turn io st in
  (dns_pending st' = dns_pending st ∧ replies = [] ∧ sent = []) ∨
  ∃ job, dns_pending st = job :: dns_pending st' ∧
         (sent = [] ∨ sent = [job_packet job]) ∧ (replies.*1 = [] ∨ replies.*1 = [dj_client_addr job]).
Proof.
  unfold dns_worker_turn, dns_pending. destruct (dn_stop st); [by left|].
  destruct (dn_queue st) as [x|] eqn:Hq; [|left; by rewrite Hq].
  destruct (contents x) as [|job l] eqn:Ec.
  { rewrite receive_none by done. left. by rewrite Hq. }
  destruct (receive_some x job l Ec) as (x' & -> & Hc & _).
  pose proof (forward_sends (dj_query job) (dj_query_len job) DNS_BUF_SIZE io (with_queue (Some x') st)) as H.
  destruct (forward_dns_to_upstream _ _ _ _ _) as [[st' response] sent]. destruct H as [Hq' Hsent].
  cbn in Hq'. destruct response as [[|b resp]|]; right; exists job; cbn; rewrite Hq', Hc; auto.
Qed.

Lemma dns_step_inv h op : dns_op_ok op → dns_inv h → dns_inv (dns_step h op).
Proof.
  intros Hok [Hs Ha]. destruct op as [packet src timer|io|rule|id]; cbn [dns_step].
  - pose proof (dns_task_turn_pending packet src timer (dh_state h) (dh_bus h) Hok) as H.
    destruct (dns_task_turn _ _ _ _) as [[st' bus'] replies]. unfold dns_inv. cbn.
    destruct H as [->|(job & -> & -> & Hp & Hc)].
    + rewrite !fmap_app. split; by apply sublist_inserts_r.
    + rewrite !fmap_app, !app_assoc. cbn. rewrite Hp, Hc. split; by apply sublist_app.
  - pose proof (dns_worker_turn_pending io (dh_state h)) as H.
    destruct (dns_worker_turn _ _) as [[st' replies] sent]. unfold dns_inv in *. cbn.
    destruct H as [(-> & -> & ->)|(job & Hp & Hsent & Hr)]; [by rewrite !app_nil_r|].
    rewrite Hp in Hs, Ha. cbn in Hs, Ha. split; (etransitivity; [|eassumption]);
      rewrite <- app_assoc; apply sublist_app; try done.
    + destruct Hsent as [->| ->]; cbn; by constructor.
    + destruct Hr as [->| ->]; cbn; by constructor.
  - unfold dns_filter_add_rule. destruct rule; [|done]. by destruct (first_index _ _).
  - unfold dns_filter_remove_rule. by destruct (first_index _ _).
Qed.

Lemma dns_run_inv ops h : Forall dns_op_ok ops → dns_inv h → dns_inv (fold_left dns_step ops h).
Proof.
  intros Hok. revert h. induction Hok as [|op ops Ho _ IH]; intros h Hh; cbn; [done|].
  by apply IH, dns_step_inv.
Qed.

(** C3: only allowed queries leave the zone.  From an empty queue on, for every
    interleaving of packets, turns of the worker and changes of the rules, and
    whatever the network answers, the datagrams sent to the upstream server
    are, in order, packets whose name the rules in force at their arrival let
    through, and the clients the worker answers are, in order, clients that
    sent such a packet: a blocked, redirected or malformed query is never
    forwarded, and no packet is forwarded twice. *)
Theorem dns_only_allowed_forwarded (st : dns_state) (bus : eb_state) q ops :
  dn_queue st = Some q → contents q = [] → Forall dns_op_ok ops →
  let h := dns_run st bus ops in
  dh_upstream h `sublist_of` (dh_allowed h).*2 ∧ dh_relayed h `sublist_of` (dh_allowed h).*1.
Proof.
  intros Hq Hc Hok h.
  assert (dns_inv h) as [Hs Ha].
  { apply dns_run_inv; [done|]. unfold dns_inv, dns_pending. cbn. rewrite Hq, Hc. done. }
  split; (etransitivity; [|eassumption]); by apply sublist_inserts_r.
Qed.
End runs.

(** ** Examples *)
(** A running filter with one rule that blocks a domain's names. *)
Definition evil_rule : dns_filter_rule :=
  mk_dns_filter_rule 0 true 10 (lit "*.Evil.com" ++ [0]) DNS_FILTER_BLOCK 0 90 (lit "malware" ++ zeros 41).
Definition witness_filter : dns_state (QJ := list_queue) :=
  let st := (dns_filter_init None dns_boot).1 in
  let st := (dns_filter_start (mk_start_io true true true true) st).1 in
  (dns_filter_add_rule (Some evil_rule) st).1.1.
Definition witness_query (labels : list bytes) : bytes :=
  query_packet 18 52 1 0 0 1 0 0 0 0 0 0 labels [0; 1; 0; 1] [].
Definition witness_client : sockaddr := mk_sockaddr 3232235777 5353.
Definition evil_name : list bytes := [lit "Ads"; lit "evil"; lit "com"].
(** The same name with a NUL byte at the end of its first label. *)
Definition masked_name : list bytes := [lit "ads" ++ [0]; lit "evil"; lit "com"].

Definition witness_rule : dns_filter_rule :=
  mk_dns_filter_rule 1 true 10 (lit "*.evil.com" ++ [0]) DNS_FILTER_BLOCK 0 90 (lit "malware" ++ zeros 41).
Definition witness_turn : dns_state (QJ := list_queue) * eb_state (Q := list_queue) * list (sockaddr * bytes) :=
  dns_task_turn (Some (witness_query evil_name, witness_client)) 7000000 witness_filter
    (event_bus_init true eb_boot).1.

Lemma dns_task_handles_query_witness :
  witness_turn.2 = [(witness_client, forged_answer 18 52 0 1 0 0 0 0 evil_name [0; 1; 0; 1] 0)] ∧
  dst_blocked (dn_stats witness_turn.1.1) = 1.
Proof.
  assert (dns_decides (map tolower (dotted evil_name)) (dn_rules witness_filter) (Some witness_rule)) as Hd.
  { apply (best_dns_rule_decides (map tolower (dotted evil_name)) witness_filter). vm_compute. reflexivity. }
  pose proof (dns_task_handles_query (QJ := list_queue) (QE := list_queue) 18 52 1 0 0 1 0 0 0 0 0 0 evil_name
    [0; 1; 0; 1] [] witness_client 7000000 witness_filter (event_bus_init true eb_boot).1 (8%nat, [])
    (Some witness_rule)
    ltac:(repeat (constructor; [split; [vm_compute; lia|repeat (constructor; [done|]); constructor]|]); constructor)
    ltac:(done) ltac:(vm_compute; lia) eq_refl ltac:(vm_compute; lia) eq_refl eq_refl Hd) as H.
  change (query_packet _ _ _ _ _ _ _ _ _ _ _ _ evil_name _ _) with (witness_query evil_name) in H.
  unfold witness_turn. destruct (dns_task_turn _ _ _ _) as [[st' bus'] replies].
  destruct H as (_ & _ & _ & _ & -> & _ & Hb & _). split; [reflexivity | exact Hb].
Defined.

Definition witness_dns_ops : list dns_op :=
  [DnsPacket (witness_query evil_name) witness_client 7000000;
   DnsPacket (witness_query [lit "good"; lit "org"]) witness_client 7100000;
   DnsWorker (mk_upstream_io true [SEND_NO_MEM; SEND_OK] (Some [18; 52; 129; 128]));
   DnsRemoveRule 1;
   DnsPacket (witness_query evil_name) witness_client 7200000].
Definition witness_history : dns_history (QJ := list_queue) (QE := list_queue) :=
  dns_run witness_filter (event_bus_init true eb_boot).1 witness_dns_ops.

Lemma dns_only_allowed_forwarded_witness :
  dh_upstream witness_history `sublist_of` (dh_allowed witness_history).*2 ∧
  dh_upstream witness_history = [witness_query [lit "good"; lit "org"]] ∧
  List.length (dh_allowed witness_history) = 2%nat.
Proof.
  split; [|split; vm_compute; reflexivity].
  pose proof (dns_only_allowed_forwarded witness_filter (event_bus_init true eb_boot).1 (8%nat, []) witness_dns_ops
    eq_refl eq_refl ltac:(repeat (apply Forall_cons; split; [first [exact I | vm_compute; lia]|]); apply Forall_nil_2)) as H.
  cbv zeta in H. unfold witness_history. exact (proj1 H).
Defined.


(** With the rule [*.evil.com] in force the query for [Ads.evil.com] is blocked;
    with a NUL byte at the end of its first label it goes upstream. *)
Definition witness_bus : eb_state (Q := list_queue) := (event_bus_init true eb_boot).1.


(** The same two queries through the worker, the blocked name and the masked
    one. *)
Lemma dns_nul_label_sent :
  let io := mk_upstream_io true [SEND_OK] None in
  let h names := dns_run witness_filter witness_bus
    [DnsPacket (witness_query names) witness_client 7000000; DnsWorker io] in
  dh_upstream (h evil_name) = [] ∧ dst_blocked (dn_stats (dh_state (h evil_name))) = 1 ∧
  dh_upstream (h masked_name) = [witness_query masked_name] ∧
  dst_blocked (dn_stats (dh_state (h masked_name))) = 0.
Proof. vm_compute. split_and!; reflexivity. Qed.
