(* ===== verification/Stomach_cp_cache.v ===== *)
(** * Stomach_cp_cache: the replay window of capsule digests

    Model of [firmware/components/stomach/stomach_cp_cache.c]: a ring of the
    last 16 digests.  It is refined to a bounded first-in first-out list, from
    which the replay guarantee follows. *)

From S2P Require Import Prelude Bytes.

Definition STOMACH_CP_CACHE_SIZE : nat := 16.
Definition STOMACH_CP_DIGEST_LEN : nat := 32.

Record stomach_cp_cache := mk_stomach_cp_cache {
  sc_entries : list bytes;
  sc_next : nat;
  sc_count : nat;
}.

Definition digest_equals (left right : bytes) : bool := bool_decide (left = right).

Definition stomach_cp_cache_clear (cache : option stomach_cp_cache) : option stomach_cp_cache :=
  match cache with
  | None => None
  | Some _ => Some (mk_stomach_cp_cache
                (replicate STOMACH_CP_CACHE_SIZE (zeros STOMACH_CP_DIGEST_LEN)) 0 0)
  end.

Definition stomach_cp_cache_init := stomach_cp_cache_clear.

Definition stomach_cp_cache_contains (cache : option stomach_cp_cache) (digest : option bytes) : bool :=
  match cache, digest with
  | Some c, Some d => existsb (λ e, digest_equals e d) (take (sc_count c) (sc_entries c))
  | _, _ => false
  end.

Definition stomach_cp_cache_seen_or_add (cache : option stomach_cp_cache) (digest : option bytes)
    : option stomach_cp_cache * bool :=
  match cache, digest with
  | Some c, Some d =>
    if stomach_cp_cache_contains cache digest then (cache, true) else
    (Some (mk_stomach_cp_cache (<[sc_next c := d]> (sc_entries c))
             ((sc_next c + 1) mod STOMACH_CP_CACHE_SIZE)%nat
             (if decide (sc_count c < STOMACH_CP_CACHE_SIZE)%nat then S (sc_count c) else sc_count c)),
     false)
  | _, _ => (cache, true)
  end.

Definition stomach_cp_cache_count (cache : option stomach_cp_cache) : nat :=
  match cache with Some c => sc_count c | None => 0 end.

(** ** The abstract window: the remembered digests, oldest first *)
Definition window (c : stomach_cp_cache) : list bytes :=
  if decide (sc_count c < STOMACH_CP_CACHE_SIZE)%nat then take (sc_count c) (sc_entries c)
  else drop (sc_next c) (sc_entries c) ++ take (sc_next c) (sc_entries c).

Definition push (d : bytes) (l : list bytes) : list bytes * bool :=
  if decide (d ∈ l) then (l, true)
  else ((if decide (List.length l < STOMACH_CP_CACHE_SIZE)%nat then l else tail l) ++ [d], false).

Record sc_inv (c : stomach_cp_cache) : Prop := {
  sc_inv_entries : List.length (sc_entries c) = STOMACH_CP_CACHE_SIZE;
  sc_inv_count : (sc_count c ≤ STOMACH_CP_CACHE_SIZE)%nat;
  sc_inv_next : (sc_next c < STOMACH_CP_CACHE_SIZE)%nat;
  sc_inv_fill : (sc_count c < STOMACH_CP_CACHE_SIZE)%nat → sc_next c = sc_count c;
}.

Lemma window_length c : sc_inv c → List.length (window c) = sc_count c.
Proof.
  intros [He Hc Hn Hf]. unfold window. case_decide.
  - rewrite length_take. lia.
  - rewrite length_app, length_drop, length_take. lia.
Qed.

Lemma window_elem c d :
  sc_inv c → d ∈ window c ↔ existsb (λ e, digest_equals e d) (take (sc_count c) (sc_entries c)) = true.
Proof.
  intros [He Hc Hn Hf]. rewrite existsb_exists.
  assert (d ∈ window c ↔ d ∈ take (sc_count c) (sc_entries c)) as ->.
  { unfold window. case_decide; [done|]. rewrite (take_ge _ (sc_count c)) by lia.
    rewrite elem_of_app. rewrite <- (take_drop (sc_next c) (sc_entries c)) at 3.
    rewrite elem_of_app. tauto. }
  unfold digest_equals. split.
  - intros Hd. exists d. split; [by apply list_elem_of_In|by apply bool_decide_eq_true].
  - intros (e & Hin & Heq). bools. subst. by apply list_elem_of_In.
Qed.

Lemma seen_or_add_ok c d :
  sc_inv c →
  let '(c', seen) := stomach_cp_cache_seen_or_add (Some c) (Some d) in
  ∃ c1, c' = Some c1 ∧ sc_inv c1 ∧ push d (window c) = (window c1, seen).
Proof.
  intros Hinv. pose proof Hinv as [He Hc Hn Hf]. pose proof (window_elem c d Hinv) as Hel.
  unfold stomach_cp_cache_seen_or_add, push. cbn [stomach_cp_cache_contains].
  destruct (existsb _ _) eqn:E.
  { exists c. assert (d ∈ window c) as Hin by tauto. by rewrite decide_True. }
  assert (d ∉ window c) as Hni by (intros Hd; by apply Hel in Hd).
  rewrite (decide_False _ _ Hni). rewrite (window_length c Hinv).
  eexists. split; [reflexivity|]. unfold STOMACH_CP_CACHE_SIZE in *.
  destruct (decide (sc_count c < 16)%nat) as [Hlt|Hge].
  - rewrite (Hf Hlt) in *. split.
    + constructor; cbn [sc_entries sc_next sc_count]; rewrite ?length_insert; unfold STOMACH_CP_CACHE_SIZE.
      * done.
      * lia.
      * apply Nat.mod_upper_bound. lia.
      * intros. rewrite Nat.mod_small by lia. lia.
    + unfold window. cbn [sc_entries sc_next sc_count]. unfold STOMACH_CP_CACHE_SIZE. rewrite (decide_True _ _ Hlt). f_equal.
      assert (take (S (sc_count c)) (<[sc_count c:=d]> (sc_entries c)) = take (sc_count c) (sc_entries c) ++ [d]) as Ht.
      { rewrite (take_S_r _ _ d) by (apply list_lookup_insert_eq; lia). by rewrite take_insert_ge by lia. }
      case_decide as Hs; [by rewrite Ht|].
      assert (S (sc_count c) = 16%nat) as Hs' by lia. replace (sc_count c + 1)%nat with 16%nat by lia.
      rewrite Nat.Div0.mod_same. rewrite drop_0, app_nil_r. rewrite <- Ht, Hs'.
      by rewrite take_ge by (rewrite length_insert; lia).
  - assert (sc_count c = 16%nat) as Hc16 by lia. split.
    + constructor; cbn [sc_entries sc_next sc_count]; rewrite ?length_insert; unfold STOMACH_CP_CACHE_SIZE.
      * done.
      * lia.
      * apply Nat.mod_upper_bound. lia.
      * lia.
    + unfold window. cbn [sc_entries sc_next sc_count]. unfold STOMACH_CP_CACHE_SIZE. rewrite !(decide_False _ _ Hge). f_equal.
      destruct (lookup_lt_is_Some_2 (sc_entries c) (sc_next c)) as [x Hx]; [lia|].
      rewrite (drop_S _ _ _ Hx). cbn [tl app].
      destruct (decide (sc_next c = 15%nat)) as [->|Hne].
      * change ((15 + 1) mod 16)%nat with 0%nat. rewrite drop_0, app_nil_r.
        rewrite (drop_ge _ 16) by lia. simpl.
        rewrite <- (take_ge (<[15%nat:=d]> (sc_entries c)) 16) by (rewrite length_insert; lia).
        rewrite (take_S_r (<[15%nat:=d]> (sc_entries c)) 15 d) by (apply list_lookup_insert_eq; lia).
        by rewrite take_insert_ge by lia.
      * rewrite Nat.mod_small by lia. replace (sc_next c + 1)%nat with (S (sc_next c)) by lia.
        rewrite (take_S_r _ _ d) by (apply list_lookup_insert_eq; lia).
        rewrite drop_insert_lt, take_insert_ge by lia. by rewrite <- app_assoc.
Qed.

(** ** Sequences of digests *)
Fixpoint sc_run (ds : list bytes) (c : option stomach_cp_cache) : option stomach_cp_cache * list bool :=
  match ds with
  | [] => (c, [])
  | d :: ds' =>
    let '(c1, seen) := stomach_cp_cache_seen_or_add c (Some d) in
    let '(c2, res) := sc_run ds' c1 in (c2, seen :: res)
  end.

(** How many of the answers were "new". *)
Definition accepted (res : list bool) : nat := List.length (filter (λ b, b = false) res).

Lemma sc_run_window ds c d l1 l2 :
  sc_inv c → window c = l1 ++ d :: l2 →
  let '(c', res) := sc_run ds (Some c) in
  (List.length l2 + accepted res < STOMACH_CP_CACHE_SIZE)%nat →
  ∃ c1 l1' l2', c' = Some c1 ∧ sc_inv c1 ∧ window c1 = l1' ++ d :: l2'.
Proof.
  revert c l1 l2. induction ds as [|e ds IH]; intros c l1 l2 Hinv Hw; cbn [sc_run]; [eauto 10|].
  pose proof (seen_or_add_ok c e Hinv) as H. destruct (stomach_cp_cache_seen_or_add _ _) as [c' seen].
  destruct H as (c1 & -> & Hinv1 & Hp). unfold push in Hp.
  pose proof (window_length c Hinv) as Hlen. pose proof (sc_inv_count c Hinv) as Hcnt.
  rewrite Hw in Hp, Hlen. rewrite length_app in Hlen. simpl in Hlen.
  destruct (decide (e ∈ l1 ++ d :: l2)).
  - injection Hp as Hw1 <-. specialize (IH c1 l1 l2 Hinv1 (eq_sym Hw1)).
    destruct (sc_run ds (Some c1)) as [c2 res]. intros Hlt. by apply IH.
  - injection Hp as Hw1 <-. unfold accepted. 
    assert (∀ res, (List.length l2 + List.length (filter (λ b, b = false) (false :: res)) < STOMACH_CP_CACHE_SIZE)%nat →
      (List.length (l2 ++ [e]) + accepted res < STOMACH_CP_CACHE_SIZE)%nat ∧ (List.length l2 < 15)%nat) as Hacc.
    { intros res. rewrite length_app. simpl. unfold accepted, STOMACH_CP_CACHE_SIZE. lia. }
    destruct (sc_run ds (Some c1)) as [c2 res] eqn:Er. intros [Hlt H15]%Hacc.
    destruct (decide _) as [Hroom|Hfull].
    + specialize (IH c1 l1 (l2 ++ [e]) Hinv1). rewrite Er in IH. apply IH; [|done].
      rewrite <- Hw1, <- app_assoc. done.
    + rewrite length_app in Hfull. simpl in Hfull. unfold STOMACH_CP_CACHE_SIZE in Hfull, Hcnt.
      destruct l1 as [|x l1]; simpl in *; [lia|].
      specialize (IH c1 l1 (l2 ++ [e]) Hinv1). rewrite Er in IH. apply IH; [|done].
      rewrite <- Hw1, <- app_assoc. done.
Qed.

(** ** Properties *)

(** The ring is a bounded first-in first-out list: from any well-formed
    cache, [seen_or_add] answers whether the digest is among the remembered
    ones; when it is not, the digest is appended and, with 16 remembered, the
    oldest one forgotten. *)
Theorem stomach_cache_refines_fifo c d :
  sc_inv c →
  let '(c', seen) := stomach_cp_cache_seen_or_add (Some c) (Some d) in
  ∃ c1, c' = Some c1 ∧ sc_inv c1 ∧ push d (window c) = (window c1, seen) ∧
        stomach_cp_cache_count c' = List.length (window c1).
Proof.
  intros Hinv. pose proof (seen_or_add_ok c d Hinv) as H.
  destruct (stomach_cp_cache_seen_or_add _ _) as [c' seen]. destruct H as (c1 & -> & H1 & H2).
  exists c1. split_and!; try done. simpl. by rewrite window_length.
Qed.

Definition witness_cache : stomach_cp_cache :=
  mk_stomach_cp_cache (replicate STOMACH_CP_CACHE_SIZE (zeros STOMACH_CP_DIGEST_LEN)) 0 0.
Lemma witness_cache_inv : sc_inv witness_cache.
Proof. constructor; simpl; unfold STOMACH_CP_CACHE_SIZE; lia || done. Qed.
Definition digest_of (n : Z) : bytes := n :: zeros 31.

Lemma stomach_cache_refines_fifo_witness :
  ∃ c1, (stomach_cp_cache_seen_or_add (Some witness_cache) (Some (digest_of 1))).1 = Some c1 ∧
        sc_inv c1 ∧ push (digest_of 1) (window witness_cache) = (window c1, false).
Proof.
  destruct (stomach_cache_refines_fifo witness_cache (digest_of 1) witness_cache_inv) as (c1 & E & Hi & Hp & _).
  exists c1. split; [exact E|]. split; [exact Hi|]. exact Hp.
Defined.

(** C7: replay protection.  From an initialised cache and after any history, a
    digest that was just accepted as new is recognised when presented again, as
    long as fewer than 16 other digests were accepted in between. *)
Theorem stomach_cache_replay_window history d later :
  let c0 := stomach_cp_cache_init (Some witness_cache) in
  let c1 := (sc_run history c0).1 in
  let '(c2, seen) := stomach_cp_cache_seen_or_add c1 (Some d) in
  let '(c3, res) := sc_run later c2 in
  seen = false → (accepted res < STOMACH_CP_CACHE_SIZE)%nat →
  (stomach_cp_cache_seen_or_add c3 (Some d)).2 = true.
Proof.
  cbv zeta. assert (∃ c1, (sc_run history (stomach_cp_cache_init (Some witness_cache))).1 = Some c1 ∧ sc_inv c1)
    as (c1 & -> & Hinv1).
  { change (stomach_cp_cache_init (Some witness_cache)) with (Some witness_cache).
    generalize witness_cache_inv. generalize witness_cache as c.
    induction history as [|e history IH]; intros c Hc; cbn [sc_run]; [eauto|].
    pose proof (seen_or_add_ok c e Hc) as H. destruct (stomach_cp_cache_seen_or_add _ _) as [c' s].
    destruct H as (c2 & -> & H2 & _). specialize (IH c2 H2). by destruct (sc_run history (Some c2)). }
  pose proof (seen_or_add_ok c1 d Hinv1) as H. destruct (stomach_cp_cache_seen_or_add _ _) as [c2' seen].
  destruct H as (c2 & -> & Hinv2 & Hp). destruct (sc_run later (Some c2)) as [c3' res] eqn:Er.
  intros -> Hacc. unfold push in Hp. case_decide; [done|]. injection Hp as Hw.
  pose proof (sc_run_window later c2 d _ [] Hinv2 (eq_sym Hw)) as Hrw. rewrite Er in Hrw.
  destruct (Hrw Hacc) as (c3 & l1 & l2 & -> & Hinv3 & Hw3).
  pose proof (seen_or_add_ok c3 d Hinv3) as H3. destruct (stomach_cp_cache_seen_or_add _ _) as [c4 s4].
  destruct H3 as (c5 & _ & _ & Hp). unfold push in Hp. rewrite decide_True in Hp; [by injection Hp|].
  rewrite Hw3. set_solver.
Qed.

Lemma stomach_cache_replay_window_witness :
  let c0 := stomach_cp_cache_init (Some witness_cache) in
  let c2 := (stomach_cp_cache_seen_or_add (sc_run [digest_of 1; digest_of 2] c0).1 (Some (digest_of 3))).1 in
  (stomach_cp_cache_seen_or_add (sc_run (map digest_of [4; 5; 6; 7; 8; 9; 10; 11; 12; 13; 14; 15; 16; 17; 18]) c2).1
     (Some (digest_of 3))).2 = true.
Proof.
  intros c0 c2.
  pose proof (stomach_cache_replay_window [digest_of 1; digest_of 2] (digest_of 3)
    (map digest_of [4; 5; 6; 7; 8; 9; 10; 11; 12; 13; 14; 15; 16; 17; 18])) as H.
  vm_compute in H. vm_compute. exact (H eq_refl ltac:(lia)).
Defined.
