(* ===== verification/Amino_acids.v ===== *)
(** * Amino acids: the fixed table of device actions

    [membrane/rna_membrane/amino_acids/amino_acids.c].  An amino acid is a
    device action (ON, SET_SPEED, ...) with the type of the value it takes.
    Identifiers and value types reach these functions from decrypted messages
    and from flash, so the C enums are kept as the integers they are. *)

From S2P Require Import Prelude Bytes.

(** ** Constants *)
Definition AMINO_INVALID : Z := 0.
Definition AMINO_ON : Z := 1.
Definition AMINO_OFF : Z := 2.
Definition AMINO_OPEN : Z := 3.
Definition AMINO_CLOSE : Z := 4.
Definition AMINO_SET_SPEED : Z := 5.
Definition AMINO_SET_LEVEL : Z := 6.
Definition AMINO_READ_STATE : Z := 7.
Definition AMINO_TOGGLE : Z := 8.
Definition AMINO_LOCK : Z := 9.
Definition AMINO_UNLOCK : Z := 10.
Definition AMINO_SET_TEMPERATURE : Z := 11.
Definition AMINO_SET_MODE : Z := 12.

Definition AMINO_VALUE_NONE : Z := 0.
Definition AMINO_VALUE_BOOL : Z := 1.
Definition AMINO_VALUE_INT : Z := 2.

Definition AMINO_FLAG_MUTATES_STATE : Z := Z.shiftl 1 0.
Definition AMINO_FLAG_READ_ONLY : Z := Z.shiftl 1 1.

Record amino_acid := mk_amino_acid {
  aa_id : Z;
  aa_name : bytes;
  aa_value_type : Z;
  aa_flags : Z
}.

(** [AMINO_ACIDS[]]. *)
Definition AMINO_ACIDS : list amino_acid := [
  mk_amino_acid AMINO_ON (lit "ON") AMINO_VALUE_NONE AMINO_FLAG_MUTATES_STATE;
  mk_amino_acid AMINO_OFF (lit "OFF") AMINO_VALUE_NONE AMINO_FLAG_MUTATES_STATE;
  mk_amino_acid AMINO_OPEN (lit "OPEN") AMINO_VALUE_NONE AMINO_FLAG_MUTATES_STATE;
  mk_amino_acid AMINO_CLOSE (lit "CLOSE") AMINO_VALUE_NONE AMINO_FLAG_MUTATES_STATE;
  mk_amino_acid AMINO_SET_SPEED (lit "SET_SPEED") AMINO_VALUE_INT AMINO_FLAG_MUTATES_STATE;
  mk_amino_acid AMINO_SET_LEVEL (lit "SET_LEVEL") AMINO_VALUE_INT AMINO_FLAG_MUTATES_STATE;
  mk_amino_acid AMINO_READ_STATE (lit "READ_STATE") AMINO_VALUE_NONE AMINO_FLAG_READ_ONLY;
  mk_amino_acid AMINO_TOGGLE (lit "TOGGLE") AMINO_VALUE_NONE AMINO_FLAG_MUTATES_STATE;
  mk_amino_acid AMINO_LOCK (lit "LOCK") AMINO_VALUE_NONE AMINO_FLAG_MUTATES_STATE;
  mk_amino_acid AMINO_UNLOCK (lit "UNLOCK") AMINO_VALUE_NONE AMINO_FLAG_MUTATES_STATE;
  mk_amino_acid AMINO_SET_TEMPERATURE (lit "SET_TEMPERATURE") AMINO_VALUE_INT
    AMINO_FLAG_MUTATES_STATE;
  mk_amino_acid AMINO_SET_MODE (lit "SET_MODE") AMINO_VALUE_INT AMINO_FLAG_MUTATES_STATE
].

(** ** Operations *)
Definition amino_acids_count : nat := List.length AMINO_ACIDS.
Definition amino_acids_all : list amino_acid * nat := (AMINO_ACIDS, amino_acids_count).

Definition amino_acid_value_type_valid (type : Z) : bool :=
  (type =? AMINO_VALUE_NONE) || (type =? AMINO_VALUE_BOOL) || (type =? AMINO_VALUE_INT).

(** The search loop returns the first entry with the identifier. *)
Fixpoint amino_find_in (acids : list amino_acid) (id : Z) : option amino_acid :=
  match acids with
  | [] => None
  | a :: acids' => if aa_id a =? id then Some a else amino_find_in acids' id
  end.
Definition amino_acid_find (id : Z) : option amino_acid := amino_find_in AMINO_ACIDS id.

Definition amino_acid_id_valid (id : Z) : bool :=
  match amino_acid_find id with Some _ => true | None => false end.

(** [value] is [None] for the null pointer. *)
Definition amino_acid_validate_payload (id : Z) (value : option Z) : esp_err :=
  match amino_acid_find id with
  | None => ESP_ERR_NOT_FOUND
  | Some acid =>
    if aa_value_type acid =? AMINO_VALUE_NONE then
      match value with Some _ => ESP_ERR_INVALID_ARG | None => ESP_OK end
    else
      match value with
      | None => ESP_ERR_INVALID_ARG
      | Some v =>
        if (aa_value_type acid =? AMINO_VALUE_BOOL) && negb (v =? 0) && negb (v =? 1)
        then ESP_ERR_INVALID_ARG
        else ESP_OK
      end
  end.

Definition amino_acid_validate_value (id : Z) (value : option Z) : esp_err :=
  amino_acid_validate_payload id value.

(** ** Facts about the table *)
Lemma amino_find_Some id a : amino_acid_find id = Some a → a ∈ AMINO_ACIDS ∧ aa_id a = id.
Proof.
  unfold amino_acid_find. generalize AMINO_ACIDS as l.
  induction l as [|b l IH]; simpl; [done|]. case_match; bools.
  - intros [= <-]. split; [by left | done].
  - intros [? ?]%IH. split; [by right | done].
Qed.

(** The identifiers are 1 to 12, each used once. *)
Lemma amino_id_valid_iff id : amino_acid_id_valid id = true ↔ 1 ≤ id ≤ 12.
Proof.
  split.
  - unfold amino_acid_id_valid. destruct (amino_acid_find id) as [a|] eqn:E; [|done].
    apply amino_find_Some in E as [Hin <-]. intros _.
    assert (Forall (fun a => 1 ≤ aa_id a ≤ 12) AMINO_ACIDS) as HF.
    { unfold AMINO_ACIDS. repeat (constructor; [cbv; split; discriminate|]). constructor. }
    exact (proj1 (Forall_forall _ _) HF a Hin).
  - intros [H1 H2].
    assert (id ∈ seqZ 1 12) as Hin by (apply elem_of_seqZ; lia).
    change (seqZ 1 12) with [1;2;3;4;5;6;7;8;9;10;11;12] in Hin.
    rewrite !elem_of_cons, elem_of_nil in Hin.
    repeat destruct Hin as [->|Hin]; done.
Qed.

Lemma amino_ids_unique : NoDup (aa_id <$> AMINO_ACIDS).
Proof. apply (bool_decide_unpack _). vm_compute. exact I. Qed.

Lemma amino_value_types_valid id a :
  amino_acid_find id = Some a →
  aa_value_type a = AMINO_VALUE_NONE ∨ aa_value_type a = AMINO_VALUE_INT.
Proof.
  intros [Hin _]%amino_find_Some.
  assert (Forall (fun a => aa_value_type a = 0 ∨ aa_value_type a = 2) AMINO_ACIDS) as HF.
  { unfold AMINO_ACIDS. repeat (constructor; [vm_compute; tauto|]). constructor. }
  exact (proj1 (Forall_forall _ _) HF a Hin).
Qed.

(** A payload is accepted exactly when its presence fits the action's type (no
    action of the table is boolean). *)
Lemma validate_payload_ok id value :
  amino_acid_validate_payload id value = ESP_OK ↔
  ∃ a, amino_acid_find id = Some a ∧
       (aa_value_type a = AMINO_VALUE_NONE ↔ value = None).
Proof.
  unfold amino_acid_validate_payload.
  destruct (amino_acid_find id) as [a|] eqn:E; [|split; [done | by intros (?&?&?)]].
  destruct (amino_value_types_valid id a E) as [Hv|Hv]; rewrite Hv; simpl;
    destruct value as [v|]; simpl; split; try done.
  - intros (a' & [= <-] & Hi). rewrite Hv in Hi. discriminate (proj1 Hi eq_refl).
  - intros _. exists a. by rewrite Hv.
  - intros _. exists a. by rewrite Hv.
  - intros (a' & [= <-] & Hi). rewrite Hv in Hi. discriminate (proj2 Hi eq_refl).
Qed.
