(* ===== verification/Crypto.v ===== *)
(** * Crypto: the interfaces of mbedTLS and PSA the pills rely on

    The firmware computes no cryptography itself.  What it calls is abstract
    here: a class of operations, and a class of the documented behaviour that
    theorems may assume.  [Toy] instances (not cryptography) show that the laws
    can hold and let the witnesses evaluate. *)

From S2P Require Import Prelude Bytes.

(** ** Digests: [mbedtls_md_*] with SHA-256

    A context is the list of the bytes it was fed.  [md_finish] folds the
    failures of [mbedtls_md_info_from_type], [_setup], [_starts] and [_finish]:
    [None] when one of them fails. *)
Definition SHA256_LEN : nat := 32.

Class Md := { md_finish : bytes → option bytes }.
Class MdLaws `{Md} := {
  md_finish_length m d : md_finish m = Some d → List.length d = SHA256_LEN
}.

Definition md_ctx_empty : bytes := [].
Definition mbedtls_md_update (ctx data : bytes) : bytes := ctx ++ data.

(** Two different messages with the same digest. *)
Definition collision `{Md} (m1 m2 : bytes) : Prop :=
  m1 ≠ m2 ∧ ∃ d, md_finish m1 = Some d ∧ md_finish m2 = Some d.

(** The only way two messages share a digest is to be equal or to collide. *)
Lemma equal_or_collision `{Md} m1 m2 d :
  md_finish m1 = Some d → md_finish m2 = Some d → m1 = m2 ∨ collision m1 m2.
Proof. intros. destruct (decide (m1 = m2)); [by left | right; split; eauto]. Qed.

(** ** Keyed operations: PSA

    [psa_hmac_sha256 key message] folds the key import and the MAC operation;
    [None] is a failure of one of the calls.  [psa_aead_decrypt key nonce aad
    sealed out_size] is an AES-GCM decryption with an imported key: its status,
    the bytes it wrote at the start of the output buffer (also when it fails),
    and the plaintext length it reported. *)
Inductive psa_status :=
| PSA_SUCCESS
| PSA_ERROR_INVALID_SIGNATURE
| PSA_ERROR_OTHER.

Class Psa := {
  psa_hmac_sha256 : bytes → bytes → option bytes;
  psa_aead_decrypt : bytes → bytes → bytes → bytes → nat → psa_status * bytes * nat
}.
(** Authenticated encryption as documented: [aead_seal] is what a sender does,
    decryption inverts it, and succeeds on nothing else. *)
Class PsaLaws `{Psa} := {
  aead_seal : bytes → bytes → bytes → bytes → bytes;
  hmac_length k m d : psa_hmac_sha256 k m = Some d → List.length d = SHA256_LEN;
  aead_seal_length k n a p : List.length (aead_seal k n a p) = (List.length p + 16)%nat;
  aead_written_fits k n a s size st out len :
    psa_aead_decrypt k n a s size = (st, out, len) → (List.length out ≤ size)%nat;
  aead_decrypt_seal k n a p size :
    (List.length p ≤ size)%nat →
    psa_aead_decrypt k n a (aead_seal k n a p) size = (PSA_SUCCESS, p, List.length p);
  aead_decrypt_auth k n a s size out len :
    psa_aead_decrypt k n a s size = (PSA_SUCCESS, out, len) →
    s = aead_seal k n a out ∧ len = List.length out
}.

(** ** Public keys: [mbedtls_pk_*] *)
Class Pk := {
  pk_context : Type;
  mbedtls_pk_parse_public_key : bytes → option pk_context;
  pk_can_do_ecdsa_sha256 : pk_context → bool;
  mbedtls_pk_verify : pk_context → bytes → bytes → bool
}.

(** ** Toy instances *)
Definition toy_digest (m : bytes) : bytes :=
  concat (map (fun i => le32 (fnv1a (FNV_OFFSET + i) m)) (seqZ 1 8)).
Definition toy_seal (k n a p : bytes) : bytes := p ++ take 16 (toy_digest (k ++ n ++ a ++ p)).
Definition toy_open (k n a s : bytes) (size : nat) : psa_status * bytes * nat :=
  let p := take (List.length s - 16) s in
  if decide (s = toy_seal k n a p ∧ (List.length p ≤ size)%nat)
  then (PSA_SUCCESS, p, List.length p)
  else (PSA_ERROR_INVALID_SIGNATURE, take size (zeros 4), O).

#[export] Instance toy_md : Md := {| md_finish m := Some (toy_digest m) |}.
#[export] Instance toy_psa : Psa :=
  {| psa_hmac_sha256 k m := Some (toy_digest (k ++ m)); psa_aead_decrypt := toy_open |}.
#[export] Instance toy_pk : Pk :=
  {| pk_context := bytes;
     mbedtls_pk_parse_public_key k := Some k;
     pk_can_do_ecdsa_sha256 _ := true;
     mbedtls_pk_verify k h s := bool_decide (s = k ++ h) |}.

Lemma length_toy_digest m : List.length (toy_digest m) = SHA256_LEN.
Proof. reflexivity. Qed.

Lemma toy_seal_take k n a p :
  take (List.length (toy_seal k n a p) - 16) (toy_seal k n a p) = p.
Proof.
  unfold toy_seal. rewrite length_app, length_take, length_toy_digest.
  rewrite take_app_le by (unfold SHA256_LEN; lia). apply take_ge. unfold SHA256_LEN; lia.
Qed.

#[export] Instance toy_md_laws : MdLaws.
Proof. constructor. intros m d [= <-]. apply length_toy_digest. Defined.

#[export] Instance toy_psa_laws : PsaLaws.
Proof.
  apply (Build_PsaLaws _ toy_seal).
  - intros k m d [= <-]. apply length_toy_digest.
  - intros. unfold toy_seal. by rewrite length_app, length_take, length_toy_digest.
  - intros k n a s size st out len. simpl. unfold toy_open.
    case_decide as Hd; intros [= <- <- <-]; [apply Hd|]. rewrite length_take. lia.
  - intros k n a p size Hp. simpl. unfold toy_open. rewrite toy_seal_take.
    by rewrite decide_True by done.
  - intros k n a s size out len. simpl. unfold toy_open.
    case_decide as Hd; intros [= <- <-]. split; [apply Hd | done].
Defined.
