(* ===== verification/Active_substance.v ===== *)
(** * Active substance: the encrypted command and its envelope

    [action_pill/active_substance/active_substance.c].  The plaintext of a pill
    is the memory image of an [active_substance_command_t] (76 bytes: device
    identifier, topic, action, payload), parsed by a copy and checked field by
    field.  The envelope carries the ciphertext opaquely; its hash covers an
    explicit list of bytes, not the struct.  A null pointer argument is [None];
    buffers are the lists of their bytes. *)

From S2P Require Import Prelude Bytes Crypto Amino_acids.

Definition ACTIVE_SUBSTANCE_CIPHERTEXT_MAX_LEN : nat := 256.
Definition ACTIVE_SUBSTANCE_VERSION : Z := 2.
Definition ACTIVE_SUBSTANCE_HASH_LEN : nat := 32.
Definition ACTIVE_SUBSTANCE_NONCE_LEN : nat := 12.
Definition ACTIVE_SUBSTANCE_TAG_LEN : nat := 16.
Definition ACTIVE_SUBSTANCE_DEVICE_ID_LEN : nat := 32.
Definition ACTIVE_SUBSTANCE_TOPIC_LEN : nat := 32.
Definition ACTIVE_SUBSTANCE_COMMAND_RESERVED_LEN : nat := 3.

(** ** Data *)
Definition ACTIVE_SUBSTANCE_CIPHER_UNKNOWN : Z := 0.
Definition ACTIVE_SUBSTANCE_CIPHER_AES_128_GCM : Z := 1.
Definition ACTIVE_SUBSTANCE_CIPHER_AES_256_GCM : Z := 2.
Definition ACTIVE_SUBSTANCE_CIPHER_CHACHA20_POLY1305 : Z := 3.

Record active_substance_command := mk_active_substance_command {
  ac_device_id : bytes;
  ac_topic : bytes;
  ac_amino_id : Z;
  ac_payload_type : Z;
  ac_reserved : bytes;
  ac_payload_i32 : Z
}.
#[export] Instance active_substance_command_settable : Settable active_substance_command := fun r =>
  mk_active_substance_command (ac_device_id r) (ac_topic r) (ac_amino_id r)
    (ac_payload_type r) (ac_reserved r) (ac_payload_i32 r).

Record active_substance := mk_active_substance {
  as_version : Z;
  as_cipher : Z;
  as_ciphertext_len : Z;
  as_nonce : bytes;
  as_tag : bytes;
  as_ciphertext : bytes
}.
#[export] Instance active_substance_settable : Settable active_substance := fun r =>
  mk_active_substance (as_version r) (as_cipher r) (as_ciphertext_len r) (as_nonce r)
    (as_tag r) (as_ciphertext r).

(** [sizeof(active_substance_command_t)]: the fields need no padding. *)
Definition command_size : nat := 76.

(** The struct whose memory is [l] (little-endian, two's complement). *)
Definition command_of_bytes (l : bytes) : active_substance_command :=
  mk_active_substance_command
    (slice l 0 ACTIVE_SUBSTANCE_DEVICE_ID_LEN)
    (slice l 32 ACTIVE_SUBSTANCE_TOPIC_LEN)
    (of_le32 (slice l 64 4))
    (nth 68 l 0)
    (slice l 69 ACTIVE_SUBSTANCE_COMMAND_RESERVED_LEN)
    (s32 (of_le32 (slice l 72 4))).

(** [memset] of the struct. *)
Definition command_zero : active_substance_command :=
  mk_active_substance_command (zeros 32) (zeros 32) 0 0 (zeros 3) 0.

(** ** The command *)
(** [for (j = i + 1; j < len; ++j) if (field[j] != '\0') return false]. *)
Fixpoint rest_zero (field : bytes) (n : nat) : bool :=
  match n with
  | O => true
  | S n' => if nth 0 field 0 =? 0 then rest_zero (tl field) n' else false
  end.

(** The scan for the terminator, at the first of the last [n] bytes. *)
Fixpoint scan_field (field : bytes) (n : nat) : bool :=
  match n with
  | O => false
  | S n' => if nth 0 field 0 =? 0 then rest_zero (tl field) n' else scan_field (tl field) n'
  end.

Definition c_string_field_valid (field : option bytes) (len : nat) : bool :=
  match field with
  | None => false
  | Some f => if (len =? 0)%nat || (nth 0 f 0 =? 0) then false else scan_field f len
  end.

Definition active_substance_command_clear (command : option active_substance_command) :
    option active_substance_command :=
  match command with None => None | Some _ => Some command_zero end.

Definition active_substance_command_validate (command : option active_substance_command) :
    esp_err :=
  match command with
  | None => ESP_ERR_INVALID_ARG
  | Some c =>
    if negb (c_string_field_valid (Some (ac_device_id c)) ACTIVE_SUBSTANCE_DEVICE_ID_LEN)
    then ESP_ERR_INVALID_ARG
    else if negb (c_string_field_valid (Some (ac_topic c)) ACTIVE_SUBSTANCE_TOPIC_LEN)
    then ESP_ERR_INVALID_ARG
    else if negb (bytes_all_zero (Some (ac_reserved c))) then ESP_ERR_INVALID_ARG
    else
      match amino_acid_find (ac_amino_id c) with
      | None => ESP_ERR_NOT_FOUND
      | Some acid =>
        if negb (u8 (aa_value_type acid) =? ac_payload_type c) then ESP_ERR_INVALID_ARG
        else
          let payload :=
            if ac_payload_type c =? AMINO_VALUE_NONE then None else Some (ac_payload_i32 c) in
          amino_acid_validate_payload (ac_amino_id c) payload
      end
  end.

(** The output struct after the call, and the status. *)
Definition active_substance_parse_command (plaintext : option bytes) (plaintext_len : nat)
    (out_command : option active_substance_command) :
    esp_err * option active_substance_command :=
  match plaintext, out_command with
  | Some p, Some _ =>
    if negb (plaintext_len =? command_size)%nat then (ESP_ERR_INVALID_SIZE, out_command)
    else
      let out := Some (command_of_bytes (take command_size p)) in
      let err := active_substance_command_validate out in
      (err, if err_ok err then out else active_substance_command_clear out)
  | _, _ => (ESP_ERR_INVALID_ARG, out_command)
  end.

(** ** The envelope *)
Definition substance_zero : active_substance :=
  mk_active_substance 0 0 0 (zeros ACTIVE_SUBSTANCE_NONCE_LEN)
    (zeros ACTIVE_SUBSTANCE_TAG_LEN) (zeros ACTIVE_SUBSTANCE_CIPHERTEXT_MAX_LEN).

Definition active_substance_init (substance : option active_substance) :
    option active_substance :=
  match substance with
  | None => None
  | Some _ =>
    Some (substance_zero <| as_version := ACTIVE_SUBSTANCE_VERSION |>
                         <| as_cipher := ACTIVE_SUBSTANCE_CIPHER_UNKNOWN |>)
  end.

Definition active_substance_validate_envelope (substance : option active_substance) : esp_err :=
  match substance with
  | None => ESP_ERR_INVALID_ARG
  | Some s =>
    if negb (as_version s =? ACTIVE_SUBSTANCE_VERSION) then ESP_ERR_INVALID_VERSION
    else if negb (as_cipher s =? ACTIVE_SUBSTANCE_CIPHER_AES_128_GCM) &&
            negb (as_cipher s =? ACTIVE_SUBSTANCE_CIPHER_AES_256_GCM) &&
            negb (as_cipher s =? ACTIVE_SUBSTANCE_CIPHER_CHACHA20_POLY1305)
    then ESP_ERR_NOT_SUPPORTED
    else if (as_ciphertext_len s =? 0) ||
            (Z.of_nat ACTIVE_SUBSTANCE_CIPHERTEXT_MAX_LEN <? as_ciphertext_len s)
    then ESP_ERR_INVALID_SIZE
    else ESP_OK
  end.

Definition active_substance_validate (substance : option active_substance) : esp_err :=
  active_substance_validate_envelope substance.

Definition active_substance_set_ciphertext (substance : option active_substance) (cipher : Z)
    (nonce tag ciphertext : option bytes) (ciphertext_len : nat) :
    esp_err * option active_substance :=
  match substance, nonce, tag, ciphertext with
  | Some _, Some nonce, Some tag, Some ciphertext =>
    if (ciphertext_len =? 0)%nat ||
       (ACTIVE_SUBSTANCE_CIPHERTEXT_MAX_LEN <? ciphertext_len)%nat
    then (ESP_ERR_INVALID_SIZE, substance)
    else
      match active_substance_init substance with
      | None => (ESP_ERR_INVALID_ARG, None)
      | Some s =>
        let s := s <| as_cipher := u8 cipher |>
                   <| as_ciphertext_len := u16 (Z.of_nat ciphertext_len) |> in
        let s := s <| as_nonce := memcpy (as_nonce s) nonce ACTIVE_SUBSTANCE_NONCE_LEN |> in
        let s := s <| as_tag := memcpy (as_tag s) tag ACTIVE_SUBSTANCE_TAG_LEN |> in
        let s := s <| as_ciphertext := memcpy (as_ciphertext s) ciphertext ciphertext_len |> in
        (active_substance_validate_envelope (Some s), Some s)
      end
  | _, _, _, _ => (ESP_ERR_INVALID_ARG, substance)
  end.

(** ** The hash *)
Definition update_u8 (ctx : bytes) (value : Z) : bytes := mbedtls_md_update ctx [value].
Definition update_u16_le (ctx : bytes) (value : Z) : bytes := mbedtls_md_update ctx (le16 value).

(** The updates of [active_substance_hash], in order. *)
Definition substance_updates (ctx : bytes) (s : active_substance) : bytes :=
  let ctx := update_u8 ctx (as_version s) in
  let ctx := update_u8 ctx (as_cipher s) in
  let ctx := update_u16_le ctx (as_ciphertext_len s) in
  let ctx := mbedtls_md_update ctx (as_nonce s) in
  let ctx := mbedtls_md_update ctx (as_tag s) in
  mbedtls_md_update ctx (take (Z.to_nat (as_ciphertext_len s)) (as_ciphertext s)).

(** The status and the contents of [out_hash], which a failure leaves as they
    were. *)
Definition active_substance_hash `{Md} (substance : option active_substance)
    (out_hash : option bytes) : esp_err * option bytes :=
  match substance, out_hash with
  | Some s, Some _ =>
    let err := active_substance_validate_envelope substance in
    if negb (err_ok err) then (err, out_hash)
    else
      match md_finish (substance_updates md_ctx_empty s) with
      | Some digest => (ESP_OK, Some digest)
      | None => (ESP_FAIL, out_hash)
      end
  | _, _ => (ESP_ERR_INVALID_ARG, out_hash)
  end.

Definition active_substance_cipher_to_string (cipher : Z) : bytes :=
  if cipher =? ACTIVE_SUBSTANCE_CIPHER_AES_128_GCM then lit "AES_128_GCM"
  else if cipher =? ACTIVE_SUBSTANCE_CIPHER_AES_256_GCM then lit "AES_256_GCM"
  else if cipher =? ACTIVE_SUBSTANCE_CIPHER_CHACHA20_POLY1305 then lit "CHACHA20_POLY1305"
  else lit "UNKNOWN".

(** ** Specification: commands as their sender builds them *)

(** The memory image of a command. *)
Definition command_bytes (c : active_substance_command) : bytes :=
  ac_device_id c ++ ac_topic c ++ le32 (ac_amino_id c) ++ [ac_payload_type c] ++
  ac_reserved c ++ le32 (u32 (ac_payload_i32 c)).

(** A string of a fixed-size field: nonempty, terminated, zero padded. *)
Definition field_of (s : bytes) (n : nat) : bytes := strncpy_bytes s n.
Definition field_ok (f : bytes) (n : nat) : Prop :=
  ∃ s, s ≠ [] ∧ Forall (fun b => b ≠ 0) s ∧ (List.length s < n)%nat ∧
       bytes_ok s ∧ f = s ++ zeros (n - List.length s).

(** A well-formed command: named device and topic, an action of the table, a
    payload type that is the action's, reserved bytes zero. *)
Record command_ok (c : active_substance_command) : Prop := mk_command_ok {
  cmd_device : field_ok (ac_device_id c) ACTIVE_SUBSTANCE_DEVICE_ID_LEN;
  cmd_topic : field_ok (ac_topic c) ACTIVE_SUBSTANCE_TOPIC_LEN;
  cmd_action : ∃ acid, amino_acid_find (ac_amino_id c) = Some acid ∧
                       ac_payload_type c = aa_value_type acid;
  cmd_reserved : ac_reserved c = zeros 3;
  cmd_payload : is_s32 (ac_payload_i32 c)
}.

(** The field values a C struct can hold. *)
Record substance_wf (s : active_substance) : Prop := mk_substance_wf {
  swf_version : is_u8 (as_version s);
  swf_cipher : is_u8 (as_cipher s);
  swf_len : is_u16 (as_ciphertext_len s);
  swf_nonce : List.length (as_nonce s) = ACTIVE_SUBSTANCE_NONCE_LEN;
  swf_tag : List.length (as_tag s) = ACTIVE_SUBSTANCE_TAG_LEN;
  swf_ciphertext : List.length (as_ciphertext s) = ACTIVE_SUBSTANCE_CIPHERTEXT_MAX_LEN
}.

(** The bytes of the ciphertext buffer that count. *)
Definition ciphertext_of (s : active_substance) : bytes :=
  take (Z.to_nat (as_ciphertext_len s)) (as_ciphertext s).

(** Equal envelopes, whatever the buffer holds past the ciphertext. *)
Definition same_envelope (s t : active_substance) : Prop :=
  as_version s = as_version t ∧ as_cipher s = as_cipher t ∧
  as_ciphertext_len s = as_ciphertext_len t ∧ as_nonce s = as_nonce t ∧
  as_tag s = as_tag t ∧ ciphertext_of s = ciphertext_of t.

(** ** Fields *)
Lemma rest_zero_spec f : rest_zero f (List.length f) = true ↔ f = zeros (List.length f).
Proof.
  induction f as [|b f IH]; simpl; [done|]. case_match; bools.
  - subst. rewrite IH. unfold zeros. simpl. split; [by intros <- | by intros [= <-]].
  - split; [done|]. unfold zeros. simpl. by intros [= ? _].
Qed.

Lemma scan_field_spec f :
  scan_field f (List.length f) = true ↔
  ∃ s, Forall (fun b => b ≠ 0) s ∧ (List.length s < List.length f)%nat ∧
       f = s ++ zeros (List.length f - List.length s).
Proof.
  induction f as [|b f IH]; simpl.
  - split; [done|]. intros (s & _ & H & _). lia.
  - case_match; bools.
    + subst. rewrite rest_zero_spec. split.
      * intros Hf. exists []. split; [done|]. split; [simpl; lia|]. simpl.
        change (zeros (S (List.length f))) with (0 :: zeros (List.length f)). by rewrite <- Hf.
      * intros (s & Hs & Hl & Hf). destruct s as [|c s]; simpl in Hf.
        -- by injection Hf.
        -- injection Hf as <- _. apply Forall_cons in Hs as [? _]. done.
    + rewrite IH. split.
      * intros (s & Hs & Hl & Hf). exists (b :: s). simpl.
        split; [by constructor|]. split; [lia|]. by rewrite <- Hf.
      * intros (s & Hs & Hl & Hf). destruct s as [|c s]; simpl in *.
        -- by injection Hf.
        -- injection Hf as <- Hf. apply Forall_cons in Hs as [_ Hs].
           exists s. split; [done|]. split; [lia | done].
Qed.

(** The field check accepts exactly a nonempty, terminated, zero-padded string. *)
Lemma c_string_field_valid_spec f n :
  List.length f = n → bytes_ok f →
  c_string_field_valid (Some f) n = true ↔ field_ok f n.
Proof.
  intros <- Hb. unfold c_string_field_valid, field_ok.
  destruct f as [|b f].
  { simpl. split; [done|]. intros (s & ? & ? & Hl & _). simpl in Hl. lia. }
  cbn [List.length Nat.eqb nth orb]. destruct (b =? 0) eqn:Eb; bools.
  - subst. split; [done|]. intros (s & Hne & Hs & _ & _ & Hf). destruct s as [|c s]; [done|].
    injection Hf as <- _. apply Forall_cons in Hs as [? _]. done.
  - change (S (List.length f)) with (List.length (b :: f)). rewrite scan_field_spec. split.
    + intros (s & Hs & Hl & Hf). exists s. split.
      * intros ->. simpl in Hf. by injection Hf.
      * split; [done|]. split; [done|]. split; [|done].
        rewrite Hf in Hb. by apply Forall_app in Hb as [? _].
    + intros (s & _ & Hs & Hl & _ & Hf). by exists s.
Qed.

Lemma field_ok_length f n : field_ok f n → List.length f = n.
Proof. intros (s & _ & _ & Hl & _ & ->). rewrite length_app, length_zeros. lia. Qed.
Lemma field_ok_bytes f n : field_ok f n → bytes_ok f.
Proof. intros (s & _ & _ & _ & Hb & ->). apply Forall_app. split; [done | apply bytes_ok_zeros]. Qed.

(** ** The memory image *)
Lemma length_command_bytes c :
  List.length (ac_device_id c) = 32%nat → List.length (ac_topic c) = 32%nat →
  List.length (ac_reserved c) = 3%nat → List.length (command_bytes c) = command_size.
Proof.
  intros H1 H2 H3. unfold command_bytes. rewrite !length_app, H1, H2, H3. done.
Qed.

Lemma command_of_bytes_command_bytes c :
  List.length (ac_device_id c) = 32%nat → List.length (ac_topic c) = 32%nat →
  List.length (ac_reserved c) = 3%nat → is_u32 (ac_amino_id c) → is_s32 (ac_payload_i32 c) →
  command_of_bytes (command_bytes c) = c.
Proof.
  intros H1 H2 H3 Ha Hp. unfold command_of_bytes, command_bytes.
  destruct c as [d t a ty r i].
  cbn [ac_device_id ac_topic ac_amino_id ac_payload_type ac_reserved ac_payload_i32] in *.
  rewrite (slice_app_here d) by done.
  rewrite !(slice_app_skip d) by (rewrite H1; lia). rewrite H1. cbn [Nat.sub].
  rewrite slice_app_here by done.
  rewrite !(slice_app_skip t) by (rewrite H2; lia). rewrite H2. cbn [Nat.sub].
  rewrite slice_app_here by done.
  rewrite !(slice_app_skip (le32 a)) by (simpl; lia). cbn [List.length le32 Nat.sub].
  rewrite app_nth2, H1 by (rewrite H1; lia). cbn [Nat.sub].
  rewrite app_nth2, H2 by (rewrite H2; lia). cbn [Nat.sub].
  rewrite app_nth2 by (simpl; lia). cbn [List.length le32 Nat.sub nth app].
  change (ty :: r ++ le32 (u32 i)) with ([ty] ++ r ++ le32 (u32 i)).
  rewrite !(slice_app_skip [ty] (r ++ _)) by (simpl; lia). cbn [List.length Nat.sub].
  rewrite slice_app_here by done.
  rewrite (slice_app_skip r) by (rewrite H3; lia). rewrite H3. cbn [Nat.sub].
  rewrite slice_all by done.
  rewrite <- (app_nil_r (le32 a)), <- (app_nil_r (le32 (u32 i))).
  rewrite !of_le32_le32 by (done || apply u32_range). by rewrite s32_u32.
Qed.

Lemma command_bytes_command_of_bytes l :
  List.length l = command_size → bytes_ok l → command_bytes (command_of_bytes l) = l.
Proof.
  intros Hl Hb. unfold command_size in Hl. unfold command_bytes, command_of_bytes.
  cbn [ac_device_id ac_topic ac_amino_id ac_payload_type ac_reserved ac_payload_i32].
  rewrite le32_of_le32 by (auto with blindnet || (apply length_slice; lia)).
  assert (is_u32 (of_le32 (slice l 72 4))) as Hr
    by (apply of_le32_range; [auto with blindnet | apply length_slice; lia]).
  rewrite u32_s32 by done.
  rewrite le32_of_le32 by (auto with blindnet || (apply length_slice; lia)).
  rewrite <- slice_one by lia.
  transitivity (slice l 0 (32 + (32 + (4 + (1 + (3 + 4)))))); [|by apply slice_all].
  by rewrite !slice_split.
Qed.

(** ** Validation of a command *)
Lemma command_validate_ok c :
  List.length (ac_device_id c) = 32%nat → List.length (ac_topic c) = 32%nat →
  List.length (ac_reserved c) = 3%nat → bytes_ok (ac_device_id c) → bytes_ok (ac_topic c) →
  is_s32 (ac_payload_i32 c) →
  active_substance_command_validate (Some c) = ESP_OK ↔ command_ok c.
Proof.
  intros H1 H2 H3 Hb1 Hb2 Hp. unfold active_substance_command_validate.
  pose proof (c_string_field_valid_spec _ _ H1 Hb1) as E1.
  pose proof (c_string_field_valid_spec _ _ H2 Hb2) as E2.
  pose proof (bytes_all_zero_spec (ac_reserved c)) as E3. rewrite all_zero_iff, H3 in E3.
  destruct (c_string_field_valid (Some (ac_device_id c)) _) eqn:Ed; cbn [negb];
    [|split; [done | by intros [Hd _ _ _ _]; apply E1 in Hd]].
  destruct (c_string_field_valid (Some (ac_topic c)) _) eqn:Et; cbn [negb];
    [|split; [done | by intros [_ Ht _ _ _]; apply E2 in Ht]].
  destruct (bytes_all_zero (Some (ac_reserved c))) eqn:Er; cbn [negb];
    [|split; [done | by intros [_ _ _ Hr _]; apply E3 in Hr]].
  destruct (amino_acid_find (ac_amino_id c)) as [acid|] eqn:Ea;
    [|split; [done | by intros [_ _ (acid & Ha & _) _ _]; rewrite Ea in Ha]].
  assert (u8 (aa_value_type acid) = aa_value_type acid) as ->
    by (destruct (amino_value_types_valid _ _ Ea) as [-> | ->]; done).
  destruct (aa_value_type acid =? ac_payload_type c) eqn:Ev; bools; cbn [negb].
  - rewrite validate_payload_ok. split.
    + intros _. constructor; [by apply E1 | by apply E2 | by exists acid | by apply E3 | done].
    + intros _. exists acid. split; [done|]. rewrite Ev.
      destruct (ac_payload_type c =? AMINO_VALUE_NONE) eqn:En; bools; split; try done.
  - split; [done|]. intros [_ _ (acid' & Ha & Hty) _ _]. rewrite Ea in Ha.
    injection Ha as <-. congruence.
Qed.

Lemma command_ok_lengths c :
  command_ok c →
  List.length (ac_device_id c) = 32%nat ∧ List.length (ac_topic c) = 32%nat ∧
  List.length (ac_reserved c) = 3%nat ∧ is_u32 (ac_amino_id c).
Proof.
  intros [Hd Ht (acid & Ha & _) Hr _].
  split; [exact (field_ok_length _ _ Hd)|]. split; [exact (field_ok_length _ _ Ht)|].
  split; [by rewrite Hr|].
  assert (1 ≤ ac_amino_id c ≤ 12) as Hi
    by (apply amino_id_valid_iff; unfold amino_acid_id_valid; by rewrite Ha).
  unfold is_u32. lia.
Qed.

Lemma command_of_bytes_lengths l :
  List.length l = command_size → bytes_ok l →
  List.length (ac_device_id (command_of_bytes l)) = 32%nat ∧
  List.length (ac_topic (command_of_bytes l)) = 32%nat ∧
  List.length (ac_reserved (command_of_bytes l)) = 3%nat ∧
  bytes_ok (ac_device_id (command_of_bytes l)) ∧ bytes_ok (ac_topic (command_of_bytes l)) ∧
  is_s32 (ac_payload_i32 (command_of_bytes l)).
Proof.
  unfold command_size. intros Hl Hb. unfold command_of_bytes.
  cbn [ac_device_id ac_topic ac_reserved ac_payload_i32].
  split; [apply length_slice; unfold ACTIVE_SUBSTANCE_DEVICE_ID_LEN; lia|].
  split; [apply length_slice; unfold ACTIVE_SUBSTANCE_TOPIC_LEN; lia|].
  split; [apply length_slice; unfold ACTIVE_SUBSTANCE_COMMAND_RESERVED_LEN; lia|].
  split; [auto with blindnet|]. split; [auto with blindnet|].
  apply s32_range, of_le32_range; [auto with blindnet | apply length_slice; lia].
Qed.

Lemma command_ok_bytes c : command_ok c → bytes_ok (command_bytes c).
Proof.
  intros [Hd Ht (acid & Ha & Hty) Hr _]. unfold command_bytes, bytes_ok.
  rewrite !Forall_app, Forall_singleton. rewrite Hr, Hty.
  split; [exact (field_ok_bytes _ _ Hd)|]. split; [exact (field_ok_bytes _ _ Ht)|].
  split; [apply bytes_ok_le32|]. split; [|split; [apply bytes_ok_zeros | apply bytes_ok_le32]].
  destruct (amino_value_types_valid _ _ Ha) as [-> | ->]; unfold is_u8; cbv; by split.
Qed.

#[local] Opaque active_substance_command_validate command_of_bytes command_bytes.

(** The image of a well-formed command parses to it, whatever follows it in
    the buffer. *)
Lemma parse_command_image c rest out :
  command_ok c →
  active_substance_parse_command (Some (command_bytes c ++ rest)) command_size (Some out)
    = (ESP_OK, Some c).
Proof.
  intros Hok. destruct (command_ok_lengths c Hok) as (H1 & H2 & H3 & H4).
  assert (List.length (command_bytes c) = command_size) as Hl by (by apply length_command_bytes).
  unfold active_substance_parse_command. rewrite Nat.eqb_refl. cbn [negb]. cbv zeta.
  rewrite take_app_le, take_ge by lia.
  rewrite command_of_bytes_command_bytes by (done || by destruct Hok).
  assert (active_substance_command_validate (Some c) = ESP_OK) as Hv.
  { apply command_validate_ok; try done; [apply (field_ok_bytes _ 32), Hok |
      apply (field_ok_bytes _ 32), Hok | apply Hok]. }
  by rewrite Hv.
Qed.

(** ** Properties *)

(** C14: the command parser accepts exactly the memory images of the well-formed
    commands, and gives each one back: a plaintext parses to the command [c]
    exactly when [c] is well formed and the plaintext is its 76-byte image
    (hence no two plaintexts give one command).  On any other plaintext of the
    right size the output struct is wiped; on a wrong size it is untouched. *)
Theorem active_substance_parse_command_exact p (out : active_substance_command) :
  bytes_ok p →
  (∀ c, active_substance_parse_command (Some p) (List.length p) (Some out)
          = (ESP_OK, Some c) ↔ command_ok c ∧ p = command_bytes c) ∧
  (∀ err out', active_substance_parse_command (Some p) (List.length p) (Some out)
          = (err, out') → err ≠ ESP_OK →
     out' = if decide (List.length p = command_size) then Some command_zero else Some out).
Proof.
  intros Hb. unfold active_substance_parse_command.
  destruct (List.length p =? command_size)%nat eqn:El; cbn [negb].
  - apply Nat.eqb_eq in El. rewrite decide_True by done. rewrite take_ge by lia.
    cbv zeta. pose proof (command_of_bytes_lengths p El Hb) as (H1 & H2 & H3 & H4 & H5 & H6).
    pose proof (command_validate_ok _ H1 H2 H3 H4 H5 H6) as Hv.
    split.
    + intros c. unfold err_ok, err_eqb. split.
      * intros [= He Hc]. rewrite He in Hc. simpl in Hc. injection Hc as <-.
        split; [by apply Hv|]. by rewrite command_bytes_command_of_bytes.
      * intros [Hok ->]. pose proof (parse_command_image c [] out Hok) as Hi.
        unfold active_substance_parse_command in Hi. revert Hi.
        rewrite Nat.eqb_refl, app_nil_r, take_ge by lia. done.
    + intros err out' [= He <-] Hne. rewrite He. unfold err_ok, err_eqb.
      by rewrite bool_decide_eq_false_2.
  - apply Nat.eqb_neq in El. rewrite decide_False by done. split.
    + intros c. split; [done|]. intros [Hok ->]. destruct El.
      destruct (command_ok_lengths c Hok) as (? & ? & ? & ?). by apply length_command_bytes.
    + by intros err out' [= <- <-] _.
Qed.

#[local] Transparent active_substance_command_validate command_of_bytes command_bytes.

(** Envelopes that pass the check, in the terms of the specification. *)
Lemma validate_envelope_ok s :
  active_substance_validate_envelope (Some s) = ESP_OK ↔
  as_version s = 2 ∧ 1 ≤ as_cipher s ≤ 3 ∧
  as_ciphertext_len s ≠ 0 ∧ as_ciphertext_len s ≤ 256.
Proof.
  unfold active_substance_validate_envelope.
  unfold ACTIVE_SUBSTANCE_VERSION, ACTIVE_SUBSTANCE_CIPHER_AES_128_GCM,
    ACTIVE_SUBSTANCE_CIPHER_AES_256_GCM, ACTIVE_SUBSTANCE_CIPHER_CHACHA20_POLY1305.
  repeat case_match; bools; split; try done; try lia.
  all: repeat match goal with
    | H : (_ && _) = false |- _ => apply andb_false_iff in H as [H|H]
    | H : (_ || _) = true |- _ => apply orb_true_iff in H as [H|H]
    end; bools; unfold ACTIVE_SUBSTANCE_CIPHERTEXT_MAX_LEN in *; simpl in *; lia.
Qed.

(** The bytes under the hash, as one list. *)
Lemma substance_updates_eq s :
  substance_updates md_ctx_empty s =
  [as_version s; as_cipher s] ++ le16 (as_ciphertext_len s) ++ as_nonce s ++ as_tag s ++
  ciphertext_of s.
Proof.
  unfold substance_updates, update_u8, update_u16_le, mbedtls_md_update, md_ctx_empty.
  by rewrite <- !app_assoc.
Qed.

(** The canonical bytes determine the envelope. *)
Lemma substance_updates_inj s t :
  substance_wf s → substance_wf t →
  substance_updates md_ctx_empty s = substance_updates md_ctx_empty t → same_envelope s t.
Proof.
  intros [_ _ Hl1 Hn1 Ht1 _] [_ _ Hl2 Hn2 Ht2 _]. rewrite !substance_updates_eq.
  intros [= Hv Hc Ha Hb H]. apply app_inj_1 in H as [Hn H]; [|congruence].
  apply app_inj_1 in H as [Ht H]; [|congruence].
  assert (as_ciphertext_len s = as_ciphertext_len t) as Hlen
    by (apply le16_inj; [done | done | unfold le16; congruence]).
  by unfold same_envelope.
Qed.

Lemma active_substance_hash_ok `{Md} s out d :
  active_substance_hash (Some s) (Some out) = (ESP_OK, d) ↔
  active_substance_validate_envelope (Some s) = ESP_OK ∧
  ∃ h, md_finish (substance_updates md_ctx_empty s) = Some h ∧ d = Some h.
Proof.
  unfold active_substance_hash. unfold err_ok, err_eqb. case_bool_decide as He; cbn [negb].
  - rewrite He. destruct (md_finish _) as [h|]; naive_solver.
  - split; [by intros [= ? ?] | by intros [? _]].
Qed.

(** Setting a ciphertext of a legal size under a known cipher gives a valid
    envelope that holds exactly what it was given. *)
Lemma set_ciphertext_ok s0 cipher nonce tag ct :
  1 ≤ cipher ≤ 3 → List.length nonce = ACTIVE_SUBSTANCE_NONCE_LEN →
  List.length tag = ACTIVE_SUBSTANCE_TAG_LEN → (1 ≤ List.length ct ≤ 256)%nat →
  ∃ s, active_substance_set_ciphertext (Some s0) cipher (Some nonce) (Some tag) (Some ct)
         (List.length ct) = (ESP_OK, Some s) ∧
       substance_wf s ∧ as_version s = 2 ∧ as_cipher s = cipher ∧ as_nonce s = nonce ∧
       as_tag s = tag ∧ as_ciphertext_len s = Z.of_nat (List.length ct) ∧ ciphertext_of s = ct.
Proof.
  intros Hc Hn Ht Hct. unfold active_substance_set_ciphertext.
  unfold ACTIVE_SUBSTANCE_CIPHERTEXT_MAX_LEN.
  destruct (List.length ct =? 0)%nat eqn:E0; [apply Nat.eqb_eq in E0; lia|].
  destruct (256 <? List.length ct)%nat eqn:E1; [apply Nat.ltb_lt in E1; lia|].
  cbn [orb active_substance_init]. cbv zeta.
  set (buf := zeros ACTIVE_SUBSTANCE_CIPHERTEXT_MAX_LEN).
  set (s := mk_active_substance 2 cipher (Z.of_nat (List.length ct)) nonce tag
              (memcpy buf ct (List.length ct))).
  match goal with |- context [(_, Some ?x)] => assert (x = s) as -> end.
  { unfold s, buf, substance_zero. fields. unfold memcpy.
    rewrite !take_ge, !drop_ge, !app_nil_r by (rewrite ?length_zeros; lia).
    rewrite u8_small, u16_small by (unfold is_u8, is_u16; lia). done. }
  assert (List.length (memcpy buf ct (List.length ct)) = 256%nat) as Hl
    by (rewrite length_memcpy; unfold buf; rewrite ?length_zeros; done || apply Hct).
  exists s. split; [f_equal; apply validate_envelope_ok; simpl; lia|].
  split; [constructor; simpl; unfold is_u8, is_u16; try done; lia|].
  unfold ciphertext_of. simpl. rewrite Nat2Z.id, take_memcpy, firstn_all by lia. done.
Qed.

(** ** Witnesses *)
Definition witness_command : active_substance_command :=
  mk_active_substance_command (lit "lamp-1" ++ zeros 26) (lit "home/lamp" ++ zeros 23)
    AMINO_SET_LEVEL AMINO_VALUE_INT (zeros 3) (-7).

Lemma witness_command_ok : command_ok witness_command.
Proof.
  constructor; cbn.
  - exists (lit "lamp-1"). split_and!; [done | forall_compute | vm_compute; lia | | done].
    unfold bytes_ok. forall_compute.
  - exists (lit "home/lamp"). split_and!; [done | forall_compute | vm_compute; lia | | done].
    unfold bytes_ok. forall_compute.
  - by eexists.
  - done.
  - done.
Qed.

Lemma active_substance_parse_command_exact_witness :
  active_substance_parse_command (Some (command_bytes witness_command)) 76 (Some command_zero)
    = (ESP_OK, Some witness_command).
Proof.
  refine (proj2 (proj1 (active_substance_parse_command_exact
            (command_bytes witness_command) command_zero _) witness_command) _).
  - exact (command_ok_bytes _ witness_command_ok).
  - split; [exact witness_command_ok | reflexivity].
Defined.
