(* ===== verification/Capsule_pill.v ===== *)
(** * Capsule pill: the signed part of an action pill

    [action_pill/capsule_pill/capsule_pill.c].  A capsule carries validity,
    network, nonce, the hash of the encrypted active substance and the issuer's
    signature.  The signature and the replay digest cover explicit lists of
    bytes, fed to SHA-256 field by field.  The [uint8_t] fields that hold
    enumerators are kept as the bytes they are. *)

From S2P Require Import Prelude Bytes Crypto Amino_acids Active_substance.

Definition CAPSULE_PILL_VERSION : Z := 3.
Definition CAPSULE_PILL_NONCE_LEN : nat := 16.
Definition CAPSULE_PILL_NETWORK_ID_LEN : nat := 16.
Definition CAPSULE_PILL_ISSUER_KEY_ID_LEN : nat := 16.
Definition CAPSULE_PILL_SIGNATURE_MAX_LEN : nat := 96.
Definition CAPSULE_PILL_DIGEST_LEN : nat := 32.

(** ** Data *)
Definition CAPSULE_PILL_ACTION_UNKNOWN : Z := 0.
Definition CAPSULE_PILL_ACTION_MQTT : Z := 1.
Definition CAPSULE_PILL_ACTION_GPIO : Z := 2.
Definition CAPSULE_PILL_ACTION_POLICY : Z := 3.
Definition CAPSULE_PILL_SIGNATURE_NONE : Z := 0.
Definition CAPSULE_PILL_SIGNATURE_ECDSA_SHA256_DER : Z := 1.

Record capsule_pill := mk_capsule_pill {
  cp_version : Z;
  cp_flags : Z;
  cp_action_class : Z;
  cp_reserved0 : Z;
  cp_issued_ms : Z;
  cp_expires_ms : Z;
  cp_network_id : bytes;
  cp_nonce : bytes;
  cp_active_hash : bytes;
  cp_issuer_key_id : bytes;
  cp_signature_alg : Z;
  cp_signature_len : Z;
  cp_reserved1 : bytes;
  cp_signature : bytes
}.
#[export] Instance capsule_pill_settable : Settable capsule_pill := fun r =>
  mk_capsule_pill (cp_version r) (cp_flags r) (cp_action_class r) (cp_reserved0 r)
    (cp_issued_ms r) (cp_expires_ms r) (cp_network_id r) (cp_nonce r) (cp_active_hash r)
    (cp_issuer_key_id r) (cp_signature_alg r) (cp_signature_len r) (cp_reserved1 r)
    (cp_signature r).

Definition capsule_zero : capsule_pill :=
  mk_capsule_pill 0 0 0 0 0 0 (zeros 16) (zeros 16) (zeros 32) (zeros 16) 0 0 (zeros 2) (zeros 96).

(** ** Canonical bytes *)
Definition update_u32_le (ctx : bytes) (value : Z) : bytes := mbedtls_md_update ctx (le32 value).

Definition capsule_update_signed_canonical (ctx : bytes) (capsule : option capsule_pill) :
    esp_err * bytes :=
  match capsule with
  | None => (ESP_ERR_INVALID_ARG, ctx)
  | Some c =>
    let ctx := update_u8 ctx (cp_version c) in
    let ctx := update_u8 ctx (cp_flags c) in
    let ctx := update_u8 ctx (cp_action_class c) in
    let ctx := update_u8 ctx (cp_reserved0 c) in
    let ctx := update_u32_le ctx (cp_issued_ms c) in
    let ctx := update_u32_le ctx (cp_expires_ms c) in
    let ctx := mbedtls_md_update ctx (cp_network_id c) in
    let ctx := mbedtls_md_update ctx (cp_nonce c) in
    let ctx := mbedtls_md_update ctx (cp_active_hash c) in
    let ctx := mbedtls_md_update ctx (cp_issuer_key_id c) in
    let ctx := update_u8 ctx (cp_signature_alg c) in
    (ESP_OK, ctx)
  end.

Definition capsule_compute_signed_hash `{Md} (capsule : option capsule_pill)
    (out_hash : option bytes) : esp_err * option bytes :=
  match capsule, out_hash with
  | Some _, Some _ =>
    let '(rc, ctx) := capsule_update_signed_canonical md_ctx_empty capsule in
    if negb (err_ok rc) then (ESP_FAIL, out_hash)
    else
      match md_finish ctx with
      | Some digest => (ESP_OK, Some digest)
      | None => (ESP_FAIL, out_hash)
      end
  | _, _ => (ESP_ERR_INVALID_ARG, out_hash)
  end.

(** ** Building a capsule *)
Definition capsule_pill_init (capsule : option capsule_pill) : option capsule_pill :=
  match capsule with
  | None => None
  | Some _ =>
    Some (capsule_zero <| cp_version := CAPSULE_PILL_VERSION |>
                       <| cp_action_class := CAPSULE_PILL_ACTION_UNKNOWN |>
                       <| cp_signature_alg := CAPSULE_PILL_SIGNATURE_NONE |>)
  end.

Definition capsule_pill_configure (capsule : option capsule_pill)
    (action_class issued_ms expires_ms : Z) (network_id nonce issuer_key_id : option bytes) :
    esp_err * option capsule_pill :=
  match capsule, network_id, nonce, issuer_key_id with
  | Some c, Some net, Some non, Some kid =>
    if (issued_ms =? 0) || (expires_ms <=? issued_ms) then (ESP_ERR_INVALID_ARG, capsule)
    else if action_class =? CAPSULE_PILL_ACTION_UNKNOWN then (ESP_ERR_INVALID_ARG, capsule)
    else
      let c := c <| cp_version := CAPSULE_PILL_VERSION |> <| cp_flags := 0 |>
                 <| cp_action_class := u8 action_class |> <| cp_reserved0 := 0 |>
                 <| cp_issued_ms := issued_ms |> <| cp_expires_ms := expires_ms |> in
      let c := c <| cp_network_id ::= fun d => memcpy d net CAPSULE_PILL_NETWORK_ID_LEN |>
                 <| cp_nonce ::= fun d => memcpy d non CAPSULE_PILL_NONCE_LEN |>
                 <| cp_issuer_key_id ::= fun d => memcpy d kid CAPSULE_PILL_ISSUER_KEY_ID_LEN |> in
      let c := c <| cp_signature_alg := CAPSULE_PILL_SIGNATURE_NONE |>
                 <| cp_signature_len := 0 |>
                 <| cp_reserved1 := zeros 2 |>
                 <| cp_signature := zeros CAPSULE_PILL_SIGNATURE_MAX_LEN |> in
      (ESP_OK, Some c)
  | _, _, _, _ => (ESP_ERR_INVALID_ARG, capsule)
  end.

Definition capsule_pill_set_active_hash (capsule : option capsule_pill)
    (active_hash : option bytes) : esp_err * option capsule_pill :=
  match capsule, active_hash with
  | Some c, Some h =>
    (ESP_OK,
     Some (c <| cp_active_hash ::= fun d => memcpy d h ACTIVE_SUBSTANCE_HASH_LEN |>
             <| cp_signature_len := 0 |>
             <| cp_signature := zeros CAPSULE_PILL_SIGNATURE_MAX_LEN |>))
  | _, _ => (ESP_ERR_INVALID_ARG, capsule)
  end.

Definition capsule_pill_bind_active `{Md} (capsule : option capsule_pill)
    (substance : option active_substance) : esp_err * option capsule_pill :=
  match capsule, substance with
  | Some _, Some _ =>
    let '(err, hash) := active_substance_hash substance (Some (zeros ACTIVE_SUBSTANCE_HASH_LEN)) in
    if negb (err_ok err) then (err, capsule)
    else capsule_pill_set_active_hash capsule hash
  | _, _ => (ESP_ERR_INVALID_ARG, capsule)
  end.

Definition capsule_pill_set_signature (capsule : option capsule_pill) (alg : Z)
    (signature : option bytes) (signature_len : nat) : esp_err * option capsule_pill :=
  match capsule, signature with
  | Some c, Some sig =>
    if negb (alg =? CAPSULE_PILL_SIGNATURE_ECDSA_SHA256_DER) then (ESP_ERR_NOT_SUPPORTED, capsule)
    else if (signature_len =? 0)%nat || (CAPSULE_PILL_SIGNATURE_MAX_LEN <? signature_len)%nat
    then (ESP_ERR_INVALID_SIZE, capsule)
    else
      (ESP_OK,
       Some (c <| cp_signature_alg := u8 alg |>
               <| cp_signature_len := u8 (Z.of_nat signature_len) |>
               <| cp_signature :=
                    memcpy (zeros CAPSULE_PILL_SIGNATURE_MAX_LEN) sig signature_len |>))
  | _, _ => (ESP_ERR_INVALID_ARG, capsule)
  end.

Definition capsule_pill_set_signature_alg (capsule : option capsule_pill) (alg : Z) :
    esp_err * option capsule_pill :=
  match capsule with
  | None => (ESP_ERR_INVALID_ARG, None)
  | Some c =>
    if negb (alg =? CAPSULE_PILL_SIGNATURE_ECDSA_SHA256_DER) then (ESP_ERR_NOT_SUPPORTED, capsule)
    else
      (ESP_OK,
       Some (c <| cp_signature_alg := u8 alg |>
               <| cp_signature_len := 0 |>
               <| cp_signature := zeros CAPSULE_PILL_SIGNATURE_MAX_LEN |>))
  end.

(** ** Checking a capsule *)
Definition capsule_pill_validate_basic (capsule : option capsule_pill) (now_ms : Z) : esp_err :=
  match capsule with
  | None => ESP_ERR_INVALID_ARG
  | Some c =>
    if negb (cp_version c =? CAPSULE_PILL_VERSION) then ESP_ERR_INVALID_VERSION
    else if cp_action_class c =? CAPSULE_PILL_ACTION_UNKNOWN then ESP_ERR_INVALID_ARG
    else if negb (cp_reserved0 c =? 0) || negb (bytes_all_zero (Some (cp_reserved1 c)))
    then ESP_ERR_INVALID_ARG
    else if (cp_issued_ms c =? 0) || (cp_expires_ms c <=? cp_issued_ms c)
    then ESP_ERR_INVALID_ARG
    else if negb (now_ms =? 0) && (cp_expires_ms c <? now_ms) then ESP_ERR_TIMEOUT
    else if bytes_all_zero (Some (cp_nonce c)) then ESP_ERR_INVALID_ARG
    else if bytes_all_zero (Some (cp_issuer_key_id c)) then ESP_ERR_INVALID_ARG
    else if bytes_all_zero (Some (cp_active_hash c)) then ESP_ERR_INVALID_ARG
    else if negb (cp_signature_alg c =? CAPSULE_PILL_SIGNATURE_ECDSA_SHA256_DER)
    then ESP_ERR_NOT_SUPPORTED
    else if (cp_signature_len c =? 0) ||
            (Z.of_nat CAPSULE_PILL_SIGNATURE_MAX_LEN <? cp_signature_len c)
    then ESP_ERR_INVALID_SIZE
    else if bytes_all_zero (Some (take (Z.to_nat (cp_signature_len c)) (cp_signature c)))
    then ESP_ERR_INVALID_ARG
    else ESP_OK
  end.

Definition capsule_pill_constant_time_equal (a b : option bytes) (len : nat) : bool :=
  match a, b with
  | Some a, Some b => constant_time_equal a b len
  | _, _ => false
  end.

Definition capsule_pill_matches_active `{Md} (capsule : option capsule_pill)
    (substance : option active_substance) : bool :=
  match capsule, substance with
  | Some c, Some _ =>
    let '(err, hash) := active_substance_hash substance (Some (zeros ACTIVE_SUBSTANCE_HASH_LEN)) in
    if negb (err_ok err) then false
    else capsule_pill_constant_time_equal (Some (cp_active_hash c)) hash ACTIVE_SUBSTANCE_HASH_LEN
  | _, _ => false
  end.

Definition capsule_pill_compute_signing_digest `{Md} (capsule : option capsule_pill)
    (out_digest : option bytes) : esp_err * option bytes :=
  match capsule with
  | None => (ESP_ERR_INVALID_ARG, out_digest)
  | Some c =>
    if negb (cp_signature_alg c =? CAPSULE_PILL_SIGNATURE_ECDSA_SHA256_DER)
    then (ESP_ERR_NOT_SUPPORTED, out_digest)
    else capsule_compute_signed_hash capsule out_digest
  end.

Definition capsule_pill_compute_digest `{Md} (capsule : option capsule_pill)
    (out_digest : option bytes) : esp_err * option bytes :=
  match capsule, out_digest with
  | Some c, Some _ =>
    let '(rc, ctx) := capsule_update_signed_canonical md_ctx_empty capsule in
    if negb (err_ok rc) then (ESP_FAIL, out_digest)
    else
      let ctx := update_u8 ctx (cp_signature_len c) in
      let ctx := mbedtls_md_update ctx (take (Z.to_nat (cp_signature_len c)) (cp_signature c)) in
      match md_finish ctx with
      | Some digest => (ESP_OK, Some digest)
      | None => (ESP_FAIL, out_digest)
      end
  | _, _ => (ESP_ERR_INVALID_ARG, out_digest)
  end.

Definition capsule_pill_verify_asymmetric `{Md} `{Pk} (capsule : option capsule_pill)
    (public_key : option bytes) (public_key_len : nat) : bool :=
  match capsule, public_key with
  | Some c, Some key =>
    if (public_key_len =? 0)%nat then false
    else if negb (err_ok (capsule_pill_validate_basic capsule 0)) then false
    else
      let '(err, hash) := capsule_compute_signed_hash capsule (Some (zeros CAPSULE_PILL_DIGEST_LEN)) in
      match err_ok err, hash with
      | true, Some signed_hash =>
        match mbedtls_pk_parse_public_key (take public_key_len key) with
        | None => false
        | Some pk =>
          if negb (pk_can_do_ecdsa_sha256 pk) then false
          else mbedtls_pk_verify pk signed_hash
                 (take (Z.to_nat (cp_signature_len c)) (cp_signature c))
        end
      | _, _ => false
      end
  | _, _ => false
  end.

Definition capsule_pill_action_class_to_string (action_class : Z) : bytes :=
  if action_class =? CAPSULE_PILL_ACTION_MQTT then lit "MQTT"
  else if action_class =? CAPSULE_PILL_ACTION_GPIO then lit "GPIO"
  else if action_class =? CAPSULE_PILL_ACTION_POLICY then lit "POLICY"
  else lit "UNKNOWN".

Definition capsule_pill_signature_alg_to_string (alg : Z) : bytes :=
  if alg =? CAPSULE_PILL_SIGNATURE_ECDSA_SHA256_DER then lit "ECDSA_SHA256_DER" else lit "NONE".

(** ** Specification *)
Record capsule_wf (c : capsule_pill) : Prop := mk_capsule_wf {
  cwf_issued : is_u32 (cp_issued_ms c);
  cwf_expires : is_u32 (cp_expires_ms c);
  cwf_network : List.length (cp_network_id c) = CAPSULE_PILL_NETWORK_ID_LEN;
  cwf_nonce : List.length (cp_nonce c) = CAPSULE_PILL_NONCE_LEN;
  cwf_hash : List.length (cp_active_hash c) = ACTIVE_SUBSTANCE_HASH_LEN;
  cwf_key : List.length (cp_issuer_key_id c) = CAPSULE_PILL_ISSUER_KEY_ID_LEN;
  cwf_reserved1 : List.length (cp_reserved1 c) = 2%nat;
  cwf_signature : List.length (cp_signature c) = CAPSULE_PILL_SIGNATURE_MAX_LEN
}.

(** The signature proper: the first [signature_len] bytes of its buffer. *)
Definition signature_of (c : capsule_pill) : bytes :=
  take (Z.to_nat (cp_signature_len c)) (cp_signature c).

(** The same capsule, whatever the buffer holds past the signature. *)
Definition same_capsule (c d : capsule_pill) : Prop :=
  c <| cp_signature := signature_of c |> = d <| cp_signature := signature_of d |>.

(** The canonical bytes as one list: what is signed, and what is hashed for the
    replay cache. *)
Definition signed_bytes (c : capsule_pill) : bytes :=
  [cp_version c; cp_flags c; cp_action_class c; cp_reserved0 c] ++ le32 (cp_issued_ms c) ++
  le32 (cp_expires_ms c) ++ cp_network_id c ++ cp_nonce c ++ cp_active_hash c ++
  cp_issuer_key_id c ++ [cp_signature_alg c].
Definition digest_bytes (c : capsule_pill) : bytes :=
  signed_bytes c ++ [cp_signature_len c] ++ signature_of c.

(** The fields under the signature. *)
Definition same_signed (c d : capsule_pill) : Prop :=
  cp_version c = cp_version d ∧ cp_flags c = cp_flags d ∧
  cp_action_class c = cp_action_class d ∧ cp_reserved0 c = cp_reserved0 d ∧
  cp_issued_ms c = cp_issued_ms d ∧ cp_expires_ms c = cp_expires_ms d ∧
  cp_network_id c = cp_network_id d ∧ cp_nonce c = cp_nonce d ∧
  cp_active_hash c = cp_active_hash d ∧ cp_issuer_key_id c = cp_issuer_key_id d ∧
  cp_signature_alg c = cp_signature_alg d.

(** ** Canonical bytes *)
Lemma signed_ctx c :
  capsule_update_signed_canonical md_ctx_empty (Some c) = (ESP_OK, signed_bytes c).
Proof.
  unfold capsule_update_signed_canonical, signed_bytes, update_u8, update_u32_le,
    mbedtls_md_update, md_ctx_empty. by rewrite <- !app_assoc.
Qed.

Lemma signed_bytes_inj c d x y :
  capsule_wf c → capsule_wf d →
  signed_bytes c ++ x = signed_bytes d ++ y → same_signed c d ∧ x = y.
Proof.
  intros [Hi1 He1 Hn1 Ho1 Hh1 Hk1 _ _] [Hi2 He2 Hn2 Ho2 Hh2 Hk2 _ _].
  unfold signed_bytes. rewrite <- !app_assoc. intros H.
  apply app_inj_1 in H as [H4 H]; [|done]. injection H4 as Hv Hf Ha Hr.
  apply app_inj_1 in H as [Hi H]; [|done]. apply le32_inj in Hi; [|done|done].
  apply app_inj_1 in H as [He H]; [|done]. apply le32_inj in He; [|done|done].
  apply app_inj_1 in H as [Hn H]; [|congruence].
  apply app_inj_1 in H as [Ho H]; [|congruence].
  apply app_inj_1 in H as [Hh H]; [|congruence].
  apply app_inj_1 in H as [Hk H]; [|congruence].
  apply app_inj_1 in H as [Hs Hx]; [|done]. injection Hs as Hs. by unfold same_signed.
Qed.

Lemma compute_signed_hash_ok `{Md} c buf o :
  capsule_compute_signed_hash (Some c) (Some buf) = (ESP_OK, o) ↔
  ∃ h, md_finish (signed_bytes c) = Some h ∧ o = Some h.
Proof.
  unfold capsule_compute_signed_hash. rewrite signed_ctx. cbn [err_ok].
  unfold err_ok, err_eqb. rewrite bool_decide_eq_true_2 by done. cbn [negb].
  destruct (md_finish (signed_bytes c)); naive_solver.
Qed.

Lemma compute_digest_ok `{Md} c buf o :
  capsule_pill_compute_digest (Some c) (Some buf) = (ESP_OK, o) ↔
  ∃ h, md_finish (digest_bytes c) = Some h ∧ o = Some h.
Proof.
  unfold capsule_pill_compute_digest. rewrite signed_ctx.
  unfold err_ok, err_eqb. rewrite bool_decide_eq_true_2 by done. cbn [negb].
  replace (mbedtls_md_update _ _) with (digest_bytes c)
    by (unfold digest_bytes, update_u8, mbedtls_md_update; by rewrite <- app_assoc).
  destruct (md_finish (digest_bytes c)); naive_solver.
Qed.

(** ** The basic checks as a proposition *)
Record capsule_ok (c : capsule_pill) (now : Z) : Prop := mk_capsule_ok {
  cok_version : cp_version c = CAPSULE_PILL_VERSION;
  cok_class : cp_action_class c ≠ CAPSULE_PILL_ACTION_UNKNOWN;
  cok_reserved0 : cp_reserved0 c = 0;
  cok_reserved1 : Forall (fun b => b = 0) (cp_reserved1 c);
  cok_issued : cp_issued_ms c ≠ 0;
  cok_order : cp_issued_ms c < cp_expires_ms c;
  cok_fresh : now = 0 ∨ now ≤ cp_expires_ms c;
  cok_nonce : ¬ Forall (fun b => b = 0) (cp_nonce c);
  cok_key : ¬ Forall (fun b => b = 0) (cp_issuer_key_id c);
  cok_hash : ¬ Forall (fun b => b = 0) (cp_active_hash c);
  cok_alg : cp_signature_alg c = CAPSULE_PILL_SIGNATURE_ECDSA_SHA256_DER;
  cok_siglen : cp_signature_len c ≠ 0 ∧ cp_signature_len c ≤ 96;
  cok_signature : ¬ Forall (fun b => b = 0) (signature_of c)
}.

Lemma bytes_nonzero_spec l : bytes_all_zero (Some l) = false ↔ ¬ Forall (fun b => b = 0) l.
Proof. rewrite <- bytes_all_zero_spec. destruct (bytes_all_zero _); naive_solver. Qed.

Lemma validate_basic_ok c now :
  capsule_pill_validate_basic (Some c) now = ESP_OK ↔ capsule_ok c now.
Proof.
  unfold capsule_pill_validate_basic. split.
  - repeat (case_match; [done|]). bools. intros _.
    constructor; try done; try lia; try (by apply bytes_nonzero_spec);
      try (by apply bytes_all_zero_spec).
  - intros [Hv Hc H0 H1 Hi Ho Hf Hn Hk Hh Ha [Hl1 Hl2] Hs].
    change (take (Z.to_nat (cp_signature_len c)) (cp_signature c)) with (signature_of c).
    rewrite (proj2 (Z.eqb_eq _ _) Hv), (proj2 (Z.eqb_neq _ _) Hc),
      (proj2 (Z.eqb_eq _ _) H0), (proj2 (bytes_all_zero_spec _) H1),
      (proj2 (Z.eqb_neq _ _) Hi), (proj2 (Z.leb_gt _ _) Ho),
      (proj2 (bytes_nonzero_spec _) Hn), (proj2 (bytes_nonzero_spec _) Hk),
      (proj2 (bytes_nonzero_spec _) Hh), (proj2 (Z.eqb_eq _ _) Ha),
      (proj2 (Z.eqb_neq _ _) Hl1), (proj2 (bytes_nonzero_spec _) Hs).
    cbn [negb orb].
    assert (negb (now =? 0) && (cp_expires_ms c <? now) = false) as ->.
    { destruct Hf as [-> | Hf]; [done|]. apply andb_false_iff. right. by apply Z.ltb_ge. }
    change (Z.of_nat CAPSULE_PILL_SIGNATURE_MAX_LEN) with 96.
    by rewrite (proj2 (Z.ltb_ge _ _) Hl2).
Qed.

(** ** The operations on well-formed capsules *)
Lemma configure_ok c0 cls issued expires net non kid c :
  capsule_pill_configure (Some c0) cls issued expires (Some net) (Some non) (Some kid)
    = (ESP_OK, Some c) →
  List.length (cp_network_id c0) = 16%nat → List.length (cp_nonce c0) = 16%nat →
  List.length (cp_issuer_key_id c0) = 16%nat →
  List.length net = 16%nat → List.length non = 16%nat → List.length kid = 16%nat →
  c = mk_capsule_pill CAPSULE_PILL_VERSION 0 (u8 cls) 0 issued expires net non
        (cp_active_hash c0) kid CAPSULE_PILL_SIGNATURE_NONE 0 (zeros 2)
        (zeros CAPSULE_PILL_SIGNATURE_MAX_LEN) ∧
  issued ≠ 0 ∧ issued < expires.
Proof.
  unfold capsule_pill_configure. intros H L1 L2 L3 M1 M2 M3.
  destruct ((issued =? 0) || (expires <=? issued)) eqn:E1; [done|].
  destruct (cls =? CAPSULE_PILL_ACTION_UNKNOWN); [done|].
  apply (f_equal snd) in H. cbn [snd] in H. injection H as <-. bools.
  split; [|by split]. fields. unfold memcpy.
  assert (∀ (d src : bytes), List.length d = 16%nat → List.length src = 16%nat →
            take 16 src ++ drop 16 d = src) as Hcp.
  { intros d src Hd Hs. by rewrite take_ge, drop_ge, app_nil_r by lia. }
  unfold CAPSULE_PILL_NETWORK_ID_LEN, CAPSULE_PILL_NONCE_LEN, CAPSULE_PILL_ISSUER_KEY_ID_LEN.
  by rewrite !Hcp.
Qed.

Lemma set_active_hash_ok c h :
  List.length (cp_active_hash c) = 32%nat → List.length h = 32%nat →
  capsule_pill_set_active_hash (Some c) (Some h) =
  (ESP_OK, Some (c <| cp_active_hash := h |> <| cp_signature_len := 0 |>
                   <| cp_signature := zeros CAPSULE_PILL_SIGNATURE_MAX_LEN |>)).
Proof.
  intros Hc Hh. unfold capsule_pill_set_active_hash. do 2 f_equal. fields.
  unfold memcpy, ACTIVE_SUBSTANCE_HASH_LEN. by rewrite take_ge, drop_ge, app_nil_r by lia.
Qed.

Lemma bind_active_ok `{Md} `{!MdLaws} c s c' :
  List.length (cp_active_hash c) = 32%nat →
  capsule_pill_bind_active (Some c) (Some s) = (ESP_OK, Some c') ↔
  active_substance_validate_envelope (Some s) = ESP_OK ∧
  ∃ h, md_finish (substance_updates md_ctx_empty s) = Some h ∧
       c' = c <| cp_active_hash := h |> <| cp_signature_len := 0 |>
              <| cp_signature := zeros CAPSULE_PILL_SIGNATURE_MAX_LEN |>.
Proof.
  intros Hc. unfold capsule_pill_bind_active, active_substance_hash.
  unfold err_ok, err_eqb. destruct (bool_decide _) eqn:Hv; bools; cbn [negb].
  - rewrite Hv. destruct (md_finish _) as [h|] eqn:Eh; cbn [bool_decide negb].
    + pose proof (md_finish_length _ _ Eh) as Hh.
      rewrite bool_decide_eq_true_2 by done. cbn [negb].
      rewrite (set_active_hash_ok c h Hc Hh). split.
      * intros [= <-]. eauto.
      * intros (_ & h' & [= <-] & ->). done.
    + split; [by rewrite bool_decide_eq_false_2 | by intros (_ & h & ? & _)].
  - rewrite bool_decide_eq_false_2 by done. cbn [negb].
    split; [by intros [= ? ?] | by intros [? _]].
Qed.

Lemma matches_active_ok `{Md} `{!MdLaws} c s :
  List.length (cp_active_hash c) = 32%nat →
  capsule_pill_matches_active (Some c) (Some s) = true ↔
  active_substance_validate_envelope (Some s) = ESP_OK ∧
  md_finish (substance_updates md_ctx_empty s) = Some (cp_active_hash c).
Proof.
  intros Hc. unfold capsule_pill_matches_active, active_substance_hash.
  unfold err_ok, err_eqb. destruct (bool_decide _) eqn:Hv; bools; cbn [negb].
  - rewrite Hv. destruct (md_finish _) as [h|] eqn:Eh.
    + pose proof (md_finish_length _ _ Eh) as Hh.
      rewrite bool_decide_eq_true_2 by done. cbn [negb capsule_pill_constant_time_equal].
      rewrite (constant_time_equal_spec _ _ ACTIVE_SUBSTANCE_HASH_LEN Hc Hh). naive_solver.
    + rewrite bool_decide_eq_false_2 by done. naive_solver.
  - rewrite bool_decide_eq_false_2 by done. naive_solver.
Qed.

Lemma verify_ok `{Md} `{Pk} c key len :
  capsule_pill_verify_asymmetric (Some c) (Some key) len = true ↔
  len ≠ O ∧ capsule_ok c 0 ∧
  ∃ h pk, md_finish (signed_bytes c) = Some h ∧
          mbedtls_pk_parse_public_key (take len key) = Some pk ∧
          pk_can_do_ecdsa_sha256 pk = true ∧ mbedtls_pk_verify pk h (signature_of c) = true.
Proof.
  unfold capsule_pill_verify_asymmetric.
  destruct (len =? 0)%nat eqn:E0; [apply Nat.eqb_eq in E0; naive_solver|].
  apply Nat.eqb_neq in E0.
  unfold err_ok, err_eqb. destruct (bool_decide _) eqn:Hv; bools; cbn [negb].
  2: { split; [done|]. intros (_ & Hok & _). by apply validate_basic_ok in Hok. }
  pose proof (proj1 (validate_basic_ok _ _) Hv) as Hok.
  destruct (capsule_compute_signed_hash _ _) as [err o] eqn:Eh.
  case_bool_decide as He.
  - subst err. apply compute_signed_hash_ok in Eh as (h & Eh & ->).
    rewrite Eh. change (take (Z.to_nat (cp_signature_len c)) (cp_signature c)) with (signature_of c).
    destruct (mbedtls_pk_parse_public_key _) as [pk|]; [|naive_solver].
    destruct (pk_can_do_ecdsa_sha256 pk) eqn:Ec; cbn [negb]; [|naive_solver].
    split; [intros Ht; eauto 10 | naive_solver].
  - split; [done|]. intros (_ & _ & h & pk & Hm & _). destruct He.
    assert (capsule_compute_signed_hash (Some c) (Some (zeros CAPSULE_PILL_DIGEST_LEN))
      = (ESP_OK, Some h)) as E by (apply compute_signed_hash_ok; eauto).
    rewrite Eh in E. by injection E.
Qed.

(** The capsule that the issuing steps build, written out. *)
Lemma issued_capsule `{Md} `{!MdLaws} c0 c1 c2 c3 c4 s cls issued expires net non kid buf d sig :
  capsule_wf c0 → 1 ≤ cls ≤ 255 →
  List.length net = 16%nat → List.length non = 16%nat → List.length kid = 16%nat →
  capsule_pill_configure (Some c0) cls issued expires (Some net) (Some non) (Some kid)
    = (ESP_OK, Some c1) →
  capsule_pill_bind_active (Some c1) (Some s) = (ESP_OK, Some c2) →
  capsule_pill_set_signature_alg (Some c2) CAPSULE_PILL_SIGNATURE_ECDSA_SHA256_DER
    = (ESP_OK, Some c3) →
  capsule_pill_compute_signing_digest (Some c3) (Some buf) = (ESP_OK, Some d) →
  capsule_pill_set_signature (Some c3) CAPSULE_PILL_SIGNATURE_ECDSA_SHA256_DER
    (Some sig) (List.length sig) = (ESP_OK, Some c4) →
  c4 = mk_capsule_pill CAPSULE_PILL_VERSION 0 cls 0 issued expires net non
         (cp_active_hash c2) kid CAPSULE_PILL_SIGNATURE_ECDSA_SHA256_DER
         (Z.of_nat (List.length sig)) (zeros 2)
         (memcpy (zeros CAPSULE_PILL_SIGNATURE_MAX_LEN) sig (List.length sig)) ∧
  (issued ≠ 0 ∧ issued < expires) ∧ (1 ≤ List.length sig ≤ 96)%nat ∧
  active_substance_validate_envelope (Some s) = ESP_OK ∧
  md_finish (substance_updates md_ctx_empty s) = Some (cp_active_hash c2) ∧
  md_finish (signed_bytes c4) = Some d.
Proof.
  intros [_ _ Wn Wo Wh Wk _ _] Hcls L1 L2 L3 H1 H2 H3 H4 H5.
  destruct (configure_ok _ _ _ _ _ _ _ _ H1 Wn Wo Wk L1 L2 L3) as (E1 & Hi & Hlt).
  rewrite u8_small in E1 by (unfold is_u8; lia).
  apply bind_active_ok in H2 as (Hv & h & Eh & E2); [|by rewrite E1].
  rewrite E1 in E2. clear H1 E1.
  revert E2. fields. intros E2.
  unfold capsule_pill_set_signature_alg in H3. cbn [Z.eqb negb] in H3.
  apply (f_equal snd) in H3. cbn [snd] in H3. injection H3 as E3.
  unfold capsule_pill_set_signature in H5.
  destruct (List.length sig =? 0)%nat eqn:S0; [done|].
  destruct (CAPSULE_PILL_SIGNATURE_MAX_LEN <? List.length sig)%nat eqn:S1; [done|].
  apply Nat.eqb_neq in S0. apply Nat.ltb_ge in S1. unfold CAPSULE_PILL_SIGNATURE_MAX_LEN in S1.
  apply (f_equal snd) in H5. cbn [snd orb negb] in H5. injection H5 as E5.
  rewrite E2 in E3. revert E3. fields. intros <-. revert E5. fields. intros <-.
  rewrite E2. cbn [cp_active_hash].
  rewrite !u8_small by (unfold is_u8, CAPSULE_PILL_SIGNATURE_ECDSA_SHA256_DER; lia).
  split; [done|]. split; [done|]. split; [lia|]. split; [done|]. split; [done|].
  unfold capsule_pill_compute_signing_digest in H4. cbn [cp_signature_alg] in H4.
  apply compute_signed_hash_ok in H4 as (h' & Eh' & [= <-]). exact Eh'.
Qed.

(** ** Properties *)

(** C23: a capsule issued by the steps the firmware offers is accepted: after
    configure, bind_active, set_signature_alg, the signing digest and
    set_signature with a signature the issuer's key verifies over that digest,
    the capsule verifies under the key, matches the active substance it was
    bound to, and passes the basic checks until it expires (and whenever the
    clock is 0, which skips the expiry test). *)
Theorem capsule_pill_issued_verifies `{Md} `{!MdLaws} `{Pk} c0 c1 c2 c3 c4 s cls issued expires
    net non kid buf d sig key pk now :
  capsule_wf c0 → 1 ≤ cls ≤ 255 →
  List.length net = 16%nat → List.length non = 16%nat → List.length kid = 16%nat →
  capsule_pill_configure (Some c0) cls issued expires (Some net) (Some non) (Some kid)
    = (ESP_OK, Some c1) →
  capsule_pill_bind_active (Some c1) (Some s) = (ESP_OK, Some c2) →
  capsule_pill_set_signature_alg (Some c2) CAPSULE_PILL_SIGNATURE_ECDSA_SHA256_DER
    = (ESP_OK, Some c3) →
  capsule_pill_compute_signing_digest (Some c3) (Some buf) = (ESP_OK, Some d) →
  capsule_pill_set_signature (Some c3) CAPSULE_PILL_SIGNATURE_ECDSA_SHA256_DER
    (Some sig) (List.length sig) = (ESP_OK, Some c4) →
  ¬ Forall (fun b => b = 0) non → ¬ Forall (fun b => b = 0) kid →
  ¬ Forall (fun b => b = 0) (cp_active_hash c2) → ¬ Forall (fun b => b = 0) sig →
  key ≠ [] → mbedtls_pk_parse_public_key key = Some pk → pk_can_do_ecdsa_sha256 pk = true →
  mbedtls_pk_verify pk d sig = true →
  capsule_pill_verify_asymmetric (Some c4) (Some key) (List.length key) = true ∧
  capsule_pill_matches_active (Some c4) (Some s) = true ∧
  (capsule_pill_validate_basic (Some c4) now = ESP_OK ↔ now = 0 ∨ now ≤ expires).
Proof.
  intros Hwf Hcls L1 L2 L3 G1 G2 G3 G4 G5 Z1 Z2 Z3 Z4 Hkey Hpk Hcan Hver.
  destruct (issued_capsule _ _ _ _ _ _ _ _ _ _ _ _ _ _ _ Hwf Hcls L1 L2 L3 G1 G2 G3 G4 G5)
    as (E4 & [Hi Hlt] & Hs & Hv & Hh & Hd).
  assert (signature_of c4 = sig) as Hsig.
  { rewrite E4. unfold signature_of. cbn [cp_signature cp_signature_len].
    by rewrite Nat2Z.id, take_memcpy, firstn_all. }
  assert (∀ t, (t = 0 ∨ t ≤ expires) ↔ capsule_ok c4 t) as Hok.
  { rewrite <- Hsig in Z4. intros t. split.
    - intros Ht. assert (Forall (fun b => b = 0) (zeros 2)) as Hz by (by repeat constructor).
      constructor; try exact Z4; rewrite E4; cbn [cp_version cp_action_class cp_reserved0
        cp_reserved1 cp_issued_ms cp_expires_ms cp_nonce cp_issuer_key_id cp_active_hash
        cp_signature_alg cp_signature_len]; try done.
      + unfold CAPSULE_PILL_ACTION_UNKNOWN. lia.
      + lia.
    - intros [_ _ _ _ _ _ Hf _ _ _ _ _ _]. by rewrite E4 in Hf. }
  split; [|split].
  - apply verify_ok. rewrite firstn_all, Hsig. split; [by destruct key|].
    split; [apply Hok; by left|]. eauto 10.
  - apply matches_active_ok; [|split; [done|]]; rewrite E4; cbn [cp_active_hash]; [|done].
    exact (md_finish_length _ _ Hh).
  - by rewrite validate_basic_ok, Hok.
Qed.

(** C12: a signature covers every field of the capsule but itself.  Whatever
    capsules the issuer has signed, a capsule that verifies under its key has the
    fields of one of them, the hash of the active substance included, unless it
    gives a SHA-256 collision with one of them or a forgery: a signature that the
    library accepts under the key for a digest the issuer never signed.  Nothing
    is assumed of the signature scheme. *)
Theorem capsule_pill_signature_covers `{Md} `{Pk} c (issued : list (capsule_pill * bytes)) buf key :
  capsule_wf c →
  Forall (λ '(d, h), capsule_wf d ∧
    capsule_pill_compute_signing_digest (Some d) (Some buf) = (ESP_OK, Some h)) issued →
  capsule_pill_verify_asymmetric (Some c) (Some key) (List.length key) = true →
  (∃ d h, (d, h) ∈ issued ∧ (same_signed c d ∨ collision (signed_bytes c) (signed_bytes d))) ∨
  (∃ pk h, mbedtls_pk_parse_public_key key = Some pk ∧ md_finish (signed_bytes c) = Some h ∧
     h ∉ issued.*2 ∧ mbedtls_pk_verify pk h (signature_of c) = true).
Proof.
  intros Hc Hsign (_ & _ & h & pk & Hh & Hpk & _ & Hv)%verify_ok. rewrite firstn_all in Hpk.
  destruct (decide (h ∈ issued.*2)) as [Hin|Hin]; [left | right; eauto 10].
  apply list_elem_of_fmap in Hin as ([d h'] & -> & Hin). exists d, h'. split; [done|].
  rewrite Forall_forall in Hsign. destruct (Hsign _ Hin) as [Hd Hs].
  unfold capsule_pill_compute_signing_digest in Hs. case_match; [done|].
  apply compute_signed_hash_ok in Hs as (h2 & Hh2 & [= ->]).
  destruct (equal_or_collision _ _ _ Hh Hh2) as [E|E]; [left | by right].
  apply (signed_bytes_inj c d [] []); [done | done | by rewrite E].
Qed.

(** C24: the replay digest identifies a capsule: two capsules that pass the
    basic checks have the same digest exactly when they are the same capsule,
    whatever their signature buffers hold past the signature, except for a
    SHA-256 collision. *)
Theorem capsule_pill_digest_identifies `{Md} c d now now' buf buf' h h' :
  capsule_wf c → capsule_wf d →
  capsule_pill_validate_basic (Some c) now = ESP_OK →
  capsule_pill_validate_basic (Some d) now' = ESP_OK →
  capsule_pill_compute_digest (Some c) (Some buf) = (ESP_OK, Some h) →
  capsule_pill_compute_digest (Some d) (Some buf') = (ESP_OK, Some h') →
  (same_capsule c d → h = h') ∧
  (h = h' → same_capsule c d ∨ collision (digest_bytes c) (digest_bytes d)).
Proof.
  intros Wc Wd Hc%validate_basic_ok Hd%validate_basic_ok
    (hc & Ec & [= ->])%compute_digest_ok (hd & Ed & [= ->])%compute_digest_ok.
  split.
  - intros Hs. assert (digest_bytes c = digest_bytes d) as E.
    { assert (∀ x, digest_bytes x = digest_bytes (x <| cp_signature := signature_of x |>)) as Hx.
      { intros x. unfold digest_bytes, signed_bytes, signature_of. fields. by rewrite take_idemp. }
      rewrite (Hx c), (Hx d). by rewrite Hs. }
    rewrite E in Ec. congruence.
  - intros ->. destruct (equal_or_collision _ _ _ Ec Ed) as [E|E]; [left | by right].
    apply signed_bytes_inj in E as [(E1 & E2 & E3 & E4 & E5 & E6 & E7 & E8 & E9 & E10 & E11) E];
      [|done|done].
    injection E as El Es.
    assert (cp_reserved1 c = cp_reserved1 d) as Er.
    { rewrite (proj1 (all_zero_iff _) (cok_reserved1 _ _ Hc)),
        (proj1 (all_zero_iff _) (cok_reserved1 _ _ Hd)).
      by rewrite (cwf_reserved1 _ Wc), (cwf_reserved1 _ Wd). }
    unfold same_capsule. destruct c, d; cbn [cp_version cp_flags cp_action_class cp_reserved0
      cp_issued_ms cp_expires_ms cp_network_id cp_nonce cp_active_hash cp_issuer_key_id
      cp_signature_alg cp_signature_len cp_reserved1] in *. fields. rewrite Es. f_equal; assumption.
Qed.

(** A bound capsule matches its active substance and, short of a SHA-256
    collision, no other: whatever envelope is presented with a bound capsule,
    it matches exactly when it is the bound one, up to bytes past the
    ciphertext. *)
Theorem capsule_pill_binds_active `{Md} `{!MdLaws} c c' s t :
  capsule_wf c → substance_wf s → substance_wf t →
  capsule_pill_bind_active (Some c) (Some s) = (ESP_OK, Some c') →
  (same_envelope s t → capsule_pill_matches_active (Some c') (Some t) = true) ∧
  (capsule_pill_matches_active (Some c') (Some t) = true →
   same_envelope s t ∨
   collision (substance_updates md_ctx_empty s) (substance_updates md_ctx_empty t)).
Proof.
  intros Wc Ws Wt Hb. apply bind_active_ok in Hb as (Hv & h & Hh & ->); [|apply Wc].
  rewrite matches_active_ok by exact (md_finish_length _ _ Hh). cbn [cp_active_hash].
  split.
  - intros (E1 & E2 & E3 & E4 & E5 & E6). split.
    + apply validate_envelope_ok. apply validate_envelope_ok in Hv. by rewrite <- E1, <- E2, <- E3.
    + rewrite substance_updates_eq in *. by rewrite <- E1, <- E2, <- E3, <- E4, <- E5, <- E6.
  - intros [_ Ht]. destruct (equal_or_collision _ _ _ Hh Ht) as [E|E]; [left | by right].
    by apply substance_updates_inj.
Qed.

(** ** Witnesses *)
Definition witness_substance : active_substance :=
  mk_active_substance 2 ACTIVE_SUBSTANCE_CIPHER_AES_256_GCM 3 (lit "nonce-nonce-") (lit "tag-tag-tag-tag-")
    (memcpy (zeros 256) [7; 8; 9] 3).
Definition witness_key : bytes := [1; 2; 3; 4].
Definition witness_net : bytes := lit "network-network-".
Definition witness_nonce : bytes := lit "capsule-capsule-".
Definition witness_kid : bytes := lit "issuer--issuer--".

(** Runs an operation of the capsule on a capsule it accepts. *)
Definition done_with (r : esp_err * option capsule_pill) : capsule_pill :=
  default capsule_zero r.2.
Definition witness_c1 : capsule_pill :=
  done_with (capsule_pill_configure (Some capsule_zero) CAPSULE_PILL_ACTION_MQTT 1000 9000
    (Some witness_net) (Some witness_nonce) (Some witness_kid)).
Definition witness_c2 : capsule_pill :=
  done_with (capsule_pill_bind_active (Some witness_c1) (Some witness_substance)).
Definition witness_c3 : capsule_pill := done_with (capsule_pill_set_signature_alg (Some witness_c2) 1).
Definition witness_digest : bytes := toy_digest (signed_bytes witness_c3).
Definition witness_sig : bytes := witness_key ++ witness_digest.
Definition witness_c4 : capsule_pill :=
  done_with (capsule_pill_set_signature (Some witness_c3) 1 (Some witness_sig) 36).

Lemma some_nonzero l : bytes_all_zero (Some l) = false → ¬ Forall (fun b => b = 0) l.
Proof. apply bytes_nonzero_spec. Qed.

Lemma capsule_zero_wf : capsule_wf capsule_zero.
Proof. constructor; vm_compute; repeat split; discriminate. Qed.
Lemma witness_c4_wf : capsule_wf witness_c4.
Proof. constructor; vm_compute; repeat split; discriminate. Qed.
Lemma witness_substance_wf : substance_wf witness_substance.
Proof. constructor; vm_compute; repeat split; discriminate. Qed.

Lemma capsule_pill_issued_verifies_witness :
  capsule_pill_verify_asymmetric (Some witness_c4) (Some witness_key) 4 = true ∧
  capsule_pill_matches_active (Some witness_c4) (Some witness_substance) = true ∧
  (capsule_pill_validate_basic (Some witness_c4) 9001 = ESP_OK ↔ 9001 = 0 ∨ 9001 ≤ 9000).
Proof.
  apply (capsule_pill_issued_verifies capsule_zero witness_c1 witness_c2 witness_c3 witness_c4
    witness_substance CAPSULE_PILL_ACTION_MQTT 1000 9000 witness_net witness_nonce witness_kid
    (zeros 32) witness_digest witness_sig witness_key (witness_key : @pk_context toy_pk) 9001).
  - exact capsule_zero_wf.
  - vm_compute; split; discriminate.
  - reflexivity.
  - reflexivity.
  - reflexivity.
  - vm_compute; reflexivity.
  - vm_compute; reflexivity.
  - vm_compute; reflexivity.
  - vm_compute; reflexivity.
  - vm_compute; reflexivity.
  - apply some_nonzero; vm_compute; reflexivity.
  - apply some_nonzero; vm_compute; reflexivity.
  - apply some_nonzero; vm_compute; reflexivity.
  - apply some_nonzero; vm_compute; reflexivity.
  - discriminate.
  - reflexivity.
  - reflexivity.
  - vm_compute; reflexivity.
Defined.

Lemma capsule_pill_signature_covers_witness :
  (∃ d h, (d, h) ∈ [(witness_c3, witness_digest)] ∧
     (same_signed witness_c4 d ∨ collision (signed_bytes witness_c4) (signed_bytes d))) ∨
  (∃ pk h, mbedtls_pk_parse_public_key witness_key = Some pk ∧ md_finish (signed_bytes witness_c4) = Some h ∧
     h ∉ [(witness_c3, witness_digest)].*2 ∧ mbedtls_pk_verify pk h (signature_of witness_c4) = true).
Proof.
  apply (capsule_pill_signature_covers witness_c4 [(witness_c3, witness_digest)] (zeros 32) witness_key).
  - exact witness_c4_wf.
  - constructor; [|constructor]. split; [|vm_compute; reflexivity].
    constructor; vm_compute; repeat split; discriminate.
  - vm_compute; reflexivity.
Defined.

(** [witness_c4] with a byte changed past its 36-byte signature. *)
Definition witness_c4' : capsule_pill :=
  witness_c4 <| cp_signature ::= fun l => <[90%nat := 1]> l |>.

Lemma capsule_pill_digest_identifies_witness :
  toy_digest (digest_bytes witness_c4) = toy_digest (digest_bytes witness_c4').
Proof.
  refine (proj1 (capsule_pill_digest_identifies witness_c4 witness_c4' 1 1 (zeros 32) (zeros 32)
    (toy_digest (digest_bytes witness_c4)) (toy_digest (digest_bytes witness_c4'))
    _ _ _ _ _ _) _).
  - exact witness_c4_wf.
  - constructor; vm_compute; repeat split; discriminate.
  - vm_compute; reflexivity.
  - vm_compute; reflexivity.
  - vm_compute; reflexivity.
  - vm_compute; reflexivity.
  - vm_compute; reflexivity.
Defined.

Lemma capsule_pill_binds_active_witness :
  capsule_pill_matches_active (Some witness_c2) (Some witness_substance) = true.
Proof.
  refine (proj1 (capsule_pill_binds_active witness_c1 witness_c2 witness_substance
                   witness_substance _ _ _ _) _).
  - constructor; vm_compute; repeat split; discriminate.
  - exact witness_substance_wf.
  - exact witness_substance_wf.
  - vm_compute; reflexivity.
  - repeat split.
Defined.
