(* ===== verification/Active_enzyme.v ===== *)
(** * Active enzyme: opening an active substance with a device secret

    [action_pill/active_substance/active_enzyme.c].  The AEAD key is one HKDF
    block over the device secret, with the epoch and the envelope's nonce in
    the salt and its version and cipher in the info string; the ciphertext and
    tag are then opened with AES-GCM.  HMAC and GCM are the [Psa] interface.
    Output buffers are passed in and returned; stack buffers that the code
    wipes before it returns are local values. *)

From S2P Require Import Prelude Bytes Crypto Amino_acids Active_substance.

Definition ACTIVE_ENZYME_HKDF_DIGEST_LEN : nat := 32.
Definition ACTIVE_ENZYME_DEVICE_SECRET_LEN : nat := 32.
Definition ACTIVE_ENZYME_AES_128_KEY_LEN : nat := 16.
Definition ACTIVE_ENZYME_AES_256_KEY_LEN : nat := 32.
Definition ACTIVE_ENZYME_KEY_MAX_LEN : nat := ACTIVE_ENZYME_AES_256_KEY_LEN.

Definition k_hkdf_salt_prefix : bytes := lit "BlindNet active enzyme salt v1".
Definition k_hkdf_info_prefix : bytes := lit "BlindNet active substance decrypt key v1".

Definition write_u32_le (value : Z) : bytes := le32 value.

(** The status and [*out_key_len]. *)
Definition select_key_len (s : active_substance) (out_key_len : nat) : esp_err * nat :=
  if as_cipher s =? ACTIVE_SUBSTANCE_CIPHER_AES_128_GCM then (ESP_OK, ACTIVE_ENZYME_AES_128_KEY_LEN)
  else if as_cipher s =? ACTIVE_SUBSTANCE_CIPHER_AES_256_GCM
  then (ESP_OK, ACTIVE_ENZYME_AES_256_KEY_LEN)
  else (ESP_ERR_NOT_SUPPORTED, out_key_len).

(** ** Key derivation *)
(** An empty part stands for a null pointer with length 0. *)
Definition hmac_sha256 `{Psa} (key part1 part2 out : bytes) : esp_err * bytes :=
  if (List.length key =? 0)%nat then (ESP_ERR_INVALID_ARG, out)
  else
    match psa_hmac_sha256 key (part1 ++ part2) with
    | Some mac =>
      if (List.length mac =? ACTIVE_ENZYME_HKDF_DIGEST_LEN)%nat then (ESP_OK, mac) else (ESP_FAIL, out)
    | None => (ESP_FAIL, out)
    end.

Definition hkdf_sha256_one_block `{Psa} (ikm salt info out_key : bytes) (out_key_len : nat) :
    esp_err * bytes :=
  if (List.length ikm =? 0)%nat || (List.length salt =? 0)%nat || (List.length info =? 0)%nat ||
     (out_key_len =? 0)%nat || (ACTIVE_ENZYME_HKDF_DIGEST_LEN <? out_key_len)%nat
  then (ESP_ERR_INVALID_ARG, out_key)
  else
    let prk := zeros ACTIVE_ENZYME_HKDF_DIGEST_LEN in
    let t1 := zeros ACTIVE_ENZYME_HKDF_DIGEST_LEN in
    let '(err, prk) := hmac_sha256 salt ikm [] prk in
    if negb (err_ok err) then (err, out_key)
    else
      let '(err, t1) := hmac_sha256 prk info [1] t1 in
      (err, if err_ok err then memcpy out_key t1 out_key_len else out_key).

Definition derive_salt (s : active_substance) (epoch : Z) : bytes :=
  k_hkdf_salt_prefix ++ write_u32_le epoch ++ take ACTIVE_SUBSTANCE_NONCE_LEN (as_nonce s).
Definition derive_info (s : active_substance) : bytes :=
  k_hkdf_info_prefix ++ [as_version s; as_cipher s].

(** The status, [out_key] and [*out_key_len]. *)
Definition derive_aead_key `{Psa} (s : active_substance) (device_secret : bytes) (epoch : Z)
    (out_key : bytes) (out_key_len : nat) : esp_err * bytes * nat :=
  let '(err, key_len) := select_key_len s out_key_len in
  if negb (err_ok err) then (err, out_key, key_len)
  else
    let salt := derive_salt s epoch in
    let info := derive_info s in
    let '(err, key) :=
      hkdf_sha256_one_block (take ACTIVE_ENZYME_DEVICE_SECRET_LEN device_secret) salt info
        out_key key_len in
    (err, key, key_len).

(** ** Decryption *)
Definition decrypt_aes_gcm `{Psa} (s : active_substance) (key : bytes) (key_len : nat)
    (aad out_plaintext : bytes) : esp_err * bytes :=
  let len := Z.to_nat (as_ciphertext_len s) in
  let sealed := take len (as_ciphertext s) ++ take ACTIVE_SUBSTANCE_TAG_LEN (as_tag s) in
  let '(status, written, plaintext_len) :=
    psa_aead_decrypt (take key_len key) (as_nonce s) aad sealed len in
  let out := memcpy out_plaintext written (List.length written) in
  match status with
  | PSA_SUCCESS =>
    if (plaintext_len =? len)%nat then (ESP_OK, out) else (ESP_FAIL, out)
  | PSA_ERROR_INVALID_SIGNATURE => (ESP_ERR_INVALID_STATE, out)
  | PSA_ERROR_OTHER => (ESP_FAIL, out)
  end.

(** The function past its null-pointer checks.  The status, the contents of
    [out_plaintext] and [*out_plaintext_len]; the size of the output buffer is
    the length of the list. *)
Definition active_enzyme_open `{Psa} (s : active_substance) (device_secret : bytes) (epoch : Z)
    (aad out_plaintext : bytes) : esp_err * option bytes * option nat :=
  if bytes_all_zero (Some (take ACTIVE_ENZYME_DEVICE_SECRET_LEN device_secret))
  then (ESP_ERR_INVALID_ARG, Some out_plaintext, Some O)
  else
    let err := active_substance_validate_envelope (Some s) in
    if negb (err_ok err) then (err, Some out_plaintext, Some O)
    else if Z.of_nat (List.length out_plaintext) <? as_ciphertext_len s
    then (ESP_ERR_INVALID_SIZE, Some out_plaintext, Some O)
    else
      let '(err, key, key_len) :=
        derive_aead_key s device_secret epoch (zeros ACTIVE_ENZYME_KEY_MAX_LEN) O in
      let '(err, out) :=
        if err_ok err then decrypt_aes_gcm s key key_len aad out_plaintext
        else (err, out_plaintext) in
      if negb (err_ok err) then (err, Some (zeros (List.length out)), Some O)
      else (ESP_OK, Some out, Some (Z.to_nat (as_ciphertext_len s))).

Definition active_enzyme_decrypt_with_secret `{Psa} (substance : option active_substance)
    (device_secret : option bytes) (epoch : Z) (aad : option bytes) (aad_len : nat)
    (out_plaintext : option bytes) (out_plaintext_len : option nat) :
    esp_err * option bytes * option nat :=
  let out_len := match out_plaintext_len with Some _ => Some O | None => None end in
  match substance, device_secret, out_plaintext, out_plaintext_len with
  | Some s, Some secret, Some out, Some _ =>
    match aad with
    | Some a => active_enzyme_open s secret epoch (take aad_len a) out
    | None =>
      if negb (aad_len =? 0)%nat then (ESP_ERR_INVALID_ARG, out_plaintext, out_len)
      else active_enzyme_open s secret epoch [] out
    end
  | _, _, _, _ => (ESP_ERR_INVALID_ARG, out_plaintext, out_len)
  end.

(** ** Specification *)
(** HKDF-SHA256 of one block. *)
Definition hkdf `{Psa} (ikm salt info : bytes) (n : nat) : option bytes :=
  prk ← psa_hmac_sha256 salt ikm; t ← psa_hmac_sha256 prk (info ++ [1]); Some (take n t).

(** The AES key of an envelope, for the ciphers that are AES. *)
Definition enzyme_key `{Psa} (s : active_substance) (secret : bytes) (epoch : Z) : option bytes :=
  if as_cipher s =? ACTIVE_SUBSTANCE_CIPHER_AES_128_GCM
  then hkdf secret (derive_salt s epoch) (derive_info s) ACTIVE_ENZYME_AES_128_KEY_LEN
  else if as_cipher s =? ACTIVE_SUBSTANCE_CIPHER_AES_256_GCM
  then hkdf secret (derive_salt s epoch) (derive_info s) ACTIVE_ENZYME_AES_256_KEY_LEN
  else None.

(** The call gets past its argument checks. *)
Definition arguments_ok (s : active_substance) (secret out : bytes) : Prop :=
  ¬ Forall (fun b => b = 0) secret ∧
  active_substance_validate_envelope (Some s) = ESP_OK ∧
  as_ciphertext_len s ≤ Z.of_nat (List.length out).

(** ** Key derivation *)
Section enzyme.
Context `{Psa} `{!PsaLaws}.

Lemma hmac_sha256_eq key part1 part2 out :
  key ≠ [] →
  hmac_sha256 key part1 part2 out =
  match psa_hmac_sha256 key (part1 ++ part2) with
  | Some mac => (ESP_OK, mac)
  | None => (ESP_FAIL, out)
  end.
Proof.
  intros Hk. unfold hmac_sha256. destruct key; [done|]. cbn [List.length Nat.eqb].
  destruct (psa_hmac_sha256 _ _) as [mac|] eqn:E; [|done].
  by rewrite (hmac_length _ _ _ E).
Qed.

Lemma hkdf_one_block_eq ikm salt info out n :
  ikm ≠ [] → salt ≠ [] → info ≠ [] → (1 ≤ n ≤ 32)%nat → List.length out = 32%nat →
  ∃ err key, hkdf_sha256_one_block ikm salt info out n = (err, key) ∧
    match hkdf ikm salt info n with
    | Some k => err = ESP_OK ∧ take n key = k
    | None => err = ESP_FAIL
    end.
Proof.
  intros Hi Hs Hf [Hn1 Hn2] Ho. unfold hkdf_sha256_one_block.
  destruct ikm as [|i0 ikm]; [done|]. destruct salt as [|s0 salt]; [done|].
  destruct info as [|f0 info]; [done|]. cbn [List.length Nat.eqb orb].
  destruct (n =? 0)%nat eqn:E0; [apply Nat.eqb_eq in E0; lia|].
  destruct (ACTIVE_ENZYME_HKDF_DIGEST_LEN <? n)%nat eqn:E1.
  { apply Nat.ltb_lt in E1. unfold ACTIVE_ENZYME_HKDF_DIGEST_LEN in E1. lia. }
  cbn [orb]. cbv zeta. rewrite hmac_sha256_eq by done. rewrite app_nil_r. unfold hkdf.
  destruct (psa_hmac_sha256 (s0 :: salt) (i0 :: ikm)) as [prk|] eqn:Ep; cbn [mbind option_bind].
  2: { unfold err_ok, err_eqb. rewrite bool_decide_eq_false_2 by done. cbn [negb]. eauto. }
  unfold err_ok, err_eqb. rewrite bool_decide_eq_true_2 by done. cbn [negb].
  assert (prk ≠ []) as Hp by (apply hmac_length in Ep; by destruct prk).
  rewrite hmac_sha256_eq by done.
  destruct (psa_hmac_sha256 prk _) as [t|] eqn:Et; cbn [mbind option_bind].
  - rewrite bool_decide_eq_true_2 by done. eexists _, _. split; [done|]. split; [done|].
    apply hmac_length in Et. apply take_memcpy. unfold SHA256_LEN in Et. lia.
  - rewrite bool_decide_eq_false_2 by done. eexists _, _. done.
Qed.

Lemma derive_aead_key_eq s secret epoch :
  List.length secret = 32%nat → 
  ∃ err key n, derive_aead_key s secret epoch (zeros ACTIVE_ENZYME_KEY_MAX_LEN) O = (err, key, n) ∧
    match enzyme_key s secret epoch with
    | Some k => err = ESP_OK ∧ take n key = k
    | None => err ≠ ESP_OK
    end.
Proof.
  intros Hl. unfold derive_aead_key, enzyme_key, select_key_len.
  assert (∀ n, (1 ≤ n ≤ 32)%nat → ∃ err key, 
    hkdf_sha256_one_block (take ACTIVE_ENZYME_DEVICE_SECRET_LEN secret) (derive_salt s epoch)
      (derive_info s) (zeros ACTIVE_ENZYME_KEY_MAX_LEN) n = (err, key) ∧
    match hkdf secret (derive_salt s epoch) (derive_info s) n with
    | Some k => err = ESP_OK ∧ take n key = k
    | None => err = ESP_FAIL
    end) as Hk.
  { intros n Hn. unfold ACTIVE_ENZYME_DEVICE_SECRET_LEN. rewrite take_ge by lia.
    apply hkdf_one_block_eq; try done. by intros ->. }
  destruct (as_cipher s =? ACTIVE_SUBSTANCE_CIPHER_AES_128_GCM);
    [|destruct (as_cipher s =? ACTIVE_SUBSTANCE_CIPHER_AES_256_GCM)];
    unfold err_ok, err_eqb.
  - rewrite bool_decide_eq_true_2 by done. cbn [negb]. cbv zeta.
    destruct (Hk ACTIVE_ENZYME_AES_128_KEY_LEN) as (err & key & -> & Hm);
      [unfold ACTIVE_ENZYME_AES_128_KEY_LEN; lia|].
    exists err, key, ACTIVE_ENZYME_AES_128_KEY_LEN. split; [done|].
    destruct (hkdf _ _ _ _); [done | by subst].
  - rewrite bool_decide_eq_true_2 by done. cbn [negb]. cbv zeta.
    destruct (Hk ACTIVE_ENZYME_AES_256_KEY_LEN) as (err & key & -> & Hm);
      [unfold ACTIVE_ENZYME_AES_256_KEY_LEN; lia|].
    exists err, key, ACTIVE_ENZYME_AES_256_KEY_LEN. split; [done|].
    destruct (hkdf _ _ _ _); [done | by subst].
  - rewrite bool_decide_eq_false_2 by done. cbn [negb]. by eexists _, _, _.
Qed.

(** ** Decryption *)
Lemma decrypt_aes_gcm_eq s key n aad out :
  substance_wf s → as_ciphertext_len s ≤ 256 →
  (Z.to_nat (as_ciphertext_len s) ≤ List.length out)%nat →
  ∃ err o, decrypt_aes_gcm s key n aad out = (err, o) ∧ List.length o = List.length out ∧
    (∀ pt, ciphertext_of s ++ as_tag s = aead_seal (take n key) (as_nonce s) aad pt →
       List.length pt = Z.to_nat (as_ciphertext_len s) ∧ err = ESP_OK ∧
       o = pt ++ drop (List.length pt) out) ∧
    (err = ESP_OK →
     ∃ pt, ciphertext_of s ++ as_tag s = aead_seal (take n key) (as_nonce s) aad pt).
Proof.
  intros [_ _ _ _ Ht Hc] Hmax Hlen. unfold decrypt_aes_gcm.
  change (take (Z.to_nat (as_ciphertext_len s)) (as_ciphertext s)) with (ciphertext_of s).
  rewrite (take_ge (as_tag s)) by (rewrite Ht; done).
  set (len := Z.to_nat (as_ciphertext_len s)) in *.
  assert (List.length (ciphertext_of s) = len) as Hct.
  { unfold ciphertext_of. rewrite length_take, Hc. unfold ACTIVE_SUBSTANCE_CIPHERTEXT_MAX_LEN. lia. }
  destruct (psa_aead_decrypt _ _ _ _ _) as [[st w] pl] eqn:E.
  pose proof (aead_written_fits _ _ _ _ _ _ _ _ E) as Hw.
  assert (List.length (memcpy out w (List.length w)) = List.length out) as Hl
    by (apply length_memcpy; lia).
  assert (∀ pt, ciphertext_of s ++ as_tag s = aead_seal (take n key) (as_nonce s) aad pt →
            List.length pt = len) as Hpt.
  { intros pt Hs. apply (f_equal List.length) in Hs.
    rewrite aead_seal_length, length_app, Hct, Ht in Hs. unfold ACTIVE_SUBSTANCE_TAG_LEN in Hs. lia. }
  assert (st = PSA_SUCCESS →
    ciphertext_of s ++ as_tag s = aead_seal (take n key) (as_nonce s) aad w ∧ pl = len) as Hst.
  { intros ->. apply aead_decrypt_auth in E as [Hs ->]. split; [done | by apply Hpt]. }
  eexists _, (memcpy out w (List.length w)). split; [|split; [done | split]].
  - instantiate (1 := match st with
      | PSA_SUCCESS => ESP_OK
      | PSA_ERROR_INVALID_SIGNATURE => ESP_ERR_INVALID_STATE
      | PSA_ERROR_OTHER => ESP_FAIL end).
    destruct st; try done. destruct (Hst eq_refl) as [_ ->]. by rewrite Nat.eqb_refl.
  - intros pt Hs. pose proof (Hpt pt Hs) as Hp. split; [done|].
    rewrite Hs, aead_decrypt_seal in E by lia. injection E as <- <- <-. split; [done|].
    unfold memcpy. by rewrite firstn_all.
  - destruct st; try done. intros _. eexists. by apply Hst.
Qed.

(** What the call answers, by cases. *)
Lemma active_enzyme_open_eq s secret epoch aad out :
  substance_wf s → List.length secret = ACTIVE_ENZYME_DEVICE_SECRET_LEN →
  ∃ err o n, active_enzyme_open s secret epoch aad out = (err, Some o, Some n) ∧
    ((¬ arguments_ok s secret out ∧ err ≠ ESP_OK ∧ o = out ∧ n = O) ∨
     (arguments_ok s secret out ∧ err ≠ ESP_OK ∧ o = zeros (List.length out) ∧ n = O ∧
      ¬ ∃ key pt, enzyme_key s secret epoch = Some key ∧
          ciphertext_of s ++ as_tag s = aead_seal key (as_nonce s) aad pt) ∨
     (arguments_ok s secret out ∧ err = ESP_OK ∧
      ∃ key pt, enzyme_key s secret epoch = Some key ∧
        ciphertext_of s ++ as_tag s = aead_seal key (as_nonce s) aad pt ∧
        n = List.length pt ∧ o = pt ++ drop (List.length pt) out)).
Proof.
  intros Hwf Hs. unfold active_enzyme_open, arguments_ok.
  rewrite take_ge by lia. setoid_rewrite <- (bytes_all_zero_spec secret).
  destruct (bytes_all_zero (Some secret)) eqn:Ez; [eexists _, _, _; split; [done | left; naive_solver]|].
  unfold err_ok at 1, err_eqb. destruct (bool_decide _) eqn:Ev; bools; cbn [negb].
  2: { eexists _, _, _; split; [done | left; naive_solver]. }
  destruct (Z.of_nat _ <? _) eqn:El; bools.
  { eexists _, _, _; split; [done | left].
    split_and!; [intros (_ & _ & ?); lia | done | done | done]. }
  destruct (derive_aead_key_eq s secret epoch Hs) as (err & key & kn & -> & Hk).
  assert (as_ciphertext_len s ≤ 256) as Hmax
    by (apply validate_envelope_ok in Ev as (_ & _ & _ & Hm); exact Hm).
  unfold err_ok, err_eqb. destruct (bool_decide (err = ESP_OK)) eqn:He; bools.
  - subst err. destruct (enzyme_key s secret epoch) as [k|] eqn:Ek; [|done].
    destruct Hk as [_ <-].
    destruct (decrypt_aes_gcm_eq s key kn aad out Hwf Hmax) as (err & o & -> & Ho & Hd1 & Hd2);
      [lia|].
    destruct (bool_decide (err = ESP_OK)) eqn:He; bools; cbn [negb].
    + subst. destruct (Hd2 eq_refl) as [pt Hpt]. destruct (Hd1 pt Hpt) as (Hl & _ & ->).
      eexists _, _, _; split; [done | right; right]. split; [done|]. split; [done|].
      exists (take kn key), pt. by rewrite Hl.
    + eexists _, _, _; split; [done | right; left]. rewrite Ho. do 4 (split; [done|]).
      intros (? & pt & [= <-] & Hpt). destruct He. by apply (Hd1 pt).
  - rewrite bool_decide_eq_false_2 by done. cbn [negb].
    eexists _, _, _; split; [done | right; left]. do 4 (split; [done|]).
    intros (k & pt & Ek & _). rewrite Ek in Hk. by destruct Hk.
Qed.

Lemma aead_seal_inj k n a p q : aead_seal k n a p = aead_seal k n a q → p = q.
Proof.
  intros E. apply (f_equal List.length) in E as Hl. rewrite !aead_seal_length in Hl.
  pose proof (aead_decrypt_seal k n a p (List.length p) (le_n _)) as Hp.
  rewrite E, aead_decrypt_seal in Hp by lia. by injection Hp.
Qed.
End enzyme.

(** ** Properties *)

(** C13: decryption succeeds exactly when the envelope carries a sealed message
    under the device's key: for the HKDF key of the secret, the epoch, the
    envelope's nonce, version and cipher, the ciphertext and tag are the
    authenticated encryption of some plaintext with the given associated data.
    The plaintext is then at the start of the output buffer, the rest of which
    is untouched, and its length is reported. *)
Theorem active_enzyme_decrypt_exact `{Psa} `{!PsaLaws} s secret epoch aad out len0 out' n :
  substance_wf s → List.length secret = ACTIVE_ENZYME_DEVICE_SECRET_LEN →
  active_enzyme_decrypt_with_secret (Some s) (Some secret) epoch (Some aad) (List.length aad)
    (Some out) (Some len0) = (ESP_OK, out', n) ↔
  arguments_ok s secret out ∧
  ∃ key pt, enzyme_key s secret epoch = Some key ∧
    ciphertext_of s ++ as_tag s = aead_seal key (as_nonce s) aad pt ∧
    out' = Some (pt ++ drop (List.length pt) out) ∧ n = Some (List.length pt).
Proof.
  intros Hwf Hs. unfold active_enzyme_decrypt_with_secret. rewrite firstn_all.
  destruct (active_enzyme_open_eq s secret epoch aad out Hwf Hs)
    as (err & o & m & -> & [(Ha & He & -> & ->) | [(Ha & He & -> & -> & Hno) |
        (Ha & -> & key & pt & Hk & Hpt & -> & ->)]]).
  - naive_solver.
  - naive_solver.
  - split; [intros [= <- <-]; eauto 10|].
    intros (_ & key' & pt' & Hk' & Hpt' & -> & ->). rewrite Hk in Hk'. injection Hk' as <-.
    rewrite Hpt in Hpt'. by apply aead_seal_inj in Hpt' as ->.
Qed.

(** A failed call gives nothing away: whatever the decryption wrote before
    it failed, the whole output buffer is zero and the reported length is 0;
    only a call whose arguments are rejected (no secret, an invalid envelope, a
    buffer too small) leaves the buffer as it was. *)
Theorem active_enzyme_failure_wipes `{Psa} `{!PsaLaws} s secret epoch aad out len0 err out' n :
  substance_wf s → List.length secret = ACTIVE_ENZYME_DEVICE_SECRET_LEN →
  active_enzyme_decrypt_with_secret (Some s) (Some secret) epoch (Some aad) (List.length aad)
    (Some out) (Some len0) = (err, out', n) →
  err ≠ ESP_OK →
  n = Some O ∧
  ((arguments_ok s secret out ∧ out' = Some (zeros (List.length out))) ∨
   (¬ arguments_ok s secret out ∧ out' = Some out)).
Proof.
  intros Hwf Hs. unfold active_enzyme_decrypt_with_secret. rewrite firstn_all.
  destruct (active_enzyme_open_eq s secret epoch aad out Hwf Hs)
    as (err' & o & m & -> & [(Ha & He & -> & ->) | [(Ha & He & -> & -> & Hno) |
        (Ha & -> & _)]]); intros [= <- <- <-] Hne; [naive_solver.. | done].
Qed.

(** C15: from the sender's command to the device's: a well-formed command whose
    76-byte image the sender sealed under the device's key, carried in an
    envelope set by [active_substance_set_ciphertext], opens with the device's
    secret into a buffer that parses back to that very command. *)
Theorem active_substance_command_travels `{Psa} `{!PsaLaws} c s0 s cipher nonce tag ct secret
    epoch key aad out len0 :
  command_ok c → 1 ≤ cipher ≤ 2 → List.length nonce = ACTIVE_SUBSTANCE_NONCE_LEN →
  List.length tag = ACTIVE_SUBSTANCE_TAG_LEN →
  List.length secret = ACTIVE_ENZYME_DEVICE_SECRET_LEN → ¬ Forall (fun b => b = 0) secret →
  active_substance_set_ciphertext (Some s0) cipher (Some nonce) (Some tag) (Some ct)
    (List.length ct) = (ESP_OK, Some s) →
  enzyme_key s secret epoch = Some key →
  ct ++ tag = aead_seal key nonce aad (command_bytes c) →
  List.length out = ACTIVE_SUBSTANCE_CIPHERTEXT_MAX_LEN →
  ∃ out', active_enzyme_decrypt_with_secret (Some s) (Some secret) epoch (Some aad)
            (List.length aad) (Some out) (Some len0) = (ESP_OK, Some out', Some command_size) ∧
          active_substance_parse_command (Some out') command_size (Some command_zero)
            = (ESP_OK, Some c).
Proof.
  intros Hok Hc Hn Ht Hs Hz Hset Hk Hseal Hout.
  assert (List.length (command_bytes c) = command_size) as Hl.
  { destruct (command_ok_lengths c Hok) as (? & ? & ? & ?). by apply length_command_bytes. }
  assert (List.length ct = command_size) as Hct.
  { apply (f_equal List.length) in Hseal. rewrite length_app, aead_seal_length, Ht, Hl in Hseal.
    unfold ACTIVE_SUBSTANCE_TAG_LEN in Hseal. lia. }
  destruct (set_ciphertext_ok s0 cipher nonce tag ct) as
    (s' & Hset' & Hwf & Hv & Hci & Hno & Hta & Hlen & Hcf);
    [lia | done | done | rewrite Hct; unfold command_size; lia |].
  rewrite Hset in Hset'. injection Hset' as <-. rewrite Hct in Hlen.
  unfold active_enzyme_decrypt_with_secret. rewrite firstn_all.
  assert (arguments_ok s secret out) as Harg.
  { split; [done|]. rewrite Hlen, Hout. split; [|done]. apply validate_envelope_ok.
    rewrite Hv, Hci, Hlen. unfold command_size. lia. }
  destruct (active_enzyme_open_eq s secret epoch aad out Hwf Hs)
    as (err & o & m & -> & [(Ha & _) | [(_ & _ & _ & _ & Hno') |
        (_ & -> & key' & pt & Hk' & Hpt & -> & ->)]]).
  - done.
  - destruct Hno'. exists key, (command_bytes c). by rewrite Hcf, Hta, Hno.
  - rewrite Hk in Hk'. injection Hk' as <-. rewrite Hcf, Hta, Hno, Hseal in Hpt.
    apply aead_seal_inj in Hpt as <-. rewrite Hl. eexists. split; [done|].
    by apply parse_command_image.
Qed.

(** ** Witnesses *)
Definition witness_secret : bytes := lit "device-secret-device-secret-0001".
Definition witness_aad : bytes := lit "capsule".

(** The envelope a sender builds for [witness_command] with the toy cipher. *)
Definition sender_shell : active_substance :=
  mk_active_substance 2 ACTIVE_SUBSTANCE_CIPHER_AES_256_GCM 76 (lit "nonce-nonce-") (zeros 16)
    (zeros 256).
Definition sender_key : bytes := default [] (enzyme_key sender_shell witness_secret 7).
Definition sender_sealed : bytes :=
  toy_seal sender_key (lit "nonce-nonce-") witness_aad (command_bytes witness_command).
Definition sender_ct : bytes := take 76 sender_sealed.
Definition sender_tag : bytes := drop 76 sender_sealed.
Definition sender_substance : active_substance :=
  default substance_zero (active_substance_set_ciphertext (Some substance_zero)
    ACTIVE_SUBSTANCE_CIPHER_AES_256_GCM (Some (lit "nonce-nonce-")) (Some sender_tag)
    (Some sender_ct) 76).2.

Lemma sender_substance_wf : substance_wf sender_substance.
Proof. constructor; vm_compute; repeat split; discriminate. Qed.

Lemma witness_arguments_ok n : (76 ≤ n)%nat → arguments_ok sender_substance witness_secret (zeros n).
Proof.
  intros Hn. split; [|split].
  - rewrite <- bytes_all_zero_spec. vm_compute. discriminate.
  - vm_compute. reflexivity.
  - change (as_ciphertext_len sender_substance) with 76. rewrite length_zeros. lia.
Qed.

Lemma active_enzyme_decrypt_exact_witness :
  active_enzyme_decrypt_with_secret (Some sender_substance) (Some witness_secret) 7
    (Some witness_aad) 7 (Some (zeros 80)) (Some O)
  = (ESP_OK, Some (command_bytes witness_command ++ zeros 4), Some 76%nat).
Proof.
  refine (proj2 (active_enzyme_decrypt_exact sender_substance witness_secret 7 witness_aad
    (zeros 80) O (Some (command_bytes witness_command ++ zeros 4)) (Some 76%nat) _ _) _).
  - exact sender_substance_wf.
  - reflexivity.
  - split; [apply witness_arguments_ok; lia|]. exists sender_key, (command_bytes witness_command).
    split; [vm_compute; reflexivity|]. split; [vm_compute; reflexivity|]. split; reflexivity.
Defined.

Lemma active_enzyme_failure_wipes_witness :
  let r := active_enzyme_decrypt_with_secret (Some sender_substance) (Some witness_secret) 8
    (Some witness_aad) 7 (Some (zeros 80)) (Some O) in
  r.2 = Some O ∧
  ((arguments_ok sender_substance witness_secret (zeros 80) ∧ r.1.2 = Some (zeros 80)) ∨
   (¬ arguments_ok sender_substance witness_secret (zeros 80) ∧ r.1.2 = Some (zeros 80))).
Proof.
  refine (active_enzyme_failure_wipes sender_substance witness_secret 8 witness_aad (zeros 80) O
    ESP_ERR_INVALID_STATE _ _ _ _ _ _).
  - exact sender_substance_wf.
  - reflexivity.
  - vm_compute; reflexivity.
  - discriminate.
Defined.

Lemma active_substance_command_travels_witness :
  ∃ out', active_enzyme_decrypt_with_secret (Some sender_substance) (Some witness_secret) 7
            (Some witness_aad) 7 (Some (zeros 256)) (Some O) = (ESP_OK, Some out', Some 76%nat) ∧
          active_substance_parse_command (Some out') 76 (Some command_zero)
            = (ESP_OK, Some witness_command).
Proof.
  apply (active_substance_command_travels witness_command substance_zero sender_substance
    ACTIVE_SUBSTANCE_CIPHER_AES_256_GCM (lit "nonce-nonce-") sender_tag sender_ct witness_secret 7
    sender_key witness_aad (zeros 256) O).
  - exact witness_command_ok.
  - vm_compute; split; discriminate.
  - reflexivity.
  - vm_compute; reflexivity.
  - reflexivity.
  - rewrite <- bytes_all_zero_spec. vm_compute. discriminate.
  - vm_compute; reflexivity.
  - vm_compute; reflexivity.
  - vm_compute; reflexivity.
  - reflexivity.
Defined.
