(* ===== verification/Tables.v ===== *)
(** * Tables: compact arrays of entries

    The ribosome and RNA tables keep a fixed array and a count: the live entries
    are the first [count], an addition writes at the end, a removal shifts the
    rest down.  Entries are named by a key; the abstract view of a table is the
    finite map from keys to entries. *)

From S2P Require Import Prelude Slots.

(** ** The map of a list of keyed entries *)
Section keyed.
Context {K E : Type} `{Countable K} (key : E → K).
Implicit Types (l : list E).

Definition kmap l : gmap K E := list_to_map ((fun e => (key e, e)) <$> l).

Lemma kmap_keys l : ((fun e => (key e, e)) <$> l).*1 = key <$> l.
Proof. rewrite <- list_fmap_compose. done. Qed.

Lemma kmap_Some l k e :
  NoDup (key <$> l) → kmap l !! k = Some e ↔ e ∈ l ∧ key e = k.
Proof.
  intros Hn. unfold kmap. rewrite <- elem_of_list_to_map by (by rewrite kmap_keys).
  rewrite list_elem_of_fmap. naive_solver.
Qed.

Lemma kmap_None l k : kmap l !! k = None ↔ k ∉ (key <$> l).
Proof. unfold kmap. by rewrite <- not_elem_of_list_to_map, kmap_keys. Qed.

Lemma kmap_app l1 l2 : kmap (l1 ++ l2) = kmap l1 ∪ kmap l2.
Proof. unfold kmap. by rewrite fmap_app, list_to_map_app. Qed.
Lemma kmap_cons e l : kmap (e :: l) = <[key e := e]> (kmap l).
Proof. done. Qed.

Lemma kmap_snoc l e :
  key e ∉ (key <$> l) → kmap (l ++ [e]) = <[key e := e]> (kmap l).
Proof.
  intros Hn. rewrite kmap_app. change (kmap [e]) with ({[key e := e]} : gmap K E).
  symmetry. apply insert_union_singleton_r. by apply kmap_None.
Qed.

Lemma kmap_remove l1 e l2 :
  NoDup (key <$> l1 ++ e :: l2) → kmap (l1 ++ l2) = delete (key e) (kmap (l1 ++ e :: l2)).
Proof.
  intros Hn. rewrite fmap_app, fmap_cons in Hn. apply NoDup_app in Hn as (_ & H1 & H2).
  apply NoDup_cons in H2 as [H2 _]. rewrite !kmap_app, kmap_cons.
  assert (kmap l1 !! key e = None) as E1.
  { apply kmap_None. intros Hi. apply (H1 _ Hi). by left. }
  assert (kmap l2 !! key e = None) as E2 by (by apply kmap_None).
  by rewrite delete_union, delete_insert_eq, !delete_id.
Qed.

Lemma kmap_size l : NoDup (key <$> l) → size (kmap l) = List.length l.
Proof.
  intros Hn. induction l as [|e l IH] using rev_ind; [done|].
  rewrite fmap_app in Hn. apply NoDup_app in Hn as (Hn & H1 & _).
  assert (key e ∉ (key <$> l)) as He by (intros Hi; apply (H1 _ Hi); by left).
  rewrite kmap_snoc by done. rewrite map_size_insert_None by (by apply kmap_None).
  rewrite IH by done. rewrite length_app. simpl. lia.
Qed.

(** Replacing an entry by one with the same key. *)
Lemma keys_replace l i e e' : l !! i = Some e → key e' = key e → key <$> <[i := e']> l = key <$> l.
Proof.
  intros Hi Hk. rewrite list_fmap_insert. apply list_insert_id. by rewrite list_lookup_fmap, Hi, Hk.
Qed.

Lemma kmap_replace l i e e' :
  NoDup (key <$> l) → l !! i = Some e → key e' = key e →
  kmap (<[i := e']> l) = <[key e := e']> (kmap l).
Proof.
  intros Hn Hi Hk. assert (i < List.length l)%nat as Hlt by (by eapply lookup_lt_Some).
  pose proof (keys_replace l i e e' Hi Hk) as Hkeys. apply map_eq. intros k.
  destruct (decide (k = key e)) as [->|Hne].
  - rewrite lookup_insert_eq. apply kmap_Some; [by rewrite Hkeys|]. split; [|done].
    apply list_elem_of_lookup. exists i. by apply list_lookup_insert_eq.
  - rewrite lookup_insert_ne by done. apply option_eq. intros x.
    rewrite !kmap_Some by (by rewrite ?Hkeys). rewrite !list_elem_of_lookup.
    split; intros [[j Hj] <-]; (split; [|done]); exists j; destruct (decide (i = j)) as [<-|].
    + rewrite list_lookup_insert_eq in Hj by done. congruence.
    + by rewrite list_lookup_insert_ne in Hj.
    + congruence.
    + by rewrite list_lookup_insert_ne.
Qed.

(** Searching by key. *)
Lemma first_index_ext_in (p q : E → bool) l :
  Forall (fun e => p e = q e) l → first_index p l = first_index q l.
Proof. induction 1 as [|e l He _ IH]; simpl; [done|]. by rewrite He, IH. Qed.

Lemma key_index_Some l k i :
  NoDup (key <$> l) →
  first_index (fun e => bool_decide (key e = k)) l = Some i →
  ∃ e, l !! i = Some e ∧ key e = k ∧ kmap l !! k = Some e.
Proof.
  intros Hn (e & He & Hk%bool_decide_eq_true)%first_index_lookup.
  exists e. split; [done|]. split; [done|]. apply kmap_Some; [done|].
  split; [by eapply list_elem_of_lookup_2 | done].
Qed.

Lemma key_index_None l k :
  first_index (fun e => bool_decide (key e = k)) l = None ↔ kmap l !! k = None.
Proof.
  rewrite first_index_None, kmap_None. split.
  - intros Hf (e & -> & He)%list_elem_of_fmap. apply list_elem_of_lookup_1 in He as [i Hi].
    specialize (Hf i e Hi). simpl in Hf. by rewrite bool_decide_eq_true_2 in Hf.
  - intros Hn i e Hi. apply bool_decide_eq_false_2. intros <-. apply Hn.
    apply list_elem_of_fmap. exists e. split; [done|]. by eapply list_elem_of_lookup_2.
Qed.
End keyed.

(** ** The array *)
Section array.
Context {E : Type} (zero : E).
Implicit Types (l : list E).

(** [for (j = i; j + 1 < count; ++j) a[j] = copy(a[j + 1])], [n] turns. *)
Fixpoint shift_down (copy : E → E) (n j : nat) l : list E :=
  match n with
  | O => l
  | S n' => shift_down copy n' (S j) (<[j := copy (nth (S j) l zero)]> l)
  end.

(** The live entries of an array with a count, and the rest of the array. *)
Definition live (n : nat) l : list E := take n l.

Lemma live_append n l e :
  (n < List.length l)%nat → live (S n) (<[n := e]> l) = live n l ++ [e].
Proof.
  intros Hn. unfold live. rewrite (take_S_r _ _ e) by (apply list_lookup_insert_eq; lia).
  by rewrite take_insert_ge by lia.
Qed.
Lemma drop_append n l e : drop (S n) (<[n := e]> l) = drop (S n) l.
Proof. apply drop_insert_lt. lia. Qed.

(** Entries that the copy leaves alone are moved, not changed. *)
Lemma shift_down_spec copy n j l a b c :
  Forall (fun e => copy e = e) b → List.length a = j → List.length b = n →
  ∀ e, l = a ++ e :: b ++ c → ∃ e', shift_down copy n j l = a ++ b ++ e' :: c.
Proof.
  intros Hb. revert j l a. revert n.
  induction Hb as [|x b Hx _ IH]; intros n j l a Ha Hn e ->; simpl in Hn; subst n.
  - exists e. done.
  - cbn [shift_down]. rewrite <- Ha. rewrite app_nth2 by lia.
    replace (S (List.length a) - List.length a)%nat with 1%nat by lia. cbn [nth app].
    rewrite Hx. rewrite insert_app_r_alt, Nat.sub_diag by lia. cbn.
    destruct (IH (List.length b) (S (List.length a)) (a ++ x :: x :: b ++ c) (a ++ [x]))
      with (e := x) as [e' ->].
    + rewrite length_app. simpl. lia.
    + done.
    + by rewrite <- app_assoc.
    + exists e'. by rewrite <- app_assoc.
Qed.
End array.
