(* ===== verification/Blobs.v ===== *)
(** * Blobs: checksummed records in flash

    The ribosome and RNA stores write the same shape of struct: a magic number,
    a version, a count, an array of entries of fixed size, and an FNV-1a
    checksum of everything before it.  A blob is the list of the struct's bytes
    (little-endian, no padding outside the entries); fields are read at their
    offsets. *)

From S2P Require Import Prelude Bytes.

Section blob.
(** The size of an entry and the number of entries of the array. *)
Context (entry_size capacity : nat).

Definition blob_checksum_offset : nat := 8 + capacity * entry_size.
Definition blob_size : nat := blob_checksum_offset + 4.

Definition blob_magic (b : bytes) : Z := of_le32 (slice b 0 4).
Definition blob_version (b : bytes) : Z := of_le16 (slice b 4 2).
Definition blob_count (b : bytes) : Z := of_le16 (slice b 6 2).
Definition blob_entry (b : bytes) (i : nat) : bytes := slice b (8 + i * entry_size) entry_size.
Definition blob_checksum_field (b : bytes) : Z := of_le32 (slice b blob_checksum_offset 4).

(** The bytes under the checksum, and the whole struct. *)
Definition blob_covered (magic version count : Z) (body : bytes) : bytes :=
  le32 magic ++ le16 version ++ le16 count ++ body.
Definition blob_image (magic version count : Z) (body : bytes) : bytes :=
  blob_covered magic version count body ++
  le32 (fnv1a FNV_OFFSET (blob_covered magic version count body)).

(** The array of entries: the images given, and zeros. *)
Definition blob_body (images : list bytes) : bytes :=
  concat images ++ zeros ((capacity - List.length images) * entry_size).

Lemma length_concat_images (images : list bytes) :
  Forall (fun e => List.length e = entry_size) images →
  List.length (concat images) = (List.length images * entry_size)%nat.
Proof. induction 1 as [|e l He _ IH]; [done|]. cbn. rewrite length_app, He, IH. done. Qed.

Lemma length_blob_body images :
  Forall (fun e => List.length e = entry_size) images →
  (List.length images ≤ capacity)%nat →
  List.length (blob_body images) = (capacity * entry_size)%nat.
Proof.
  intros Hf Hl. unfold blob_body. rewrite length_app, length_concat_images, length_zeros by done. nia.
Qed.

Lemma length_covered magic version count body :
  List.length body = (capacity * entry_size)%nat →
  List.length (blob_covered magic version count body) = blob_checksum_offset.
Proof. intros H. unfold blob_covered. rewrite !length_app, H. done. Qed.

Lemma length_blob_image magic version count body :
  List.length body = (capacity * entry_size)%nat →
  List.length (blob_image magic version count body) = blob_size.
Proof. intros H. unfold blob_image. by rewrite length_app, length_covered. Qed.

Lemma of_le16_le16' x : is_u16 x → of_le16 (le16 x) = x.
Proof. intros. rewrite <- (app_nil_r (le16 x)). by apply of_le16_le16. Qed.
Lemma of_le32_le32' x : is_u32 x → of_le32 (le32 x) = x.
Proof. intros. rewrite <- (app_nil_r (le32 x)). by apply of_le32_le32. Qed.

(** Reading back the fields of an image. *)
Lemma blob_image_magic magic version count body :
  is_u32 magic → blob_magic (blob_image magic version count body) = magic.
Proof.
  intros. unfold blob_magic, blob_image, blob_covered. rewrite <- !app_assoc.
  rewrite slice_app_here by done. by apply of_le32_le32'.
Qed.

Lemma blob_image_version magic version count body :
  is_u16 version → blob_version (blob_image magic version count body) = version.
Proof.
  intros. unfold blob_version, blob_image, blob_covered. rewrite <- !app_assoc.
  rewrite slice_app_skip by (simpl; lia). cbn [List.length le32 Nat.sub].
  rewrite slice_app_here by done. by apply of_le16_le16'.
Qed.

Lemma blob_image_count magic version count body :
  is_u16 count → blob_count (blob_image magic version count body) = count.
Proof.
  intros. unfold blob_count, blob_image, blob_covered. rewrite <- !app_assoc.
  rewrite !slice_app_skip by (simpl; lia). cbn [List.length le32 le16 Nat.sub].
  rewrite slice_app_here by done. by apply of_le16_le16'.
Qed.

Lemma blob_image_checksum magic version count body :
  List.length body = (capacity * entry_size)%nat →
  blob_checksum_field (blob_image magic version count body) =
  fnv1a FNV_OFFSET (take blob_checksum_offset (blob_image magic version count body)).
Proof.
  intros Hl. pose proof (length_covered magic version count body Hl) as Hc.
  unfold blob_checksum_field, blob_image. rewrite slice_app_skip, Hc, Nat.sub_diag by lia.
  rewrite <- Hc. rewrite take_app_length, slice_all by done.
  apply of_le32_le32', fnv1a_range. unfold is_u32, FNV_OFFSET. lia.
Qed.

Lemma slice_concat (images : list bytes) i e rest :
  Forall (fun e => List.length e = entry_size) images → images !! i = Some e →
  slice (concat images ++ rest) (i * entry_size) entry_size = e.
Proof.
  intros Hf. revert i. induction Hf as [|x l Hx _ IH]; intros [|i] Hi; try done.
  - injection Hi as ->. cbn [concat Nat.mul]. rewrite <- app_assoc. by apply slice_app_here.
  - cbn [concat Nat.mul]. rewrite <- app_assoc, slice_app_skip by (rewrite Hx; lia).
    rewrite Hx. replace (entry_size + i * entry_size - entry_size)%nat with (i * entry_size)%nat by lia.
    by apply IH.
Qed.

Lemma blob_image_entry magic version count images i e :
  Forall (fun e => List.length e = entry_size) images → images !! i = Some e →
  blob_entry (blob_image magic version count (blob_body images)) i = e.
Proof.
  intros Hf Hi. unfold blob_entry, blob_image, blob_covered, blob_body.
  rewrite <- !app_assoc.
  rewrite slice_app_skip by (simpl; lia). rewrite slice_app_skip by (simpl; lia).
  rewrite slice_app_skip by (simpl; lia). cbn [List.length le32 le16].
  replace (8 + i * entry_size - 4 - 2 - 2)%nat with (i * entry_size)%nat by lia.
  by apply slice_concat.
Qed.
End blob.
