(* ===== verification/Nvs.v ===== *)
(** * NVS: the interface of the non-volatile storage library

    The stores keep their records as blobs under a namespace and a key.  The
    library is abstract: a state type with its operations, and the documented
    behaviour the theorems rely on.  A handle is the namespace it was opened
    for; [nvs_close] has no effect on the contents. *)

From S2P Require Import Prelude Bytes.

Inductive nvs_mode := NVS_READONLY | NVS_READWRITE.

(** [nvs_get_blob ns key capacity] gives its status and the bytes it wrote;
    [*length] is then their number. *)
Class Nvs (N : Type) := {
  nvs_open : bytes → nvs_mode → N → N * esp_err;
  nvs_get_blob : bytes → bytes → nat → N → esp_err * bytes;
  nvs_set_blob : bytes → bytes → bytes → N → N * esp_err;
  nvs_erase_key : bytes → bytes → N → N * esp_err;
  nvs_commit : bytes → N → N * esp_err
}.

(** What a successful call means, over the abstract contents [nvs_lookup]:
    opening changes nothing, a namespace with a key can be opened, a key that
    exists is read back whole into a buffer that holds it, what is read is what
    is stored, a successful write or
    erase changes that key alone, an erase that finds no key
    had none to find, and a successful commit keeps the contents. *)
Class NvsLaws N `{Nvs N} := {
  nvs_lookup : N → bytes → bytes → option bytes;
  nvs_open_keeps ns mode n n' e ns' key :
    nvs_open ns mode n = (n', e) → nvs_lookup n' ns' key = nvs_lookup n ns' key;
  nvs_open_existing ns key d n :
    nvs_lookup n ns key = Some d → (nvs_open ns NVS_READONLY n).2 = ESP_OK;
  nvs_get_existing ns key d capacity n :
    nvs_lookup n ns key = Some d → (List.length d ≤ capacity)%nat →
    nvs_get_blob ns key capacity n = (ESP_OK, d);
  nvs_get_ok ns key capacity n d :
    nvs_get_blob ns key capacity n = (ESP_OK, d) → nvs_lookup n ns key = Some d;
  nvs_get_missing ns key capacity n :
    nvs_lookup n ns key = None → (nvs_get_blob ns key capacity n).1 = ESP_ERR_NVS_NOT_FOUND;
  nvs_get_not_found ns key capacity n d :
    nvs_get_blob ns key capacity n = (ESP_ERR_NVS_NOT_FOUND, d) → nvs_lookup n ns key = None;
  nvs_set_ok ns key d n n' ns' key' :
    nvs_set_blob ns key d n = (n', ESP_OK) →
    nvs_lookup n' ns' key' =
      if decide (ns' = ns ∧ key' = key) then Some d else nvs_lookup n ns' key';
  nvs_erase_ok ns key n n' ns' key' :
    nvs_erase_key ns key n = (n', ESP_OK) →
    nvs_lookup n' ns' key' =
      if decide (ns' = ns ∧ key' = key) then None else nvs_lookup n ns' key';
  nvs_erase_missing ns key n n' :
    nvs_erase_key ns key n = (n', ESP_ERR_NVS_NOT_FOUND) → nvs_lookup n ns key = None;
  nvs_commit_ok ns n n' ns' key' :
    nvs_commit ns n = (n', ESP_OK) → nvs_lookup n' ns' key' = nvs_lookup n ns' key'
}.

(** The partition below the library: mounting it, which keeps its contents, and
    erasing it. *)
Class NvsFlash (N : Type) := {
  nvs_flash_init : N → N * esp_err;
  nvs_flash_erase : N → N * esp_err
}.

(** The write sequence of the stores: open, set, commit. *)
Definition nvs_write {N : Type} `{Nvs N} (ns key data : bytes) (n : N) : N * esp_err :=
  let '(n, err) := nvs_open ns NVS_READWRITE n in
  if negb (err_ok err) then (n, err)
  else
    let '(n, err) := nvs_set_blob ns key data n in
    if err_ok err then nvs_commit ns n else (n, err).

Lemma err_ok_true e : err_ok e = true ↔ e = ESP_OK.
Proof. unfold err_ok, err_eqb. apply bool_decide_eq_true. Qed.
Lemma err_ok_false e : err_ok e = false ↔ e ≠ ESP_OK.
Proof. unfold err_ok, err_eqb. apply bool_decide_eq_false. Qed.

(** Calls named by their results, for storage that is not worth comparing. *)
Lemma pair_named {A B} (p : A * B) b : p.2 = b → p = (p.1, b).
Proof. destruct p. by intros <-. Qed.
Lemma triple_named {A B C} (p : A * B * C) b : p.1.2 = b → p = (p.1.1, b, p.2).
Proof. destruct p as [[? ?] ?]. by intros <-. Qed.

(** A write that succeeds stores the data and touches nothing else. *)
Lemma nvs_write_ok {N : Type} `{NvsLaws N} ns key data (n n' : N) :
  nvs_write ns key data n = (n', ESP_OK) →
  nvs_lookup n' ns key = Some data ∧
  ∀ ns' key', (ns', key') ≠ (ns, key) → nvs_lookup n' ns' key' = nvs_lookup n ns' key'.
Proof.
  unfold nvs_write. destruct (nvs_open _ _ _) as [n1 e1] eqn:Eo.
  destruct (err_ok e1) eqn:E1; cbn [negb]; [|intros [= _ ->]; done].
  destruct (nvs_set_blob _ _ _ _) as [n2 e2] eqn:Es.
  destruct (err_ok e2) eqn:E2; [|intros [= _ ->]; done].
  apply err_ok_true in E2 as ->. intros Ec.
  assert (∀ ns' key', nvs_lookup n' ns' key' =
    if decide (ns' = ns ∧ key' = key) then Some data else nvs_lookup n ns' key') as Hl.
  { intros ns' key'. rewrite (nvs_commit_ok _ _ _ _ _ Ec), (nvs_set_ok _ _ _ _ _ _ _ Es).
    by rewrite (nvs_open_keeps _ _ _ _ _ _ _ Eo). }
  split.
  - rewrite Hl. by rewrite decide_True.
  - intros ns' key' Hne. rewrite Hl. rewrite decide_False; [done|]. intros [-> ->]. by apply Hne.
Qed.

(** A key that exists is read whole after a read-only open. *)
Lemma nvs_read_ok {N : Type} `{NvsLaws N} ns key d capacity (n : N) :
  nvs_lookup n ns key = Some d → (List.length d ≤ capacity)%nat →
  ∃ n1, nvs_open ns NVS_READONLY n = (n1, ESP_OK) ∧ nvs_get_blob ns key capacity n1 = (ESP_OK, d).
Proof.
  intros Hd Hl. pose proof (nvs_open_existing _ _ _ _ Hd) as Ho.
  destruct (nvs_open _ _ _) as [n1 e1] eqn:Eo. cbn in Ho. subst e1. exists n1. split; [done|].
  apply nvs_get_existing; [|done]. by rewrite (nvs_open_keeps _ _ _ _ _ _ _ Eo).
Qed.

(** Two storages with the same contents, and a storage of bytes. *)
Section contents.
Context {N : Type} `{NvsLaws N}.

Definition same_flash (n n' : N) : Prop := ∀ ns key, nvs_lookup n' ns key = nvs_lookup n ns key.
Definition flash_bytes (n : N) : Prop := ∀ ns key d, nvs_lookup n ns key = Some d → Forall is_u8 d.

#[export] Instance same_flash_equivalence : Equivalence same_flash.
Proof.
  split.
  - by intros n ns key.
  - by intros n n' E ns key.
  - intros n1 n2 n3 E1 E2 ns key. by rewrite E2, E1.
Qed.
#[export] Instance flash_bytes_proper : Proper (same_flash ==> iff) flash_bytes.
Proof.
  intros n n' E. split; intros Hb ns key d Hd; apply (Hb ns key); [by rewrite <- E|by rewrite E].
Qed.

(** The read sequence of the stores: open read-only, read a blob of exactly
    [size] bytes, decode it; [zero] is what every failure but the decoder's
    leaves. *)
Definition nvs_load {T} (ns key : bytes) (size : nat) (decode : bytes → T → esp_err * T) (zero : T)
    (n : N) : N * esp_err * T :=
  let '(n, err) := nvs_open ns NVS_READONLY n in
  if negb (err_ok err) then (n, err, zero)
  else
    let '(err, blob) := nvs_get_blob ns key size n in
    if negb (err_ok err) then (n, err, zero)
    else if negb (List.length blob =? size)%nat then (n, ESP_ERR_INVALID_SIZE, zero)
    else let '(err, t) := decode blob zero in (n, err, t).

Lemma nvs_load_spec {T} ns key size decode (zero : T) n :
  (∀ b t, decode b zero ≠ (ESP_ERR_NVS_NOT_FOUND, t)) →
  let '(n', err, t) := nvs_load ns key size decode zero n in
  same_flash n n' ∧
  (err = ESP_OK → ∃ blob, nvs_lookup n ns key = Some blob ∧ List.length blob = size ∧
                          decode blob zero = (ESP_OK, t)) ∧
  (err = ESP_ERR_NVS_NOT_FOUND → nvs_lookup n ns key = None ∧ t = zero).
Proof.
  intros Hd. unfold nvs_load. destruct (nvs_open _ _ _) as [n1 e1] eqn:Eo.
  assert (same_flash n n1) as Hf by (intros ? ?; by eapply nvs_open_keeps).
  destruct (err_ok e1) eqn:E1; cbn [negb].
  2: { apply err_ok_false in E1. split_and!; [done|done|]. intros ->. split; [|done].
       destruct (nvs_lookup n ns key) as [d|] eqn:El; [|done]. apply nvs_open_existing in El.
       by rewrite Eo in El. }
  destruct (nvs_get_blob _ _ _ _) as [e2 blob] eqn:Eg.
  destruct (err_ok e2) eqn:E2; cbn [negb].
  2: { apply err_ok_false in E2. split_and!; [done|done|]. intros ->.
       apply nvs_get_not_found in Eg. by rewrite Hf in Eg. }
  apply err_ok_true in E2 as ->. apply nvs_get_ok in Eg. rewrite Hf in Eg.
  destruct (List.length blob =? size)%nat eqn:E3; cbn [negb]; [|by split_and!].
  apply Nat.eqb_eq in E3. destruct (decode blob zero) as [e4 t4] eqn:E4. split_and!; [done| |].
  - intros ->. by exists blob.
  - intros ->. by destruct (Hd blob t4).
Qed.

(** A blob written whole is read back and decoded. *)
Lemma nvs_load_stored {T} ns key size decode (zero t : T) blob n :
  nvs_lookup n ns key = Some blob → List.length blob = size → decode blob zero = (ESP_OK, t) →
  ∃ n1, nvs_load ns key size decode zero n = (n1, ESP_OK, t).
Proof.
  intros Hget Hlen Hdec. destruct (nvs_read_ok _ _ _ size _ Hget) as (n1 & Eo & Eg); [lia|].
  exists n1. unfold nvs_load. rewrite Eo, (proj2 (err_ok_true ESP_OK) eq_refl). cbn [negb].
  rewrite Eg, (proj2 (err_ok_true ESP_OK) eq_refl), Hlen, Nat.eqb_refl. cbn [negb]. by rewrite Hdec.
Qed.
End contents.

(** ** A map as storage *)
Definition nvs_map : Type := gmap (bytes * bytes) bytes.

#[export] Instance map_nvs : Nvs nvs_map := {|
  nvs_open ns mode n := (n, ESP_OK);
  nvs_get_blob ns key capacity n :=
    match n !! (ns, key) with
    | Some d => if decide (List.length d ≤ capacity)%nat then (ESP_OK, d)
                else (ESP_ERR_INVALID_SIZE, [])
    | None => (ESP_ERR_NVS_NOT_FOUND, [])
    end;
  nvs_set_blob ns key d n := (<[(ns, key) := d]> n, ESP_OK);
  nvs_erase_key ns key n :=
    match n !! (ns, key) with
    | Some _ => (delete (ns, key) n, ESP_OK)
    | None => (n, ESP_ERR_NVS_NOT_FOUND)
    end;
  nvs_commit ns n := (n, ESP_OK)
|}.

#[export] Instance map_nvs_laws : NvsLaws nvs_map.
Proof.
  apply (Build_NvsLaws _ _ (fun n ns key => n !! (ns, key))).
  - by intros ns mode n n' e ns' key [= <- <-].
  - done.
  - intros ns key d capacity n Hd Hl. simpl. by rewrite Hd, decide_True.
  - intros ns key capacity n d. simpl. destruct (n !! (ns, key)); [|done]. case_decide; [|done].
    by intros [= ->].
  - intros ns key capacity n Hd. simpl. by rewrite Hd.
  - intros ns key capacity n d. simpl. destruct (n !! (ns, key)); [|done]. by case_decide.
  - intros ns key d n n' ns' key' [= <-]. case_decide as Hk.
    + destruct Hk as [-> ->]. apply lookup_insert_eq.
    + apply lookup_insert_ne. intros [= -> ->]. by apply Hk.
  - intros ns key n n' ns' key' He. simpl in He. destruct (n !! (ns, key)); [|done].
    injection He as <-. case_decide as Hk.
    + destruct Hk as [-> ->]. apply lookup_delete_eq.
    + apply lookup_delete_ne. intros [= -> ->]. by apply Hk.
  - intros ns key n n' He. simpl in He. by destruct (n !! (ns, key)).
  - by intros ns n n' ns' key' [= <-].
Defined.

#[export] Instance map_nvs_flash : NvsFlash nvs_map := {|
  nvs_flash_init n := (n, ESP_OK);
  nvs_flash_erase n := (∅, ESP_OK)
|}.
