(* ===== verification/Config_store.v ===== *)
(** * Config store: the settings of the Guardian in flash

    [config_store/config_store.c].  The configuration struct is kept as one
    blob, its memory image; there is no checksum, a blob is accepted by its
    size, magic number and version, and everything else gives the built-in
    defaults.  A successful save announces itself on the event bus. *)

From S2P Require Import Prelude Bytes Slots Blobs Nvs Event_bus.

Definition NVS_NS : bytes := lit "zoneguard".
Definition NVS_KEY : bytes := lit "config_blob".
Definition ZG_CONFIG_MAGIC : Z := 0x5A474346.
Definition ZG_CONFIG_VERSION : Z := 2.
Definition CONFIG_STORE_SSID_LEN : nat := 32.
Definition CONFIG_STORE_PASS_LEN : nat := 64.
Definition CONFIG_STORE_HOST_LEN : nat := 64.
Definition CONFIG_STORE_PUBLIC_KEY_MAX_LEN : nat := 512.
Definition CONFIG_STORE_KEY_ID_LEN : nat := 16.

(** ** Data *)
Record zoneguard_config := mk_zoneguard_config {
  zc_magic : Z;
  zc_version : Z;
  zc_zone_id : Z;
  zc_guardian_id : Z;
  zc_issuer_public_key_pem : bytes;
  zc_issuer_key_id : bytes;
  zc_sta_ssid : bytes;
  zc_sta_password : bytes;
  zc_ap_ssid : bytes;
  zc_ap_password : bytes;
  zc_ap_channel : Z;
  zc_ap_max_connections : Z;
  zc_swarm_port : Z;
  zc_swarm_broadcast : bytes;
  zc_telemetry_host : bytes;
  zc_telemetry_port : Z;
  zc_swarm_key : bytes;
  zc_swarm_key_len : Z;
  zc_policy_version : Z
}.
#[export] Instance zoneguard_config_settable : Settable zoneguard_config := fun r =>
  mk_zoneguard_config (zc_magic r) (zc_version r) (zc_zone_id r) (zc_guardian_id r)
    (zc_issuer_public_key_pem r) (zc_issuer_key_id r) (zc_sta_ssid r) (zc_sta_password r)
    (zc_ap_ssid r) (zc_ap_password r) (zc_ap_channel r) (zc_ap_max_connections r)
    (zc_swarm_port r) (zc_swarm_broadcast r) (zc_telemetry_host r) (zc_telemetry_port r)
    (zc_swarm_key r) (zc_swarm_key_len r) (zc_policy_version r).

(** The zeroized struct. *)
Definition config_zero : zoneguard_config :=
  mk_zoneguard_config 0 0 0 0 (zeros CONFIG_STORE_PUBLIC_KEY_MAX_LEN) (zeros CONFIG_STORE_KEY_ID_LEN)
    (zeros CONFIG_STORE_SSID_LEN) (zeros CONFIG_STORE_PASS_LEN) (zeros CONFIG_STORE_SSID_LEN)
    (zeros CONFIG_STORE_PASS_LEN) 0 0 0 (zeros CONFIG_STORE_HOST_LEN) (zeros CONFIG_STORE_HOST_LEN) 0
    (zeros 32) 0 0.

(** ** The memory image *)
(** The sizes of the fields in order, the last byte but four being padding. *)
Definition config_layout : list nat :=
  [4; 4; 4; 4; 512; 16; 32; 64; 32; 64; 1; 1; 2; 64; 64; 2; 32; 1; 1; 4]%nat.
Definition config_size : nat := sum_list config_layout.

Definition config_fields (c : zoneguard_config) : list bytes :=
  [le32 (zc_magic c); le32 (zc_version c); le32 (zc_zone_id c); le32 (zc_guardian_id c);
   zc_issuer_public_key_pem c; zc_issuer_key_id c; zc_sta_ssid c; zc_sta_password c;
   zc_ap_ssid c; zc_ap_password c; [zc_ap_channel c]; [zc_ap_max_connections c];
   le16 (zc_swarm_port c); zc_swarm_broadcast c; zc_telemetry_host c; le16 (zc_telemetry_port c);
   zc_swarm_key c; [zc_swarm_key_len c]; [0]; le32 (zc_policy_version c)].
Definition config_image (c : zoneguard_config) : bytes := concat (config_fields c).

Definition config_of_image (b : bytes) : zoneguard_config :=
  let f i := nth i (chunks config_layout b) [] in
  mk_zoneguard_config (of_le32 (f 0%nat)) (of_le32 (f 1%nat)) (of_le32 (f 2%nat)) (of_le32 (f 3%nat))
    (f 4%nat) (f 5%nat) (f 6%nat) (f 7%nat) (f 8%nat) (f 9%nat) (nth 0 (f 10%nat) 0)
    (nth 0 (f 11%nat) 0) (of_le16 (f 12%nat)) (f 13%nat) (f 14%nat) (of_le16 (f 15%nat)) (f 16%nat)
    (nth 0 (f 17%nat) 0) (of_le32 (f 19%nat)).

(** ** Operations *)
Definition cfg_copy (dst : bytes) (src : option bytes) : bytes := safe_copy dst src.

(** [random] is what [esp_random] returns. *)
Definition config_store_set_defaults (random : Z) (config : option zoneguard_config) :
    option zoneguard_config :=
  match config with
  | None => None
  | Some _ =>
    let c := config_zero in
    let c := c <| zc_magic := ZG_CONFIG_MAGIC |> <| zc_version := ZG_CONFIG_VERSION |> in
    let c := c <| zc_zone_id := 1 |> <| zc_guardian_id := random |> in
    let c := c <| zc_sta_ssid := cfg_copy (zc_sta_ssid c) (Some (lit "TATIANE")) |> in
    let c := c <| zc_sta_password := cfg_copy (zc_sta_password c) (Some (lit "88090133")) |> in
    let c := c <| zc_ap_ssid := cfg_copy (zc_ap_ssid c) (Some (lit "ZG_SALA")) |> in
    let c := c <| zc_ap_password := cfg_copy (zc_ap_password c) (Some (lit "zoneguard123")) |> in
    let c := c <| zc_ap_channel := 6 |> <| zc_ap_max_connections := 4 |> in
    let c := c <| zc_swarm_port := 4747 |> in
    let c := c <| zc_swarm_broadcast := cfg_copy (zc_swarm_broadcast c) (Some (lit "255.255.255.255")) |> in
    let c := c <| zc_telemetry_host := cfg_copy (zc_telemetry_host c) (Some []) |> in
    let c := c <| zc_telemetry_port := 5757 |> in
    let c := c <| zc_swarm_key_len := 0 |> <| zc_swarm_key := zeros 32 |> in
    Some (c <| zc_policy_version := 1 |>)
  end.

Section store.
Context {N : Type} `{Nvs N} `{QE : Queue zg_event}.

(** The static state of the component, the flash and the bus it publishes on. *)
Record config_world := mk_config_world {
  cw_initialized : bool;
  cw_nvs : N;
  cw_bus : eb_state
}.

(** [None] is the abort of [ESP_ERROR_CHECK]. *)
Definition config_store_init `{!NvsFlash N} (w : config_world) : option (config_world * esp_err) :=
  let done n ret :=
    Some (mk_config_world (if err_ok ret then true else cw_initialized w) n (cw_bus w), ret) in
  let '(n, ret) := nvs_flash_init (cw_nvs w) in
  if err_eqb ret ESP_ERR_NVS_NO_FREE_PAGES || err_eqb ret ESP_ERR_NVS_NEW_VERSION_FOUND then
    let '(n, erased) := nvs_flash_erase n in
    if negb (err_ok erased) then None
    else let '(n, ret) := nvs_flash_init n in done n ret
  else done n ret.

(** The storage, the status and [*out_config] after the call. *)
Definition config_store_load (random : Z) (out_config : option zoneguard_config) (w : config_world) :
    config_world * esp_err * option zoneguard_config :=
  if negb (cw_initialized w) then (w, ESP_ERR_INVALID_ARG, out_config)
  else
    match out_config with
    | None => (w, ESP_ERR_INVALID_ARG, None)
    | Some _ =>
      let '(n, ret) := nvs_open NVS_NS NVS_READONLY (cw_nvs w) in
      let w := mk_config_world (cw_initialized w) n (cw_bus w) in
      if negb (err_ok ret) then (w, ESP_ERR_NOT_FOUND, config_store_set_defaults random out_config)
      else
        let '(ret, blob) := nvs_get_blob NVS_NS NVS_KEY config_size n in
        let c := config_of_image blob in
        if negb (err_ok ret) || negb (List.length blob =? config_size)%nat ||
           negb (zc_magic c =? ZG_CONFIG_MAGIC) || negb (zc_version c =? ZG_CONFIG_VERSION)
        then (w, ESP_ERR_NOT_FOUND, config_store_set_defaults random out_config)
        else (w, ESP_OK, Some c)
    end.

Definition config_saved_event (config : zoneguard_config) : zg_event :=
  mk_zg_event ZG_EVENT_CONFIG_UPDATED 0 (zc_zone_id config) 0 0 0 0 0 0 0 (zc_policy_version config)
    (safe_copy (zeros 48) (Some (lit "config_saved"))).

Definition config_store_save (timer_us : Z) (config : option zoneguard_config) (w : config_world) :
    config_world * esp_err :=
  if negb (cw_initialized w) then (w, ESP_ERR_INVALID_ARG)
  else
    match config with
    | None => (w, ESP_ERR_INVALID_ARG)
    | Some c =>
      let '(n, ret) := nvs_open NVS_NS NVS_READWRITE (cw_nvs w) in
      if negb (err_ok ret) then (mk_config_world (cw_initialized w) n (cw_bus w), ret)
      else
        let '(n, ret) := nvs_set_blob NVS_NS NVS_KEY (config_image c) n in
        let '(n, ret) := if err_ok ret then nvs_commit NVS_NS n else (n, ret) in
        let bus := if err_ok ret
                   then (event_bus_publish (Some (config_saved_event c)) timer_us (cw_bus w)).1
                   else cw_bus w in
        (mk_config_world (cw_initialized w) n bus, ret)
    end.

Definition config_store_erase (w : config_world) : config_world * esp_err :=
  if negb (cw_initialized w) then (w, ESP_ERR_INVALID_STATE)
  else
    let put n := mk_config_world (cw_initialized w) n (cw_bus w) in
    let '(n, ret) := nvs_open NVS_NS NVS_READWRITE (cw_nvs w) in
    if negb (err_ok ret) then (put n, ret)
    else
      let '(n, ret) := nvs_erase_key NVS_NS NVS_KEY n in
      if err_ok ret || err_eqb ret ESP_ERR_NVS_NOT_FOUND
      then let '(n, ret) := nvs_commit NVS_NS n in (put n, ret)
      else (put n, ret).
End store.
Arguments config_world N {QE}.

(** ** Specification *)
(** The buffers of a configuration have their sizes and its integers their
    widths, as those of a C struct do. *)
Record config_sized (c : zoneguard_config) : Prop := mk_config_sized {
  czs_fields : Forall2 (fun n f => List.length f = n) config_layout (config_fields c);
  czs_u32 : Forall is_u32 [zc_magic c; zc_version c; zc_zone_id c; zc_guardian_id c; zc_policy_version c];
  czs_u16 : Forall is_u16 [zc_swarm_port c; zc_telemetry_port c]
}.

(** What a load accepts. *)
Definition config_current (c : zoneguard_config) : Prop :=
  zc_magic c = ZG_CONFIG_MAGIC ∧ zc_version c = ZG_CONFIG_VERSION.

Lemma config_of_config_image c : config_sized c → config_of_image (config_image c) = c.
Proof.
  intros [Hf H32 H16]. unfold config_of_image, config_image. rewrite chunks_concat by exact Hf.
  rewrite !Forall_cons in H32. rewrite !Forall_cons in H16. destruct H32 as (? & ? & ? & ? & ? & _), H16 as (? & ? & _).
  destruct c. cbn [config_fields nth zc_magic zc_version zc_zone_id zc_guardian_id
    zc_issuer_public_key_pem zc_issuer_key_id zc_sta_ssid zc_sta_password zc_ap_ssid zc_ap_password
    zc_ap_channel zc_ap_max_connections zc_swarm_port zc_swarm_broadcast zc_telemetry_host
    zc_telemetry_port zc_swarm_key zc_swarm_key_len zc_policy_version] in *.
  by rewrite !of_le32_le32', !of_le16_le16' by done.
Qed.

Lemma length_config_image c : config_sized c → List.length (config_image c) = config_size.
Proof. intros [Hf _ _]. by apply length_concat_fields. Qed.

Lemma set_defaults_current random c d :
  config_store_set_defaults random (Some c) = Some d → config_current d.
Proof.
  intros E. assert (d = default config_zero (config_store_set_defaults random (Some c))) as -> by (by rewrite E).
  split; reflexivity.
Qed.

Section laws.
Context {N : Type} `{NL : NvsLaws N} `{QE : Queue zg_event}.

(** What the flash holds for the configuration. *)
Definition stored_config (n : N) : option bytes := nvs_lookup n NVS_NS NVS_KEY.

(** A load reads the stored blob and accepts it by size, magic number and
    version. *)
Lemma config_load_stored random out (w : config_world N) c :
  cw_initialized w = true → config_sized c → config_current c →
  stored_config (cw_nvs w) = Some (config_image c) →
  ∃ w', config_store_load random (Some out) w = (w', ESP_OK, Some c).
Proof.
  intros Hi Hs [Hm Hv] Hl.
  destruct (nvs_read_ok _ _ _ config_size _ Hl) as (n1 & Eo & Eg); [by rewrite length_config_image|].
  eexists. unfold config_store_load. rewrite Hi, Eo. cbn [negb]. rewrite (proj2 (err_ok_true ESP_OK) eq_refl).
  cbn [negb]. rewrite Eg, config_of_config_image, length_config_image, Nat.eqb_refl by done.
  rewrite (proj2 (err_ok_true ESP_OK) eq_refl), Hm, Hv, !Z.eqb_refl. done.
Qed.

(** A successful save stores the image and publishes the event. *)
Lemma config_save_stores timer_us c (w w' : config_world N) :
  config_store_save timer_us (Some c) w = (w', ESP_OK) →
  cw_initialized w = true ∧ cw_initialized w' = true ∧ stored_config (cw_nvs w') = Some (config_image c) ∧
  (∀ ns key, (ns, key) ≠ (NVS_NS, NVS_KEY) → nvs_lookup (cw_nvs w') ns key = nvs_lookup (cw_nvs w) ns key) ∧
  cw_bus w' = (event_bus_publish (Some (config_saved_event c)) timer_us (cw_bus w)).1.
Proof.
  unfold config_store_save. destruct (cw_initialized w) eqn:Hi; cbn [negb]; [|done].
  pose proof (nvs_write_ok NVS_NS NVS_KEY (config_image c) (cw_nvs w)) as Hw. unfold nvs_write in Hw.
  destruct (nvs_open _ _ _) as [n1 e1]. destruct (err_ok e1) eqn:E1; cbn [negb] in *.
  2: { apply err_ok_false in E1. by intros [= _ ?]. }
  destruct (nvs_set_blob _ _ _ _) as [n2 e2].
  destruct (if err_ok e2 then _ else _) as [n3 e3]. intros [= <- ->]. cbn [cw_initialized cw_nvs cw_bus].
  rewrite (proj2 (err_ok_true ESP_OK) eq_refl). specialize (Hw _ eq_refl) as [? ?]. by split_and!.
Qed.

Lemma config_erase_clears (w w' : config_world N) d :
  stored_config (cw_nvs w) = Some d → config_store_erase w = (w', ESP_OK) →
  cw_initialized w' = true ∧ stored_config (cw_nvs w') = None.
Proof.
  unfold config_store_erase, stored_config. intros Hd.
  destruct (cw_initialized w) eqn:Hi; cbn [negb]; [|done].
  destruct (nvs_open _ _ _) as [n1 e1] eqn:Eo. rewrite <- (nvs_open_keeps _ _ _ _ _ _ _ Eo) in Hd.
  destruct (err_ok e1) eqn:E1; cbn [negb].
  2: { apply err_ok_false in E1. by intros [= _ ?]. }
  destruct (nvs_erase_key _ _ _) as [n2 e2] eqn:Ee. destruct (_ || _) eqn:E2.
  - destruct (nvs_commit _ _) as [n3 e3] eqn:Ec. intros [= <- ->]. split; [done|]. cbn [cw_nvs].
    rewrite (nvs_commit_ok _ _ _ _ _ Ec). apply orb_true_iff in E2 as [E2|E2].
    + apply err_ok_true in E2 as ->. rewrite (nvs_erase_ok _ _ _ _ _ _ Ee). by rewrite decide_True.
    + apply bool_decide_eq_true in E2 as ->. apply nvs_erase_missing in Ee. congruence.
  - apply orb_false_iff in E2 as [E2 _]. apply err_ok_false in E2. by intros [= _ ?].
Qed.

Lemma config_load_missing random out (w : config_world N) :
  cw_initialized w = true → stored_config (cw_nvs w) = None →
  ∃ w', config_store_load random (Some out) w =
        (w', ESP_ERR_NOT_FOUND, config_store_set_defaults random (Some out)).
Proof.
  intros Hi Hn. unfold config_store_load. rewrite Hi. cbn [negb].
  destruct (nvs_open _ _ _) as [n1 e1] eqn:Eo. destruct (err_ok e1); cbn [negb]; [|by eexists].
  unfold stored_config in Hn. rewrite <- (nvs_open_keeps _ _ _ _ _ _ _ Eo) in Hn.
  apply (nvs_get_missing _ _ config_size) in Hn.
  destruct (nvs_get_blob _ _ _ _) as [e2 blob]. cbn in Hn. subst e2. by eexists.
Qed.
End laws.

(** ** Properties *)

(** C18: what was saved is what is loaded, and listeners hear of it: after a
    successful save of a current configuration every load gives that very
    configuration, no other key of the flash has changed, and the bus got the
    event that names its zone and policy version; and after an erase a load
    gives the factory defaults with a fresh guardian identifier. *)
Theorem config_store_roundtrip {N : Type} `{NL : NvsLaws N} `{QE : Queue zg_event}
    timer_us random c out (w w' : config_world N) :
  config_sized c → config_current c →
  config_store_save timer_us (Some c) w = (w', ESP_OK) →
  (config_store_load random (Some out) w').1.2 = ESP_OK ∧
  (config_store_load random (Some out) w').2 = Some c ∧
  (∀ ns key, (ns, key) ≠ (NVS_NS, NVS_KEY) → nvs_lookup (cw_nvs w') ns key = nvs_lookup (cw_nvs w) ns key) ∧
  cw_bus w' = (event_bus_publish (Some (config_saved_event c)) timer_us (cw_bus w)).1 ∧
  ∀ w'', config_store_erase w' = (w'', ESP_OK) →
    (config_store_load random (Some out) w'').1.2 = ESP_ERR_NOT_FOUND ∧
    (config_store_load random (Some out) w'').2 = config_store_set_defaults random (Some out).
Proof.
  intros Hs Hc Hsave. destruct (config_save_stores _ _ _ _ Hsave) as (_ & Hi & Hst & Hother & Hb).
  destruct (config_load_stored random out w' c Hi Hs Hc Hst) as [w1 ->].
  split_and!; try done. intros w'' He.
  destruct (config_erase_clears _ _ _ Hst He) as [Hi'' Hn].
  by destruct (config_load_missing random out w'' Hi'' Hn) as [w2 ->].
Qed.

(** *** Witness *)
Definition witness_config : zoneguard_config :=
  (default config_zero (config_store_set_defaults 3735928559 (Some config_zero))) <| zc_policy_version := 9 |>.
Definition witness_config_world : config_world nvs_map (QE := list_queue) :=
  mk_config_world true {[ (lit "ribosome", lit "table") := [1; 2; 3] ]} (event_bus_init true eb_boot).1.
Definition witness_saved : config_world nvs_map (QE := list_queue) :=
  (config_store_save 8000000 (Some witness_config) witness_config_world).1.

Lemma witness_config_sized : config_sized witness_config.
Proof.
  split.
  - repeat constructor.
  - by forall_compute.
  - by forall_compute.
Qed.

Lemma config_store_roundtrip_witness :
  (config_store_load 7 (Some config_zero) witness_saved).2 = Some witness_config.
Proof.
  refine (proj1 (proj2 (config_store_roundtrip 8000000 7 witness_config config_zero witness_config_world
    witness_saved witness_config_sized _ _))).
  - done.
  - apply pair_named. vm_compute. reflexivity.
Defined.
