(* ===== verification/Rna_membrane.v ===== *)
(** * RNA membrane: what each kind of device may be asked to do

    [membrane/rna_membrane/rna_membrane.c].  A template names a kind of device
    and lists the amino acids (actions) it accepts; the table of templates is
    kept in flash as a checksummed blob, with built-in defaults. *)

From S2P Require Import Prelude Bytes Slots Tables Blobs Nvs Amino_acids.

Definition RNA_TEMPLATE_NAME_LEN : nat := 32.
Definition RNA_TEMPLATE_MAX_AMINOS : nat := 12.
Definition RNA_MAX_TEMPLATES : nat := 16.
Definition RNA_STORE_MAGIC : Z := 0x524E414D.
Definition RNA_STORE_VERSION : Z := 2.
Definition NVS_NS : bytes := lit "rna_membrane".
Definition NVS_KEY : bytes := lit "templates".

Definition RNA_TEMPLATE_ID_INVALID : Z := 0.
Definition RNA_TEMPLATE_ID_LIGHT_SWITCH : Z := 1.
Definition RNA_TEMPLATE_ID_OUTLET : Z := 2.
Definition RNA_TEMPLATE_ID_DOOR : Z := 3.
Definition RNA_TEMPLATE_ID_AIR_CONDITIONER : Z := 4.
Definition RNA_TEMPLATE_ID_DIMMER : Z := 5.
Definition RNA_TEMPLATE_ID_FAN : Z := 6.
Definition RNA_TEMPLATE_ID_SENSOR_READONLY : Z := 7.

(** ** Data *)
Record rna_template := mk_rna_template {
  rn_id : Z;
  rn_name : bytes;
  rn_amino_count : nat;
  rn_aminos : list Z;
  rn_flags : Z
}.

Record rna_template_table := mk_rna_template_table {
  rtt_templates : list rna_template;
  rtt_count : nat
}.

Definition rna_template_zero : rna_template :=
  mk_rna_template 0 (zeros RNA_TEMPLATE_NAME_LEN) 0 (replicate RNA_TEMPLATE_MAX_AMINOS 0) 0.
Definition rna_table_zero : rna_template_table :=
  mk_rna_template_table (replicate RNA_MAX_TEMPLATES rna_template_zero) 0.

(** An initialiser of [RNA_DEFAULT_TEMPLATES]: the fields not named are zero. *)
Definition default_template (id : Z) (name : bytes) (aminos : list Z) : rna_template :=
  mk_rna_template id (name ++ zeros (RNA_TEMPLATE_NAME_LEN - List.length name)) (List.length aminos)
    (aminos ++ replicate (RNA_TEMPLATE_MAX_AMINOS - List.length aminos) 0) 0.

Definition RNA_DEFAULT_TEMPLATES : list rna_template := [
  default_template RNA_TEMPLATE_ID_LIGHT_SWITCH (lit "LIGHT_SWITCH")
    [AMINO_ON; AMINO_OFF; AMINO_TOGGLE; AMINO_READ_STATE];
  default_template RNA_TEMPLATE_ID_OUTLET (lit "OUTLET")
    [AMINO_ON; AMINO_OFF; AMINO_TOGGLE; AMINO_READ_STATE];
  default_template RNA_TEMPLATE_ID_DOOR (lit "DOOR")
    [AMINO_OPEN; AMINO_CLOSE; AMINO_LOCK; AMINO_UNLOCK; AMINO_READ_STATE];
  default_template RNA_TEMPLATE_ID_AIR_CONDITIONER (lit "AIR_CONDITIONER")
    [AMINO_ON; AMINO_OFF; AMINO_SET_TEMPERATURE; AMINO_SET_SPEED; AMINO_SET_MODE; AMINO_READ_STATE];
  default_template RNA_TEMPLATE_ID_DIMMER (lit "DIMMER")
    [AMINO_ON; AMINO_OFF; AMINO_TOGGLE; AMINO_SET_LEVEL; AMINO_READ_STATE];
  default_template RNA_TEMPLATE_ID_FAN (lit "FAN")
    [AMINO_ON; AMINO_OFF; AMINO_TOGGLE; AMINO_SET_SPEED; AMINO_READ_STATE];
  default_template RNA_TEMPLATE_ID_SENSOR_READONLY (lit "SENSOR_READ_ONLY") [AMINO_READ_STATE]
].

(** ** Templates *)
Definition table_count_valid (table : option rna_template_table) : bool :=
  match table with Some t => (rtt_count t <=? RNA_MAX_TEMPLATES)%nat | None => false end.

Definition rna_template_id_valid (template_id : Z) : bool :=
  negb (template_id =? RNA_TEMPLATE_ID_INVALID).

Definition rna_template_clear (template_rule : option rna_template) : option rna_template :=
  match template_rule with Some _ => Some rna_template_zero | None => None end.

(** [rna_template_clear(dst)], then the field copies. *)
Definition copy_template_sanitized (src : rna_template) : rna_template :=
  let dst := rna_template_zero in
  mk_rna_template (rn_id src) (strncpy (rn_name dst) (rn_name src) (RNA_TEMPLATE_NAME_LEN - 1))
    (rn_amino_count src) (take RNA_TEMPLATE_MAX_AMINOS (rn_aminos src)) (rn_flags src).

(** The two loops of [rna_template_validate]: [seen] are the actions before. *)
Fixpoint aminos_valid (seen aminos : list Z) : bool :=
  match aminos with
  | [] => true
  | amino_id :: aminos' =>
    if negb (amino_acid_id_valid amino_id) then false
    else if existsb (fun a => a =? amino_id) seen then false
    else aminos_valid (seen ++ [amino_id]) aminos'
  end.

Definition rna_template_validate (template_rule : option rna_template) : esp_err :=
  match template_rule with
  | None => ESP_ERR_INVALID_ARG
  | Some r =>
    if negb (rna_template_id_valid (rn_id r)) ||
       negb (string_valid (Some (rn_name r)) RNA_TEMPLATE_NAME_LEN) ||
       (rn_amino_count r =? 0)%nat || (RNA_TEMPLATE_MAX_AMINOS <? rn_amino_count r)%nat
    then ESP_ERR_INVALID_ARG
    else if aminos_valid [] (take (rn_amino_count r) (rn_aminos r)) then ESP_OK
    else ESP_ERR_INVALID_ARG
  end.

Definition rna_template_has_capability (template_rule : option rna_template) (amino_id : Z) : bool :=
  match template_rule with
  | None => false
  | Some r =>
    if negb (amino_acid_id_valid amino_id) then false
    else if (RNA_TEMPLATE_MAX_AMINOS <? rn_amino_count r)%nat then false
    else existsb (fun a => a =? amino_id) (take (rn_amino_count r) (rn_aminos r))
  end.
Definition rna_template_allows (template_rule : option rna_template) (amino_id : Z) : bool :=
  rna_template_has_capability template_rule amino_id.

(** ** The table *)
Definition rna_template_table_init (table : option rna_template_table) :
    esp_err * option rna_template_table :=
  match table with
  | None => (ESP_ERR_INVALID_ARG, None)
  | Some _ => (ESP_OK, Some rna_table_zero)
  end.

Definition rna_template_table_find (table : option rna_template_table) (template_id : Z) :
    option rna_template :=
  match table with
  | Some t =>
    if negb (table_count_valid table) || negb (rna_template_id_valid template_id) then None
    else
      i ← first_index (fun r => bool_decide (rn_id r = template_id)) (live (rtt_count t) (rtt_templates t));
      rtt_templates t !! i
  | None => None
  end.
Definition template_id_exists (table : option rna_template_table) (template_id : Z) : bool :=
  match rna_template_table_find table template_id with Some _ => true | None => false end.

Definition rna_template_table_add (table : option rna_template_table)
    (template_rule : option rna_template) : esp_err * option rna_template_table :=
  match table, template_rule with
  | Some t, Some r =>
    if negb (table_count_valid table) then (ESP_ERR_INVALID_ARG, table)
    else if (RNA_MAX_TEMPLATES <=? rtt_count t)%nat then (ESP_ERR_NO_MEM, table)
    else if negb (err_ok (rna_template_validate template_rule)) then (ESP_ERR_INVALID_ARG, table)
    else if template_id_exists table (rn_id r) then (ESP_ERR_INVALID_STATE, table)
    else
      (ESP_OK,
       Some (mk_rna_template_table (<[rtt_count t := copy_template_sanitized r]> (rtt_templates t))
               (S (rtt_count t))))
  | _, _ => (ESP_ERR_INVALID_ARG, table)
  end.

Definition rna_template_table_has_capability (table : option rna_template_table)
    (template_id amino_id : Z) : bool :=
  rna_template_has_capability (rna_template_table_find table template_id) amino_id.
Definition rna_template_table_allows (table : option rna_template_table)
    (template_id amino_id : Z) : bool :=
  rna_template_table_has_capability table template_id amino_id.

(** The loops that fill a table from an array: stop at the first error. *)
Fixpoint add_templates (t : rna_template_table) (templates : list rna_template) :
    esp_err * rna_template_table :=
  match templates with
  | [] => (ESP_OK, t)
  | r :: templates' =>
    let '(err, t') := rna_template_table_add (Some t) (Some r) in
    if err_ok err then add_templates (default t t') templates' else (err, t)
  end.

Definition rna_membrane_defaults : list rna_template * nat :=
  (RNA_DEFAULT_TEMPLATES, List.length RNA_DEFAULT_TEMPLATES).

Definition rna_membrane_load_defaults (out_table : option rna_template_table) :
    esp_err * option rna_template_table :=
  match out_table with
  | None => (ESP_ERR_INVALID_ARG, None)
  | Some _ =>
    let '(err, t) := add_templates rna_table_zero rna_membrane_defaults.1 in
    if err_ok err then (ESP_OK, Some t) else (err, Some rna_table_zero)
  end.

(** ** The blob *)
(** [sizeof(rna_template_t)]: identifier, name, action count, one byte of
    padding, twelve 32-bit actions, flags. *)
Definition rna_template_size : nat := 88.
Definition rna_blob_size : nat := blob_size rna_template_size RNA_MAX_TEMPLATES.

Definition template_image (r : rna_template) : bytes :=
  le16 (rn_id r) ++ rn_name r ++ [Z.of_nat (rn_amino_count r)] ++ [0] ++
  concat (le32 <$> rn_aminos r) ++ le32 (rn_flags r).
Definition template_of_image (b : bytes) : rna_template :=
  mk_rna_template (of_le16 (slice b 0 2)) (slice b 2 RNA_TEMPLATE_NAME_LEN)
    (Z.to_nat (nth 34 b 0))
    ((fun i => of_le32 (slice (slice b 36 48) (i * 4) 4)) <$> seq 0 RNA_TEMPLATE_MAX_AMINOS)
    (of_le32 (slice b 84 4)).

Definition blob_checksum (blob : bytes) : Z :=
  fnv1a FNV_OFFSET (take (blob_checksum_offset rna_template_size RNA_MAX_TEMPLATES) blob).

Definition table_to_blob (table : option rna_template_table) : esp_err * bytes :=
  match table with
  | None => (ESP_ERR_INVALID_ARG, zeros rna_blob_size)
  | Some t =>
    if negb (table_count_valid table) || (rtt_count t =? 0)%nat
    then (ESP_ERR_INVALID_ARG, zeros rna_blob_size)
    else
      let '(err, validated) := add_templates rna_table_zero (take (rtt_count t) (rtt_templates t)) in
      if negb (err_ok err) then (err, zeros rna_blob_size)
      else
        (ESP_OK,
         blob_image RNA_STORE_MAGIC RNA_STORE_VERSION (u16 (Z.of_nat (rtt_count validated)))
           (blob_body rna_template_size RNA_MAX_TEMPLATES (template_image <$> rtt_templates validated)))
  end.

Definition blob_to_table (blob : bytes) (out_table : rna_template_table) :
    esp_err * rna_template_table :=
  if negb (blob_magic blob =? RNA_STORE_MAGIC) || negb (blob_version blob =? RNA_STORE_VERSION) ||
     (blob_count blob =? 0) || (Z.of_nat RNA_MAX_TEMPLATES <? blob_count blob)
  then (ESP_ERR_INVALID_VERSION, out_table)
  else if negb (blob_checksum_field rna_template_size RNA_MAX_TEMPLATES blob =? blob_checksum blob)
  then (ESP_ERR_INVALID_CRC, out_table)
  else
    let templates := (fun i => template_of_image (blob_entry rna_template_size blob i)) <$>
                     seq 0 (Z.to_nat (blob_count blob)) in
    let '(err, table) := add_templates rna_table_zero templates in
    if err_ok err then (ESP_OK, table) else (err, out_table).

(** ** The store *)
Section store.
Context {N : Type} `{Nvs N}.

Definition rna_membrane_load (out_table : option rna_template_table) (n : N) :
    N * esp_err * option rna_template_table :=
  match out_table with
  | None => (n, ESP_ERR_INVALID_ARG, None)
  | Some _ =>
    let table := rna_table_zero in
    let '(n, err) := nvs_open NVS_NS NVS_READONLY n in
    if negb (err_ok err) then (n, err, Some table)
    else
      let '(err, blob) := nvs_get_blob NVS_NS NVS_KEY rna_blob_size n in
      if negb (err_ok err) then (n, err, Some table)
      else if negb (List.length blob =? rna_blob_size)%nat then (n, ESP_ERR_INVALID_SIZE, Some table)
      else
        let '(err, table) := blob_to_table blob table in
        (n, err, Some table)
  end.

Definition rna_membrane_load_or_init (out_table : option rna_template_table) (n : N) :
    N * esp_err * option rna_template_table :=
  match out_table with
  | None => (n, ESP_ERR_INVALID_ARG, None)
  | Some _ =>
    let '(n, err, table) := rna_membrane_load out_table n in
    if err_ok err then (n, ESP_OK, table)
    else if negb (err_eqb err ESP_ERR_NVS_NOT_FOUND) then (n, err, table)
    else let '(err, table) := rna_membrane_load_defaults table in (n, err, table)
  end.

Definition rna_membrane_save (table : option rna_template_table) (n : N) : N * esp_err :=
  let '(err, blob) := table_to_blob table in
  if negb (err_ok err) then (n, err)
  else
    let '(n, err) := nvs_open NVS_NS NVS_READWRITE n in
    if negb (err_ok err) then (n, err)
    else
      let '(n, err) := nvs_set_blob NVS_NS NVS_KEY blob n in
      if err_ok err then nvs_commit NVS_NS n else (n, err).

Definition rna_membrane_erase (n : N) : N * esp_err :=
  let '(n, err) := nvs_open NVS_NS NVS_READWRITE n in
  if negb (err_ok err) then (n, if err_eqb err ESP_ERR_NVS_NOT_FOUND then ESP_OK else err)
  else
    let '(n, err) := nvs_erase_key NVS_NS NVS_KEY n in
    let err := if err_eqb err ESP_ERR_NVS_NOT_FOUND then ESP_OK else err in
    if err_ok err then nvs_commit NVS_NS n else (n, err).
End store.

(** ** Specification *)
(** The actions a template grants. *)
Definition grants (r : rna_template) : gset Z := list_to_set (take (rn_amino_count r) (rn_aminos r)).

(** A stored template: valid, its name in normal form. *)
Record template_ok (r : rna_template) : Prop := mk_template_ok {
  tok_id : rn_id r ≠ RNA_TEMPLATE_ID_INVALID;
  tok_name : c_str (rn_name r) ≠ [];
  tok_name_len : (List.length (c_str (rn_name r)) ≤ 31)%nat;
  tok_name_image : rn_name r = c_str (rn_name r) ++
                   zeros (RNA_TEMPLATE_NAME_LEN - List.length (c_str (rn_name r)));
  tok_count : (1 ≤ rn_amino_count r ≤ RNA_TEMPLATE_MAX_AMINOS)%nat;
  tok_aminos : List.length (rn_aminos r) = RNA_TEMPLATE_MAX_AMINOS;
  tok_actions : Forall (fun a => amino_acid_id_valid a = true) (take (rn_amino_count r) (rn_aminos r));
  tok_distinct : NoDup (take (rn_amino_count r) (rn_aminos r))
}.

Definition rtt_list (t : rna_template_table) : list rna_template :=
  live (rtt_count t) (rtt_templates t).
Definition rtt_map (t : rna_template_table) : gmap Z rna_template := kmap rn_id (rtt_list t).

(** The abstract table: what each template identifier grants. *)
Definition rna_grants (t : rna_template_table) : gmap Z (gset Z) := grants <$> rtt_map t.

Record rtt_inv (t : rna_template_table) : Prop := mk_rtt_inv {
  rtti_length : List.length (rtt_templates t) = RNA_MAX_TEMPLATES;
  rtti_count : (rtt_count t ≤ RNA_MAX_TEMPLATES)%nat;
  rtti_ok : Forall template_ok (rtt_list t);
  rtti_keys : NoDup (rn_id <$> rtt_list t);
  rtti_rest : drop (rtt_count t) (rtt_templates t) =
              replicate (RNA_MAX_TEMPLATES - rtt_count t) rna_template_zero
}.

(** A template a caller may pass: its buffers have their sizes. *)
Definition template_sized (r : rna_template) : Prop :=
  List.length (rn_aminos r) = RNA_TEMPLATE_MAX_AMINOS.

(** ** Validation *)
Lemma aminos_valid_spec seen aminos :
  aminos_valid seen aminos = true ↔
  Forall (fun a => amino_acid_id_valid a = true) aminos ∧ NoDup aminos ∧
  ∀ a, a ∈ aminos → a ∉ seen.
Proof.
  revert seen. induction aminos as [|a l IH]; intros seen; cbn [aminos_valid].
  - split; [|done]. intros _. split; [constructor|]. split; [constructor|]. intros a Ha. inversion Ha.
  - destruct (amino_acid_id_valid a) eqn:Ea; cbn [negb].
    2: { split; [done|]. intros (Hf & _). apply Forall_cons in Hf as [? _]. congruence. }
    assert (existsb (fun x => x =? a) seen = true ↔ a ∈ seen) as Hex.
    { rewrite existsb_exists. setoid_rewrite Z.eqb_eq. setoid_rewrite <- list_elem_of_In. naive_solver. }
    destruct (existsb _ seen) eqn:Es.
    { split; [done|]. intros (_ & _ & Hs). destruct (Hs a); [by left | by apply Hex]. }
    assert (a ∉ seen) as Hns by (intros Hin; by apply Hex in Hin).
    rewrite IH, Forall_cons, NoDup_cons. setoid_rewrite elem_of_app.
    setoid_rewrite elem_of_cons. setoid_rewrite elem_of_nil. naive_solver.
Qed.

Lemma template_validate_spec r :
  rna_template_validate (Some r) = ESP_OK ↔
  rn_id r ≠ RNA_TEMPLATE_ID_INVALID ∧ c_str (rn_name r) ≠ [] ∧
  (List.length (c_str (rn_name r)) ≤ 31)%nat ∧
  (1 ≤ rn_amino_count r ≤ RNA_TEMPLATE_MAX_AMINOS)%nat ∧
  Forall (fun a => amino_acid_id_valid a = true) (take (rn_amino_count r) (rn_aminos r)) ∧
  NoDup (take (rn_amino_count r) (rn_aminos r)).
Proof.
  unfold rna_template_validate, rna_template_id_valid.
  assert (aminos_valid [] (take (rn_amino_count r) (rn_aminos r)) = true ↔
    Forall (fun a => amino_acid_id_valid a = true) (take (rn_amino_count r) (rn_aminos r)) ∧
    NoDup (take (rn_amino_count r) (rn_aminos r))) as Ha.
  { rewrite aminos_valid_spec. split; [tauto|]. intros [H1 H2]. split_and!; [done | done|].
    intros a _ Hn. inversion Hn. }
  pose proof (string_valid_spec (rn_name r) RNA_TEMPLATE_NAME_LEN) as Hs.
  rewrite negb_involutive. destruct (rn_id r =? RNA_TEMPLATE_ID_INVALID) eqn:E1; bools; cbn [orb].
  { split; [done | by intros (? & _)]. }
  destruct (string_valid _ _) eqn:E2; cbn [negb orb].
  2: { split; [done|]. intros (_ & Hn & Hl & _). unfold RNA_TEMPLATE_NAME_LEN in Hs.
       assert (false = true); [|done]. apply Hs. split; [done | lia]. }
  destruct (proj1 Hs eq_refl) as [Hn Hl]. unfold RNA_TEMPLATE_NAME_LEN in Hl.
  destruct (rn_amino_count r =? 0)%nat eqn:E3; cbn [orb].
  { apply Nat.eqb_eq in E3. split; [done|]. intros (_ & _ & _ & ? & _). lia. }
  apply Nat.eqb_neq in E3.
  destruct (RNA_TEMPLATE_MAX_AMINOS <? rn_amino_count r)%nat eqn:E4; cbn [orb].
  { apply Nat.ltb_lt in E4. split; [done|]. intros (_ & _ & _ & ? & _). lia. }
  apply Nat.ltb_ge in E4. destruct (aminos_valid _ _).
  - destruct (proj1 Ha eq_refl). split; [intros _ | done]. split_and!; try done; lia.
  - split; [done|]. intros (_ & _ & _ & _ & Hx). assert (false = true); [|done]. by apply Ha.
Qed.

(** The copy of a valid template is a stored template with the same grants. *)
Lemma copy_template_valid r :
  rna_template_validate (Some r) = ESP_OK → template_sized r →
  template_ok (copy_template_sanitized r) ∧ grants (copy_template_sanitized r) = grants r ∧
  rn_id (copy_template_sanitized r) = rn_id r.
Proof.
  intros (H1 & H2 & H3 & H4 & H5 & H6)%template_validate_spec Hs.
  assert (strncpy (zeros RNA_TEMPLATE_NAME_LEN) (rn_name r) (RNA_TEMPLATE_NAME_LEN - 1) =
          c_str (rn_name r) ++ zeros (RNA_TEMPLATE_NAME_LEN - List.length (c_str (rn_name r)))) as En.
  { unfold strncpy. rewrite strncpy_bytes_spec.
    change (RNA_TEMPLATE_NAME_LEN - 1)%nat with 31%nat.
    change (drop 31 (zeros RNA_TEMPLATE_NAME_LEN)) with (zeros 1).
    rewrite take_ge by lia. rewrite <- app_assoc. f_equal. unfold zeros.
    rewrite <- replicate_add. f_equal. unfold RNA_TEMPLATE_NAME_LEN. lia. }
  assert (c_str (c_str (rn_name r) ++ zeros (RNA_TEMPLATE_NAME_LEN - List.length (c_str (rn_name r))))
          = c_str (rn_name r)) as Ec by apply c_str_app_zeros, c_str_no_zero.
  unfold copy_template_sanitized, grants. cbn [rn_name rna_template_zero rn_amino_count rn_aminos rn_id].
  rewrite En, (take_ge (rn_aminos r)) by (rewrite Hs; done).
  split; [|done].
  constructor; cbn [rn_name rn_amino_count rn_aminos rn_id]; rewrite ?Ec; done.
Qed.

Lemma copy_template_ok r : template_ok r → copy_template_sanitized r = r.
Proof.
  intros [H1 H2 H3 H4 H5 H6 H7 H8]. destruct r as [id name cnt aminos flags].
  unfold copy_template_sanitized. cbn [rn_name rna_template_zero rn_amino_count rn_aminos rn_id rn_flags] in *.
  rewrite take_ge by lia. f_equal. unfold strncpy. rewrite strncpy_bytes_spec.
  change (RNA_TEMPLATE_NAME_LEN - 1)%nat with 31%nat.
  change (drop 31 (zeros RNA_TEMPLATE_NAME_LEN)) with (zeros 1).
  rewrite take_ge by lia. rewrite H4 at 3. rewrite <- app_assoc. f_equal. unfold zeros.
  rewrite <- replicate_add. f_equal. unfold RNA_TEMPLATE_NAME_LEN. lia.
Qed.

(** ** The table *)
Lemma rtt_count_valid t : rtt_inv t → table_count_valid (Some t) = true.
Proof. intros [_ Hc _ _ _]. by apply Nat.leb_le. Qed.

Lemma length_rtt_list t : rtt_inv t → List.length (rtt_list t) = rtt_count t.
Proof. intros [Hl Hc _ _ _]. unfold rtt_list, live. rewrite length_take. lia. Qed.

Lemma rtt_map_size t : rtt_inv t → size (rtt_map t) = rtt_count t.
Proof. intros H. unfold rtt_map. rewrite kmap_size by apply H. by apply length_rtt_list. Qed.

Lemma table_find_spec t id :
  rtt_inv t → rna_template_table_find (Some t) id = rtt_map t !! id.
Proof.
  intros Hi. unfold rna_template_table_find. rewrite (rtt_count_valid t Hi).
  unfold rna_template_id_valid. rewrite negb_involutive. cbn [negb orb].
  destruct (id =? RNA_TEMPLATE_ID_INVALID) eqn:Eid; bools.
  - symmetry. apply kmap_None. intros (r & -> & Hr)%list_elem_of_fmap.
    pose proof (rtti_ok t Hi) as Hf. rewrite Forall_forall in Hf. by destruct (Hf r Hr).
  - fold (rtt_list t). destruct (first_index _ _) as [i|] eqn:E.
    + apply key_index_Some in E as (r & Hl & _ & Hr); [|apply Hi]. cbn.
      unfold rtt_map. rewrite Hr. unfold rtt_list, live in Hl. by apply lookup_take_Some in Hl as [? _].
    + apply key_index_None in E. unfold rtt_map. by rewrite E.
Qed.

Lemma rtt_append t r :
  rtt_inv t → template_ok r → (rtt_count t < RNA_MAX_TEMPLATES)%nat → rtt_map t !! rn_id r = None →
  let t' := mk_rna_template_table (<[rtt_count t := r]> (rtt_templates t)) (S (rtt_count t)) in
  rtt_inv t' ∧ rtt_list t' = rtt_list t ++ [r] ∧ rtt_map t' = <[rn_id r := r]> (rtt_map t).
Proof.
  intros [Hl Hc Hok Hk Hr] He Hlt Hn. cbv zeta.
  assert (rtt_list (mk_rna_template_table (<[rtt_count t := r]> (rtt_templates t)) (S (rtt_count t)))
          = rtt_list t ++ [r]) as El.
  { unfold rtt_list. cbn. apply live_append. lia. }
  unfold rtt_map in Hn. apply kmap_None in Hn. split; [|split; [done|]].
  - constructor; rewrite ?El; cbn [rtt_templates rtt_count].
    + by rewrite length_insert.
    + lia.
    + apply Forall_app. split; [done | by constructor].
    + rewrite fmap_app. apply NoDup_app. split; [done|]. split; [|apply NoDup_singleton].
      intros x Hx. intros Hs. apply list_elem_of_singleton in Hs as ->. done.
    + rewrite drop_append. rewrite <- Nat.add_1_r, <- drop_drop, Hr.
      replace (RNA_MAX_TEMPLATES - rtt_count t)%nat
        with (S (RNA_MAX_TEMPLATES - (rtt_count t + 1))) by lia. done.
  - unfold rtt_map. rewrite El. by apply kmap_snoc.
Qed.

(** One addition. *)
Lemma table_add_spec t r :
  rtt_inv t → template_sized r →
  rna_template_table_add (Some t) (Some r) =
  (if (RNA_MAX_TEMPLATES <=? rtt_count t)%nat then (ESP_ERR_NO_MEM, Some t)
   else if negb (err_ok (rna_template_validate (Some r))) then (ESP_ERR_INVALID_ARG, Some t)
   else if bool_decide (is_Some (rtt_map t !! rn_id r)) then (ESP_ERR_INVALID_STATE, Some t)
   else (ESP_OK, Some (mk_rna_template_table
           (<[rtt_count t := copy_template_sanitized r]> (rtt_templates t)) (S (rtt_count t))))) ∧
  (∀ t', rna_template_table_add (Some t) (Some r) = (ESP_OK, Some t') →
     rtt_inv t' ∧ rtt_list t' = rtt_list t ++ [copy_template_sanitized r] ∧
     rtt_map t' = <[rn_id r := copy_template_sanitized r]> (rtt_map t)).
Proof.
  intros Hi Hs.
  assert (rna_template_table_add (Some t) (Some r) =
    (if (RNA_MAX_TEMPLATES <=? rtt_count t)%nat then (ESP_ERR_NO_MEM, Some t)
     else if negb (err_ok (rna_template_validate (Some r))) then (ESP_ERR_INVALID_ARG, Some t)
     else if bool_decide (is_Some (rtt_map t !! rn_id r)) then (ESP_ERR_INVALID_STATE, Some t)
     else (ESP_OK, Some (mk_rna_template_table
             (<[rtt_count t := copy_template_sanitized r]> (rtt_templates t)) (S (rtt_count t))))))
    as E.
  { unfold rna_template_table_add, template_id_exists.
    rewrite (rtt_count_valid t Hi), table_find_spec by done. cbn [negb].
    destruct (rtt_map t !! rn_id r) as [x|];
      [rewrite bool_decide_eq_true_2 by done | rewrite bool_decide_eq_false_2 by (by intros [? ?])];
      done. }
  split; [exact E|]. intros t'. rewrite E.
  destruct (RNA_MAX_TEMPLATES <=? rtt_count t)%nat eqn:Ef; [done|]. apply Nat.leb_gt in Ef.
  destruct (err_ok _) eqn:Ev; cbn [negb]; [|done]. apply err_ok_true in Ev.
  case_bool_decide as Hx; [done|]. intros [= <-].
  destruct (copy_template_valid r Ev Hs) as (Hok & _ & Hid).
  rewrite <- Hid. apply rtt_append; try done. rewrite Hid. by apply eq_None_not_Some.
Qed.

Lemma add_templates_inv t templates t' :
  rtt_inv t → Forall template_sized templates →
  add_templates t templates = (ESP_OK, t') → rtt_inv t'.
Proof.
  intros Hi Hs. revert t Hi. induction Hs as [|r l Hr _ IH]; intros t Hi; cbn [add_templates].
  - by intros [= <-].
  - destruct (rna_template_table_add _ _) as [err o] eqn:E.
    destruct (err_ok err) eqn:Ee; [apply err_ok_true in Ee as -> | apply err_ok_false in Ee].
    + destruct (table_add_spec t r Hi Hr) as [Eq Ha].
      destruct o as [t1|]; [|rewrite E in Eq; by repeat case_match]. intros Hadd. apply (IH t1); [|done].
      by apply Ha.
    + by intros [= ? _].
Qed.

(** Stored templates with new, distinct identifiers are all accepted, in order. *)
Lemma add_templates_ok t templates :
  rtt_inv t → Forall template_ok templates → NoDup (rn_id <$> rtt_list t ++ templates) →
  (List.length (rtt_list t ++ templates) ≤ RNA_MAX_TEMPLATES)%nat →
  ∃ t', add_templates t templates = (ESP_OK, t') ∧ rtt_inv t' ∧ rtt_list t' = rtt_list t ++ templates.
Proof.
  intros Hi Hok. revert t Hi. induction Hok as [|r l Hr _ IH]; intros t Hi Hn Hl.
  - exists t. cbn. by rewrite app_nil_r.
  - assert (rtt_count t < RNA_MAX_TEMPLATES)%nat as Hlt.
    { rewrite length_app, (length_rtt_list t Hi) in Hl. cbn in Hl. lia. }
    assert (rtt_map t !! rn_id r = None) as Hfresh.
    { apply kmap_None. intros Hin. rewrite fmap_app in Hn. apply NoDup_app in Hn as (_ & Hd & _).
      apply (Hd _ Hin). by left. }
    destruct (table_add_spec t r Hi (tok_aminos r Hr)) as [E Ha].
    assert (rna_template_validate (Some r) = ESP_OK) as Hv
      by (apply template_validate_spec; by destruct Hr).
    rewrite (proj2 (Nat.leb_gt _ _) Hlt), Hv, (proj2 (err_ok_true ESP_OK) eq_refl), Hfresh in E.
    rewrite bool_decide_eq_false_2 in E by (by intros [? ?]). cbn [negb] in E.
    rewrite (copy_template_ok r Hr) in E.
    destruct (Ha _ E) as (Hi' & El & _). rewrite (copy_template_ok r Hr) in El.
    destruct (IH _ Hi') as (t' & Hadd & Hi'' & Hlist).
    { by rewrite El, <- app_assoc. }
    { by rewrite El, <- app_assoc. }
    exists t'. split; [|split; [done|]].
    + cbn [add_templates]. rewrite E, (proj2 (err_ok_true ESP_OK) eq_refl). exact Hadd.
    + by rewrite Hlist, El, <- app_assoc.
Qed.

Lemma rna_table_zero_inv : rtt_inv rna_table_zero.
Proof.
  constructor; [done | cbn; lia | exact (Forall_nil_2 _) | exact NoDup_nil_2 | done].
Qed.

Lemma rtt_ext t t' : rtt_inv t → rtt_inv t' → rtt_list t = rtt_list t' → t = t'.
Proof.
  intros Hi Hi' E. pose proof (length_rtt_list t Hi) as El. pose proof (length_rtt_list t' Hi') as El'.
  destruct Hi as [_ _ _ _ Hr], Hi' as [_ _ _ _ Hr'].
  assert (rtt_count t = rtt_count t') as Ec by congruence.
  destruct t as [es n], t' as [es' n']. cbn [rtt_templates rtt_count] in *. subst n'. f_equal.
  rewrite <- (take_drop n es), <- (take_drop n es'), Hr, Hr'. unfold rtt_list, live in E.
  cbn in E. by rewrite E.
Qed.

(** ** Templates in memory *)
Definition template_ranged (r : rna_template) : Prop :=
  is_u16 (rn_id r) ∧ Forall is_u32 (rn_aminos r) ∧ is_u32 (rn_flags r).

Lemma length_concat_le32 l : List.length (concat (le32 <$> l)) = (List.length l * 4)%nat.
Proof. induction l as [|x l IH]; [done|]. cbn [fmap list_fmap concat]. rewrite length_app, IH. done. Qed.

(** Templates whose buffers have their sizes have images of the right size. *)
Definition template_shaped (r : rna_template) : Prop :=
  List.length (rn_name r) = RNA_TEMPLATE_NAME_LEN ∧ template_sized r.

Lemma template_ok_shaped r : template_ok r → template_shaped r.
Proof.
  intros [_ _ Hl Hi _ Ha _ _]. split; [|done]. rewrite Hi, length_app, length_zeros.
  unfold RNA_TEMPLATE_NAME_LEN. lia.
Qed.

Lemma length_template_image r : template_shaped r → List.length (template_image r) = rna_template_size.
Proof.
  intros [Hn Ha]. unfold template_image. rewrite !length_app, Hn, length_concat_le32, Ha. done.
Qed.

Lemma template_of_template_image r :
  template_ok r → template_ranged r → template_of_image (template_image r) = r.
Proof.
  intros Hok (Hid & Ham & Hfl). destruct (template_ok_shaped r Hok) as [Hn Ha].
  destruct Hok as [_ _ _ _ Hc _ _ _]. unfold template_of_image, template_image.
  destruct r as [id name cnt aminos flags]. unfold template_sized in Ha.
  cbn [rn_id rn_name rn_amino_count rn_aminos rn_flags] in *.
  change RNA_TEMPLATE_NAME_LEN with 32%nat in *.
  assert (List.length (concat (le32 <$> aminos)) = 48%nat) as H48 by (by rewrite length_concat_le32, Ha).
  f_equal.
  - rewrite slice_app_here by done. by apply of_le16_le16'.
  - rewrite slice_app_skip by (cbn; lia). by rewrite slice_app_here.
  - rewrite app_nth2 by (cbn; lia). rewrite app_nth2 by (rewrite Hn; cbn; lia). rewrite Hn. cbn. lia.
  - assert (slice (le16 id ++ name ++ [Z.of_nat cnt] ++ [0] ++ concat (le32 <$> aminos) ++ le32 flags)
              36 48 = concat (le32 <$> aminos)) as ->.
    { rewrite slice_app_skip by (cbn; lia). rewrite slice_app_skip, Hn by (rewrite Hn; cbn; lia).
      rewrite !slice_app_skip by (cbn; lia). by apply slice_app_here. }
    apply list_eq. intros i. rewrite list_lookup_fmap.
    destruct (aminos !! i) as [a|] eqn:Ei.
    + pose proof (lookup_lt_Some _ _ _ Ei) as Hi. rewrite lookup_seq_lt by lia.
      cbn [fmap option_fmap option_map]. f_equal.
      rewrite <- (app_nil_r (concat (le32 <$> aminos))).
      rewrite (slice_concat 4 _ i (le32 a)).
      * apply of_le32_le32'. by eapply Forall_lookup_1.
      * by apply Forall_fmap, Forall_true.
      * by rewrite list_lookup_fmap, Ei.
    + apply lookup_ge_None in Ei. rewrite lookup_seq_ge by lia. done.
  - rewrite slice_app_skip by (cbn; lia). rewrite slice_app_skip, Hn by (rewrite Hn; cbn; lia).
    rewrite !slice_app_skip by (rewrite ?H48; cbn; lia). rewrite H48. rewrite slice_all by done.
    by apply of_le32_le32'.
Qed.

(** ** A table and its blob *)
Lemma rna_table_to_blob_to_table t out :
  rtt_inv t → (1 ≤ rtt_count t)%nat → Forall template_ranged (rtt_list t) →
  ∃ blob, table_to_blob (Some t) = (ESP_OK, blob) ∧ List.length blob = rna_blob_size ∧
          blob_to_table blob out = (ESP_OK, t).
Proof.
  intros Hinv Hpos Hrng. pose proof (length_rtt_list t Hinv) as Hlen.
  pose proof Hinv as [Hl Hc Hok Hk Hr].
  destruct (add_templates_ok rna_table_zero (rtt_list t)) as (t' & Hadd & Hi' & El);
    [exact rna_table_zero_inv | done | done | |].
  { change (List.length (rtt_list t) ≤ RNA_MAX_TEMPLATES)%nat. lia. }
  change (rtt_list rna_table_zero ++ rtt_list t) with (rtt_list t) in El.
  apply rtt_ext in El as ->; [|done|done].
  assert (u16 (Z.of_nat (rtt_count t)) = Z.of_nat (rtt_count t)) as Hu.
  { apply u16_small. unfold is_u16, RNA_MAX_TEMPLATES in *. lia. }
  set (images := template_image <$> rtt_templates t).
  assert (Forall (fun b => List.length b = rna_template_size) images) as Himg.
  { apply Forall_fmap. rewrite <- (take_drop (rtt_count t) (rtt_templates t)), Hr. apply Forall_app. split.
    - eapply Forall_impl; [exact Hok|]. intros r Hrk. apply length_template_image. by apply template_ok_shaped.
    - apply Forall_replicate. done. }
  assert (List.length (blob_body rna_template_size RNA_MAX_TEMPLATES images) =
          (RNA_MAX_TEMPLATES * rna_template_size)%nat) as Hbody.
  { apply length_blob_body; [done|]. unfold images. by rewrite length_fmap, Hl. }
  assert ((rtt_count t =? 0)%nat = false) as Hz by (apply Nat.eqb_neq; lia).
  eexists. unfold table_to_blob. rewrite (rtt_count_valid t Hinv), Hz. cbn [negb orb].
  fold (live (rtt_count t) (rtt_templates t)).
  fold (rtt_list t). rewrite Hadd, (proj2 (err_ok_true ESP_OK) eq_refl).
  cbn [negb]. split; [done|]. split; [by apply length_blob_image|]. fold images.
  unfold blob_to_table. rewrite blob_image_magic by done. rewrite blob_image_version by done.
  rewrite blob_image_count by (rewrite Hu; unfold is_u16, RNA_MAX_TEMPLATES in *; lia).
  rewrite Hu, !Z.eqb_refl. cbn [negb orb].
  assert ((Z.of_nat (rtt_count t) =? 0) = false) as -> by (apply Z.eqb_neq; lia).
  assert ((Z.of_nat RNA_MAX_TEMPLATES <? Z.of_nat (rtt_count t)) = false) as ->
    by (apply Z.ltb_ge; lia).
  cbn [orb]. unfold blob_checksum. rewrite blob_image_checksum, Z.eqb_refl by done. cbn [negb].
  rewrite Nat2Z.id.
  assert ((fun i => template_of_image (blob_entry rna_template_size
            (blob_image RNA_STORE_MAGIC RNA_STORE_VERSION (Z.of_nat (rtt_count t))
              (blob_body rna_template_size RNA_MAX_TEMPLATES images)) i))
          <$> seq 0 (rtt_count t) = rtt_list t) as ->.
  { apply list_eq. intros i. rewrite list_lookup_fmap.
    destruct (rtt_list t !! i) as [r|] eqn:Ei.
    - pose proof (lookup_lt_Some _ _ _ Ei) as Hi. rewrite lookup_seq_lt by lia.
      cbn [fmap option_fmap option_map].
      rewrite (blob_image_entry _ _ _ _ _ _ i (template_image r)); [|done|].
      + f_equal. apply template_of_template_image; by eapply Forall_lookup_1.
      + unfold images. rewrite list_lookup_fmap.
        unfold rtt_list, live in Ei. apply lookup_take_Some in Ei as [-> _]. done.
    - apply lookup_ge_None in Ei. rewrite lookup_seq_ge by lia. done. }
  by rewrite Hadd, (proj2 (err_ok_true ESP_OK) eq_refl).
Qed.

Lemma rna_blob_to_table_inv blob out t :
  blob_to_table blob out = (ESP_OK, t) → rtt_inv t ∧ blob_checksum_field rna_template_size RNA_MAX_TEMPLATES blob = blob_checksum blob.
Proof.
  unfold blob_to_table. destruct (_ || _) eqn:E1; [done|].
  destruct (_ =? blob_checksum blob) eqn:E2; cbn [negb]; [|done]. bools.
  destruct (add_templates _ _) as [err t'] eqn:Ea.
  destruct (err_ok err) eqn:Ee; [apply err_ok_true in Ee as -> | apply err_ok_false in Ee].
  2: { by intros [= ? _]. }
  intros [= <-]. split; [|done].
  eapply add_templates_inv; [exact rna_table_zero_inv | | exact Ea].
  apply Forall_fmap, Forall_true. intros i. unfold template_sized, template_of_image.
  cbn [compose rn_aminos]. by rewrite length_fmap, length_seq.
Qed.

Lemma rna_blob_to_table_failed blob out err t :
  blob_to_table blob out = (err, t) → err ≠ ESP_OK → t = out.
Proof.
  unfold blob_to_table. destruct (_ || _); [by intros [= <- <-]|].
  destruct (negb _); [by intros [= <- <-]|]. destruct (add_templates _ _) as [e t'].
  destruct (err_ok e); intros [= <- <-]; done.
Qed.

(** The default table. *)
Definition rna_default_table : rna_template_table :=
  (add_templates rna_table_zero RNA_DEFAULT_TEMPLATES).2.

Lemma rna_defaults_ok :
  rna_membrane_load_defaults (Some rna_table_zero) = (ESP_OK, Some rna_default_table) ∧
  rtt_inv rna_default_table.
Proof.
  assert (add_templates rna_table_zero RNA_DEFAULT_TEMPLATES = (ESP_OK, rna_default_table)) as E
    by (vm_compute; reflexivity).
  split; [vm_compute; reflexivity|].
  eapply add_templates_inv; [exact rna_table_zero_inv | | exact E].
  apply (bool_decide_unpack _). vm_compute. exact I.
Qed.

Lemma rna_default_ranged : Forall template_ranged (rtt_list rna_default_table).
Proof.
  assert (rtt_list rna_default_table = RNA_DEFAULT_TEMPLATES) as -> by (vm_compute; reflexivity).
  unfold RNA_DEFAULT_TEMPLATES.
  repeat (constructor; [split; [|split]; [cbv; split; [discriminate | reflexivity] | |
    cbv; split; [discriminate | reflexivity]];
    unfold is_u32; apply (bool_decide_unpack _); vm_compute; exact I|]).
  constructor.
Qed.

Lemma copy_template_ranged r : template_ranged r → template_ranged (copy_template_sanitized r).
Proof. intros (Hid & Ha & Hf). split; [done|]. split; [by apply Forall_take|done]. Qed.

(** ** The store as a map in flash *)
Section flash.
Context {N : Type} `{NvsLaws N}.

(** The templates in force: those of the storage, or the defaults. *)
Definition stored_templates (n : N) : option (gmap Z rna_template) :=
  match nvs_lookup n NVS_NS NVS_KEY with
  | None => Some (rtt_map rna_default_table)
  | Some blob =>
    if (List.length blob =? rna_blob_size)%nat then
      let '(err, t) := blob_to_table blob rna_table_zero in if err_ok err then Some (rtt_map t) else None
    else None
  end.
#[export] Instance stored_templates_proper : Proper (same_flash ==> eq) stored_templates.
Proof. intros n n' E. unfold stored_templates. by rewrite E. Qed.

Lemma rna_load_nvs out n :
  rna_membrane_load (Some out) n =
  (let '(n', err, t) := nvs_load NVS_NS NVS_KEY rna_blob_size blob_to_table rna_table_zero n in
   (n', err, Some t)).
Proof. unfold rna_membrane_load, nvs_load. by repeat case_match. Qed.

Lemma rna_blob_to_table_found b t : blob_to_table b rna_table_zero ≠ (ESP_ERR_NVS_NOT_FOUND, t).
Proof.
  assert (∀ l t0 t1, Forall template_sized l → rtt_inv t0 → add_templates t0 l ≠ (ESP_ERR_NVS_NOT_FOUND, t1)) as Ha.
  { induction l as [|r l IH]; intros t0 t1 Hs Hi; cbn [add_templates]; [done|]. inversion_clear Hs.
    destruct (table_add_spec t0 r Hi) as [Eq Ha]; [done|].
    destruct (rna_template_table_add _ _) as [err o]. destruct (err_ok err) eqn:Ee.
    - apply err_ok_true in Ee as ->. destruct o as [t2|]; [|by repeat case_match].
      destruct (Ha _ eq_refl) as [Hi2 _]. by apply IH.
    - intros [= -> _]. by repeat case_match. }
  unfold blob_to_table. repeat (case_match; try done). intros [= -> _].
  eapply Ha; [| |done]; [|exact rna_table_zero_inv].
  apply Forall_fmap, Forall_true. intros i. unfold template_sized, template_of_image.
  cbn [compose rn_aminos]. by rewrite length_fmap, length_seq.
Qed.

Lemma rna_save_stores t (n n' : N) :
  rtt_inv t → (1 ≤ rtt_count t)%nat → Forall template_ranged (rtt_list t) →
  rna_membrane_save (Some t) n = (n', ESP_OK) →
  (∃ blob, nvs_lookup n' NVS_NS NVS_KEY = Some blob ∧ List.length blob = rna_blob_size ∧
           blob_to_table blob rna_table_zero = (ESP_OK, t)) ∧
  ∀ ns key, (ns, key) ≠ (NVS_NS, NVS_KEY) → nvs_lookup n' ns key = nvs_lookup n ns key.
Proof.
  intros Hinv Hpos Hrng Hsave.
  destruct (rna_table_to_blob_to_table t rna_table_zero Hinv Hpos Hrng) as (blob & Hto & Hlen & Hback).
  unfold rna_membrane_save in Hsave. rewrite Hto in Hsave.
  apply (nvs_write_ok NVS_NS NVS_KEY blob) in Hsave as [Hget Hother]. by eauto.
Qed.

Lemma rna_save_load t (n n' : N) :
  rtt_inv t → (1 ≤ rtt_count t)%nat → Forall template_ranged (rtt_list t) →
  rna_membrane_save (Some t) n = (n', ESP_OK) →
  ∀ out, ∃ n1, rna_membrane_load (Some out) n' = (n1, ESP_OK, Some t).
Proof.
  intros Hinv Hpos Hrng Hsave out.
  destruct (rna_save_stores t n n' Hinv Hpos Hrng Hsave) as [(blob & Hg & Hl & Hb) _].
  rewrite rna_load_nvs. destruct (nvs_load_stored _ _ _ _ _ _ _ _ Hg Hl Hb) as [n1 ->]. by exists n1.
Qed.

Lemma stored_templates_save t (n n' : N) :
  rtt_inv t → (1 ≤ rtt_count t)%nat → Forall template_ranged (rtt_list t) →
  rna_membrane_save (Some t) n = (n', ESP_OK) → stored_templates n' = Some (rtt_map t).
Proof.
  intros Hi Hp Hr Hs. destruct (rna_save_stores t n n' Hi Hp Hr Hs) as [(blob & Hg & Hl & Hb) _].
  unfold stored_templates. rewrite Hg, Hl, Nat.eqb_refl, Hb. by rewrite (proj2 (err_ok_true ESP_OK) eq_refl).
Qed.

Lemma add_templates_ranged t templates t' :
  rtt_inv t → Forall template_sized templates → Forall template_ranged templates →
  Forall template_ranged (rtt_list t) →
  add_templates t templates = (ESP_OK, t') → Forall template_ranged (rtt_list t').
Proof.
  intros Hi Hs. revert t Hi. induction Hs as [|r l Hr _ IH]; intros t Hi Hrl Ht; cbn [add_templates].
  - by intros [= <-].
  - inversion_clear Hrl as [|? ? Hre Hrest].
    destruct (rna_template_table_add _ _) as [err o] eqn:E.
    destruct (err_ok err) eqn:Ee; [apply err_ok_true in Ee as -> | apply err_ok_false in Ee].
    2: { by intros [= ? _]. }
    destruct (table_add_spec t r Hi Hr) as [Eq Ha].
    destruct o as [t1|]; [|rewrite E in Eq; by repeat case_match].
    destruct (Ha _ E) as (Hi1 & El & _). intros Hadd. apply (IH t1); [done|done| |done].
    change (Forall template_ranged (rtt_list t1)). rewrite El. apply Forall_app. split; [done|].
    constructor; [|done]. by apply copy_template_ranged.
Qed.

Lemma rna_blob_to_table_ranged blob out t :
  Forall is_u8 blob → blob_to_table blob out = (ESP_OK, t) → Forall template_ranged (rtt_list t).
Proof.
  intros Hb. unfold blob_to_table. destruct (_ || _) eqn:E1; [done|].
  destruct (_ =? blob_checksum blob) eqn:E2; cbn [negb]; [|done]. bools.
  destruct (add_templates _ _) as [err t'] eqn:Ea.
  destruct (err_ok err) eqn:Ee; [apply err_ok_true in Ee as -> | apply err_ok_false in Ee].
  2: { by intros [= ? _]. }
  intros [= <-].
  eapply add_templates_ranged; [exact rna_table_zero_inv| | |by constructor|exact Ea];
    apply Forall_fmap, Forall_true; intros i; unfold template_sized, template_ranged, template_of_image, blob_entry;
    cbn [compose rn_aminos rn_id rn_flags].
  - by rewrite length_fmap, length_seq.
  - split; [by apply of_le16_u16, slice_bytes, slice_bytes|].
    split; [|by apply of_le32_u32, slice_bytes, slice_bytes].
    apply Forall_fmap, Forall_true. intros j. by apply of_le32_u32, slice_bytes, slice_bytes, slice_bytes.
Qed.

Lemma rna_load_or_init_spec out (n n' : N) err t :
  rna_membrane_load_or_init (Some out) n = (n', err, t) →
  same_flash n n' ∧
  (err = ESP_OK → ∃ t', t = Some t' ∧ rtt_inv t' ∧ stored_templates n = Some (rtt_map t') ∧
                        (flash_bytes n → Forall template_ranged (rtt_list t'))).
Proof.
  unfold rna_membrane_load_or_init. rewrite rna_load_nvs.
  pose proof (nvs_load_spec NVS_NS NVS_KEY rna_blob_size blob_to_table rna_table_zero n
                rna_blob_to_table_found) as Hs.
  destruct (nvs_load _ _ _ _ _ _) as [[n1 e1] t1]. destruct Hs as (Hf & Hok & Hnf).
  destruct (err_ok e1) eqn:E1.
  - apply err_ok_true in E1 as ->. intros [= <- <- <-]. split; [done|]. intros _.
    destruct (Hok eq_refl) as (blob & Hg & Hl & Hb). exists t1. split_and!; [done| | |].
    + by apply (rna_blob_to_table_inv blob rna_table_zero).
    + unfold stored_templates. by rewrite Hg, Hl, Nat.eqb_refl, Hb, (proj2 (err_ok_true ESP_OK) eq_refl).
    + intros Hby. apply (rna_blob_to_table_ranged blob rna_table_zero); [by eapply Hby|done].
  - apply err_ok_false in E1. destruct (err_eqb e1 _) eqn:E2; cbn [negb]; [|intros [= <- <- <-]; by split].
    apply bool_decide_eq_true in E2. destruct (Hnf E2) as [Hg ->].
    rewrite (proj1 rna_defaults_ok). intros [= <- <- <-]. split; [done|]. intros _.
    exists rna_default_table. split_and!; [done|apply rna_defaults_ok| |intros _; exact rna_default_ranged].
    unfold stored_templates. by rewrite Hg.
Qed.
End flash.

(** ** Capabilities *)
Lemma has_capability_spec r a :
  template_ok r → rna_template_has_capability (Some r) a = true ↔ a ∈ grants r.
Proof.
  intros [_ _ _ _ Hc _ Hv _]. unfold rna_template_has_capability, grants.
  rewrite elem_of_list_to_set.
  assert ((RNA_TEMPLATE_MAX_AMINOS <? rn_amino_count r)%nat = false) as -> by (apply Nat.ltb_ge; lia).
  assert (existsb (fun x => x =? a) (take (rn_amino_count r) (rn_aminos r)) = true ↔
          a ∈ take (rn_amino_count r) (rn_aminos r)) as Hex.
  { rewrite existsb_exists. setoid_rewrite Z.eqb_eq. setoid_rewrite <- list_elem_of_In. naive_solver. }
  destruct (amino_acid_id_valid a) eqn:Ea; cbn [negb]; [done|].
  split; [done|]. intros Hin. rewrite Forall_forall in Hv. specialize (Hv a Hin). cbn in Hv. congruence.
Qed.

(** ** Properties *)

(** C26: the membrane lets through exactly what the templates grant.  In every
    well-formed table, an action is allowed for a template identifier exactly
    when the table grants it; an addition extends the grants by the new
    template's, unless the table is full, the template invalid or its identifier
    taken, in which case nothing changes; the table stays well formed. *)
Theorem rna_table_grants t r :
  rtt_inv t → template_sized r →
  (∀ id a, rna_template_table_allows (Some t) id a = true ↔
           ∃ S, rna_grants t !! id = Some S ∧ a ∈ S) ∧
  ∃ err t', rna_template_table_add (Some t) (Some r) = (err, Some t') ∧ rtt_inv t' ∧
    (rna_grants t', err) =
      if (RNA_MAX_TEMPLATES <=? size (rna_grants t))%nat then (rna_grants t, ESP_ERR_NO_MEM)
      else if negb (err_ok (rna_template_validate (Some r))) then (rna_grants t, ESP_ERR_INVALID_ARG)
      else if bool_decide (is_Some (rna_grants t !! rn_id r)) then (rna_grants t, ESP_ERR_INVALID_STATE)
      else (<[rn_id r := grants r]> (rna_grants t), ESP_OK).
Proof.
  intros Hi Hs. split.
  - intros id a. unfold rna_template_table_allows, rna_template_table_has_capability.
    rewrite table_find_spec by done. unfold rna_grants. rewrite lookup_fmap.
    destruct (rtt_map t !! id) as [x|] eqn:E; cbn [fmap option_fmap option_map].
    2: { split; [done|]. intros (S & ? & _). done. }
    assert (template_ok x) as Hx.
    { apply kmap_Some in E as [Hin _]; [|apply Hi]. pose proof (rtti_ok t Hi) as Hf.
      rewrite Forall_forall in Hf. by apply Hf. }
    rewrite has_capability_spec by done. naive_solver.
  - destruct (table_add_spec t r Hi Hs) as [E Ha].
    unfold rna_grants at 2. rewrite map_size_fmap, (rtt_map_size t Hi).
    assert (bool_decide (is_Some (rna_grants t !! rn_id r)) = bool_decide (is_Some (rtt_map t !! rn_id r)))
      as ->. { unfold rna_grants. rewrite lookup_fmap. apply bool_decide_ext. by rewrite fmap_is_Some. }
    destruct (RNA_MAX_TEMPLATES <=? rtt_count t)%nat; [eauto|].
    destruct (err_ok _) eqn:Ev; cbn [negb] in *; [|eauto].
    case_bool_decide; [eauto|]. destruct (Ha _ E) as (Hi' & _ & Hm).
    eexists _, _. split; [exact E|]. split; [done|]. f_equal. unfold rna_grants.
    rewrite Hm, fmap_insert. apply err_ok_true in Ev.
    by destruct (copy_template_valid r Ev Hs) as (_ & -> & _).
Qed.

(** What was saved is what is loaded: after a successful save of a
    well-formed, nonempty table, load and [load_or_init] both give the very same
    table; when nothing was ever saved, [load_or_init] gives the default table,
    which is well formed. *)
Theorem rna_membrane_roundtrip {N : Type} `{NvsLaws N} t out (n n' : N) :
  rtt_inv t → (1 ≤ rtt_count t)%nat → Forall template_ranged (rtt_list t) →
  rna_membrane_save (Some t) n = (n', ESP_OK) →
  (∃ n1, rna_membrane_load (Some out) n' = (n1, ESP_OK, Some t)) ∧
  (∃ n1, rna_membrane_load_or_init (Some out) n' = (n1, ESP_OK, Some t)) ∧
  (∀ m, nvs_lookup m NVS_NS NVS_KEY = None → (nvs_open NVS_NS NVS_READONLY m).2 = ESP_OK →
   ∃ m1, rna_membrane_load_or_init (Some out) m = (m1, ESP_OK, Some rna_default_table)) ∧
  rtt_inv rna_default_table.
Proof.
  intros Hinv Hpos Hrng Hsave. destruct (rna_save_load t n n' Hinv Hpos Hrng Hsave out) as [n1 Hload].
  split; [by exists n1|]. split; [exists n1; unfold rna_membrane_load_or_init; by rewrite Hload|].
  split; [|exact (proj2 rna_defaults_ok)].
  intros m Hm Ho. unfold rna_membrane_load_or_init, rna_membrane_load.
  destruct (nvs_open _ _ m) as [m1 e1] eqn:Eo. cbn in Ho. subst e1.
  rewrite (proj2 (err_ok_true ESP_OK) eq_refl). cbn [negb].
  rewrite <- (nvs_open_keeps _ _ _ _ _ _ _ Eo) in Hm.
  pose proof (nvs_get_missing _ _ rna_blob_size _ Hm) as Hg.
  destruct (nvs_get_blob _ _ _ m1) as [e2 b]. cbn in Hg. subst e2.
  change (err_ok ESP_ERR_NVS_NOT_FOUND) with false. cbn [negb].
  change (err_eqb ESP_ERR_NVS_NOT_FOUND ESP_ERR_NVS_NOT_FOUND) with true. cbn [negb].
  exists m1. by rewrite (proj1 rna_defaults_ok).
Qed.

(** Flash is not trusted: whatever the storage answers, a load that reports
    success gives a well-formed table (known actions, none twice, distinct
    identifiers), and every other load leaves the empty table, which grants
    nothing. *)
Theorem rna_membrane_load_safe {N : Type} `{Nvs N} out (n n' : N) err t :
  rna_membrane_load (Some out) n = (n', err, t) →
  (err = ESP_OK → ∃ t', t = Some t' ∧ rtt_inv t') ∧
  (err ≠ ESP_OK → t = Some rna_table_zero ∧ rna_grants rna_table_zero = ∅).
Proof.
  unfold rna_membrane_load. destruct (nvs_open _ _ _) as [n1 e1].
  destruct (err_ok e1) eqn:E1; cbn [negb].
  2: { apply err_ok_false in E1. by intros [= <- <- <-]. }
  destruct (nvs_get_blob _ _ _ _) as [e2 blob].
  destruct (err_ok e2) eqn:E2; cbn [negb].
  2: { apply err_ok_false in E2. by intros [= <- <- <-]. }
  destruct (List.length blob =? rna_blob_size)%nat eqn:E3; cbn [negb].
  2: { by intros [= <- <- <-]. }
  destruct (blob_to_table blob rna_table_zero) as [e4 t4] eqn:E4. intros [= <- <- <-]. split.
  - intros ->. exists t4. split; [done|]. by apply (rna_blob_to_table_inv blob rna_table_zero).
  - intros Hne. split; [|done]. f_equal. by apply (rna_blob_to_table_failed blob _ e4).
Qed.

(** ** Witnesses *)
Definition witness_template : rna_template :=
  default_template 9 (lit "SIREN") [AMINO_ON; AMINO_OFF].
Definition witness_rna_flash : nvs_map := {[ (lit "ribosome", lit "table") := [1; 2; 3] ]}.

Lemma rna_table_grants_witness :
  rna_template_table_allows (Some rna_default_table) RNA_TEMPLATE_ID_DOOR AMINO_LOCK = true ↔
  ∃ S, rna_grants rna_default_table !! RNA_TEMPLATE_ID_DOOR = Some S ∧ AMINO_LOCK ∈ S.
Proof.
  refine (proj1 (rna_table_grants rna_default_table witness_template _ _) RNA_TEMPLATE_ID_DOOR AMINO_LOCK).
  - exact (proj2 rna_defaults_ok).
  - reflexivity.
Defined.

Lemma rna_membrane_roundtrip_witness :
  ∃ n1, rna_membrane_load (Some rna_table_zero)
          (rna_membrane_save (Some rna_default_table) witness_rna_flash).1
        = (n1, ESP_OK, Some rna_default_table).
Proof.
  refine (proj1 (rna_membrane_roundtrip rna_default_table rna_table_zero witness_rna_flash
    (rna_membrane_save (Some rna_default_table) witness_rna_flash).1 _ _ _ _)).
  - exact (proj2 rna_defaults_ok).
  - vm_compute; lia.
  - exact rna_default_ranged.
  - apply pair_named. vm_compute; reflexivity.
Defined.

(** A blob with one byte of a template changed after the save. *)
Definition witness_rna_corrupt : nvs_map :=
  <[(NVS_NS, NVS_KEY) := <[44%nat := 12]> ((table_to_blob (Some rna_default_table)).2)]>
    witness_rna_flash.
Definition witness_rna_load : nvs_map * esp_err * option rna_template_table :=
  rna_membrane_load (Some rna_default_table) witness_rna_corrupt.

Lemma rna_membrane_load_safe_witness :
  witness_rna_load.2 = Some rna_table_zero ∧ rna_grants rna_table_zero = ∅.
Proof.
  refine (proj2 (rna_membrane_load_safe rna_default_table witness_rna_corrupt witness_rna_load.1.1
    ESP_ERR_INVALID_CRC witness_rna_load.2 _) _).
  - apply triple_named. vm_compute; reflexivity.
  - discriminate.
Defined.
