(* ===== verification/Ribosome_table.v ===== *)
(** * Ribosome table: the devices a Guardian acts on

    [membrane/ribosome_table/ribosome_table.c].  Each entry names a device by
    its MQTT client identifier, with its RNA template, key epoch and secret.
    A null pointer is [None]; an out-parameter is returned. *)

From S2P Require Import Prelude Bytes Slots Tables Rna_membrane.

Definition RIBOSOME_MQTT_CLIENT_ID_LEN : nat := 33.
Definition RIBOSOME_DEVICE_SECRET_LEN : nat := 32.
Definition RIBOSOME_MAX_ENTRIES : nat := 20.

(** ** Data *)
Record ribosome_table_entry := mk_ribosome_table_entry {
  re_mqtt_client_id : bytes;
  re_template_id : Z;
  re_epoch : Z;
  re_device_secret : bytes
}.

Record ribosome_table := mk_ribosome_table {
  rt_entries : list ribosome_table_entry;
  rt_count : nat
}.

Record ribosome_entry_config := mk_ribosome_entry_config {
  rc_mqtt_client_id : option bytes;
  rc_template_id : Z;
  rc_epoch : Z;
  rc_device_secret : option bytes
}.

Definition ribosome_entry_zero : ribosome_table_entry :=
  mk_ribosome_table_entry (zeros RIBOSOME_MQTT_CLIENT_ID_LEN) 0 0 (zeros RIBOSOME_DEVICE_SECRET_LEN).
Definition ribosome_table_zero : ribosome_table :=
  mk_ribosome_table (replicate RIBOSOME_MAX_ENTRIES ribosome_entry_zero) 0.

(** ** Helpers *)
Definition table_count_valid (table : option ribosome_table) : bool :=
  match table with Some t => (rt_count t <=? RIBOSOME_MAX_ENTRIES)%nat | None => false end.

Definition ribosome_template_id_valid (template_id : Z) : bool := rna_template_id_valid template_id.

Definition ribosome_table_clear_entry (entry : option ribosome_table_entry) :
    option ribosome_table_entry :=
  match entry with Some _ => Some ribosome_entry_zero | None => None end.

(** [ribosome_table_clear_entry(dst)], then the field copies. *)
Definition copy_entry_sanitized (src : ribosome_table_entry) : ribosome_table_entry :=
  let dst := ribosome_entry_zero in
  mk_ribosome_table_entry
    (strncpy (re_mqtt_client_id dst) (re_mqtt_client_id src) (RIBOSOME_MQTT_CLIENT_ID_LEN - 1))
    (re_template_id src) (re_epoch src)
    (memcpy (re_device_secret dst) (re_device_secret src) RIBOSOME_DEVICE_SECRET_LEN).

(** The loop over the live entries that the lookups share: the first whose
    identifier equals [id] for [strncmp]. *)
Definition id_matches (id : bytes) (e : ribosome_table_entry) : bool :=
  strncmp_eq (re_mqtt_client_id e) id RIBOSOME_MQTT_CLIENT_ID_LEN.
Definition find_id (t : ribosome_table) (id : bytes) : option nat :=
  first_index (id_matches id) (live (rt_count t) (rt_entries t)).

(** ** Operations *)
Definition ribosome_table_init (table : option ribosome_table) : esp_err * option ribosome_table :=
  match table with
  | None => (ESP_ERR_INVALID_ARG, None)
  | Some _ => (ESP_OK, Some ribosome_table_zero)
  end.

Definition ribosome_table_make_entry (config : option ribosome_entry_config)
    (out_entry : option ribosome_table_entry) : esp_err * option ribosome_table_entry :=
  match config, out_entry with
  | Some c, Some _ =>
    match rc_device_secret c with
    | None => (ESP_ERR_INVALID_ARG, out_entry)
    | Some secret =>
      if negb (string_valid (rc_mqtt_client_id c) RIBOSOME_MQTT_CLIENT_ID_LEN)
      then (ESP_ERR_INVALID_ARG, out_entry)
      else if negb (ribosome_template_id_valid (rc_template_id c))
      then (ESP_ERR_INVALID_ARG, out_entry)
      else if bytes_all_zero (Some (take RIBOSOME_DEVICE_SECRET_LEN secret))
      then (ESP_ERR_INVALID_ARG, out_entry)
      else
        let dst := ribosome_entry_zero in
        (ESP_OK,
         Some (mk_ribosome_table_entry
           (strncpy (re_mqtt_client_id dst) (default [] (rc_mqtt_client_id c))
              (RIBOSOME_MQTT_CLIENT_ID_LEN - 1))
           (rc_template_id c) (rc_epoch c)
           (memcpy (re_device_secret dst) secret RIBOSOME_DEVICE_SECRET_LEN)))
    end
  | _, _ => (ESP_ERR_INVALID_ARG, out_entry)
  end.

Definition ribosome_table_entry_exists (table : option ribosome_table)
    (mqtt_client_id : option bytes) : bool :=
  match table, mqtt_client_id with
  | Some t, Some id =>
    if negb (table_count_valid table) || negb (string_valid mqtt_client_id RIBOSOME_MQTT_CLIENT_ID_LEN)
    then false
    else match find_id t id with Some _ => true | None => false end
  | _, _ => false
  end.

Definition ribosome_table_add_entry (table : option ribosome_table)
    (entry : option ribosome_table_entry) : esp_err * option ribosome_table :=
  match table, entry with
  | Some t, Some e =>
    if negb (table_count_valid table) then (ESP_ERR_INVALID_ARG, table)
    else if negb (string_valid (Some (re_mqtt_client_id e)) RIBOSOME_MQTT_CLIENT_ID_LEN)
    then (ESP_ERR_INVALID_ARG, table)
    else if negb (ribosome_template_id_valid (re_template_id e)) then (ESP_ERR_INVALID_ARG, table)
    else if bytes_all_zero (Some (take RIBOSOME_DEVICE_SECRET_LEN (re_device_secret e)))
    then (ESP_ERR_INVALID_ARG, table)
    else if (RIBOSOME_MAX_ENTRIES <=? rt_count t)%nat then (ESP_ERR_NO_MEM, table)
    else if ribosome_table_entry_exists table (Some (re_mqtt_client_id e))
    then (ESP_ERR_INVALID_STATE, table)
    else
      (ESP_OK,
       Some (mk_ribosome_table (<[rt_count t := copy_entry_sanitized e]> (rt_entries t))
               (S (rt_count t))))
  | _, _ => (ESP_ERR_INVALID_ARG, table)
  end.

Definition ribosome_table_add_from_config (table : option ribosome_table)
    (config : option ribosome_entry_config) : esp_err * option ribosome_table :=
  match table, config with
  | Some t, Some c =>
    if negb (table_count_valid table) then (ESP_ERR_INVALID_ARG, table)
    else if (RIBOSOME_MAX_ENTRIES <=? rt_count t)%nat then (ESP_ERR_NO_MEM, table)
    else if negb (string_valid (rc_mqtt_client_id c) RIBOSOME_MQTT_CLIENT_ID_LEN)
    then (ESP_ERR_INVALID_ARG, table)
    else if ribosome_table_entry_exists table (rc_mqtt_client_id c)
    then (ESP_ERR_INVALID_STATE, table)
    else
      let '(err, made) :=
        ribosome_table_make_entry config (rt_entries t !! rt_count t) in
      if negb (err_ok err) then
        (err, Some (mk_ribosome_table
                (<[rt_count t := ribosome_entry_zero]> (rt_entries t)) (rt_count t)))
      else
        (ESP_OK,
         Some (mk_ribosome_table
                (<[rt_count t := default ribosome_entry_zero made]> (rt_entries t))
                (S (rt_count t))))
  | _, _ => (ESP_ERR_INVALID_ARG, table)
  end.

Definition ribosome_table_remove_entry (table : option ribosome_table)
    (mqtt_client_id : option bytes) : esp_err * option ribosome_table :=
  match table, mqtt_client_id with
  | Some t, Some id =>
    if negb (table_count_valid table) || negb (string_valid mqtt_client_id RIBOSOME_MQTT_CLIENT_ID_LEN)
    then (ESP_ERR_INVALID_ARG, table)
    else
      match find_id t id with
      | None => (ESP_ERR_NOT_FOUND, table)
      | Some i =>
        let entries := shift_down ribosome_entry_zero copy_entry_sanitized
                         (rt_count t - 1 - i) i (rt_entries t) in
        (ESP_OK,
         Some (mk_ribosome_table (<[(rt_count t - 1)%nat := ribosome_entry_zero]> entries)
                 (rt_count t - 1)))
      end
  | _, _ => (ESP_ERR_INVALID_ARG, table)
  end.

Definition ribosome_table_get_entry (table : option ribosome_table)
    (mqtt_client_id : option bytes) (out_entry : option ribosome_table_entry) :
    esp_err * option ribosome_table_entry :=
  match table, mqtt_client_id, out_entry with
  | Some t, Some id, Some _ =>
    if negb (table_count_valid table) || negb (string_valid mqtt_client_id RIBOSOME_MQTT_CLIENT_ID_LEN)
    then (ESP_ERR_INVALID_ARG, out_entry)
    else
      match find_id t id with
      | None => (ESP_ERR_NOT_FOUND, out_entry)
      | Some i => (ESP_OK, copy_entry_sanitized <$> rt_entries t !! i)
      end
  | _, _, _ => (ESP_ERR_INVALID_ARG, out_entry)
  end.

Definition ribosome_table_count (table : option ribosome_table) : nat :=
  match table with
  | Some t => if table_count_valid table then rt_count t else O
  | None => O
  end.

(** ** Specification *)
(** A well-formed entry: a terminated, zero-padded, nonempty identifier, a
    template, a secret that is not all zero. *)
Record entry_ok (e : ribosome_table_entry) : Prop := mk_entry_ok {
  eok_id : c_str (re_mqtt_client_id e) ≠ [];
  eok_id_len : (List.length (c_str (re_mqtt_client_id e)) ≤ 32)%nat;
  eok_id_image : re_mqtt_client_id e =
                 c_str (re_mqtt_client_id e) ++
                 zeros (RIBOSOME_MQTT_CLIENT_ID_LEN - List.length (c_str (re_mqtt_client_id e)));
  eok_template : re_template_id e ≠ RNA_TEMPLATE_ID_INVALID;
  eok_secret_len : List.length (re_device_secret e) = RIBOSOME_DEVICE_SECRET_LEN;
  eok_secret : ¬ Forall (fun b => b = 0) (re_device_secret e)
}.

Definition id_of (e : ribosome_table_entry) : bytes := c_str (re_mqtt_client_id e).
Definition rt_list (t : ribosome_table) : list ribosome_table_entry :=
  live (rt_count t) (rt_entries t).

(** The abstract table: a map from identifiers to entries. *)
Definition rt_map (t : ribosome_table) : gmap bytes ribosome_table_entry := kmap id_of (rt_list t).

(** Live entries are well formed with distinct identifiers; the rest of the
    array is zero. *)
Record rt_inv (t : ribosome_table) : Prop := mk_rt_inv {
  rti_length : List.length (rt_entries t) = RIBOSOME_MAX_ENTRIES;
  rti_count : (rt_count t ≤ RIBOSOME_MAX_ENTRIES)%nat;
  rti_ok : Forall entry_ok (rt_list t);
  rti_keys : NoDup (id_of <$> rt_list t);
  rti_rest : drop (rt_count t) (rt_entries t) =
             replicate (RIBOSOME_MAX_ENTRIES - rt_count t) ribosome_entry_zero
}.

(** The entry a configuration describes. *)
Definition entry_of_config (id : bytes) (template epoch : Z) (secret : bytes) :
    ribosome_table_entry :=
  mk_ribosome_table_entry (c_str id ++ zeros (RIBOSOME_MQTT_CLIENT_ID_LEN - List.length (c_str id)))
    template epoch (take RIBOSOME_DEVICE_SECRET_LEN secret).

(** The calls that change a table, and what each does to the map. *)
Inductive rt_op :=
| RtAdd (e : ribosome_table_entry)
| RtAddConfig (id : bytes) (template epoch : Z) (secret : bytes)
| RtRemove (id : bytes).

Definition rt_step (t : ribosome_table) (op : rt_op) : ribosome_table * esp_err :=
  let '(err, t') :=
    match op with
    | RtAdd e => ribosome_table_add_entry (Some t) (Some e)
    | RtAddConfig id template epoch secret =>
      ribosome_table_add_from_config (Some t)
        (Some (mk_ribosome_entry_config (Some id) template epoch (Some secret)))
    | RtRemove id => ribosome_table_remove_entry (Some t) (Some id)
    end in
  (default t t', err).

(** The buffers the caller passes hold a secret. *)
Definition op_ok (op : rt_op) : Prop :=
  match op with
  | RtAdd e => List.length (re_device_secret e) = RIBOSOME_DEVICE_SECRET_LEN
  | RtAddConfig _ _ _ secret => (RIBOSOME_DEVICE_SECRET_LEN ≤ List.length secret)%nat
  | RtRemove _ => True
  end.

Definition id_ok (id : bytes) : bool := string_valid (Some id) RIBOSOME_MQTT_CLIENT_ID_LEN.
Definition secret_zero (secret : bytes) : bool :=
  bytes_all_zero (Some (take RIBOSOME_DEVICE_SECRET_LEN secret)).

Definition rt_insert (m : gmap bytes ribosome_table_entry) (id : bytes) (template epoch : Z)
    (secret : bytes) : gmap bytes ribosome_table_entry :=
  <[c_str id := entry_of_config id template epoch secret]> m.

Definition rt_spec (m : gmap bytes ribosome_table_entry) (op : rt_op) :
    gmap bytes ribosome_table_entry * esp_err :=
  match op with
  | RtAdd (mk_ribosome_table_entry id template epoch secret) =>
    if negb (id_ok id) || (template =? 0) || secret_zero secret then (m, ESP_ERR_INVALID_ARG)
    else if (RIBOSOME_MAX_ENTRIES <=? size m)%nat then (m, ESP_ERR_NO_MEM)
    else if bool_decide (is_Some (m !! c_str id)) then (m, ESP_ERR_INVALID_STATE)
    else (rt_insert m id template epoch secret, ESP_OK)
  | RtAddConfig id template epoch secret =>
    if (RIBOSOME_MAX_ENTRIES <=? size m)%nat then (m, ESP_ERR_NO_MEM)
    else if negb (id_ok id) then (m, ESP_ERR_INVALID_ARG)
    else if bool_decide (is_Some (m !! c_str id)) then (m, ESP_ERR_INVALID_STATE)
    else if (template =? 0) || secret_zero secret then (m, ESP_ERR_INVALID_ARG)
    else (rt_insert m id template epoch secret, ESP_OK)
  | RtRemove id =>
    if negb (id_ok id) then (m, ESP_ERR_INVALID_ARG)
    else if bool_decide (is_Some (m !! c_str id)) then (delete (c_str id) m, ESP_OK)
    else (m, ESP_ERR_NOT_FOUND)
  end.

(** ** Entries *)
Lemma id_ok_spec id :
  id_ok id = true ↔ c_str id ≠ [] ∧ (List.length (c_str id) ≤ 32)%nat.
Proof. unfold id_ok. rewrite string_valid_spec. unfold RIBOSOME_MQTT_CLIENT_ID_LEN. naive_solver lia. Qed.

Lemma strncpy_id id :
  (List.length (c_str id) ≤ 32)%nat →
  strncpy (zeros RIBOSOME_MQTT_CLIENT_ID_LEN) id (RIBOSOME_MQTT_CLIENT_ID_LEN - 1) =
  c_str id ++ zeros (RIBOSOME_MQTT_CLIENT_ID_LEN - List.length (c_str id)).
Proof.
  intros Hl. unfold strncpy. rewrite strncpy_bytes_spec.
  change (RIBOSOME_MQTT_CLIENT_ID_LEN - 1)%nat with 32%nat.
  change (drop 32 (zeros RIBOSOME_MQTT_CLIENT_ID_LEN)) with (zeros 1).
  rewrite take_ge by lia. rewrite <- app_assoc. f_equal. unfold zeros.
  rewrite <- replicate_add. f_equal. unfold RIBOSOME_MQTT_CLIENT_ID_LEN. lia.
Qed.

(** Both ways of storing an entry write the entry of its configuration. *)
Lemma copy_sanitized_eq id template epoch secret :
  (List.length (c_str id) ≤ 32)%nat → List.length secret = RIBOSOME_DEVICE_SECRET_LEN →
  copy_entry_sanitized (mk_ribosome_table_entry id template epoch secret) =
  entry_of_config id template epoch secret.
Proof.
  intros Hl Hs. unfold copy_entry_sanitized, entry_of_config.
  cbn [re_mqtt_client_id re_template_id re_epoch re_device_secret ribosome_entry_zero].
  rewrite strncpy_id by done. f_equal. unfold memcpy.
  by rewrite (drop_ge (zeros _)), app_nil_r by (rewrite length_zeros; done).
Qed.

Lemma make_entry_eq id template epoch secret out :
  id_ok id = true → (RIBOSOME_DEVICE_SECRET_LEN ≤ List.length secret)%nat →
  ribosome_table_make_entry
    (Some (mk_ribosome_entry_config (Some id) template epoch (Some secret))) (Some out) =
  if (template =? 0) || secret_zero secret then (ESP_ERR_INVALID_ARG, Some out)
  else (ESP_OK, Some (entry_of_config id template epoch secret)).
Proof.
  intros Hid Hs. unfold ribosome_table_make_entry.
  cbn [rc_device_secret rc_mqtt_client_id rc_template_id rc_epoch default].
  fold (id_ok id). rewrite Hid. cbn [negb].
  unfold ribosome_template_id_valid, rna_template_id_valid, RNA_TEMPLATE_ID_INVALID.
  rewrite negb_involutive. destruct (template =? 0); [done|]. cbn [orb].
  fold (secret_zero secret). destruct (secret_zero secret); [done|].
  apply id_ok_spec in Hid as [_ Hl].
  cbn [re_mqtt_client_id re_device_secret ribosome_entry_zero].
  rewrite strncpy_id by done. unfold entry_of_config, memcpy.
  by rewrite (drop_ge (zeros _)), app_nil_r by (rewrite length_zeros; done).
Qed.

Lemma id_of_config id template epoch secret :
  id_of (entry_of_config id template epoch secret) = c_str id.
Proof. unfold id_of. cbn. apply c_str_app_zeros, c_str_no_zero. Qed.

Lemma entry_of_config_ok id template epoch secret :
  id_ok id = true → template ≠ 0 → secret_zero secret = false →
  (RIBOSOME_DEVICE_SECRET_LEN ≤ List.length secret)%nat →
  entry_ok (entry_of_config id template epoch secret).
Proof.
  intros [H1 H2]%id_ok_spec Ht Hz Hs.
  pose proof (id_of_config id template epoch secret) as Hid. unfold id_of in Hid.
  constructor; rewrite ?Hid; try done.
  - cbn [entry_of_config re_device_secret]. rewrite length_take. apply Nat.min_l. exact Hs.
  - intros Hf%bytes_all_zero_spec. unfold secret_zero in Hz. cbn [entry_of_config re_device_secret] in Hf.
    congruence.
Qed.

Lemma entry_ok_id e : entry_ok e → id_ok (re_mqtt_client_id e) = true.
Proof. intros []. by apply id_ok_spec. Qed.

Lemma copy_entry_ok e : entry_ok e → copy_entry_sanitized e = e.
Proof.
  intros [H1 H2 H3 H4 H5 H6]. destruct e as [id tm ep sec].
  cbn [re_mqtt_client_id re_template_id re_device_secret] in *.
  rewrite copy_sanitized_eq by done. unfold entry_of_config.
  rewrite <- H3, take_ge by lia. done.
Qed.

(** ** Lookup *)
Lemma find_id_spec t id :
  rt_inv t → id_ok id = true →
  find_id t id = first_index (fun e => bool_decide (id_of e = c_str id)) (rt_list t).
Proof.
  intros [_ _ Hok _ _] [_ Hl]%id_ok_spec. unfold find_id. apply first_index_ext_in.
  eapply Forall_impl; [exact Hok|]. intros e [_ He _ _ _ _].
  unfold id_matches, strncmp_eq, id_of, RIBOSOME_MQTT_CLIENT_ID_LEN.
  by rewrite !take_ge by lia.
Qed.

Lemma rt_map_size t : rt_inv t → size (rt_map t) = rt_count t.
Proof.
  intros [Hl Hc _ Hk _]. unfold rt_map. rewrite kmap_size by done.
  unfold rt_list, live. rewrite length_take. lia.
Qed.

Lemma count_valid_inv t : rt_inv t → table_count_valid (Some t) = true.
Proof. intros [_ Hc _ _ _]. by apply Nat.leb_le. Qed.

Lemma entry_exists_spec t id :
  rt_inv t → id_ok id = true →
  ribosome_table_entry_exists (Some t) (Some id) = bool_decide (is_Some (rt_map t !! c_str id)).
Proof.
  intros Hi Hid. unfold ribosome_table_entry_exists. fold (id_ok id).
  rewrite (count_valid_inv t Hi), Hid. cbn [negb orb]. rewrite find_id_spec by done.
  destruct (first_index _ _) as [i|] eqn:E.
  - apply key_index_Some in E as (e & _ & _ & He); [|apply Hi].
    symmetry. apply bool_decide_eq_true. by exists e.
  - apply key_index_None in E. symmetry. apply bool_decide_eq_false. unfold rt_map.
    rewrite E. by intros [? ?].
Qed.

Lemma get_entry_spec t id out :
  rt_inv t → id_ok id = true →
  ribosome_table_get_entry (Some t) (Some id) (Some out) =
  match rt_map t !! c_str id with
  | Some e => (ESP_OK, Some e)
  | None => (ESP_ERR_NOT_FOUND, Some out)
  end.
Proof.
  intros Hi Hid. unfold ribosome_table_get_entry. fold (id_ok id).
  rewrite (count_valid_inv t Hi), Hid. cbn [negb orb]. rewrite find_id_spec by done.
  destruct (first_index _ _) as [i|] eqn:E.
  - apply key_index_Some in E as (e & Hl & _ & He); [|apply Hi].
    unfold rt_map. rewrite He.
    assert (rt_entries t !! i = Some e) as ->.
    { unfold rt_list, live in Hl. by apply lookup_take_Some in Hl as [? _]. }
    cbn. rewrite copy_entry_ok; [done|].
    pose proof (rti_ok t Hi) as Hf. by eapply Forall_lookup_1.
  - apply key_index_None in E. unfold rt_map. by rewrite E.
Qed.

(** ** Updates *)
Lemma append_entry_ok t e :
  rt_inv t → entry_ok e → (rt_count t < RIBOSOME_MAX_ENTRIES)%nat →
  rt_map t !! id_of e = None →
  let t' := mk_ribosome_table (<[rt_count t := e]> (rt_entries t)) (S (rt_count t)) in
  rt_inv t' ∧ rt_map t' = <[id_of e := e]> (rt_map t).
Proof.
  intros [Hl Hc Hok Hk Hr] He Hlt Hn. cbv zeta.
  assert (rt_list (mk_ribosome_table (<[rt_count t := e]> (rt_entries t)) (S (rt_count t)))
          = rt_list t ++ [e]) as El.
  { unfold rt_list. cbn. apply live_append. lia. }
  unfold rt_map in Hn. apply kmap_None in Hn. split.
  - constructor; rewrite ?El; cbn [rt_entries rt_count].
    + by rewrite length_insert.
    + lia.
    + apply Forall_app. split; [done | by constructor].
    + rewrite fmap_app. apply NoDup_app. split; [done|]. split; [|apply NoDup_singleton].
      intros x Hx. intros Hs. apply list_elem_of_singleton in Hs as ->. done.
    + rewrite drop_append. rewrite <- Nat.add_1_r, <- drop_drop, Hr.
      replace (RIBOSOME_MAX_ENTRIES - rt_count t)%nat
        with (S (RIBOSOME_MAX_ENTRIES - (rt_count t + 1))) by lia. done.
  - unfold rt_map. rewrite El. by apply kmap_snoc.
Qed.

(** A removal closes the gap and zeroes the slot it frees. *)
Lemma remove_entries t i e :
  rt_inv t → rt_list t !! i = Some e →
  ∃ a b, rt_list t = a ++ e :: b ∧
    <[(rt_count t - 1)%nat := ribosome_entry_zero]>
      (shift_down ribosome_entry_zero copy_entry_sanitized (rt_count t - 1 - i) i (rt_entries t))
    = a ++ b ++ replicate (RIBOSOME_MAX_ENTRIES - (rt_count t - 1)) ribosome_entry_zero ∧
    List.length (a ++ b) = (rt_count t - 1)%nat ∧ (1 ≤ rt_count t)%nat.
Proof.
  intros [Hl Hc Hok Hk Hr] Hi.
  pose proof (take_drop_middle _ _ _ Hi) as Hm.
  set (a := take i (rt_list t)) in *. set (b := drop (S i) (rt_list t)) in *.
  assert (List.length (rt_list t) = rt_count t) as Hlen
    by (unfold rt_list, live; rewrite length_take; lia).
  assert (i < rt_count t)%nat as Hlt by (apply lookup_lt_Some in Hi; lia).
  assert (List.length a = i) as Ha by (unfold a; rewrite length_take; lia).
  assert (List.length b = rt_count t - 1 - i)%nat as Hb by (unfold b; rewrite length_drop; lia).
  assert (rt_entries t = a ++ e :: b ++ replicate (RIBOSOME_MAX_ENTRIES - rt_count t)
            ribosome_entry_zero) as Hent.
  { rewrite <- (take_drop (rt_count t) (rt_entries t)), Hr. fold (live (rt_count t) (rt_entries t)).
    fold (rt_list t). rewrite <- Hm at 1. by rewrite <- app_assoc. }
  assert (Forall (fun x => copy_entry_sanitized x = x) b) as Hcopy.
  { apply Forall_drop. eapply Forall_impl; [exact Hok | exact copy_entry_ok]. }
  destruct (shift_down_spec ribosome_entry_zero copy_entry_sanitized _ i _ a b _ Hcopy Ha Hb e Hent)
    as [e' ->].
  exists a, b. split; [done|]. split; [|split; [rewrite length_app; lia | lia]].
  rewrite app_assoc. replace (rt_count t - 1)%nat with (List.length (a ++ b) + 0)%nat
    by (rewrite length_app; lia).
  rewrite insert_app_r. cbn [list_insert insert]. rewrite <- app_assoc. do 2 f_equal.
  replace (RIBOSOME_MAX_ENTRIES - (List.length (a ++ b) + 0))%nat
    with (S (RIBOSOME_MAX_ENTRIES - rt_count t)) by (rewrite length_app; lia). done.
Qed.

Lemma remove_entry_ok t i e :
  rt_inv t → rt_list t !! i = Some e →
  let t' := mk_ribosome_table
    (<[(rt_count t - 1)%nat := ribosome_entry_zero]>
      (shift_down ribosome_entry_zero copy_entry_sanitized (rt_count t - 1 - i) i (rt_entries t)))
    (rt_count t - 1) in
  rt_inv t' ∧ rt_map t' = delete (id_of e) (rt_map t).
Proof.
  intros Hinv Hi. cbv zeta. destruct (remove_entries t i e Hinv Hi) as (a & b & Hab & -> & Hn & H1).
  destruct Hinv as [Hl Hc Hok Hk Hr].
  set (t' := mk_ribosome_table _ _).
  assert (rt_list t' = a ++ b) as El.
  { unfold rt_list, live, t'. cbn [rt_entries rt_count]. rewrite app_assoc, <- Hn.
    by rewrite take_app_length. }
  assert (a ++ b ⊆+ rt_list t) as Hsub.
  { rewrite Hab. apply submseteq_app; [done|]. by apply submseteq_cons. }
  split.
  - constructor; rewrite ?El.
    + unfold t'. cbn [rt_entries]. rewrite app_assoc, length_app, Hn, length_replicate. lia.
    + unfold t'. cbn [rt_count]. lia.
    + rewrite Hab in Hok. rewrite Forall_app, Forall_cons in Hok. apply Forall_app. naive_solver.
    + rewrite Hab in Hk. rewrite fmap_app, fmap_cons in Hk. rewrite fmap_app.
      apply NoDup_app in Hk as (Ha & Hd & Hb). apply NoDup_cons in Hb as [_ Hb].
      apply NoDup_app. split; [done|]. split; [|done]. intros x Hx Hxb. apply (Hd x Hx). by right.
    + unfold t'. cbn [rt_entries rt_count]. rewrite app_assoc, <- Hn. by rewrite drop_app_length.
  - unfold rt_map. rewrite El, Hab. apply kmap_remove. by rewrite <- Hab.
Qed.

(** ** The calls against the map *)
Lemma free_slot_zero t :
  rt_inv t → (rt_count t < RIBOSOME_MAX_ENTRIES)%nat →
  rt_entries t !! rt_count t = Some ribosome_entry_zero.
Proof.
  intros [Hl Hc _ _ Hr] Hlt. rewrite <- (Nat.add_0_r (rt_count t)), <- lookup_drop, Hr.
  by apply lookup_replicate_2; lia.
Qed.

Lemma insert_step t id tm ep sec :
  rt_inv t → id_ok id = true → tm ≠ 0 → secret_zero sec = false →
  (RIBOSOME_DEVICE_SECRET_LEN ≤ List.length sec)%nat →
  (rt_count t < RIBOSOME_MAX_ENTRIES)%nat → ¬ is_Some (rt_map t !! c_str id) →
  let t' := mk_ribosome_table
    (<[rt_count t := entry_of_config id tm ep sec]> (rt_entries t)) (S (rt_count t)) in
  rt_inv t' ∧ rt_map t' = rt_insert (rt_map t) id tm ep sec.
Proof.
  intros Hinv Hid Ht Hs Hl Hf Hex. unfold rt_insert.
  rewrite <- (id_of_config id tm ep sec).
  apply append_entry_ok; [done | by apply entry_of_config_ok | done |].
  rewrite id_of_config. by apply eq_None_not_Some.
Qed.

Lemma add_entry_step t e :
  rt_inv t → op_ok (RtAdd e) →
  rt_inv (rt_step t (RtAdd e)).1 ∧
  (rt_map (rt_step t (RtAdd e)).1, (rt_step t (RtAdd e)).2) = rt_spec (rt_map t) (RtAdd e).
Proof.
  intros Hinv Hop. destruct e as [id tm ep sec]. unfold rt_step, rt_spec. cbn [op_ok] in Hop.
  unfold ribosome_table_add_entry. rewrite (count_valid_inv t Hinv).
  cbn [negb re_mqtt_client_id re_template_id re_device_secret]. fold (id_ok id).
  fold (secret_zero sec). rewrite (rt_map_size t Hinv).
  destruct (id_ok id) eqn:Hid; cbn [negb orb]; [|done].
  unfold ribosome_template_id_valid, rna_template_id_valid, RNA_TEMPLATE_ID_INVALID.
  rewrite negb_involutive. destruct (tm =? 0) eqn:Ht; [done|].
  cbn [orb]. destruct (secret_zero sec) eqn:Hs; [done|].
  destruct (RIBOSOME_MAX_ENTRIES <=? rt_count t)%nat eqn:Hf; [done|].
  rewrite entry_exists_spec by done. case_bool_decide as Hex; [done|].
  apply Z.eqb_neq in Ht. apply Nat.leb_gt in Hf.
  rewrite copy_sanitized_eq by (apply id_ok_spec in Hid; naive_solver).
  destruct (insert_step t id tm ep sec Hinv Hid Ht Hs) as [H1 H2];
    [cbn in Hop; rewrite Hop; done | done | done |].
  split; [done|]. by f_equal.
Qed.

Lemma add_config_step t id tm ep sec :
  rt_inv t → op_ok (RtAddConfig id tm ep sec) →
  rt_inv (rt_step t (RtAddConfig id tm ep sec)).1 ∧
  (rt_map (rt_step t (RtAddConfig id tm ep sec)).1, (rt_step t (RtAddConfig id tm ep sec)).2)
  = rt_spec (rt_map t) (RtAddConfig id tm ep sec).
Proof.
  intros Hinv Hop. unfold rt_step, rt_spec. cbn [op_ok] in Hop.
  unfold ribosome_table_add_from_config. rewrite (count_valid_inv t Hinv), (rt_map_size t Hinv).
  cbn [negb rc_mqtt_client_id].
  destruct (RIBOSOME_MAX_ENTRIES <=? rt_count t)%nat eqn:Hf; [done|].
  fold (id_ok id). destruct (id_ok id) eqn:Hid; cbn [negb]; [|done].
  rewrite entry_exists_spec by done. case_bool_decide as Hex; [done|].
  apply Nat.leb_gt in Hf. pose proof (free_slot_zero t Hinv Hf) as Hz.
  rewrite Hz, make_entry_eq by done.
  destruct ((tm =? 0) || secret_zero sec) eqn:Hbad.
  - unfold err_ok, err_eqb. rewrite bool_decide_eq_false_2 by done. cbn [negb default].
    rewrite list_insert_id by done. by destruct t.
  - unfold err_ok, err_eqb. rewrite bool_decide_eq_true_2 by done. cbn [negb default]. bools.
    destruct (insert_step t id tm ep sec) as [H1 H2]; try done.
    split; [done|]. by f_equal.
Qed.

Lemma remove_step t id :
  rt_inv t →
  rt_inv (rt_step t (RtRemove id)).1 ∧
  (rt_map (rt_step t (RtRemove id)).1, (rt_step t (RtRemove id)).2) = rt_spec (rt_map t) (RtRemove id).
Proof.
  intros Hinv. unfold rt_step, rt_spec, ribosome_table_remove_entry.
  fold (id_ok id). rewrite (count_valid_inv t Hinv). cbn [negb orb].
  destruct (id_ok id) eqn:Hid; cbn [negb]; [|done].
  rewrite find_id_spec by done. destruct (first_index _ _) as [i|] eqn:E.
  - apply key_index_Some in E as (e & Hl & <- & He); [|apply Hinv].
    rewrite bool_decide_eq_true_2 by (by exists e). cbn [default].
    destruct (remove_entry_ok t i e Hinv Hl) as [H1 H2]. split; [done|]. by f_equal.
  - apply key_index_None in E. rewrite bool_decide_eq_false_2; [done|].
    unfold rt_map. rewrite E. by intros [? ?].
Qed.

(** ** Properties *)

(** C25: in every well-formed table (live entries valid, identifiers distinct,
    free slots zero) each call is one operation on the map from identifiers to
    entries: an addition inserts the described entry, in normal form, unless an
    argument is invalid, the table full or the identifier taken; a removal
    deletes exactly the named entry; a refused call changes nothing that can be
    read.  The result is well formed again, and lookups read the map. *)
Theorem ribosome_table_refines t op :
  rt_inv t → op_ok op →
  rt_inv (rt_step t op).1 ∧
  (rt_map (rt_step t op).1, (rt_step t op).2) = rt_spec (rt_map t) op ∧
  ∀ id out, id_ok id = true →
    ribosome_table_get_entry (Some t) (Some id) (Some out) =
    match rt_map t !! c_str id with
    | Some e => (ESP_OK, Some e)
    | None => (ESP_ERR_NOT_FOUND, Some out)
    end.
Proof.
  intros Hinv Hop.
  assert (rt_inv (rt_step t op).1 ∧
          (rt_map (rt_step t op).1, (rt_step t op).2) = rt_spec (rt_map t) op) as [H1 H2].
  { destruct op; [by apply add_entry_step | by apply add_config_step | by apply remove_step]. }
  split; [done|]. split; [done|]. intros. by apply get_entry_spec.
Qed.

(** A removed secret is gone: after the removal of a device whose secret no
    other entry shares, no slot of the array, live or free, holds it. *)
Theorem ribosome_table_remove_wipes t t' id e :
  rt_inv t →
  ribosome_table_remove_entry (Some t) (Some id) = (ESP_OK, Some t') →
  rt_map t !! c_str id = Some e →
  (∀ k e', rt_map t !! k = Some e' → k ≠ c_str id → re_device_secret e' ≠ re_device_secret e) →
  ∀ slot, slot ∈ rt_entries t' → re_device_secret slot ≠ re_device_secret e.
Proof.
  intros Hinv Hrem He Hother slot Hslot.
  pose proof (remove_step t id Hinv) as [Hinv' Hmap]. unfold rt_step in Hinv', Hmap.
  rewrite Hrem in Hinv', Hmap. cbn [default fst snd] in Hinv', Hmap.
  assert (id_ok id = true) as Hid.
  { unfold ribosome_table_remove_entry in Hrem. fold (id_ok id) in Hrem.
    rewrite (count_valid_inv t Hinv) in Hrem. by destruct (id_ok id). }
  unfold rt_spec in Hmap. rewrite Hid, bool_decide_eq_true_2 in Hmap by (by exists e).
  injection Hmap as Hmap.
  assert (entry_ok e) as Hok.
  { unfold rt_map in He. apply kmap_Some in He as [Hin _]; [|apply Hinv].
    pose proof (rti_ok t Hinv) as Hf. rewrite Forall_forall in Hf. by apply Hf. }
  rewrite <- (take_drop (rt_count t') (rt_entries t')) in Hslot.
  apply elem_of_app in Hslot as [Hlive|Hfree].
  - assert (rt_map t' !! id_of slot = Some slot) as Hm
      by (apply kmap_Some; [apply Hinv' | done]).
    rewrite Hmap in Hm. apply lookup_delete_Some in Hm as [Hne Hm].
    apply (Hother (id_of slot)); [done | congruence].
  - rewrite (rti_rest t' Hinv') in Hfree. apply elem_of_replicate in Hfree as [-> _].
    destruct Hok as [_ _ _ _ _ Hnz]. intros E. apply Hnz. rewrite <- E.
    by apply Forall_replicate.
Qed.

(** ** The empty table and witnesses *)
Lemma ribosome_table_zero_inv : rt_inv ribosome_table_zero.
Proof.
  constructor; [done | cbn; lia | exact (Forall_nil_2 _) | exact NoDup_nil_2 | done].
Qed.

Definition witness_lamp_secret : bytes := replicate 32 7.
Definition witness_door_secret : bytes := replicate 32 9.
Definition witness_lamp : rt_op := RtAddConfig (lit "lamp-1") 1 4 witness_lamp_secret.
Definition witness_door : rt_op := RtAddConfig (lit "door-1") 3 2 witness_door_secret.
Definition witness_table : ribosome_table :=
  (rt_step (rt_step ribosome_table_zero witness_lamp).1 witness_door).1.

Lemma witness_table_inv : rt_inv witness_table.
Proof.
  apply (add_config_step _ (lit "door-1") 3 2 witness_door_secret); [|exact (le_n 32)].
  apply (add_config_step _ (lit "lamp-1") 1 4 witness_lamp_secret); [|exact (le_n 32)].
  exact ribosome_table_zero_inv.
Qed.

Lemma ribosome_table_refines_witness :
  rt_inv (rt_step witness_table (RtRemove (lit "lamp-1"))).1 ∧
  (rt_step witness_table (RtRemove (lit "lamp-1"))).2 = ESP_OK.
Proof.
  split.
  - refine (proj1 (ribosome_table_refines witness_table (RtRemove (lit "lamp-1")) _ _)).
    + exact witness_table_inv.
    + exact I.
  - vm_compute; reflexivity.
Defined.

Lemma ribosome_table_remove_wipes_witness :
  re_device_secret ribosome_entry_zero ≠ witness_lamp_secret.
Proof.
  refine (ribosome_table_remove_wipes witness_table
    (rt_step witness_table (RtRemove (lit "lamp-1"))).1 (lit "lamp-1")
    (entry_of_config (lit "lamp-1") 1 4 witness_lamp_secret) _ _ _ _ ribosome_entry_zero _).
  - exact witness_table_inv.
  - vm_compute; reflexivity.
  - vm_compute; reflexivity.
  - intros k e' Hk Hne. unfold rt_map in Hk. apply kmap_Some in Hk as [Hin Hid];
      [|exact (rti_keys _ witness_table_inv)].
    assert (rt_list witness_table =
      [entry_of_config (lit "lamp-1") 1 4 witness_lamp_secret;
       entry_of_config (lit "door-1") 3 2 witness_door_secret]) as E by (vm_compute; reflexivity).
    rewrite E in Hin. apply elem_of_cons in Hin as [->|Hin%list_elem_of_singleton].
    + destruct Hne. rewrite <- Hid. vm_compute; reflexivity.
    + rewrite Hin. vm_compute. discriminate.
  - apply (list_elem_of_lookup_2 _ 5). vm_compute. reflexivity.
Defined.
