(* ===== verification/Ribosome_store.v ===== *)
(** * Ribosome store: the ribosome table in flash

    [membrane/ribosome_table/ribosome_store.c].  The table is written as one
    checksummed blob; entries are the 72-byte images of their structs, with one
    padding byte that is zero when written and ignored when read.  Every entry
    goes through [ribosome_table_add_entry] in both directions. *)

From S2P Require Import Prelude Bytes Slots Tables Blobs Nvs Rna_membrane Ribosome_table.

Definition RIBOSOME_STORE_MAGIC : Z := 0x5249424F.
Definition RIBOSOME_STORE_VERSION : Z := 2.
Definition NVS_NS : bytes := lit "ribosome".
Definition NVS_KEY : bytes := lit "table".

(** ** The blob *)
(** [sizeof(ribosome_table_entry_t)]: 33 bytes of identifier, one of padding,
    template, epoch, secret. *)
Definition ribosome_entry_size : nat := 72.
Definition ribosome_blob_size : nat := blob_size ribosome_entry_size RIBOSOME_MAX_ENTRIES.

Definition entry_image (e : ribosome_table_entry) : bytes :=
  re_mqtt_client_id e ++ [0] ++ le16 (re_template_id e) ++ le32 (re_epoch e) ++ re_device_secret e.
Definition entry_of_image (b : bytes) : ribosome_table_entry :=
  mk_ribosome_table_entry (slice b 0 RIBOSOME_MQTT_CLIENT_ID_LEN) (of_le16 (slice b 34 2))
    (of_le32 (slice b 36 4)) (slice b 40 RIBOSOME_DEVICE_SECRET_LEN).

Definition fnv1a32_update (hash : Z) (data : bytes) : Z := fnv1a hash data.

Definition blob_checksum (blob : bytes) : Z :=
  let hash := FNV_OFFSET in
  let hash := fnv1a32_update hash (slice blob 0 4) in
  let hash := fnv1a32_update hash (slice blob 4 2) in
  let hash := fnv1a32_update hash (slice blob 6 2) in
  fnv1a32_update hash (slice blob 8 (RIBOSOME_MAX_ENTRIES * ribosome_entry_size)).

(** The loops of [table_to_blob] and [blob_to_table]: add the entries one by
    one, stop at the first error. *)
Fixpoint add_entries (t : ribosome_table) (entries : list ribosome_table_entry) :
    esp_err * ribosome_table :=
  match entries with
  | [] => (ESP_OK, t)
  | e :: entries' =>
    let '(err, t') := ribosome_table_add_entry (Some t) (Some e) in
    if err_ok err then add_entries (default t t') entries' else (err, t)
  end.

Definition table_to_blob (table : option ribosome_table) : esp_err * bytes :=
  match table with
  | None => (ESP_ERR_INVALID_ARG, zeros ribosome_blob_size)
  | Some t =>
    if (RIBOSOME_MAX_ENTRIES <? rt_count t)%nat then (ESP_ERR_INVALID_ARG, zeros ribosome_blob_size)
    else
      let '(err, validated) :=
        add_entries ribosome_table_zero (take (rt_count t) (rt_entries t)) in
      if negb (err_ok err) then (err, zeros ribosome_blob_size)
      else
        (ESP_OK,
         blob_image RIBOSOME_STORE_MAGIC RIBOSOME_STORE_VERSION (u16 (Z.of_nat (rt_count validated)))
           (blob_body ribosome_entry_size RIBOSOME_MAX_ENTRIES
              (entry_image <$> take (rt_count validated) (rt_entries validated))))
  end.

Definition blob_to_table (blob : bytes) (out_table : ribosome_table) : esp_err * ribosome_table :=
  if negb (blob_magic blob =? RIBOSOME_STORE_MAGIC) ||
     negb (blob_version blob =? RIBOSOME_STORE_VERSION) ||
     (Z.of_nat RIBOSOME_MAX_ENTRIES <? blob_count blob)
  then (ESP_ERR_INVALID_VERSION, out_table)
  else if negb (blob_checksum_field ribosome_entry_size RIBOSOME_MAX_ENTRIES blob =? blob_checksum blob)
  then (ESP_ERR_INVALID_CRC, out_table)
  else
    let entries := (fun i => entry_of_image (blob_entry ribosome_entry_size blob i)) <$>
                   seq 0 (Z.to_nat (blob_count blob)) in
    let '(err, table) := add_entries ribosome_table_zero entries in
    if err_ok err then (ESP_OK, table) else (err, out_table).

(** ** The store *)
Section store.
Context {N : Type} `{Nvs N}.

(** The storage, the status and the table after the call. *)
Definition ribosome_store_load (out_table : option ribosome_table) (n : N) :
    N * esp_err * option ribosome_table :=
  match out_table with
  | None => (n, ESP_ERR_INVALID_ARG, None)
  | Some _ =>
    let table := ribosome_table_zero in
    let '(n, err) := nvs_open NVS_NS NVS_READONLY n in
    if negb (err_ok err) then (n, err, Some table)
    else
      let '(err, blob) := nvs_get_blob NVS_NS NVS_KEY ribosome_blob_size n in
      if negb (err_ok err) then (n, err, Some table)
      else if negb (List.length blob =? ribosome_blob_size)%nat then (n, ESP_ERR_INVALID_SIZE, Some table)
      else
        let '(err, table) := blob_to_table blob table in
        (n, err, Some table)
  end.

Definition ribosome_store_load_or_init (out_table : option ribosome_table) (n : N) :
    N * esp_err * option ribosome_table :=
  match out_table with
  | None => (n, ESP_ERR_INVALID_ARG, None)
  | Some _ =>
    let '(n, err, table) := ribosome_store_load out_table n in
    if err_ok err then (n, ESP_OK, table)
    else if negb (err_eqb err ESP_ERR_NVS_NOT_FOUND) then (n, err, table)
    else let '(err, table) := ribosome_table_init table in (n, err, table)
  end.

Definition ribosome_store_save (table : option ribosome_table) (n : N) : N * esp_err :=
  let '(err, blob) := table_to_blob table in
  if negb (err_ok err) then (n, err)
  else
    let '(n, err) := nvs_open NVS_NS NVS_READWRITE n in
    if negb (err_ok err) then (n, err)
    else
      let '(n, err) := nvs_set_blob NVS_NS NVS_KEY blob n in
      if err_ok err then nvs_commit NVS_NS n else (n, err).

Definition ribosome_store_erase (n : N) : N * esp_err :=
  let '(n, err) := nvs_open NVS_NS NVS_READWRITE n in
  if negb (err_ok err) then (n, if err_eqb err ESP_ERR_NVS_NOT_FOUND then ESP_OK else err)
  else
    let '(n, err) := nvs_erase_key NVS_NS NVS_KEY n in
    let err := if err_eqb err ESP_ERR_NVS_NOT_FOUND then ESP_OK else err in
    if err_ok err then nvs_commit NVS_NS n else (n, err).
End store.

(** ** Entries in memory *)
(** The integer fields are in range, as C fields are. *)
Definition entry_ranged (e : ribosome_table_entry) : Prop :=
  is_u16 (re_template_id e) ∧ is_u32 (re_epoch e).

Lemma entry_ok_id_length e :
  entry_ok e → List.length (re_mqtt_client_id e) = RIBOSOME_MQTT_CLIENT_ID_LEN.
Proof.
  intros [_ Hl Hi _ _ _]. rewrite Hi, length_app, length_zeros.
  unfold RIBOSOME_MQTT_CLIENT_ID_LEN. lia.
Qed.

Lemma length_entry_image e : entry_ok e → List.length (entry_image e) = ribosome_entry_size.
Proof.
  intros He. unfold entry_image. rewrite !length_app, (entry_ok_id_length e He).
  destruct He as [_ _ _ _ Hs _]. by rewrite Hs.
Qed.

Lemma entry_of_entry_image e : entry_ok e → entry_ranged e → entry_of_image (entry_image e) = e.
Proof.
  intros He [Ht Hep]. pose proof (entry_ok_id_length e He) as Hid.
  destruct He as [_ _ _ _ Hs _]. destruct e as [id tm ep sec].
  cbn [re_mqtt_client_id re_template_id re_epoch re_device_secret] in *.
  unfold entry_of_image, entry_image.
  cbn [re_mqtt_client_id re_template_id re_epoch re_device_secret].
  rewrite slice_app_here by done. f_equal.
  - rewrite slice_app_skip, Hid by (rewrite Hid; unfold RIBOSOME_MQTT_CLIENT_ID_LEN; lia).
    rewrite slice_app_skip by (cbn; lia). rewrite slice_app_here by done. by apply of_le16_le16'.
  - rewrite slice_app_skip, Hid by (rewrite Hid; unfold RIBOSOME_MQTT_CLIENT_ID_LEN; lia).
    rewrite !slice_app_skip by (cbn; lia). rewrite slice_app_here by done. by apply of_le32_le32'.
  - rewrite slice_app_skip, Hid by (rewrite Hid; unfold RIBOSOME_MQTT_CLIENT_ID_LEN; lia).
    rewrite !slice_app_skip by (cbn; lia). by apply slice_all.
Qed.

Lemma blob_checksum_eq b :
  blob_checksum b = fnv1a FNV_OFFSET (take (blob_checksum_offset ribosome_entry_size RIBOSOME_MAX_ENTRIES) b).
Proof.
  unfold blob_checksum, fnv1a32_update. rewrite <- !fnv1a_app.
  f_equal. rewrite <- ?app_assoc. symmetry.
  transitivity (slice b 0 (4 + (2 + (2 + RIBOSOME_MAX_ENTRIES * ribosome_entry_size)))).
  - unfold slice. by rewrite drop_0.
  - by rewrite !slice_split.
Qed.

(** ** Adding entries one by one *)
Lemma add_entries_inv t entries t' :
  rt_inv t → Forall (fun e => List.length (re_device_secret e) = RIBOSOME_DEVICE_SECRET_LEN) entries →
  add_entries t entries = (ESP_OK, t') → rt_inv t'.
Proof.
  intros Hinv Hl. revert t Hinv. induction Hl as [|e l He _ IH]; intros t Hinv; cbn [add_entries].
  - by intros [= <-].
  - pose proof (add_entry_step t e Hinv He) as [Hs _]. unfold rt_step in Hs.
    destruct (ribosome_table_add_entry _ _) as [err o].
    unfold err_ok, err_eqb. case_bool_decide as Herr; [|by intros [= -> _]].
    intros Hadd. by apply (IH (default t o)).
Qed.

Lemma entry_ok_addable e :
  entry_ok e →
  id_ok (re_mqtt_client_id e) = true ∧ (re_template_id e =? 0) = false ∧
  secret_zero (re_device_secret e) = false ∧
  entry_of_config (re_mqtt_client_id e) (re_template_id e) (re_epoch e) (re_device_secret e) = e.
Proof.
  intros He. pose proof (entry_ok_id e He) as Hid. pose proof (copy_entry_ok e He) as Hc.
  destruct e as [id tm ep sec].
  destruct He as [H1 H2 H3 H4 H5 H6]. cbn [re_mqtt_client_id re_template_id re_epoch re_device_secret] in *.
  split; [done|]. split; [by apply Z.eqb_neq|]. split.
  - unfold secret_zero. rewrite take_ge by lia. apply not_true_iff_false. by rewrite bytes_all_zero_spec.
  - transitivity (copy_entry_sanitized (mk_ribosome_table_entry id tm ep sec)); [|done].
    symmetry. by apply copy_sanitized_eq.
Qed.

(** Well-formed entries with new, distinct identifiers are all accepted, in
    order. *)
Lemma add_entries_ok t entries :
  rt_inv t → Forall entry_ok entries → NoDup (id_of <$> rt_list t ++ entries) →
  (List.length (rt_list t ++ entries) ≤ RIBOSOME_MAX_ENTRIES)%nat →
  ∃ t', add_entries t entries = (ESP_OK, t') ∧ rt_inv t' ∧ rt_list t' = rt_list t ++ entries.
Proof.
  intros Hinv Hok. revert t Hinv. induction Hok as [|e l He _ IH]; intros t Hinv Hn Hl.
  - exists t. cbn. by rewrite app_nil_r.
  - destruct (entry_ok_addable e He) as (Hid & Ht & Hz & Heq).
    assert (rt_count t < RIBOSOME_MAX_ENTRIES)%nat as Hlt.
    { rewrite length_app in Hl. unfold rt_list, live in Hl. rewrite length_take in Hl.
      destruct Hinv as [Hle Hc _ _ _]. cbn in Hl. lia. }
    assert (rt_map t !! id_of e = None) as Hfresh.
    { apply kmap_None. intros Hin. rewrite fmap_app in Hn. apply NoDup_app in Hn as (_ & Hd & _).
      apply (Hd _ Hin). by left. }
    destruct (append_entry_ok t e Hinv He Hlt Hfresh) as [Hi' _].
    set (t1 := mk_ribosome_table _ _) in Hi'.
    assert (rt_list t1 = rt_list t ++ [e]) as El
      by (apply live_append; destruct Hinv as [Hle _ _ _ _]; lia).
    destruct (IH t1 Hi') as (t' & Hadd & Hi'' & Hlist).
    { by rewrite El, <- app_assoc. }
    { by rewrite El, <- app_assoc. }
    exists t'. split; [|split; [done|]].
    + cbn [add_entries]. unfold ribosome_table_add_entry. rewrite (count_valid_inv t Hinv).
      fold (id_ok (re_mqtt_client_id e)). fold (secret_zero (re_device_secret e)).
      unfold ribosome_template_id_valid, rna_template_id_valid, RNA_TEMPLATE_ID_INVALID.
      rewrite Hid, Ht, Hz. cbn [negb].
      assert ((RIBOSOME_MAX_ENTRIES <=? rt_count t)%nat = false) as -> by (by apply Nat.leb_gt).
      rewrite entry_exists_spec by done. unfold id_of in Hfresh. rewrite Hfresh.
      rewrite bool_decide_eq_false_2 by (by intros [? ?]).
      rewrite copy_entry_ok by done. exact Hadd.
    + by rewrite Hlist, El, <- app_assoc.
Qed.

(** A well-formed table is determined by its live entries. *)
Lemma rt_ext t t' : rt_inv t → rt_inv t' → rt_list t = rt_list t' → t = t'.
Proof.
  intros [Hl Hc _ _ Hr] [Hl' Hc' _ _ Hr'] E.
  assert (rt_count t = rt_count t') as Ec.
  { apply (f_equal List.length) in E. unfold rt_list, live in E. rewrite !length_take in E. lia. }
  destruct t as [es n], t' as [es' n']. cbn [rt_entries rt_count] in *. subst n'. f_equal.
  rewrite <- (take_drop n es), <- (take_drop n es'), Hr, Hr'. unfold rt_list, live in E.
  cbn in E. by rewrite E.
Qed.

(** A table and its blob. *)
Lemma table_to_blob_to_table t out :
  rt_inv t → Forall entry_ranged (rt_list t) →
  ∃ blob, table_to_blob (Some t) = (ESP_OK, blob) ∧ List.length blob = ribosome_blob_size ∧
          blob_to_table blob out = (ESP_OK, t).
Proof.
  intros Hinv Hrng. pose proof Hinv as [Hl Hc Hok Hk Hr].
  destruct (add_entries_ok ribosome_table_zero (rt_list t)) as (t' & Hadd & Hi' & El);
    [exact ribosome_table_zero_inv | done | done | |].
  { change (List.length (rt_list t) ≤ RIBOSOME_MAX_ENTRIES)%nat.
    unfold rt_list, live. rewrite length_take. lia. }
  change (rt_list ribosome_table_zero ++ rt_list t) with (rt_list t) in El.
  apply rt_ext in El as ->; [|done|done].
  assert ((RIBOSOME_MAX_ENTRIES <? rt_count t)%nat = false) as Hcnt by (by apply Nat.ltb_ge).
  assert (u16 (Z.of_nat (rt_count t)) = Z.of_nat (rt_count t)) as Hu.
  { apply u16_small. unfold is_u16, RIBOSOME_MAX_ENTRIES in *. lia. }
  set (images := entry_image <$> rt_list t).
  assert (Forall (fun b => List.length b = ribosome_entry_size) images) as Himg.
  { apply Forall_fmap. eapply Forall_impl; [exact Hok | exact length_entry_image]. }
  assert (List.length (rt_list t) = rt_count t) as Hlen
    by (unfold rt_list, live; rewrite length_take; lia).
  assert (List.length (blob_body ribosome_entry_size RIBOSOME_MAX_ENTRIES images) =
          (RIBOSOME_MAX_ENTRIES * ribosome_entry_size)%nat) as Hbody.
  { apply length_blob_body; [done|]. unfold images. by rewrite length_fmap, Hlen. }
  eexists. unfold table_to_blob. rewrite Hcnt. fold (live (rt_count t) (rt_entries t)).
  fold (rt_list t). rewrite Hadd. unfold err_ok, err_eqb. rewrite bool_decide_eq_true_2 by done.
  cbn [negb]. split; [done|]. split; [by apply length_blob_image|].
  fold (live (rt_count t) (rt_entries t)). fold (rt_list t). fold images.
  unfold blob_to_table. rewrite blob_image_magic by done. rewrite blob_image_version by done.
  rewrite blob_image_count by (rewrite Hu; unfold is_u16, RIBOSOME_MAX_ENTRIES in *; lia).
  rewrite Hu. rewrite !Z.eqb_refl. cbn [negb orb].
  assert ((Z.of_nat RIBOSOME_MAX_ENTRIES <? Z.of_nat (rt_count t)) = false) as ->
    by (apply Z.ltb_ge; lia).
  rewrite blob_image_checksum, blob_checksum_eq, Z.eqb_refl by done. cbn [negb].
  rewrite Nat2Z.id.
  assert ((fun i => entry_of_image (blob_entry ribosome_entry_size
            (blob_image RIBOSOME_STORE_MAGIC RIBOSOME_STORE_VERSION (Z.of_nat (rt_count t))
              (blob_body ribosome_entry_size RIBOSOME_MAX_ENTRIES images)) i))
          <$> seq 0 (rt_count t) = rt_list t) as ->.
  { apply list_eq. intros i. rewrite list_lookup_fmap.
    destruct (rt_list t !! i) as [e|] eqn:Ei.
    - pose proof (lookup_lt_Some _ _ _ Ei) as Hi. rewrite lookup_seq_lt by lia. cbn [fmap option_fmap option_map].
      rewrite (blob_image_entry _ _ _ _ _ _ i (entry_image e)); [|done|].
      + f_equal. apply entry_of_entry_image; [by eapply Forall_lookup_1 | by eapply Forall_lookup_1].
      + unfold images. by rewrite list_lookup_fmap, Ei.
    - apply lookup_ge_None in Ei. rewrite lookup_seq_ge by lia. done. }
  by rewrite Hadd.
Qed.

Lemma blob_entry_secret blob i :
  List.length blob = ribosome_blob_size → (i < RIBOSOME_MAX_ENTRIES)%nat →
  List.length (re_device_secret (entry_of_image (blob_entry ribosome_entry_size blob i))) =
  RIBOSOME_DEVICE_SECRET_LEN.
Proof.
  intros Hlen Hi. unfold entry_of_image. cbn [re_device_secret].
  assert (40 + RIBOSOME_DEVICE_SECRET_LEN ≤ ribosome_entry_size)%nat as H40 by done.
  apply length_slice. unfold blob_entry. rewrite length_slice; [exact H40|].
  rewrite Hlen. unfold ribosome_blob_size, blob_size, blob_checksum_offset.
  unfold RIBOSOME_MAX_ENTRIES, ribosome_entry_size in *. lia.
Qed.

(** Whatever a blob of the right size holds, it decodes to a well-formed table
    or to none. *)
Lemma blob_to_table_inv blob out t :
  List.length blob = ribosome_blob_size →
  blob_to_table blob out = (ESP_OK, t) →
  rt_inv t ∧ blob_magic blob = RIBOSOME_STORE_MAGIC ∧ blob_version blob = RIBOSOME_STORE_VERSION ∧
  blob_checksum_field ribosome_entry_size RIBOSOME_MAX_ENTRIES blob = blob_checksum blob.
Proof.
  intros Hlen. unfold blob_to_table. destruct (_ || _) eqn:E1; [done|].
  destruct (_ =? blob_checksum blob) eqn:E2; cbn [negb]; [|done]. bools.
  destruct (add_entries _ _) as [err t'] eqn:Ea. unfold err_ok, err_eqb.
  case_bool_decide as He; [|congruence]. subst err. intros [= <-].
  split; [|by split_and!]. eapply add_entries_inv; [exact ribosome_table_zero_inv | | exact Ea].
  apply Forall_fmap, Forall_forall. intros i Hi. rewrite elem_of_seq in Hi.
  apply blob_entry_secret; [done|]. change (Z.of_nat RIBOSOME_MAX_ENTRIES) with 20 in *.
  unfold RIBOSOME_MAX_ENTRIES. lia.
Qed.

Lemma blob_to_table_failed blob out err t :
  blob_to_table blob out = (err, t) → err ≠ ESP_OK → t = out.
Proof.
  unfold blob_to_table. destruct (_ || _); [by intros [= <- <-]|].
  destruct (negb _); [by intros [= <- <-]|]. destruct (add_entries _ _) as [e t'].
  destruct (err_ok e); intros [= <- <-]; done.
Qed.

(** ** The store as a map in flash *)
Section flash.
Context {N : Type} `{NvsLaws N}.

(** The devices of the storage. *)
Definition stored_devices (n : N) : option (gmap bytes ribosome_table_entry) :=
  match nvs_lookup n NVS_NS NVS_KEY with
  | None => Some (rt_map ribosome_table_zero)
  | Some blob =>
    if (List.length blob =? ribosome_blob_size)%nat then
      let '(err, t) := blob_to_table blob ribosome_table_zero in if err_ok err then Some (rt_map t) else None
    else None
  end.
#[export] Instance stored_devices_proper : Proper (same_flash ==> eq) stored_devices.
Proof. intros n n' E. unfold stored_devices. by rewrite E. Qed.

Lemma map_ranged t :
  rt_inv t → map_Forall (fun _ e => entry_ranged e) (rt_map t) ↔ Forall entry_ranged (rt_list t).
Proof.
  intros [_ _ _ Hk _]. rewrite Forall_forall, map_Forall_lookup. unfold rt_map. split.
  - intros Hm e He. apply (Hm (id_of e)). by apply kmap_Some.
  - intros Hl k e He. apply (kmap_Some id_of _ _ _ Hk) in He as [He _]. by apply Hl.
Qed.

Lemma add_entries_ranged t entries t' :
  rt_inv t → Forall (fun e => List.length (re_device_secret e) = RIBOSOME_DEVICE_SECRET_LEN) entries →
  Forall entry_ranged entries → Forall entry_ranged (rt_list t) →
  add_entries t entries = (ESP_OK, t') → Forall entry_ranged (rt_list t').
Proof.
  intros Hinv Hl. revert t Hinv. induction Hl as [|e l He _ IH]; intros t Hinv Hr Ht; cbn [add_entries].
  - by intros [= <-].
  - inversion_clear Hr as [|? ? Hre Hrl]. pose proof (add_entry_step t e Hinv He) as [Hs Hspec].
    unfold rt_step in *. destruct (ribosome_table_add_entry _ _) as [err o].
    unfold err_ok, err_eqb. case_bool_decide as Herr; [|by intros [= -> _]].
    intros Hadd. apply (IH (default t o)); [done|done| |done]. cbn [fst snd] in *.
    apply map_ranged in Ht; [|done]. apply map_ranged; [done|]. subst err.
    destruct e as [id tm ep sec]. cbn [rt_spec] in Hspec.
    repeat (case_match; [discriminate Hspec|]). injection Hspec as Hm. rewrite Hm.
    by apply map_Forall_insert_2.
Qed.

Lemma blob_to_table_ranged blob out t :
  List.length blob = ribosome_blob_size → Forall is_u8 blob →
  blob_to_table blob out = (ESP_OK, t) → Forall entry_ranged (rt_list t).
Proof.
  intros Hlen Hb. unfold blob_to_table. destruct (_ || _) eqn:E1; [done|].
  destruct (_ =? blob_checksum blob) eqn:E2; cbn [negb]; [|done]. bools.
  destruct (add_entries _ _) as [err t'] eqn:Ea. unfold err_ok, err_eqb.
  case_bool_decide as He; [|congruence]. subst err. intros [= <-].
  change (Z.of_nat RIBOSOME_MAX_ENTRIES) with 20 in *.
  eapply add_entries_ranged; [exact ribosome_table_zero_inv| | |by constructor|exact Ea];
    apply Forall_fmap, Forall_forall; intros i Hi; rewrite elem_of_seq in Hi.
  - apply blob_entry_secret; [done|]. unfold RIBOSOME_MAX_ENTRIES. lia.
  - unfold entry_ranged, entry_of_image, blob_entry. cbn [re_template_id re_epoch].
    split; [apply of_le16_u16|apply of_le32_u32]; by apply slice_bytes, slice_bytes.
Qed.

Lemma store_load_nvs out n :
  ribosome_store_load (Some out) n =
  (let '(n', err, t) := nvs_load NVS_NS NVS_KEY ribosome_blob_size blob_to_table ribosome_table_zero n in
   (n', err, Some t)).
Proof. unfold ribosome_store_load, nvs_load. by repeat case_match. Qed.

Lemma blob_to_table_found b t : blob_to_table b ribosome_table_zero ≠ (ESP_ERR_NVS_NOT_FOUND, t).
Proof.
  assert (∀ l t0 t1, add_entries t0 l ≠ (ESP_ERR_NVS_NOT_FOUND, t1)) as Ha.
  { induction l as [|e l IH]; intros t0 t1; cbn [add_entries]; [done|].
    destruct (ribosome_table_add_entry _ _) as [err o] eqn:E. destruct (err_ok err); [apply IH|].
    intros [= -> _]. unfold ribosome_table_add_entry in E. repeat (case_match; try discriminate E). }
  unfold blob_to_table. repeat (case_match; try done). intros [= -> _].
  by eapply Ha.
Qed.

(** What a successful save leaves in flash. *)
Lemma store_save_stores t (n n' : N) :
  rt_inv t → Forall entry_ranged (rt_list t) → ribosome_store_save (Some t) n = (n', ESP_OK) →
  (∃ blob, nvs_lookup n' NVS_NS NVS_KEY = Some blob ∧ List.length blob = ribosome_blob_size ∧
           blob_to_table blob ribosome_table_zero = (ESP_OK, t)) ∧
  ∀ ns key, (ns, key) ≠ (NVS_NS, NVS_KEY) → nvs_lookup n' ns key = nvs_lookup n ns key.
Proof.
  intros Hinv Hrng Hsave.
  destruct (table_to_blob_to_table t ribosome_table_zero Hinv Hrng) as (blob & Hto & Hlen & Hback).
  unfold ribosome_store_save in Hsave. rewrite Hto in Hsave.
  apply (nvs_write_ok NVS_NS NVS_KEY blob) in Hsave as [Hget Hother]. by eauto.
Qed.

Lemma store_save_load t (n n' : N) :
  rt_inv t → Forall entry_ranged (rt_list t) → ribosome_store_save (Some t) n = (n', ESP_OK) →
  ∀ out, ∃ n1, ribosome_store_load (Some out) n' = (n1, ESP_OK, Some t).
Proof.
  intros Hinv Hrng Hsave out. destruct (store_save_stores t n n' Hinv Hrng Hsave) as [(blob & Hg & Hl & Hb) _].
  rewrite store_load_nvs. destruct (nvs_load_stored _ _ _ _ _ _ _ _ Hg Hl Hb) as [n1 ->]. by exists n1.
Qed.

Lemma stored_devices_save t (n n' : N) :
  rt_inv t → Forall entry_ranged (rt_list t) → ribosome_store_save (Some t) n = (n', ESP_OK) →
  stored_devices n' = Some (rt_map t).
Proof.
  intros Hinv Hr Hs. destruct (store_save_stores t n n' Hinv Hr Hs) as [(blob & Hg & Hl & Hb) _].
  unfold stored_devices. rewrite Hg, Hl, Nat.eqb_refl, Hb. by rewrite (proj2 (err_ok_true ESP_OK) eq_refl).
Qed.

Lemma load_or_init_spec out (n n' : N) err t :
  ribosome_store_load_or_init (Some out) n = (n', err, t) →
  same_flash n n' ∧
  (err = ESP_OK → ∃ t', t = Some t' ∧ rt_inv t' ∧ stored_devices n = Some (rt_map t') ∧
                        (flash_bytes n → Forall entry_ranged (rt_list t'))).
Proof.
  unfold ribosome_store_load_or_init. rewrite store_load_nvs.
  pose proof (nvs_load_spec NVS_NS NVS_KEY ribosome_blob_size blob_to_table ribosome_table_zero n
                blob_to_table_found) as Hs.
  destruct (nvs_load _ _ _ _ _ _) as [[n1 e1] t1]. destruct Hs as (Hf & Hok & Hnf).
  destruct (err_ok e1) eqn:E1.
  - apply err_ok_true in E1 as ->. intros [= <- <- <-]. split; [done|]. intros _.
    destruct (Hok eq_refl) as (blob & Hg & Hl & Hb). exists t1. split_and!; [done| | |].
    + by apply (blob_to_table_inv blob ribosome_table_zero).
    + unfold stored_devices. by rewrite Hg, Hl, Nat.eqb_refl, Hb, (proj2 (err_ok_true ESP_OK) eq_refl).
    + intros Hby. apply (blob_to_table_ranged blob ribosome_table_zero); [done|by eapply Hby|done].
  - apply err_ok_false in E1. destruct (err_eqb e1 _) eqn:E2; cbn [negb]; intros [= <- <- <-]; [|by split].
    apply bool_decide_eq_true in E2. destruct (Hnf E2) as [Hg ->]. split; [done|]. intros _.
    exists ribosome_table_zero. split_and!; [done|exact ribosome_table_zero_inv| |constructor].
    unfold stored_devices. by rewrite Hg.
Qed.
End flash.

(** ** Properties *)

(** C27: what was saved is what is loaded: after a successful save of a
    well-formed table, a load succeeds and gives the very same table, and so
    does [load_or_init]; no other blob of the storage is touched. *)
Theorem ribosome_store_roundtrip {N : Type} `{NvsLaws N} t out (n n' : N) :
  rt_inv t → Forall entry_ranged (rt_list t) →
  ribosome_store_save (Some t) n = (n', ESP_OK) →
  (ribosome_store_load (Some out) n').1.2 = ESP_OK ∧
  (ribosome_store_load (Some out) n').2 = Some t ∧
  (ribosome_store_load_or_init (Some out) n').1.2 = ESP_OK ∧
  (ribosome_store_load_or_init (Some out) n').2 = Some t ∧
  ∀ ns key, (ns, key) ≠ (NVS_NS, NVS_KEY) → nvs_lookup n' ns key = nvs_lookup n ns key.
Proof.
  intros Hinv Hrng Hsave. destruct (store_save_load t n n' Hinv Hrng Hsave out) as [n1 Hload].
  destruct (store_save_stores t n n' Hinv Hrng Hsave) as [_ Hother].
  unfold ribosome_store_load_or_init. rewrite Hload. by split_and!.
Qed.

(** Flash is not trusted: whatever the storage holds under the key, and
    whatever the library answers, a load that reports success gives a
    well-formed table (valid, distinct entries) from a blob whose magic number,
    version and checksum fit; every other load leaves the empty table. *)
Theorem ribosome_store_load_safe {N : Type} `{Nvs N} out (n n' : N) err t :
  ribosome_store_load (Some out) n = (n', err, t) →
  (err = ESP_OK → ∃ t', t = Some t' ∧ rt_inv t') ∧
  (err ≠ ESP_OK → t = Some ribosome_table_zero).
Proof.
  unfold ribosome_store_load. destruct (nvs_open _ _ _) as [n1 e1].
  destruct (err_ok e1) eqn:E1; cbn [negb].
  2: { apply err_ok_false in E1. by intros [= <- <- <-]. }
  destruct (nvs_get_blob _ _ _ _) as [e2 blob].
  destruct (err_ok e2) eqn:E2; cbn [negb].
  2: { apply err_ok_false in E2. by intros [= <- <- <-]. }
  destruct (List.length blob =? ribosome_blob_size)%nat eqn:E3; cbn [negb].
  2: { by intros [= <- <- <-]. }
  apply Nat.eqb_eq in E3.
  destruct (blob_to_table blob ribosome_table_zero) as [e4 t4] eqn:E4. intros [= <- <- <-]. split.
  - intros ->. exists t4. split; [done|]. by apply (blob_to_table_inv blob ribosome_table_zero).
  - intros Hne. f_equal. by apply (blob_to_table_failed blob _ e4).
Qed.

(** ** Witnesses *)
Definition witness_flash : nvs_map := {[ (lit "zoneguard", lit "config_blob") := [1; 2; 3] ]}.

Lemma ribosome_store_roundtrip_witness :
  (ribosome_store_load (Some ribosome_table_zero)
     (ribosome_store_save (Some witness_table) witness_flash).1).2 = Some witness_table.
Proof.
  refine (proj1 (proj2 (ribosome_store_roundtrip witness_table ribosome_table_zero witness_flash
    (ribosome_store_save (Some witness_table) witness_flash).1 _ _ _))).
  - exact witness_table_inv.
  - assert (rt_list witness_table =
      [entry_of_config (lit "lamp-1") 1 4 witness_lamp_secret;
       entry_of_config (lit "door-1") 3 2 witness_door_secret]) as E by (vm_compute; reflexivity).
    rewrite E. repeat constructor; cbv; discriminate.
  - apply pair_named. vm_compute; reflexivity.
Defined.

(** A blob whose last secret byte was flipped after the save. *)
Definition witness_corrupt : nvs_map :=
  <[(NVS_NS, NVS_KEY) := <[151%nat := 0]> ((table_to_blob (Some witness_table)).2)]> witness_flash.

Definition witness_load : nvs_map * esp_err * option ribosome_table :=
  ribosome_store_load (Some witness_table) witness_corrupt.

Lemma ribosome_store_load_safe_witness : witness_load.2 = Some ribosome_table_zero.
Proof.
  refine (proj2 (ribosome_store_load_safe witness_table witness_corrupt witness_load.1.1
    ESP_ERR_INVALID_CRC witness_load.2 _) _).
  - apply triple_named. vm_compute; reflexivity.
  - discriminate.
Defined.
