(* ===== verification/Forms.v ===== *)
(** * Forms: the text the admin server reads

    The parsing helpers of [admin_server/admin_server.c]: hexadecimal, decimal
    numbers ([strtoul] with the 32-bit [unsigned long] of the ESP32), lists of
    actions, URL decoding and the fields of a form body.  A pointer into a
    string is the suffix it points at. *)

From S2P Require Import Prelude Bytes Amino_acids Rna_membrane.

(** ** Hexadecimal *)
(** [None] is -1. *)
Definition hex_value (c : Z) : option Z :=
  if (48 <=? c) && (c <=? 57) then Some (c - 48)
  else if (97 <=? c) && (c <=? 102) then Some (10 + c - 97)
  else if (65 <=? c) && (c <=? 70) then Some (10 + c - 65)
  else None.

(** The decoding loop from index [i], [n] bytes to go; [None] is the return
    with a character that is no digit. *)
Fixpoint parse_hex_loop (n i : nat) (hex out : bytes) : option bytes :=
  match n with
  | O => Some out
  | S n' =>
    match hex_value (nth (i * 2) hex 0), hex_value (nth (i * 2 + 1) hex 0) with
    | Some hi, Some lo => parse_hex_loop n' (S i) hex (<[i := Z.lor (Z.shiftl hi 4) lo]> out)
    | _, _ => None
    end
  end.

(** The status, the buffer and [*out_len]; [out] holds [out_size] bytes. *)
Definition parse_hex (hex out : option bytes) : esp_err * option bytes * nat :=
  match hex, out with
  | Some h, Some o =>
    if (List.length o =? 0)%nat then (ESP_ERR_INVALID_ARG, out, O)
    else
      let hex_len := strlen h in
      if negb (hex_len mod 2 =? 0)%nat || (List.length o <? hex_len / 2)%nat
      then (ESP_ERR_INVALID_SIZE, out, O)
      else
        match parse_hex_loop (hex_len / 2) 0 h o with
        | None => (ESP_ERR_INVALID_ARG, Some (zeros (List.length o)), O)
        | Some o' => (ESP_OK, Some o', (hex_len / 2)%nat)
        end
  | _, _ => (ESP_ERR_INVALID_ARG, out, O)
  end.

Definition parse_exact_hex (hex out : option bytes) : esp_err * option bytes :=
  let '(err, out', len) := parse_hex hex out in
  if negb (err_ok err) then (err, out')
  else if (len =? List.length (default [] out'))%nat then (ESP_OK, out') else (ESP_ERR_INVALID_SIZE, out').

Definition k_hex : bytes := lit "0123456789abcdef".
Definition hex_digits (b : Z) : bytes :=
  [nth (Z.to_nat (Z.shiftr b 4)) k_hex 0; nth (Z.to_nat (Z.land b 15)) k_hex 0].

(** The string left in [out], the buffer unchanged when it is too small. *)
Definition hex_encode (data out : bytes) : bytes :=
  if (List.length out <? List.length data * 2 + 1)%nat then out
  else
    let text := concat (hex_digits <$> data) ++ [0] in
    memcpy out text (List.length text).

(** ** Decimal numbers *)
Definition ULONG_MAX : Z := U32_MAX.

Definition isspace (c : Z) : bool := (c =? 32) || ((9 <=? c) && (c <=? 13)).
Definition isdigit (c : Z) : bool := (48 <=? c) && (c <=? 57).

Fixpoint skip_while (f : Z → bool) (s : bytes) : bytes :=
  match s with
  | [] => []
  | c :: s' => if f c then skip_while f s' else s
  end.
Fixpoint take_while (f : Z → bool) (s : bytes) : bytes :=
  match s with
  | [] => []
  | c :: s' => if f c then c :: take_while f s' else []
  end.
Definition decimal (digits : bytes) : Z := fold_left (fun acc c => acc * 10 + (c - 48)) digits 0.

(** The value and [*end]: white space, an optional sign, digits; a number that
    does not fit gives [ULONG_MAX]; without a digit nothing is read. *)
Definition strtoul (s : bytes) : Z * bytes :=
  let s1 := skip_while isspace s in
  let negative := nth 0 s1 0 =? 45 in
  let s2 := if negative || (nth 0 s1 0 =? 43) then drop 1 s1 else s1 in
  let digits := take_while isdigit s2 in
  match digits with
  | [] => (0, s)
  | _ =>
    let v := decimal digits in
    (if ULONG_MAX <? v then ULONG_MAX else if negative then u32 (- v) else v,
     skip_while isdigit s2)
  end.

(** [None] is [false]; the [value > UINT32_MAX] test is the code's. *)
Definition parse_u32_field (text : option bytes) : option Z :=
  match text with
  | None => None
  | Some t =>
    if nth 0 t 0 =? 0 then None
    else
      let '(value, rest) := strtoul t in
      if negb (nth 0 rest 0 =? 0) || (U32_MAX <? value) then None else Some value
  end.

Definition amino_separator (c : Z) : bool := (c =? 32) || (c =? 44) || (c =? 59) || (c =? 9).

(** The loop over the string: the array, [*out_count] and the verdict.  Every
    turn reads a number of at least one character. *)
Fixpoint parse_amino_loop (fuel : nat) (p : bytes) (ids : list Z) (count : nat) :
    bool * list Z * nat :=
  match fuel with
  | O => (false, ids, count)
  | S fuel' =>
    let p := skip_while amino_separator p in
    match p with
    | [] => ((0 <? count)%nat, ids, count)
    | _ =>
      let '(value, rest) := strtoul p in
      if (List.length rest =? List.length p)%nat || (U16_MAX <? value) then (false, ids, count)
      else if negb (amino_acid_id_valid value) then (false, ids, count)
      else if (RNA_TEMPLATE_MAX_AMINOS <=? count)%nat then (false, ids, count)
      else if existsb (fun a => a =? value) (take count ids) then (false, ids, count)
      else
        let ids := <[count := value]> ids in
        let count := S count in
        match rest with
        | [] => ((0 <? count)%nat, ids, count)
        | c :: _ =>
          if amino_separator c then parse_amino_loop fuel' rest ids count else (false, ids, count)
        end
    end
  end.
Definition parse_amino_ids (text : option bytes) (out_ids : list Z) (out_count : nat) :
    bool * list Z * nat :=
  match text with
  | None => (false, out_ids, out_count)
  | Some t => parse_amino_loop (S (strlen t)) (c_str t) out_ids 0
  end.

(** ** Form bodies *)
(** The decoding loop: what is written to [dst], [room] bytes of it being left
    before the terminator. *)
Fixpoint url_decode_loop (room : nat) (src : bytes) : bytes :=
  match room with
  | O => []
  | S room' =>
    match src with
    | [] => []
    | c :: src' =>
      if c =? 43 then 32 :: url_decode_loop room' src'
      else if c =? 37 then
        match src' with
        | a :: b :: src'' =>
          match hex_value a, hex_value b with
          | Some hi, Some lo => Z.lor (Z.shiftl hi 4) lo :: url_decode_loop room' src''
          | _, _ => c :: url_decode_loop room' src'
          end
        | _ => c :: url_decode_loop room' src'
        end
      else c :: url_decode_loop room' src'
    end
  end.
Definition url_decode_n (dst : bytes) (src : option bytes) (src_len : nat) : bytes :=
  if (List.length dst =? 0)%nat then dst
  else
    let text := match src with
                | Some s => url_decode_loop (List.length dst - 1) (take src_len s)
                | None => []
                end ++ [0] in
    memcpy dst text (List.length text).

(** [strchr] on a string: the characters before, and the suffix after. *)
Fixpoint strchr (c : Z) (s : bytes) : option (bytes * bytes) :=
  match s with
  | [] => None
  | b :: s' =>
    if b =? c then Some ([], s')
    else match strchr c s' with Some (pre, post) => Some (b :: pre, post) | None => None end
  end.

(** The walk over the pairs; [p] is the rest of the body.  Every turn passes an
    equals sign. *)
Fixpoint form_loop (fuel : nat) (p key out : bytes) : bool * bytes :=
  match fuel with
  | O => (false, out)
  | S fuel' =>
    match strchr 61 p with
    | None => (false, out)
    | Some (name, value) =>
      let amp := strchr 38 value in
      if bool_decide (name = key) then
        let value_len := match amp with Some (v, _) => List.length v | None => List.length value end in
        (true, url_decode_n out (Some value) value_len)
      else match amp with Some (_, rest) => form_loop fuel' rest key out | None => (false, out) end
    end
  end.

Definition form_get_value (body key : option bytes) (out : bytes) : bool * bytes :=
  match body, key with
  | Some b, Some k =>
    match out with
    | [] => (false, [])
    | _ :: out' => form_loop (S (strlen b)) (c_str b) (c_str k) (0 :: out')
    end
  | _, _ => (false, out)
  end.

(** [printf] of an unsigned number ([%u], [%lu]): its decimal digits; twenty
    are enough for 64 bits. *)
Fixpoint print_loop (fuel : nat) (n : Z) (acc : bytes) : bytes :=
  match fuel with
  | O => acc
  | S fuel' =>
    let acc := (48 + n mod 10) :: acc in
    if n / 10 =? 0 then acc else print_loop fuel' (n / 10) acc
  end.
Definition print_u (n : Z) : bytes := print_loop 20 n [].

(** ** Reading back hexadecimal *)
Lemma is_u8_forall (P : Z → Prop) `{∀ b, Decision (P b)} b :
  Forall P (seqZ 0 256) → is_u8 b → P b.
Proof. intros HP [? ?]. rewrite Forall_forall in HP. apply HP, elem_of_seqZ. lia. Qed.

(** The two digits of a byte read back as the byte. *)
Lemma hex_digits_value b :
  is_u8 b → ∃ x y, hex_digits b = [x; y] ∧ 0 < x < 256 ∧ 0 < y < 256 ∧
                   ∃ hi lo, hex_value x = Some hi ∧ hex_value y = Some lo ∧
                            Z.lor (Z.shiftl hi 4) lo = b.
Proof.
  set (ok := fun b => match hex_digits b with
    | [x; y] => match hex_value x, hex_value y with
                | Some hi, Some lo => (0 <? x) && (x <? 256) && (0 <? y) && (y <? 256) &&
                                      (Z.lor (Z.shiftl hi 4) lo =? b)
                | _, _ => false
                end
    | _ => false
    end).
  intros Hb. assert (ok b = true) as E.
  { apply (is_u8_forall (fun b => ok b = true)); [|done]. by forall_compute. }
  unfold ok in E. destruct (hex_digits b) as [|x [|y []]]; try done. exists x, y.
  destruct (hex_value x) as [hi|] eqn:E1; [|done]. destruct (hex_value y) as [lo|] eqn:E2; [|done].
  bools. split_and!; try done. by exists hi, lo.
Qed.

Definition hex_text (data : bytes) : bytes := concat (hex_digits <$> data).

Lemma hex_text_cons b data : hex_text (b :: data) = hex_digits b ++ hex_text data.
Proof. done. Qed.

Lemma hex_text_shape data :
  bytes_ok data → Forall (fun c => c ≠ 0) (hex_text data) ∧
                  List.length (hex_text data) = (List.length data * 2)%nat.
Proof.
  induction 1 as [|b data Hb _ [IH1 IH2]]; [by split; [constructor|]|].
  destruct (hex_digits_value b Hb) as (x & y & E & ? & ? & _).
  rewrite hex_text_cons, E. cbn [app List.length]. rewrite IH2. split; [|lia].
  constructor; [lia|]. constructor; [lia|done].
Qed.

Lemma parse_hex_loop_text pre data rest out :
  bytes_ok data → (List.length pre * 2 = List.length (hex_text pre))%nat →
  (List.length pre + List.length data ≤ List.length out)%nat →
  take (List.length pre) out = pre →
  parse_hex_loop (List.length data) (List.length pre) (hex_text (pre ++ data) ++ rest) out =
  Some (pre ++ data ++ drop (List.length pre + List.length data) out).
Proof.
  intros Hd. revert pre out. induction Hd as [|b data Hb _ IH]; intros pre out Hp Hl Ht.
  - cbn [List.length parse_hex_loop app]. rewrite Nat.add_0_r. f_equal.
    rewrite <- (take_drop (List.length pre) out) at 1. by rewrite Ht.
  - destruct (hex_digits_value b Hb) as (x & y & E & _ & _ & hi & lo & Ex & Ey & Eb).
    cbn [List.length parse_hex_loop]. unfold hex_text in *. rewrite fmap_app, concat_app.
    rewrite fmap_cons, concat_cons, E, <- app_assoc. cbn [app].
    rewrite Hp. rewrite app_nth2, Nat.sub_diag by lia. cbn [nth].
    rewrite app_nth2 by lia. replace (_ + 1 - _)%nat with 1%nat by lia. cbn [nth].
    rewrite Ex, Ey, Eb. cbn [List.length] in Hl.
    assert (pre ++ b :: data = (pre ++ [b]) ++ data) as Happ by (by rewrite <- app_assoc).
    replace (S (List.length pre)) with (List.length (pre ++ [b])) by (rewrite length_app; cbn; lia).
    assert (concat (hex_digits <$> pre) ++ x :: y :: concat (hex_digits <$> data) ++ rest =
            concat (hex_digits <$> (pre ++ [b]) ++ data) ++ rest) as ->.
    { rewrite !fmap_app, !concat_app. cbn [fmap list_fmap concat]. rewrite E. cbn [app].
      by rewrite <- !app_assoc. }
    rewrite IH.
    + rewrite length_app. cbn [List.length app]. rewrite drop_insert_lt by lia.
      rewrite <- app_assoc. cbn [app]. by replace (_ + 1 + _)%nat with (List.length pre + S (List.length data))%nat by lia.
    + rewrite length_app, fmap_app, concat_app, length_app. cbn [fmap list_fmap concat]. rewrite E.
      cbn [List.length app]. lia.
    + rewrite length_app, length_insert. cbn [List.length]. lia.
    + rewrite length_app. cbn [List.length]. rewrite Nat.add_1_r.
      rewrite (take_S_r _ _ b) by (apply list_lookup_insert_eq; lia).
      by rewrite take_insert_ge, Ht by lia.
Qed.

Lemma parse_hex_text data rest out :
  bytes_ok data → (List.length data ≤ List.length out)%nat → out ≠ [] →
  parse_hex (Some (hex_text data ++ 0 :: rest)) (Some out) =
  (ESP_OK, Some (data ++ drop (List.length data) out), List.length data).
Proof.
  intros Hd Hl Hne. destruct (hex_text_shape data Hd) as [Hz Hlen].
  unfold parse_hex. destruct out as [|o out']; [done|]. set (out := o :: out') in *.
  assert ((List.length out =? 0)%nat = false) as -> by done.
  unfold strlen. rewrite c_str_app_zero, Hlen by done.
  rewrite Nat.Div0.mod_mul, Nat.div_mul, Nat.eqb_refl by done. cbn [negb orb].
  assert ((List.length out <? List.length data)%nat = false) as -> by (by apply Nat.ltb_ge).
  assert (parse_hex_loop (List.length data) 0 (hex_text data ++ 0 :: rest) out =
          Some (data ++ drop (List.length data) out)) as ->; [|done].
  exact (parse_hex_loop_text [] data (0 :: rest) out Hd eq_refl Hl eq_refl).
Qed.

(** ** Reading back decimal numbers *)
Lemma take_while_all f s c t :
  Forall (fun c => f c = true) s → f c = false →
  take_while f (s ++ c :: t) = s ∧ skip_while f (s ++ c :: t) = c :: t.
Proof. intros Hs Hc. induction Hs as [|x s Hx _ [IH1 IH2]]; cbn; rewrite ?Hc, ?Hx, ?IH1, ?IH2; done. Qed.
Lemma take_while_end f s :
  Forall (fun c => f c = true) s → take_while f s = s ∧ skip_while f s = [].
Proof. induction 1 as [|x s Hx _ [IH1 IH2]]; cbn; rewrite ?Hx, ?IH1, ?IH2; done. Qed.

Lemma decimal_snoc s c : decimal (s ++ [c]) = decimal s * 10 + (c - 48).
Proof. unfold decimal. by rewrite fold_left_app. Qed.

(** The digits printed are digits, and read back as the number. *)
Lemma print_loop_spec fuel n acc :
  0 ≤ n < 10 ^ Z.of_nat fuel → (0 < fuel)%nat →
  ∃ d, print_loop fuel n acc = d ++ acc ∧ d ≠ [] ∧ Forall (fun c => isdigit c = true) d ∧ decimal d = n.
Proof.
  revert n acc. induction fuel as [|fuel IH]; intros n acc Hn Hf; [lia|]. cbn [print_loop].
  pose proof (Z.mod_pos_bound n 10 ltac:(lia)) as Hm. pose proof (Z.div_mod n 10 ltac:(lia)) as Hdm.
  assert (isdigit (48 + n mod 10) = true) as Hdig.
  { unfold isdigit. apply andb_true_iff. split; apply Z.leb_le; lia. }
  destruct (n / 10 =? 0) eqn:E.
  - apply Z.eqb_eq in E. exists [48 + n mod 10]. split_and!; [done..| |].
    + by constructor.
    + unfold decimal. cbn. lia.
  - apply Z.eqb_neq in E. assert (0 ≤ n / 10) by (apply Z.div_pos; lia).
    rewrite Nat2Z.inj_succ, Z.pow_succ_r in Hn by lia.
    assert (n / 10 < 10 ^ Z.of_nat fuel) by (apply Z.div_lt_upper_bound; lia).
    destruct fuel as [|fuel]; [cbn in *; lia|].
    destruct (IH (n / 10) ((48 + n mod 10) :: acc)) as (d & Ed & Hd & Hdd & Hv); [lia..|].
    exists (d ++ [48 + n mod 10]). split_and!.
    + by rewrite Ed, <- app_assoc.
    + by destruct d.
    + apply Forall_app. split; [done|]. by constructor.
    + rewrite decimal_snoc, Hv. lia.
Qed.

Lemma print_u_spec n :
  is_u32 n → print_u n ≠ [] ∧ Forall (fun c => isdigit c = true) (print_u n) ∧ decimal (print_u n) = n.
Proof.
  intros [? ?]. destruct (print_loop_spec 20 n [] ltac:(cbn; lia) ltac:(lia)) as (d & E & Hd & Hdd & Hv).
  unfold print_u. rewrite E, app_nil_r. done.
Qed.

Lemma isdigit_not c : isdigit c = true → c ≠ 0 ∧ isspace c = false ∧ (c =? 45) = false ∧ (c =? 43) = false ∧ amino_separator c = false.
Proof.
  unfold isdigit, isspace, amino_separator. intros. bools.
  repeat match goal with |- context [?a =? ?b] => rewrite (proj2 (Z.eqb_neq a b)) by lia end.
  rewrite (proj2 (Z.leb_gt c 13)) by lia. rewrite andb_false_r. split; [lia|done].
Qed.

(** [strtoul] on printed digits followed by no digit. *)
Lemma strtoul_print n rest :
  is_u32 n → match rest with [] => True | c :: _ => isdigit c = false end →
  strtoul (print_u n ++ rest) = (n, rest).
Proof.
  intros Hn Hrest. destruct (print_u_spec n Hn) as (Hne & Hd & Hv). unfold strtoul.
  destruct (print_u n) as [|c d] eqn:E; [done|]. pose proof Hd as Hd'.
  apply Forall_cons in Hd' as [Hc _]. destruct (isdigit_not c Hc) as (_ & Hs & Hm & Hp & _).
  change ((c :: d) ++ rest) with (c :: d ++ rest). cbn [skip_while nth]. rewrite Hs. cbn [nth].
  rewrite Hm, Hp. cbn [orb]. change (c :: d ++ rest) with ((c :: d) ++ rest).
  assert (take_while isdigit ((c :: d) ++ rest) = c :: d ∧ skip_while isdigit ((c :: d) ++ rest) = rest) as [-> ->].
  { destruct rest as [|x rest]; [rewrite app_nil_r; by apply take_while_end | by apply take_while_all]. }
  rewrite Hv. unfold ULONG_MAX, U32_MAX. rewrite (proj2 (Z.ltb_ge _ n)); [done|].
  destruct Hn. lia.
Qed.

Lemma parse_u32_print n rest :
  is_u32 n → parse_u32_field (Some (print_u n ++ 0 :: rest)) = Some n.
Proof.
  intros Hn. unfold parse_u32_field. rewrite strtoul_print by done.
  destruct (print_u_spec n Hn) as (Hne & Hd & _). destruct (print_u n) as [|c d]; [done|].
  apply Forall_cons in Hd as [Hc _]. destruct (isdigit_not c Hc) as (Hz & _).
  cbn [app nth]. rewrite (proj2 (Z.eqb_neq c 0)) by done. cbn [Z.eqb negb orb].
  unfold U32_MAX. rewrite (proj2 (Z.ltb_ge _ n)); [done|]. destruct Hn. lia.
Qed.

(** ** Lists of actions *)
Definition joined (ids : list Z) : bytes :=
  match ids with
  | [] => []
  | a :: rest => print_u a ++ concat ((fun b => 44 :: print_u b) <$> rest)
  end.

Lemma joined_cons a b ids : joined (a :: b :: ids) = print_u a ++ 44 :: joined (b :: ids).
Proof. done. Qed.

Lemma print_u_head a : is_u32 a → ∃ c d, print_u a = c :: d ∧ isdigit c = true.
Proof.
  intros Ha. destruct (print_u_spec a Ha) as (Hne & Hd & _). destruct (print_u a) as [|c d]; [done|].
  apply Forall_cons in Hd as [Hc _]. eauto.
Qed.

Lemma skip_separators_print a t :
  is_u32 a → skip_while amino_separator (print_u a ++ t) = print_u a ++ t.
Proof.
  intros Ha. destruct (print_u_head a Ha) as (c & d & -> & Hc).
  destruct (isdigit_not c Hc) as (_ & _ & _ & _ & Hs). cbn. by rewrite Hs.
Qed.

(** The loop reads a list of valid, distinct actions that fits. *)
Lemma parse_amino_loop_joined todo fuel seen buf :
  Forall is_u16 todo → aminos_valid seen todo = true →
  (List.length seen + List.length todo ≤ RNA_TEMPLATE_MAX_AMINOS)%nat →
  List.length buf = RNA_TEMPLATE_MAX_AMINOS → take (List.length seen) buf = seen →
  (List.length (joined todo) < fuel)%nat → (0 < List.length seen + List.length todo)%nat →
  parse_amino_loop fuel (joined todo) buf (List.length seen) =
  (true, seen ++ todo ++ drop (List.length seen + List.length todo) buf,
   (List.length seen + List.length todo)%nat).
Proof.
  intros Hu. revert fuel seen buf. induction Hu as [|a todo Ha _ IH];
    intros fuel seen buf Hv Hmax Hlen Htake Hf Hpos; (destruct fuel as [|fuel]; [lia|]); cbn [parse_amino_loop].
  { cbn [joined skip_while List.length app] in *. rewrite Nat.add_0_r in *.
    assert ((0 <? List.length seen)%nat = true) as -> by (apply Nat.ltb_lt; lia).
    f_equal. f_equal. rewrite <- (take_drop (List.length seen) buf) at 1. by rewrite Htake. }
  assert (is_u32 a) as Ha32 by (unfold is_u16, is_u32 in *; lia).
  cbn [aminos_valid] in Hv. destruct (amino_acid_id_valid a) eqn:Eav; cbn [negb] in Hv; [|done].
  destruct (existsb (fun x => x =? a) seen) eqn:Edup; [done|]. cbn [List.length] in *.
  set (tail := match todo with [] => [] | _ => 44 :: joined todo end).
  assert (joined (a :: todo) = print_u a ++ tail) as Ej.
  { destruct todo; [unfold joined; cbn; done | apply joined_cons]. }
  rewrite Ej in *. rewrite length_app in Hf. rewrite skip_separators_print by done.
  destruct (print_u_head a Ha32) as (c & d & Ep & _).
  assert (print_u a ++ tail = c :: d ++ tail) as Ec by (by rewrite Ep).
  destruct (print_u a ++ tail) as [|x y] eqn:Ex; [done|]. rewrite <- Ex.
  rewrite strtoul_print; [|done|by destruct todo].
  assert ((List.length tail =? List.length (print_u a ++ tail))%nat = false) as ->.
  { apply Nat.eqb_neq. rewrite length_app, Ep. cbn. lia. }
  unfold U16_MAX. rewrite (proj2 (Z.ltb_ge _ a)) by (unfold is_u16 in Ha; lia). cbn [orb].
  rewrite Eav. cbn [negb].
  assert ((RNA_TEMPLATE_MAX_AMINOS <=? List.length seen)%nat = false) as -> by (apply Nat.leb_gt; lia).
  rewrite Htake, Edup.
  assert (take (S (List.length seen)) (<[List.length seen:=a]> buf) = seen ++ [a]) as Htake'.
  { rewrite (take_S_r _ _ a) by (apply list_lookup_insert_eq; lia).
    by rewrite take_insert_ge, Htake by lia. }
  assert (S (List.length seen) = List.length (seen ++ [a])) as Hs by (rewrite length_app; cbn; lia).
  destruct todo as [|b todo]; unfold tail.
  - cbn [List.length]. assert ((0 <? S (List.length seen))%nat = true) as -> by done.
    f_equal; [|lia]. f_equal. rewrite <- (take_drop (S (List.length seen)) (<[_:=a]> buf)), Htake'.
    rewrite drop_insert_lt by lia. rewrite <- app_assoc. cbn [app]. by rewrite Nat.add_1_r.
  - change (amino_separator 44) with true. cbn iota.
    assert (∀ g, parse_amino_loop (S g) (44 :: joined (b :: todo)) (<[List.length seen:=a]> buf) (S (List.length seen)) =
            parse_amino_loop (S g) (joined (b :: todo)) (<[List.length seen:=a]> buf) (S (List.length seen))) as Hsep
      by reflexivity.
    assert (1 ≤ List.length (print_u a))%nat by (rewrite Ep; cbn; lia).
    unfold tail in Hf. cbn [List.length] in *.
    destruct fuel as [|fuel]; [lia|]. rewrite Hsep, Hs.
    rewrite IH; [|done|rewrite length_app; cbn [List.length]; lia|by rewrite length_insert|by rewrite <- Hs|lia|lia].
    rewrite length_app. cbn [List.length]. rewrite drop_insert_lt by lia. rewrite <- !app_assoc. cbn [app].
    by replace (List.length seen + 1 + S (List.length todo))%nat
      with (List.length seen + S (S (List.length todo)))%nat by lia.
Qed.

(** ** Specification: URL-encoded forms *)
Definition unreserved (c : Z) : bool :=
  isdigit c || ((65 <=? c) && (c <=? 90)) || ((97 <=? c) && (c <=? 122)) ||
  (c =? 45) || (c =? 46) || (c =? 95) || (c =? 126).
Definition k_HEX : bytes := lit "0123456789ABCDEF".
Definition url_byte (b : Z) : bytes :=
  if unreserved b then [b] else if b =? 32 then [43]
  else [37; nth (Z.to_nat (Z.shiftr b 4)) k_HEX 0; nth (Z.to_nat (Z.land b 15)) k_HEX 0].
Definition url_encode (s : bytes) : bytes := concat (url_byte <$> s).

(** The body a browser posts. *)
Fixpoint encode_form (fields : list (bytes * bytes)) : bytes :=
  match fields with
  | [] => []
  | (name, value) :: fields' =>
    name ++ 61 :: url_encode value ++ match fields' with [] => [] | _ => 38 :: encode_form fields' end
  end.
(** The value of the first field of that name. *)
Definition form_lookup (key : bytes) (fields : list (bytes * bytes)) : option bytes :=
  snd <$> head (filter (fun f => f.1 = key) fields).

(** Field names are plain, values are strings. *)
Definition field_ok (f : bytes * bytes) : Prop :=
  Forall (fun c => c ≠ 0 ∧ c ≠ 38 ∧ c ≠ 61) f.1 ∧ bytes_ok f.2 ∧ Forall (fun c => c ≠ 0) f.2.

(** An encoded byte is decoded to itself, and holds no delimiter. *)
Lemma url_byte_shape b :
  is_u8 b → Forall (fun c => c ≠ 0 ∧ c ≠ 38 ∧ c ≠ 61) (url_byte b) ∧
  (unreserved b = true ∧ b ≠ 43 ∧ b ≠ 37 ∨ unreserved b = false ∧ b = 32 ∨
   unreserved b = false ∧ b ≠ 32 ∧ ∃ x y hi lo, url_byte b = [37; x; y] ∧ hex_value x = Some hi ∧ hex_value y = Some lo ∧
     Z.lor (Z.shiftl hi 4) lo = b).
Proof.
  set (ok := fun b => forallb (fun c => negb (c =? 0) && negb (c =? 38) && negb (c =? 61)) (url_byte b) &&
    (if unreserved b then negb (b =? 43) && negb (b =? 37) else
     if b =? 32 then true else
     match url_byte b with
     | [p; x; y] => match hex_value x, hex_value y with
                    | Some hi, Some lo => (p =? 37) && (Z.lor (Z.shiftl hi 4) lo =? b)
                    | _, _ => false
                    end
     | _ => false
     end)).
  intros Hb. assert (ok b = true) as E.
  { apply (is_u8_forall (fun b => ok b = true)); [|done]. by forall_compute. }
  unfold ok in E. apply andb_true_iff in E as [E1 E2]. split.
  - apply Forall_forall. intros c Hc. rewrite forallb_forall in E1.
    apply list_elem_of_In, E1 in Hc. bools. done.
  - destruct (unreserved b); [left; bools; done|]. destruct (b =? 32) eqn:E3.
    + apply Z.eqb_eq in E3. auto.
    + apply Z.eqb_neq in E3. right; right. split_and!; [done..|].
      destruct (url_byte b) as [|p [|x [|y []]]]; try done.
      destruct (hex_value x) as [hi|] eqn:Ex; [|done]. destruct (hex_value y) as [lo|] eqn:Ey; [|done].
      bools. subst p. by exists x, y, hi, lo.
Qed.

Lemma url_encode_shape v :
  bytes_ok v → Forall (fun c => c ≠ 0 ∧ c ≠ 38 ∧ c ≠ 61) (url_encode v).
Proof.
  induction 1 as [|b v Hb _ IH]; [constructor|]. apply Forall_app. split; [|exact IH].
  by apply url_byte_shape.
Qed.

Lemma url_decode_encode room v : bytes_ok v → url_decode_loop room (url_encode v) = take room v.
Proof.
  intros Hv. revert room. induction Hv as [|b v Hb _ IH]; intros [|room]; try done.
  change (url_encode (b :: v)) with (url_byte b ++ url_encode v).
  destruct (url_byte_shape b Hb) as [_ [(Hu & H43 & H37)|[(Hu & ->)|(Hu & H32 & x & y & hi & lo & E & Ex & Ey & Eb)]]].
  - unfold url_byte. rewrite Hu. cbn [app url_decode_loop take].
    rewrite (proj2 (Z.eqb_neq b 43)), (proj2 (Z.eqb_neq b 37)) by done. by rewrite IH.
  - cbn [url_byte app]. unfold url_byte. rewrite Hu. cbn. by rewrite IH.
  - rewrite E. cbn [app url_decode_loop Z.eqb]. change (37 =? 43) with false. change (37 =? 37) with true.
    cbn iota. by rewrite Ex, Ey, Eb, IH.
Qed.

Lemma strchr_app c s t : Forall (fun b => b ≠ c) s → strchr c (s ++ c :: t) = Some (s, t).
Proof.
  induction 1 as [|b s Hb _ IH]; cbn; [by rewrite Z.eqb_refl|].
  by rewrite (proj2 (Z.eqb_neq b c)), IH by done.
Qed.
Lemma strchr_None c s : Forall (fun b => b ≠ c) s → strchr c s = None.
Proof. induction 1 as [|b s Hb _ IH]; cbn; [done|]. by rewrite (proj2 (Z.eqb_neq b c)), IH by done. Qed.

Lemma form_loop_encoded fields fuel key out :
  Forall field_ok fields → (List.length fields < fuel)%nat → out ≠ [] →
  form_loop fuel (encode_form fields) key out =
  match form_lookup key fields with
  | Some v => (true, let text := take (List.length out - 1) v ++ [0] in memcpy out text (List.length text))
  | None => (false, out)
  end.
Proof.
  intros Hf. revert fuel. induction Hf as [|[name v] fields (Hn & Hv & Hz) _ IH];
    intros [|fuel] Hfuel Hout; cbn [List.length] in Hfuel; try lia; [done|].
  cbn [form_loop encode_form fst snd] in *. rewrite strchr_app by (eapply Forall_impl; [exact Hn|]; naive_solver).
  pose proof (url_encode_shape v Hv) as He.
  assert (strchr 38 (url_encode v ++ match fields with [] => [] | _ => 38 :: encode_form fields end) =
          match fields with [] => None | _ => Some (url_encode v, encode_form fields) end) as ->.
  { assert (Forall (fun b => b ≠ 38) (url_encode v)) by (eapply Forall_impl; [exact He|]; naive_solver).
    destruct fields; [rewrite app_nil_r; by apply strchr_None | by apply strchr_app]. }
  unfold form_lookup. rewrite filter_cons. cbn [fst]. case_bool_decide as Ek.
  - rewrite decide_True by done. cbn [head fmap option_fmap option_map snd]. f_equal.
    unfold url_decode_n. destruct out as [|o out']; [done|]. cbn [List.length Nat.eqb].
    assert (take (List.length (url_encode v))
             (url_encode v ++ match fields with [] => [] | _ => 38 :: encode_form fields end) = url_encode v) as Ht
      by apply take_app_length.
    assert (match match fields with [] => None | _ => Some (url_encode v, encode_form fields) end with
            | Some (v0, _) => List.length v0
            | None => List.length (url_encode v ++ match fields with [] => [] | _ => 38 :: encode_form fields end)
            end = List.length (url_encode v)) as ->.
    { destruct fields; [by rewrite app_nil_r | done]. }
    rewrite Ht, url_decode_encode by done. done.
  - rewrite decide_False by done. destruct fields as [|f fields].
    + done.
    + apply IH; [lia|done].
Qed.

Lemma encode_form_no_zero fields : Forall field_ok fields → Forall (fun b => b ≠ 0) (encode_form fields).
Proof.
  induction 1 as [|[name v] fields (Hn & Hv & Hz) _ IH]; [constructor|]. cbn [encode_form fst snd] in *.
  apply Forall_app. split; [eapply Forall_impl; [exact Hn|]; naive_solver|]. constructor; [done|].
  apply Forall_app. split; [eapply Forall_impl; [by apply url_encode_shape|]; naive_solver|].
  destruct fields; [constructor|]. by constructor.
Qed.

Lemma encode_form_length fields : (List.length fields ≤ List.length (encode_form fields))%nat.
Proof.
  induction fields as [|[name v] fields IH]; [done|]. cbn [encode_form List.length].
  rewrite length_app. cbn [List.length]. rewrite length_app. destruct fields; cbn [List.length] in *; lia.
Qed.

Lemma form_get_value_encoded fields key rest out :
  Forall field_ok fields → Forall (fun c => c ≠ 0) key → out ≠ [] →
  form_get_value (Some (encode_form fields ++ 0 :: rest)) (Some (key ++ [0])) out =
  match form_lookup key fields with
  | Some v => (true, let text := take (List.length out - 1) v ++ [0] in
                     text ++ drop (List.length text) out)
  | None => (false, 0 :: tl out)
  end.
Proof.
  intros Hf Hk Hout. destruct out as [|o out]; [done|]. unfold form_get_value, strlen.
  rewrite !c_str_app_zero by (done || by apply encode_form_no_zero).
  rewrite form_loop_encoded; [|done| |done].
  2: { pose proof (encode_form_length fields). lia. }
  destruct (form_lookup key fields) as [v|]; [|done]. f_equal. cbv zeta. unfold memcpy.
  rewrite take_ge by done. f_equal. cbn [List.length]. by rewrite !length_app, !Nat.add_1_r.
Qed.
