(* ===== verification/Admin_pages.v ===== *)
(** * Admin pages: what the admin server shows

    The renderers of [admin_server/admin_server.c].  The HTTP connection is an
    interface: chunks are sent one by one and a failed send ends the page.
    Client identifiers come from the MQTT broker and template names from posted
    forms; both go through [send_escaped]. *)

From S2P Require Import Prelude Bytes Slots Tables Amino_acids Rna_membrane Ribosome_table Forms.

Definition ADMIN_SEEN_CLIENTS_MAX : nat := 16.

Record admin_seen_client := mk_admin_seen_client {
  sn_in_use : bool;
  sn_client_id : bytes;
  sn_seen_count : Z;
  sn_last_seen_us : Z
}.
#[export] Instance admin_seen_client_settable : Settable admin_seen_client := fun r =>
  mk_admin_seen_client (sn_in_use r) (sn_client_id r) (sn_seen_count r) (sn_last_seen_us r).
Definition seen_client_zero : admin_seen_client :=
  mk_admin_seen_client false (zeros RIBOSOME_MQTT_CLIENT_ID_LEN) 0 0.

(** ** The connection *)
(** [httpd_resp_send_chunk], and whether [malloc] of a size succeeds. *)
Class Http (C : Type) := {
  httpd_resp_send_chunk : bytes → C → C * esp_err;
  http_malloc : nat → C → bool
}.
(** What was sent so far; a successful send appends its chunk. *)
Class HttpLaws C `{Http C} := {
  http_sent : C → bytes;
  http_send_ok data c c' :
    httpd_resp_send_chunk data c = (c', ESP_OK) → http_sent c' = http_sent c ++ data
}.

Section pages.
Context {C : Type} `{Http C}.

(** A part of a page, and [err = a; if (err != ESP_OK) return err; b]. *)
Definition page : Type := C → C * esp_err.
Definition nothing : page := fun c => (c, ESP_OK).
Definition page_seq (a b : page) : page := fun c =>
  let '(c, err) := a c in if err_ok err then b c else (c, err).
Notation "a ;;; b" := (page_seq a b) (at level 100, right associativity).

(** [send_chunkf]; [text] is what [vsnprintf] makes of the format. *)
Definition send_chunkf (text : bytes) : page := fun c =>
  if (List.length text <? 768)%nat then httpd_resp_send_chunk text c
  else if http_malloc (List.length text + 1) c then httpd_resp_send_chunk text c
  else (c, ESP_ERR_NO_MEM).
Definition send (text : string) : page := send_chunkf (lit text).

Definition escaped (c : Z) : bytes :=
  if c =? 38 then lit "&amp;"
  else if c =? 60 then lit "&lt;"
  else if c =? 62 then lit "&gt;"
  else if c =? 34 then lit "&quot;"
  else if c =? 39 then lit "&#39;"
  else [c].
Fixpoint send_escaped_loop (s : bytes) : page :=
  match s with
  | [] => nothing
  | c :: s' => httpd_resp_send_chunk (escaped c) ;;; send_escaped_loop s'
  end.
Definition send_escaped (text : option bytes) : page :=
  match text with None => nothing | Some t => send_escaped_loop (c_str t) end.

(** A loop over the entries of a table. *)
Fixpoint page_loop {A} (row : A → page) (l : list A) : page :=
  match l with [] => nothing | a :: l' => row a ;;; page_loop row l' end.

(** ** The clients seen on the broker *)
Definition seen_row (ribosomes : option ribosome_table) (s : admin_seen_client) : page :=
  if negb (sn_in_use s) then nothing
  else
    let registered := ribosome_table_entry_exists ribosomes (Some (sn_client_id s)) in
    send "<tr><td><code>" ;;;
    send_escaped (Some (sn_client_id s)) ;;;
    send_chunkf (lit "</code></td><td>" ++ lit (if registered then "cadastrado" else "pendente") ++
                 lit "</td><td>" ++ print_u (sn_seen_count s) ++ lit "</td><td>") ;;;
    (if negb registered then
       send "<form class='inline' method='POST' action='/ribosome/provision'><input type='hidden' name='mqtt_client_id' value='" ;;;
       send_escaped (Some (sn_client_id s)) ;;;
       send "'><input name='template_id' type='number' min='1' value='1'><input name='epoch' type='number' min='1' value='1'><button type='submit'>Autorizar</button></form>"
     else send "<span class='muted'>pronto</span>") ;;;
    send "</td></tr>".

Definition render_seen_devices (snapshot : list admin_seen_client) (ribosomes : option ribosome_table) : page :=
  send "<h2>Dispositivos detectados no broker</h2><table><thead><tr><th>MQTT client id</th><th>Status</th><th>Vistos</th><th>Ação</th></tr></thead><tbody>" ;;;
  page_loop (seen_row ribosomes) snapshot ;;;
  (if existsb sn_in_use snapshot then nothing
   else send "<tr><td colspan='4' class='muted'>Nenhum cliente MQTT visto ainda.</td></tr>") ;;;
  send "</tbody></table>".

(** ** The registered devices *)
Definition quote : bytes := [34].
Definition ribosome_row (e : ribosome_table_entry) : page :=
  let secret_hex := hex_encode (re_device_secret e) (zeros (RIBOSOME_DEVICE_SECRET_LEN * 2 + 1)) in
  send "<tr><td><code>" ;;;
  send_escaped (Some (re_mqtt_client_id e)) ;;;
  send_chunkf (lit "</code></td><td>" ++ print_u (re_template_id e) ++ lit "</td><td>" ++
               print_u (re_epoch e) ++ lit "</td><td><code class='secret'>" ++ c_str secret_hex ++
               lit "</code></td><td>") ;;;
  send_chunkf (lit "<form class='inline' method='POST' action='/ribosome/regenerate' onsubmit=" ++ quote ++
               lit "return confirm('Regenerar o device_secret deste dispositivo? O app precisara usar o novo valor.');" ++
               quote ++ lit "><input type='hidden' name='mqtt_client_id' value='") ;;;
  send_escaped (Some (re_mqtt_client_id e)) ;;;
  send_chunkf (lit "'><button type='submit'>Regenerar secret</button></form><form class='inline' method='POST' action='/ribosome/remove' onsubmit=" ++
               quote ++ lit "return confirm('Remover este dispositivo?');" ++ quote ++
               lit "><input type='hidden' name='mqtt_client_id' value='") ;;;
  send_escaped (Some (re_mqtt_client_id e)) ;;;
  send "'><button class='danger' type='submit'>Remover</button></form></td></tr>".

Definition render_ribosomes (table : option ribosome_table) : page :=
  send "<h2>Ribosomes cadastrados</h2><table><thead><tr><th>MQTT client id</th><th>RNA</th><th>Epoch</th><th>Device secret</th><th>Ações</th></tr></thead><tbody>" ;;;
  match table with
  | Some t =>
    if (rt_count t =? 0)%nat || (RIBOSOME_MAX_ENTRIES <? rt_count t)%nat
    then send "<tr><td colspan='5' class='muted'>Nenhum dispositivo cadastrado.</td></tr>"
    else page_loop ribosome_row (live (rt_count t) (rt_entries t))
  | None => send "<tr><td colspan='5' class='muted'>Nenhum dispositivo cadastrado.</td></tr>"
  end ;;;
  send "</tbody></table>".

(** ** The templates *)
Fixpoint amino_cells (first : bool) (aminos : list Z) : page :=
  match aminos with
  | [] => nothing
  | a :: aminos' =>
    send_chunkf ((if first then [] else lit ",") ++ print_u a) ;;; amino_cells false aminos'
  end.
Definition template_row (tpl : rna_template) : page :=
  send_chunkf (lit "<tr><td>" ++ print_u (rn_id tpl) ++ lit "</td><td>") ;;;
  send_escaped (Some (rn_name tpl)) ;;;
  send "</td><td>" ;;;
  amino_cells true (take (rn_amino_count tpl) (rn_aminos tpl)) ;;;
  send "</td></tr>".

Definition render_templates (templates : option rna_template_table) : page :=
  send "<h2>RNA disponível</h2><table><thead><tr><th>ID</th><th>Nome</th><th>Amino acids</th></tr></thead><tbody>" ;;;
  match templates with
  | Some t =>
    if (rtt_count t =? 0)%nat || (RNA_MAX_TEMPLATES <? rtt_count t)%nat
    then send "<tr><td colspan='3' class='muted'>Nenhum RNA carregado.</td></tr>"
    else page_loop template_row (live (rtt_count t) (rtt_templates t))
  | None => send "<tr><td colspan='3' class='muted'>Nenhum RNA carregado.</td></tr>"
  end ;;;
  send "</tbody></table>".

(** The sections of [render_maintenance_page] between its constant head and
    foot ([head] and [foot] are what [vsnprintf] makes of them). *)
Definition maintenance_body (head foot : bytes) (snapshot : list admin_seen_client)
    (ribosomes : option ribosome_table) (templates : option rna_template_table) : page :=
  send_chunkf head ;;;
  send "<section class='panel'>" ;;;
  render_seen_devices snapshot ribosomes ;;;
  send "</section><section class='panel'>" ;;;
  render_ribosomes ribosomes ;;;
  send "</section><section class='panel'>" ;;;
  render_templates templates ;;;
  send_chunkf foot.
End pages.
Notation "a ;;; b" := (page_seq a b) (at level 100, right associativity) : c_scope.

(** ** Specification: the markup of a page *)
(** The characters that structure HTML: angle brackets and quotes. *)
Definition markup_char (c : Z) : bool := (c =? 60) || (c =? 62) || (c =? 34) || (c =? 39).
Definition markup (s : bytes) : bytes := filter (fun c => markup_char c = true) s.

Lemma markup_app s t : markup (s ++ t) = markup s ++ markup t.
Proof. apply filter_app. Qed.
Lemma markup_plain s : Forall (fun c => markup_char c = false) s → markup s = [].
Proof.
  induction 1 as [|c s Hc _ IH]; [done|]. unfold markup. rewrite filter_cons, decide_False by congruence.
  exact IH.
Qed.

Lemma markup_escaped c : markup (escaped c) = [].
Proof.
  unfold escaped. repeat (case_match; [reflexivity|]). apply markup_plain. constructor; [|constructor].
  unfold markup_char. by repeat match goal with E : (_ =? _) = false |- _ => rewrite E; clear E end.
Qed.

Lemma markup_print n : markup (print_u n) = [].
Proof.
  apply markup_plain. unfold print_u.
  assert (∀ fuel n acc, Forall (fun c => markup_char c = false) acc →
          Forall (fun c => markup_char c = false) (print_loop fuel n acc)) as H; [|by apply H].
  induction fuel as [|fuel IH]; intros m acc Ha; cbn [print_loop]; [done|].
  assert (Forall (fun c => markup_char c = false) ((48 + m mod 10) :: acc)) as Ha'.
  { constructor; [|done]. unfold markup_char. pose proof (Z.mod_pos_bound m 10 ltac:(lia)).
    by repeat match goal with |- context [?a =? ?b] => rewrite (proj2 (Z.eqb_neq a b)) by lia end. }
  case_match; [done | by apply IH].
Qed.

Lemma k_hex_plain i : markup_char (nth i k_hex 0) = false.
Proof. do 16 (destruct i as [|i]; [reflexivity|]). by destruct i. Qed.

Lemma markup_hex data n : markup (c_str (hex_encode data (zeros n))) = [].
Proof.
  apply markup_plain. unfold hex_encode. rewrite length_zeros.
  assert (∀ s, Forall (fun c => markup_char c = false) s → Forall (fun c => markup_char c = false) (c_str s)) as Hc.
  { induction 1; cbn; [constructor|]. case_match; [constructor | by constructor]. }
  assert (∀ m, Forall (fun c => markup_char c = false) (zeros m)) as Hz by (intros; by apply Forall_replicate).
  destruct (_ <? _)%nat; apply Hc; [apply Hz|]. unfold memcpy. apply Forall_app. split.
  - apply Forall_take, Forall_app. split; [|by constructor].
    induction data as [|b data IH]; [constructor|]. cbn [fmap list_fmap concat]. apply Forall_app.
    split; [|exact IH]. unfold hex_digits. repeat constructor; apply k_hex_plain.
  - unfold zeros. rewrite drop_replicate. apply Hz.
Qed.

Section markup.
Context {C : Type} `{HL : HttpLaws C}.

(** Two parts that, sent in full, add the same markup. *)
Definition same_markup (p q : page (C := C)) : Prop := ∀ c c' d d',
  p c = (c', ESP_OK) → q d = (d', ESP_OK) →
  markup (http_sent c) = markup (http_sent d) → markup (http_sent c') = markup (http_sent d').

Lemma same_nothing : same_markup nothing nothing.
Proof. by intros c c' d d' [= <-] [= <-]. Qed.

Lemma same_seq a b a' b' : same_markup a a' → same_markup b b' → same_markup (a ;;; b) (a' ;;; b').
Proof.
  intros Ha Hb c c' d d'. unfold page_seq. destruct (a c) as [c1 e1] eqn:E1, (a' d) as [d1 e2] eqn:E2.
  destruct (err_ok e1) eqn:O1.
  2: { intros [= -> ->]. done. }
  destruct (err_ok e2) eqn:O2.
  2: { intros _ [= -> ->]. done. }
  assert (e1 = ESP_OK) as -> by (by apply bool_decide_eq_true in O1).
  assert (e2 = ESP_OK) as -> by (by apply bool_decide_eq_true in O2).
  intros Ec Ed Hm. eapply Hb; [exact Ec | exact Ed |]. by eapply Ha.
Qed.

Lemma same_chunk s t :
  markup s = markup t → same_markup (httpd_resp_send_chunk s) (httpd_resp_send_chunk t).
Proof.
  intros E c c' d d' Hc Hd Hm. rewrite (http_send_ok _ _ _ Hc), (http_send_ok _ _ _ Hd).
  by rewrite !markup_app, E, Hm.
Qed.

Lemma chunkf_sends s c c' :
  send_chunkf s c = (c', ESP_OK) → http_sent c' = http_sent c ++ s.
Proof. unfold send_chunkf. repeat case_match; try done; apply http_send_ok. Qed.
Lemma same_chunkf s t : markup s = markup t → same_markup (send_chunkf s) (send_chunkf t).
Proof.
  intros E c c' d d' Hc Hd Hm. rewrite (chunkf_sends _ _ _ Hc), (chunkf_sends _ _ _ Hd).
  by rewrite !markup_app, E, Hm.
Qed.

Lemma escaped_sends s c c' :
  send_escaped_loop s c = (c', ESP_OK) → markup (http_sent c') = markup (http_sent c).
Proof.
  revert c. induction s as [|x s IH]; intros c; cbn [send_escaped_loop].
  - by intros [= <-].
  - unfold page_seq. destruct (httpd_resp_send_chunk _ _) as [c1 e1] eqn:E1.
    destruct (err_ok e1) eqn:O1; [|intros [= -> ->]; done].
    assert (e1 = ESP_OK) as -> by (by apply bool_decide_eq_true in O1).
    intros E. rewrite (IH _ E), (http_send_ok _ _ _ E1), markup_app, markup_escaped. apply app_nil_r.
Qed.
Lemma same_escaped s t : same_markup (send_escaped (Some s)) (send_escaped (Some t)).
Proof.
  intros c c' d d' Hc Hd Hm. cbn in *. by rewrite (escaped_sends _ _ _ Hc), (escaped_sends _ _ _ Hd).
Qed.

Lemma same_loop {A B} (f : A → page) (g : B → page) l m :
  Forall2 (fun a b => same_markup (f a) (g b)) l m → same_markup (page_loop f l) (page_loop g m).
Proof. induction 1; cbn; [apply same_nothing | by apply same_seq]. Qed.
End markup.

(** Matches two pages part by part. *)
Ltac same_page :=
  repeat first
    [ apply same_seq | apply same_nothing | apply same_escaped
    | apply same_chunkf; rewrite ?markup_app, ?markup_print, ?markup_hex; reflexivity ].

Section rows.
Context {C : Type} `{HL : HttpLaws C}.

Lemma same_seen_row r1 r2 s1 s2 :
  sn_in_use s1 = sn_in_use s2 →
  ribosome_table_entry_exists r1 (Some (sn_client_id s1)) =
  ribosome_table_entry_exists r2 (Some (sn_client_id s2)) →
  same_markup (C := C) (seen_row r1 s1) (seen_row r2 s2).
Proof.
  intros Hu Hr. unfold seen_row. rewrite Hu, Hr. destruct (sn_in_use s2); cbn [negb]; [|apply same_nothing].
  destruct (ribosome_table_entry_exists r2 _); cbn [negb]; same_page.
Qed.

Lemma same_ribosome_row e1 e2 : same_markup (C := C) (ribosome_row e1) (ribosome_row e2).
Proof. unfold ribosome_row. same_page. Qed.

Lemma same_amino_cells f1 f2 l1 l2 : same_markup (C := C) (amino_cells f1 l1) (amino_cells f2 l2).
Proof.
  assert (∀ f l c c', amino_cells (C := C) f l c = (c', ESP_OK) → markup (http_sent c') = markup (http_sent c)) as Hcells.
  { intros f l. revert f. induction l as [|a l IH]; intros f c c'; cbn [amino_cells].
    - by intros [= <-].
    - unfold page_seq. destruct (send_chunkf _ _) as [c1 e1] eqn:E1.
      destruct (err_ok e1) eqn:O1; [|intros [= -> ->]; done].
      assert (e1 = ESP_OK) as -> by (by apply bool_decide_eq_true in O1).
      intros E. rewrite (IH _ _ _ E), (chunkf_sends _ _ _ E1), !markup_app, markup_print.
      by destruct f; rewrite app_nil_r. }
  intros c c' d d' Hc Hd Hm. by rewrite (Hcells _ _ _ _ Hc), (Hcells _ _ _ _ Hd).
Qed.

Lemma same_template_row t1 t2 : same_markup (C := C) (template_row t1) (template_row t2).
Proof. unfold template_row. same_page; apply same_amino_cells. Qed.
End rows.

(** ** Properties *)

(** Two states of the device that differ only in the texts and numbers they
    hold: the same slots seen and registered, tables of the same length. *)
Record same_shape (s1 s2 : list admin_seen_client) (r1 r2 : ribosome_table) (t1 t2 : rna_template_table) :
    Prop := mk_same_shape {
  ss_seen : Forall2 (fun a b => sn_in_use a = sn_in_use b ∧
              ribosome_table_entry_exists (Some r1) (Some (sn_client_id a)) =
              ribosome_table_entry_exists (Some r2) (Some (sn_client_id b))) s1 s2;
  ss_ribosomes : rt_count r1 = rt_count r2 ∧ List.length (rt_entries r1) = List.length (rt_entries r2);
  ss_templates : rtt_count t1 = rtt_count t2 ∧
                 List.length (rtt_templates t1) = List.length (rtt_templates t2)
}.

Lemma same_length_rel {A B} (P : A → B → Prop) l m :
  (∀ a b, P a b) → List.length l = List.length m → Forall2 P l m.
Proof. intros HP. revert m. induction l; intros [|] E; try done; constructor; auto. Qed.

(** C17: no text a client can choose changes the structure of the admin page.
    Between two states of the device with the same shape (the same slots seen
    and registered, as many devices and templates), whatever the client
    identifiers, template names, secrets and numbers are, two pages sent in
    full have the very same sequence of angle brackets and quotes: a broker
    client cannot inject a tag or leave an attribute. *)
Theorem admin_page_structure {C : Type} `{HL : HttpLaws C} head foot s1 s2 r1 r2 t1 t2 (c c' d d' : C) :
  same_shape s1 s2 r1 r2 t1 t2 →
  maintenance_body head foot s1 (Some r1) (Some t1) c = (c', ESP_OK) →
  maintenance_body head foot s2 (Some r2) (Some t2) d = (d', ESP_OK) →
  markup (http_sent c) = markup (http_sent d) → markup (http_sent c') = markup (http_sent d').
Proof.
  intros [Hs [Hr Hrl] [Ht Htl]]. apply same_seq; [apply same_chunkf; done|].
  apply same_seq; [same_page|]. apply same_seq.
  { unfold render_seen_devices. apply same_seq; [same_page|]. apply same_seq.
    - apply same_loop. eapply Forall2_impl; [exact Hs|]. intros a b [? ?]. by apply same_seen_row.
    - apply same_seq; [|same_page].
      assert (existsb sn_in_use s1 = existsb sn_in_use s2) as ->.
      { induction Hs as [|a b l m [Hu _] _ IH]; cbn; [done|]. by rewrite Hu, IH. }
      case_match; same_page. }
  apply same_seq; [same_page|]. apply same_seq.
  { unfold render_ribosomes. rewrite Hr. apply same_seq; [same_page|]. apply same_seq; [|same_page].
    case_match; [same_page|]. apply same_loop, same_length_rel; [apply same_ribosome_row|].
    unfold live. rewrite !length_take. lia. }
  apply same_seq; [same_page|]. apply same_seq; [|apply same_chunkf; done].
  unfold render_templates. rewrite Ht. apply same_seq; [same_page|]. apply same_seq; [|same_page].
  case_match; [same_page|]. apply same_loop, same_length_rel; [apply same_template_row|].
  unfold live. rewrite !length_take. lia.
Qed.

(** *** Witness *)
(** A connection that keeps what it is sent. *)
#[export] Instance list_http : Http bytes := {|
  httpd_resp_send_chunk data c := (c ++ data, ESP_OK);
  http_malloc size c := true
|}.
#[export] Instance list_http_laws : HttpLaws bytes.
Proof. refine {| http_sent := (fun c : bytes => c) |}. by intros data c c' [= <-]. Defined.

Definition witness_seen (id : bytes) : list admin_seen_client :=
  [mk_admin_seen_client true (id ++ zeros (33 - List.length id)) 3 9000000].
Definition witness_page (id : bytes) : bytes :=
  (maintenance_body (lit "<html>") (lit "</html>") (witness_seen id) (Some ribosome_table_zero)
     (Some rna_table_zero) []).1.

Lemma admin_page_structure_witness :
  markup (witness_page (lit "'><script>alert(1)</script>")) = markup (witness_page (lit "lamp-1")) ∧
  List.length (markup (witness_page (lit "lamp-1"))) = 220%nat.
Proof.
  split; [|vm_compute; reflexivity].
  refine (admin_page_structure (lit "<html>") (lit "</html>") (witness_seen (lit "'><script>alert(1)</script>"))
    (witness_seen (lit "lamp-1")) ribosome_table_zero ribosome_table_zero rna_table_zero rna_table_zero []
    (witness_page (lit "'><script>alert(1)</script>")) [] (witness_page (lit "lamp-1")) _ _ _ eq_refl).
  - split; [|done|done]. constructor; [|constructor]. split; reflexivity.
  - vm_compute. reflexivity.
  - vm_compute. reflexivity.
Defined.
