(* ===== verification/Admin_server.v ===== *)
(** * Admin server: the window through which the Guardian is configured

    [admin_server/admin_server.c].  In bootstrap mode the server takes the first
    configuration; in maintenance mode it is locked until the owner signs the
    current challenge with the configured key, and then edits the tables in
    flash.  The static variables are [admin_state]; the flash and the bus are
    those of the config store.  What a request delivers and what the HTTP
    server, the heap, the timer and the random generator answer are inputs. *)

From S2P Require Import Prelude Bytes Slots Tables Blobs Nvs Event_bus Crypto Amino_acids Rna_membrane.
From S2P Require Import Ribosome_table Ribosome_store Config_store Forms Admin_pages.

Definition ADMIN_POST_BUF_SIZE : nat := 2048.
Definition ADMIN_SIGNATURE_MAX_LEN : nat := 96.
Definition ADMIN_DEVICE_SECRET_HEX_LEN : nat := RIBOSOME_DEVICE_SECRET_LEN * 2.
Definition ADMIN_UNLOCKED_WINDOW_MS : Z := 180000.
Definition ADMIN_HTTPD_START_RETRIES : nat := 6.

(** ** Data *)
Inductive admin_server_mode := ADMIN_SERVER_MODE_BOOTSTRAP | ADMIN_SERVER_MODE_MAINTENANCE.

(** Callbacks and contexts are addresses, 0 for NULL. *)
Record admin_server_config := mk_admin_server_config {
  ac_setup_ap_ssid : option bytes;
  ac_setup_ap_password : option bytes;
  ac_mode : admin_server_mode;
  ac_guardian_id : Z;
  ac_zone_id : Z;
  ac_on_window_closed : Z;
  ac_ctx : Z
}.

Record admin_state := mk_admin_state {
  ad_server : bool;
  ad_running : bool;
  ad_unlocked : bool;
  ad_mode : admin_server_mode;
  ad_timer_created : bool;
  ad_timer_us : option Z;
  ad_on_window_closed : Z;
  ad_window_ctx : Z;
  ad_challenge : bytes;
  ad_challenge_valid : bool;
  ad_seen : list admin_seen_client
}.
#[export] Instance admin_state_settable : Settable admin_state := fun r =>
  mk_admin_state (ad_server r) (ad_running r) (ad_unlocked r) (ad_mode r) (ad_timer_created r)
    (ad_timer_us r) (ad_on_window_closed r) (ad_window_ctx r) (ad_challenge r) (ad_challenge_valid r)
    (ad_seen r).

Definition admin_boot : admin_state :=
  mk_admin_state false false false ADMIN_SERVER_MODE_BOOTSTRAP false None 0 0 (zeros 32) false
    (replicate ADMIN_SEEN_CLIENTS_MAX seen_client_zero).

(** A request and the answers of the system while it is served: the chunks
    [httpd_req_recv] delivers, the two [calloc] calls, the random words, the
    timer calls and the final send. *)
Record http_request := mk_http_request {
  rq_content_len : Z;
  rq_recv : list bytes;
  rq_alloc : bool;
  rq_random : nat → Z;
  rq_default_random : Z;
  rq_timer_create : esp_err;
  rq_timer_start : esp_err;
  rq_send : esp_err;
  rq_time_us : Z
}.

Inductive http_reply :=
| Reply_error (status : Z) (message : bytes)
| Reply_text (text : bytes)
| Reply_redirect
| Reply_locked_page
| Reply_setup_page
| Reply_admin_page (ribosomes : ribosome_table) (templates : rna_template_table).

(** ** Random values *)
(** [n] random words stored one after the other. *)
Definition random_bytes (random : nat → Z) (n : nat) : bytes := concat ((fun i => le32 (random i)) <$> seq 0 n).

Definition generate_challenge (random : nat → Z) (a : admin_state) : admin_state :=
  a <| ad_challenge := random_bytes random 8 |> <| ad_challenge_valid := true |>.

Definition generate_device_secret (random : nat → Z) : bytes :=
  let secret := random_bytes random 8 in
  if bytes_all_zero (Some secret) then <[O := 1]> secret else secret.

(** ** The clients seen on the broker *)
Definition admin_server_note_mqtt_client (client_id : option bytes) (now_us : Z) (a : admin_state) :
    admin_state :=
  match client_id with
  | None => a
  | Some id =>
    if nth 0 id 0 =? 0 then a
    else
      let clean_id := safe_copy (zeros RIBOSOME_MQTT_CLIENT_ID_LEN) (Some id) in
      let seen := ad_seen a in
      match first_index (fun s => sn_in_use s &&
              strncmp_eq (sn_client_id s) clean_id RIBOSOME_MQTT_CLIENT_ID_LEN) seen with
      | Some i =>
        a <| ad_seen := alter (fun s => s <| sn_seen_count := inc32 (sn_seen_count s) |>
                                          <| sn_last_seen_us := now_us |>) i seen |>
      | None =>
        let slot := match first_index (fun s => negb (sn_in_use s)) seen with
                    | Some i => i
                    | None => default O (lru_loop (fun _ => true) sn_last_seen_us seen 0 None
                                                  9223372036854775807)
                    end in
        a <| ad_seen := <[slot := mk_admin_seen_client true
               (strncpy (zeros RIBOSOME_MQTT_CLIENT_ID_LEN) clean_id (RIBOSOME_MQTT_CLIENT_ID_LEN - 1))
               1 now_us]> seen |>
      end
  end.

(** ** Templates and devices *)
Definition rna_template_table_upsert (table : option rna_template_table)
    (template_rule : option rna_template) : esp_err * option rna_template_table :=
  match table, template_rule with
  | Some t, Some r =>
    if (RNA_MAX_TEMPLATES <? rtt_count t)%nat then (ESP_ERR_INVALID_ARG, table)
    else
      let err := rna_template_validate template_rule in
      if negb (err_ok err) then (err, table)
      else
        match first_index (fun x => bool_decide (rn_id x = rn_id r)) (live (rtt_count t) (rtt_templates t)) with
        | Some i =>
          (ESP_OK, Some (mk_rna_template_table (<[i := copy_template_sanitized r]> (rtt_templates t))
                           (rtt_count t)))
        | None => rna_template_table_add table template_rule
        end
  | _, _ => (ESP_ERR_INVALID_ARG, table)
  end.

Definition build_template_from_fields (template_text template_name amino_text : option bytes)
    (out_template : rna_template) : esp_err * rna_template :=
  match template_text, template_name, amino_text with
  | Some _, Some name, Some _ =>
    match parse_u32_field template_text with
    | None => (ESP_ERR_INVALID_ARG, out_template)
    | Some template_id =>
      if U16_MAX <? template_id then (ESP_ERR_INVALID_ARG, out_template)
      else
        let t := rna_template_zero in
        let '(ok, ids, count) := parse_amino_ids amino_text (rn_aminos t) (rn_amino_count t) in
        let t := mk_rna_template template_id (safe_copy (rn_name t) (Some name)) count ids (rn_flags t) in
        if negb ok then (ESP_ERR_INVALID_ARG, rna_template_zero)
        else
          let err := rna_template_validate (Some t) in
          (err, if err_ok err then t else rna_template_zero)
    end
  | _, _, _ => (ESP_ERR_INVALID_ARG, out_template)
  end.

Definition find_ribosome_entry (table : option ribosome_table) (mqtt_client_id : option bytes) :
    option nat :=
  match table, mqtt_client_id with
  | Some t, Some id => if (RIBOSOME_MAX_ENTRIES <? rt_count t)%nat then None else find_id t id
  | _, _ => None
  end.

(** The table with entry [i] changed. *)
Definition change_entry (f : ribosome_table_entry → ribosome_table_entry) (i : nat) (t : ribosome_table) :
    ribosome_table := mk_ribosome_table (alter f i (rt_entries t)) (rt_count t).

Definition ribosome_assign_template (table : option ribosome_table) (mqtt_client_id : option bytes)
    (template_id : Z) : esp_err * option ribosome_table :=
  match table, mqtt_client_id with
  | Some t, Some id =>
    if (RIBOSOME_MAX_ENTRIES <? rt_count t)%nat || negb (rna_template_id_valid template_id)
    then (ESP_ERR_INVALID_ARG, table)
    else
      match find_id t id with
      | None => (ESP_ERR_NOT_FOUND, table)
      | Some i =>
        (ESP_OK, Some (change_entry (fun e => mk_ribosome_table_entry (re_mqtt_client_id e) template_id
                                                (re_epoch e) (re_device_secret e)) i t))
      end
  | _, _ => (ESP_ERR_INVALID_ARG, table)
  end.

(** ** The issuer key *)
(** [strstr(s, pattern) != NULL]. *)
Fixpoint contains (pattern s : bytes) : bool :=
  bool_decide (take (List.length pattern) s = pattern) ||
  match s with [] => false | _ :: s' => contains pattern s' end.

Definition validate_issuer_public_key_pem (pem : option bytes) : esp_err :=
  match pem with
  | None => ESP_ERR_INVALID_ARG
  | Some p =>
    if nth 0 p 0 =? 0 then ESP_ERR_INVALID_ARG
    else if negb (contains (lit "-----BEGIN PUBLIC KEY-----") (c_str p)) ||
            negb (contains (lit "-----END PUBLIC KEY-----") (c_str p))
    then ESP_ERR_INVALID_ARG else ESP_OK
  end.

Section admin.
Context {N : Type} `{Nvs N} `{QE : Queue zg_event} `{Md} `{Pk}.

(** SHA-256 of the key text without its carriage returns, cut to the length of
    an identifier; the status and [*out_key_id]. *)
Definition compute_issuer_key_id (pem : option bytes) (out_key_id : bytes) : esp_err * bytes :=
  match pem with
  | None => (ESP_ERR_INVALID_ARG, out_key_id)
  | Some p =>
    match md_finish (filter (fun c => c ≠ 13) (c_str p)) with
    | None => (ESP_FAIL, out_key_id)
    | Some digest => (ESP_OK, take CONFIG_STORE_KEY_ID_LEN digest)
    end
  end.

Definition hash_challenge (a : admin_state) : esp_err * bytes :=
  if negb (ad_challenge_valid a) then (ESP_ERR_INVALID_STATE, zeros 32)
  else match md_finish (ad_challenge a) with
       | None => (ESP_FAIL, zeros 32)
       | Some hash => (ESP_OK, hash)
       end.

Record admin_world := mk_admin_world {
  aw_admin : admin_state;
  aw_config : config_world N
}.
Definition aw_nvs (w : admin_world) : N := cw_nvs (aw_config w).
Definition put_admin (a : admin_state) (w : admin_world) : admin_world := mk_admin_world a (aw_config w).
Definition put_nvs (n : N) (w : admin_world) : admin_world :=
  mk_admin_world (aw_admin w) (mk_config_world (cw_initialized (aw_config w)) n (cw_bus (aw_config w))).

Definition verify_admin_signature (signature : option bytes) (signature_len : nat) (random : Z)
    (w : admin_world) : admin_world * esp_err :=
  match signature with
  | None => (w, ESP_ERR_INVALID_ARG)
  | Some sig =>
    if (signature_len =? 0)%nat || (ADMIN_SIGNATURE_MAX_LEN <? signature_len)%nat
    then (w, ESP_ERR_INVALID_ARG)
    else
      let '(cw, err, cfg) := config_store_load random (Some config_zero) (aw_config w) in
      let w := mk_admin_world (aw_admin w) cw in
      if negb (err_ok err) then (w, err)
      else
        let cfg := default config_zero cfg in
        let '(err, hash) := hash_challenge (aw_admin w) in
        if negb (err_ok err) then (w, err)
        else
          match mbedtls_pk_parse_public_key (c_str (zc_issuer_public_key_pem cfg) ++ [0]) with
          | None => (w, ESP_ERR_INVALID_STATE)
          | Some pk =>
            (w, if mbedtls_pk_verify pk hash (take signature_len sig) then ESP_OK else ESP_ERR_INVALID_STATE)
          end
  end.

(** ** The window timer *)
Definition restart_window_timer (timeout_ms : Z) (created started : esp_err) (a : admin_state) :
    admin_state * esp_err :=
  if timeout_ms =? 0 then (a, ESP_OK)
  else if negb (ad_timer_created a) && negb (err_ok created) then (a, created)
  else
    let a := a <| ad_timer_created := true |> in
    (a <| ad_timer_us := if err_ok started then Some (u64 (timeout_ms * 1000)) else None |>, started).

(** ** Reading requests *)
(** The receive loop: [None] when a call returns no byte. *)
Fixpoint recv_loop (deliveries : list bytes) (total : nat) (received : bytes) : option bytes :=
  if (total <=? List.length received)%nat then Some received
  else
    match deliveries with
    | [] => None
    | c :: deliveries' =>
      let c := take (total - List.length received) c in
      if (List.length c =? 0)%nat then None else recv_loop deliveries' total (received ++ c)
    end.

(** The status and the body buffer, zero beyond what was read. *)
Definition read_request_body (req : http_request) (body_size : nat) : esp_err * bytes :=
  let total := rq_content_len req in
  if (total <=? 0) || (Z.of_nat body_size <=? total) then (ESP_ERR_INVALID_SIZE, zeros body_size)
  else
    match recv_loop (rq_recv req) (Z.to_nat total) [] with
    | None => (ESP_FAIL, zeros body_size)
    | Some received => (ESP_OK, memcpy (zeros body_size) received (List.length received))
    end.

(** The body and its fields, each into a zeroed buffer of its size: [None] when
    the body cannot be read or a field is missing. *)
Fixpoint get_values (body : bytes) (keys : list (bytes * nat)) : option (list bytes) :=
  match keys with
  | [] => Some []
  | (key, size) :: keys' =>
    let '(found, value) := form_get_value (Some body) (Some key) (zeros size) in
    if found then values ← get_values body keys'; Some (value :: values) else None
  end.
Definition post_values (req : http_request) (keys : list (bytes * nat)) : option (list bytes) :=
  let '(err, body) := read_request_body req ADMIN_POST_BUF_SIZE in
  if err_ok err then get_values body keys else None.

Definition id_field : bytes * nat := (lit "mqtt_client_id", RIBOSOME_MQTT_CLIENT_ID_LEN).
Definition template_field : bytes * nat := (lit "template_id", 16%nat).
Definition epoch_field : bytes * nat := (lit "epoch", 16%nat).
Definition name_field : bytes * nat := (lit "template_name", RNA_TEMPLATE_NAME_LEN).
Definition amino_field : bytes * nat := (lit "amino_ids", 64%nat).

(** ** Handlers *)
(** What a handler leaves: the world, its return value and the reply. *)
Definition handled : Type := admin_world * esp_err * http_reply.
Definition fail_with (w : admin_world) (err : esp_err) (status : Z) (message : string) : handled :=
  (w, err, Reply_error status (lit message)).

(** The checks every POST handler of the tables starts with. *)
Definition post_gate (req : http_request) (w : admin_world) (serve : handled) : handled :=
  if negb (rq_alloc req) then fail_with w ESP_ERR_NO_MEM 500 "admin mem failed"
  else
    match ad_mode (aw_admin w) with
    | ADMIN_SERVER_MODE_BOOTSTRAP => fail_with w ESP_FAIL 404 "not available"
    | ADMIN_SERVER_MODE_MAINTENANCE =>
      if negb (ad_unlocked (aw_admin w)) then fail_with w ESP_FAIL 400 "locked" else serve
    end.

Definition load_ribosomes (w : admin_world) : admin_world * esp_err * ribosome_table :=
  let '(n, err, t) := ribosome_store_load_or_init (Some ribosome_table_zero) (aw_nvs w) in
  (put_nvs n w, err, default ribosome_table_zero t).
Definition load_templates (w : admin_world) : admin_world * esp_err * rna_template_table :=
  let '(n, err, t) := rna_membrane_load_or_init (Some rna_table_zero) (aw_nvs w) in
  (put_nvs n w, err, default rna_table_zero t).
(** The save that ends the handlers of the device table. *)
Definition save_ribosomes (t : ribosome_table) (w : admin_world) (err_message : string) (done : esp_err)
    (reply : http_reply) : handled :=
  let '(n, err) := ribosome_store_save (Some t) (aw_nvs w) in
  let w := put_nvs n w in
  if err_ok err then (w, done, reply) else fail_with w err 500 err_message.

(** The part that [ribosome_add] and [ribosome_provision] share: the template
    must exist, then the entry is added and the table saved. *)
Definition register_device (id : bytes) (template_id epoch : Z) (device_secret : bytes) (done : esp_err)
    (reply : http_reply) (w : admin_world) : handled :=
  let '(w, err, templates) := load_templates w in
  if negb (err_ok err) ||
     match rna_template_table_find (Some templates) (u16 template_id) with None => true | Some _ => false end
  then fail_with w err 400 "template not found"
  else
    let '(w, err, table) := load_ribosomes w in
    if negb (err_ok err) then fail_with w err 500 "load failed"
    else
      let '(err, table') := ribosome_table_add_from_config (Some table)
        (Some (mk_ribosome_entry_config (Some id) (u16 template_id) epoch (Some device_secret))) in
      if negb (err_ok err) then fail_with w err 400 "add failed"
      else save_ribosomes (default table table') w "save failed" done reply.

Definition ribosome_add_post_handler (req : http_request) (w : admin_world) : handled :=
  post_gate req w
    match post_values req [id_field; template_field; epoch_field;
                           (lit "device_secret_hex", (ADMIN_DEVICE_SECRET_HEX_LEN + 1)%nat)] with
    | Some [id; template_text; epoch_text; secret_hex] =>
      let '(err, secret) :=
        parse_exact_hex (Some secret_hex) (Some (zeros RIBOSOME_DEVICE_SECRET_LEN)) in
      match parse_u32_field (Some template_text), parse_u32_field (Some epoch_text), err_ok err with
      | Some template_id, Some epoch, true =>
        register_device id template_id epoch (default [] secret) ESP_OK
          (Reply_text (lit "ribosome added")) w
      | _, _, _ => fail_with w ESP_FAIL 400 "invalid fields"
      end
    | _ => fail_with w ESP_FAIL 400 "invalid body"
    end.

Definition ribosome_provision_post_handler (req : http_request) (w : admin_world) : handled :=
  post_gate req w
    match post_values req [id_field; template_field; epoch_field] with
    | Some [id; template_text; epoch_text] =>
      match parse_u32_field (Some template_text), parse_u32_field (Some epoch_text) with
      | Some template_id, Some epoch =>
        if (U16_MAX <? template_id) || (epoch =? 0) then fail_with w ESP_FAIL 400 "invalid fields"
        else
          register_device id template_id epoch (generate_device_secret (rq_random req)) (rq_send req)
            Reply_redirect w
      | _, _ => fail_with w ESP_FAIL 400 "invalid fields"
      end
    | _ => fail_with w ESP_FAIL 400 "invalid body"
    end.

Definition ribosome_regenerate_post_handler (req : http_request) (w : admin_world) : handled :=
  post_gate req w
    match post_values req [id_field] with
    | Some [id] =>
      let '(w, err, table) := load_ribosomes w in
      if negb (err_ok err) then fail_with w err 500 "load failed"
      else
        match find_ribosome_entry (Some table) (Some id) with
        | None => fail_with w ESP_ERR_NOT_FOUND 400 "device not found"
        | Some i =>
          let table := change_entry (fun e => mk_ribosome_table_entry (re_mqtt_client_id e)
            (re_template_id e) (if re_epoch e =? U32_MAX then 1 else re_epoch e + 1)
            (generate_device_secret (rq_random req))) i table in
          save_ribosomes table w "save failed" (rq_send req) Reply_redirect
        end
    | _ => fail_with w ESP_FAIL 400 "invalid body"
    end.

Definition membrane_template_set_post_handler (req : http_request) (w : admin_world) : handled :=
  post_gate req w
    match post_values req [template_field; name_field; amino_field] with
    | Some [template_text; template_name; amino_text] =>
      let '(err, rule) := build_template_from_fields (Some template_text) (Some template_name)
                            (Some amino_text) rna_template_zero in
      if negb (err_ok err) then fail_with w err 400 "invalid template"
      else
        let '(w, err, templates) := load_templates w in
        if negb (err_ok err) then fail_with w err 500 "load failed"
        else
          let '(err, templates') := rna_template_table_upsert (Some templates) (Some rule) in
          if negb (err_ok err) then fail_with w err 400 "template rejected"
          else
            let '(n, err) := rna_membrane_save templates' (aw_nvs w) in
            let w := put_nvs n w in
            if negb (err_ok err) then fail_with w err 500 "save failed"
            else (w, ESP_OK, Reply_text (lit "membrane template saved"))
    | _ => fail_with w ESP_FAIL 400 "invalid body"
    end.

Definition device_membrane_set_post_handler (req : http_request) (w : admin_world) : handled :=
  post_gate req w
    match post_values req [id_field; template_field; name_field; amino_field] with
    | Some [id; template_text; template_name; amino_text] =>
      let '(err, rule) := build_template_from_fields (Some template_text) (Some template_name)
                            (Some amino_text) rna_template_zero in
      if negb (err_ok err) then fail_with w err 400 "invalid template"
      else
        let '(w, err, table) := load_ribosomes w in
        if negb (err_ok err) then fail_with w err 500 "device load failed"
        else
          let '(w, err, templates) := load_templates w in
          if negb (err_ok err) then fail_with w err 500 "template load failed"
          else
            let '(err, templates') := rna_template_table_upsert (Some templates) (Some rule) in
            if negb (err_ok err) then fail_with w err 400 "template rejected"
            else
              let '(err, table') := ribosome_assign_template (Some table) (Some id) (rn_id rule) in
              if negb (err_ok err) then fail_with w err 400 "device not found"
              else
                let '(n, err) := rna_membrane_save templates' (aw_nvs w) in
                let w := put_nvs n w in
                if negb (err_ok err) then fail_with w err 500 "template save failed"
                else save_ribosomes (default table table') w "device save failed" ESP_OK
                       (Reply_text (lit "device membrane configured"))
    | _ => fail_with w ESP_FAIL 400 "invalid body"
    end.

Definition ribosome_remove_post_handler (req : http_request) (w : admin_world) : handled :=
  post_gate req w
    match post_values req [id_field] with
    | Some [id] =>
      let '(w, err, table) := load_ribosomes w in
      if negb (err_ok err) then fail_with w err 500 "load failed"
      else
        let '(err, table') := ribosome_table_remove_entry (Some table) (Some id) in
        if negb (err_ok err) then fail_with w err 400 "remove failed"
        else save_ribosomes (default table table') w "save failed" ESP_OK
               (Reply_text (lit "ribosome removed"))
    | _ => fail_with w ESP_FAIL 400 "invalid body"
    end.

Definition challenge_get_handler (req : http_request) (w : admin_world) : handled :=
  match ad_mode (aw_admin w) with
  | ADMIN_SERVER_MODE_BOOTSTRAP => fail_with w ESP_FAIL 404 "not available"
  | ADMIN_SERVER_MODE_MAINTENANCE =>
    let a := aw_admin w in
    let a := if ad_challenge_valid a then a else generate_challenge (rq_random req) a in
    (put_admin a w, rq_send req, Reply_text (c_str (hex_encode (ad_challenge a) (zeros 65))))
  end.

Definition unlock_post_handler (req : http_request) (w : admin_world) : handled :=
  match ad_mode (aw_admin w) with
  | ADMIN_SERVER_MODE_BOOTSTRAP => fail_with w ESP_FAIL 404 "not available"
  | ADMIN_SERVER_MODE_MAINTENANCE =>
    if negb (ad_challenge_valid (aw_admin w)) then fail_with w ESP_FAIL 400 "challenge required"
    else
      match post_values req [(lit "signature_hex", (ADMIN_SIGNATURE_MAX_LEN * 2 + 1)%nat)] with
      | Some [signature_hex] =>
        let '(err, signature, signature_len) :=
          parse_hex (Some signature_hex) (Some (zeros ADMIN_SIGNATURE_MAX_LEN)) in
        if negb (err_ok err) then fail_with w err 400 "invalid signature hex"
        else
          let '(w, err) := verify_admin_signature signature signature_len (rq_default_random req) w in
          if negb (err_ok err) then fail_with w err 400 "signature rejected"
          else
            let a := (aw_admin w) <| ad_unlocked := true |> in
            let a := generate_challenge (rq_random req) a in
            let '(a, _) := restart_window_timer ADMIN_UNLOCKED_WINDOW_MS (rq_timer_create req)
                             (rq_timer_start req) a in
            (put_admin a w, ESP_OK, Reply_text (lit "<!doctype html><html><body>unlocked</body></html>"))
      | _ => fail_with w ESP_FAIL 400 "invalid body"
      end
  end.

(** [render_maintenance_page]: the tables it loads and shows. *)
Definition render_maintenance_page (req : http_request) (w : admin_world) : handled :=
  if negb (rq_alloc req) then fail_with w ESP_ERR_NO_MEM 500 "admin mem failed"
  else
    let '(w, err, ribosomes) := load_ribosomes w in
    if negb (err_ok err) then fail_with w err 500 "ribosome load failed"
    else
      let '(w, err, templates) := load_templates w in
      if negb (err_ok err) then fail_with w err 500 "rna load failed"
      else (w, rq_send req, Reply_admin_page ribosomes templates).

Definition root_get_handler (req : http_request) (w : admin_world) : handled :=
  match ad_mode (aw_admin w) with
  | ADMIN_SERVER_MODE_MAINTENANCE =>
    if negb (ad_unlocked (aw_admin w)) then (w, rq_send req, Reply_locked_page)
    else render_maintenance_page req w
  | ADMIN_SERVER_MODE_BOOTSTRAP => (w, rq_send req, Reply_setup_page)
  end.

(** The configuration a first setup saves. *)
Definition setup_config (random : Z) (sta_ssid sta_password ap_ssid ap_password pem key_id : bytes) :
    zoneguard_config :=
  let c := default config_zero (config_store_set_defaults random (Some config_zero)) in
  let c := c <| zc_sta_ssid := safe_copy (zc_sta_ssid c) (Some sta_ssid) |> in
  let c := c <| zc_sta_password := safe_copy (zc_sta_password c) (Some sta_password) |> in
  let c := c <| zc_ap_ssid := safe_copy (zc_ap_ssid c) (Some ap_ssid) |> in
  let c := c <| zc_ap_password := safe_copy (zc_ap_password c) (Some ap_password) |> in
  let c := c <| zc_issuer_public_key_pem := safe_copy (zc_issuer_public_key_pem c) (Some pem) |> in
  c <| zc_issuer_key_id := key_id |> <| zc_ap_channel := 6 |> <| zc_ap_max_connections := 4 |>.

Definition setup_fields : list (bytes * nat) :=
  [(lit "sta_ssid", 32%nat); (lit "sta_password", 64%nat); (lit "ap_ssid", 32%nat);
   (lit "ap_password", 64%nat); (lit "issuer_public_key_pem", 512%nat)].

Definition save_post_handler (req : http_request) (w : admin_world) : handled :=
  match ad_mode (aw_admin w) with
  | ADMIN_SERVER_MODE_MAINTENANCE => fail_with w ESP_FAIL 404 "not available"
  | ADMIN_SERVER_MODE_BOOTSTRAP =>
    let '(err, body) := read_request_body req ADMIN_POST_BUF_SIZE in
    if err_eqb err ESP_ERR_INVALID_SIZE then fail_with w ESP_FAIL 400 "invalid body"
    else if negb (err_ok err) then fail_with w ESP_FAIL 500 "recv failed"
    else
      match get_values body setup_fields with
      | Some [sta_ssid; sta_password; ap_ssid; ap_password; pem] =>
        if (strlen sta_ssid =? 0)%nat then fail_with w ESP_FAIL 400 "sta_ssid empty"
        else if (strlen ap_ssid =? 0)%nat then fail_with w ESP_FAIL 400 "ap_ssid empty"
        else if (strlen ap_password <? 8)%nat then fail_with w ESP_FAIL 400 "ap_password too short"
        else if negb (err_ok (validate_issuer_public_key_pem (Some pem)))
        then fail_with w ESP_FAIL 400 "invalid issuer public key"
        else
          let '(err, key_id) := compute_issuer_key_id (Some pem) (zeros CONFIG_STORE_KEY_ID_LEN) in
          if negb (err_ok err) then fail_with w ESP_FAIL 500 "key id failed"
          else
            let cfg := setup_config (rq_default_random req) sta_ssid sta_password ap_ssid ap_password
                         pem key_id in
            let '(cw, err) := config_store_save (rq_time_us req) (Some cfg) (aw_config w) in
            let w := mk_admin_world (aw_admin w) cw in
            if negb (err_ok err) then fail_with w ESP_FAIL 500 "save failed"
            else
              (w, ESP_OK, Reply_text (lit "<!doctype html><html><body><h2>Config salva.</h2><p>O ZoneGuard vai reiniciar em modo normal.</p></body></html>"))
      | _ => fail_with w ESP_FAIL 400 "missing fields"
      end
  end.

(** ** Start, stop, window *)
Definition admin_server_clear_runtime_state (a : admin_state) : admin_state :=
  a <| ad_server := false |> <| ad_running := false |> <| ad_unlocked := false |>
    <| ad_challenge_valid := false |> <| ad_on_window_closed := 0 |> <| ad_window_ctx := 0 |>
    <| ad_challenge := zeros 32 |>.

(** [httpd_stopped] is the answer of [httpd_stop]; also the callback that runs
    and its context. *)
Definition admin_server_stop_internal (notify_window_closed : bool) (httpd_stopped : esp_err)
    (a : admin_state) : admin_state * esp_err * option (Z * Z) :=
  if negb (ad_server a) then (admin_server_clear_runtime_state a, ESP_OK, None)
  else
    let a := if ad_timer_created a then a <| ad_timer_us := None |> else a in
    let was_maintenance :=
      match ad_mode a with ADMIN_SERVER_MODE_MAINTENANCE => true | _ => false end in
    let on_window_closed := ad_on_window_closed a in
    let window_ctx := ad_window_ctx a in
    let a := a <| ad_unlocked := false |> <| ad_challenge_valid := false |> <| ad_challenge := zeros 32 |> in
    let a := if err_ok httpd_stopped then admin_server_clear_runtime_state a
             else a <| ad_on_window_closed := 0 |> <| ad_window_ctx := 0 |> in
    (a, httpd_stopped,
     if notify_window_closed && was_maintenance && negb (on_window_closed =? 0)
     then Some (on_window_closed, window_ctx) else None).
Definition admin_server_stop (httpd_stopped : esp_err) (a : admin_state) :
    admin_state * esp_err * option (Z * Z) := admin_server_stop_internal true httpd_stopped a.

Definition admin_server_force_release_port80 (httpd_stopped : esp_err) (a : admin_state) :
    admin_state * esp_err :=
  if negb (ad_server a) && negb (ad_running a) then (a, ESP_OK)
  else (admin_server_stop_internal false httpd_stopped a).1.

(** The attempts to start the HTTP server: the last status; [starts] are the
    answers of [httpd_start], none meaning a failure. *)
Fixpoint httpd_attempts (attempts : nat) (starts : list esp_err) (err : esp_err) : esp_err :=
  match attempts with
  | O => err
  | S attempts' =>
    let err := default ESP_FAIL (head starts) in
    if err_ok err then ESP_OK else httpd_attempts attempts' (tail starts) err
  end.

(** Registering the handlers is assumed to succeed ([ESP_ERROR_CHECK]). *)
Definition admin_server_start (config : option admin_server_config) (random : nat → Z)
    (starts : list esp_err) (a : admin_state) : admin_state * esp_err :=
  if ad_running a then (a, ESP_OK)
  else
    let mode := match config with Some c => ac_mode c | None => ADMIN_SERVER_MODE_BOOTSTRAP end in
    let a := a <| ad_mode := mode |>
               <| ad_on_window_closed := match config with Some c => ac_on_window_closed c | None => 0 end |>
               <| ad_window_ctx := match config with Some c => ac_ctx c | None => 0 end |>
               <| ad_unlocked := false |> in
    let a := match mode with
             | ADMIN_SERVER_MODE_MAINTENANCE => generate_challenge random a
             | ADMIN_SERVER_MODE_BOOTSTRAP =>
               a <| ad_challenge_valid := false |> <| ad_challenge := zeros 32 |>
             end in
    let err := httpd_attempts ADMIN_HTTPD_START_RETRIES starts ESP_FAIL in
    if negb (err_ok err) then (admin_server_clear_runtime_state a, err)
    else (a <| ad_server := true |> <| ad_running := true |>, ESP_OK).

Definition admin_server_open_window (config : option admin_server_config) (timeout_ms : Z)
    (httpd_stopped : esp_err) (random : nat → Z) (starts : list esp_err) (created started : esp_err)
    (a : admin_state) : admin_state * esp_err :=
  let window_config :=
    mk_admin_server_config (config ≫= ac_setup_ap_ssid) (config ≫= ac_setup_ap_password)
      ADMIN_SERVER_MODE_MAINTENANCE
      match config with Some c => ac_guardian_id c | None => 0 end
      match config with Some c => ac_zone_id c | None => 0 end
      match config with Some c => ac_on_window_closed c | None => 0 end
      match config with Some c => ac_ctx c | None => 0 end in
  let '(a, err) := admin_server_force_release_port80 httpd_stopped a in
  if negb (err_ok err) then (a, err)
  else
    let '(a, err) := admin_server_start (Some window_config) random starts a in
    if negb (err_ok err) then (a, err)
    else restart_window_timer (if timeout_ms =? 0 then 30000 else timeout_ms) created started a.

Definition admin_server_is_running (a : admin_state) : bool := ad_running a.
Definition admin_server_is_unlocked (a : admin_state) : bool := ad_unlocked a.
Definition admin_server_lock (random : nat → Z) (a : admin_state) : admin_state :=
  generate_challenge random (a <| ad_unlocked := false |>).

(** ** Everything that can happen to the server *)
Inductive admin_uri :=
| GET_root | GET_challenge | POST_save | POST_unlock | POST_ribosome_add | POST_ribosome_provision
| POST_ribosome_regenerate | POST_ribosome_remove | POST_membrane_template_set | POST_device_membrane_set.

(** The table of URI handlers. *)
Definition serve (uri : admin_uri) : http_request → admin_world → handled :=
  match uri with
  | GET_root => root_get_handler
  | GET_challenge => challenge_get_handler
  | POST_save => save_post_handler
  | POST_unlock => unlock_post_handler
  | POST_ribosome_add => ribosome_add_post_handler
  | POST_ribosome_provision => ribosome_provision_post_handler
  | POST_ribosome_regenerate => ribosome_regenerate_post_handler
  | POST_ribosome_remove => ribosome_remove_post_handler
  | POST_membrane_template_set => membrane_template_set_post_handler
  | POST_device_membrane_set => device_membrane_set_post_handler
  end.

Inductive admin_op :=
| AdminServe (uri : admin_uri) (req : http_request)
| AdminStart (config : option admin_server_config) (random : nat → Z) (starts : list esp_err)
| AdminOpenWindow (config : option admin_server_config) (timeout_ms : Z) (httpd_stopped : esp_err)
    (random : nat → Z) (starts : list esp_err) (created started : esp_err)
| AdminStop (httpd_stopped : esp_err)
| AdminLock (random : nat → Z)
| AdminNote (client_id : option bytes) (now_us : Z).

Definition admin_step (w : admin_world) (op : admin_op) : admin_world :=
  match op with
  | AdminServe uri req => if ad_server (aw_admin w) then (serve uri req w).1.1 else w
  | AdminStart config random starts => put_admin (admin_server_start config random starts (aw_admin w)).1 w
  | AdminOpenWindow config timeout_ms stopped random starts created started =>
    put_admin (admin_server_open_window config timeout_ms stopped random starts created started (aw_admin w)).1 w
  | AdminStop stopped => put_admin (admin_server_stop stopped (aw_admin w)).1.1 w
  | AdminLock random => put_admin (admin_server_lock random (aw_admin w)) w
  | AdminNote client_id now_us => put_admin (admin_server_note_mqtt_client client_id now_us (aw_admin w)) w
  end.
Definition admin_run (w : admin_world) (ops : list admin_op) : admin_world := fold_left admin_step ops w.
End admin.

Arguments admin_world N {QE}.

(** ** Specification: who may unlock *)
(** The owner's proof: the request carries the hexadecimal text of a signature
    that verifies the hash of the current challenge under the public key of the
    configuration in flash. *)
Definition admin_proof {N : Type} `{NL : NvsLaws N} `{QE : Queue zg_event} `{Md} `{Pk}
    (w : admin_world N) (req : http_request) : Prop :=
  ∃ text buf len blob hash pk,
    post_values req [(lit "signature_hex", (ADMIN_SIGNATURE_MAX_LEN * 2 + 1)%nat)] = Some [text] ∧
    parse_hex (Some text) (Some (zeros ADMIN_SIGNATURE_MAX_LEN)) = (ESP_OK, Some buf, len) ∧ len ≠ O ∧
    cw_initialized (aw_config w) = true ∧ stored_config (aw_nvs w) = Some blob ∧
    List.length blob = config_size ∧ config_current (config_of_image blob) ∧
    md_finish (ad_challenge (aw_admin w)) = Some hash ∧
    mbedtls_pk_parse_public_key (c_str (zc_issuer_public_key_pem (config_of_image blob)) ++ [0]) = Some pk ∧
    mbedtls_pk_verify pk hash (take len buf) = true.

Section gate.
Context {N : Type} `{NL : NvsLaws N} `{QE : Queue zg_event} `{Md} `{Pk}.
Implicit Types w : admin_world N.

Lemma config_load_flash random out (cw : config_world N) :
  let '(cw', err, c) := config_store_load random out cw in
  cw_initialized cw' = cw_initialized cw ∧ same_flash (cw_nvs cw) (cw_nvs cw') ∧
  (err = ESP_OK ↔ cw_initialized cw = true ∧ is_Some out ∧ ∃ blob, stored_config (cw_nvs cw) = Some blob ∧
     List.length blob = config_size ∧ config_current (config_of_image blob)) ∧
  (err = ESP_OK → ∃ blob, stored_config (cw_nvs cw) = Some blob ∧ c = Some (config_of_image blob)).
Proof.
  unfold config_store_load. destruct (cw_initialized cw) eqn:Hi; cbn [negb].
  2: { split_and!; [done|reflexivity| |done]. split; [done|]. by intros [? _]. }
  destruct out as [out|].
  2: { split_and!; [done|reflexivity| |done]. split; [done|]. by intros (_ & [? ?] & _). }
  destruct (nvs_open _ _ _) as [n1 e1] eqn:Eo. pose proof (fun ns key => nvs_open_keeps _ _ _ _ _ ns key Eo) as Hk.
  destruct (err_ok e1) eqn:E1; cbn [negb].
  2: { split_and!; [done|exact Hk| |done]. split; [done|]. intros (_ & _ & blob & Hb & _).
       pose proof (nvs_open_existing _ _ _ _ Hb) as Hx. rewrite Eo in Hx. cbn in Hx. subst e1.
       by apply err_ok_false in E1. }
  destruct (nvs_get_blob _ _ _ _) as [e2 blob] eqn:Eg.
  destruct (_ || _) eqn:Eb.
  - split_and!; [done|exact Hk| |done]. split; [done|]. intros (_ & _ & b & Hb & Hl & Hm & Hv).
    exfalso. unfold stored_config in Hb. rewrite <- Hk in Hb.
    rewrite (nvs_get_existing _ _ b config_size) in Eg by (done || lia). injection Eg as <- <-.
    rewrite (proj2 (err_ok_true ESP_OK) eq_refl), Hl, Nat.eqb_refl, Hm, Hv, !Z.eqb_refl in Eb. done.
  - repeat (apply orb_false_iff in Eb as [Eb ?]). bools. apply err_ok_true in Eb as ->.
    apply nvs_get_ok in Eg. rewrite Hk in Eg.
    match goal with E : (_ =? _)%nat = true |- _ => apply Nat.eqb_eq in E end.
    split_and!; [done|exact Hk| |by eauto]. split; [|done]. intros _. split_and!; [done|by eauto|].
    exists blob. by split_and!.
Qed.

Lemma parse_hex_len h out buf len :
  parse_hex h (Some out) = (ESP_OK, Some buf, len) → (len ≤ List.length out)%nat.
Proof.
  unfold parse_hex. destruct h as [h|]; [|done]. case_match; [done|]. case_match eqn:E; [done|].
  apply orb_false_iff in E as [_ E]. apply Nat.ltb_ge in E. case_match; [|done]. by intros [= _ <-].
Qed.

Lemma verify_signature_spec buf len random w :
  (len ≤ ADMIN_SIGNATURE_MAX_LEN)%nat → ad_challenge_valid (aw_admin w) = true →
  let '(w', err) := verify_admin_signature (Some buf) len random w in
  aw_admin w' = aw_admin w ∧ same_flash (aw_nvs w) (aw_nvs w') ∧
  (err = ESP_OK ↔
   len ≠ O ∧ ∃ blob hash pk,
     cw_initialized (aw_config w) = true ∧ stored_config (aw_nvs w) = Some blob ∧
     List.length blob = config_size ∧ config_current (config_of_image blob) ∧
     md_finish (ad_challenge (aw_admin w)) = Some hash ∧
     mbedtls_pk_parse_public_key (c_str (zc_issuer_public_key_pem (config_of_image blob)) ++ [0]) = Some pk ∧
     mbedtls_pk_verify pk hash (take len buf) = true).
Proof.
  intros Hlen Hv. unfold verify_admin_signature. destruct (_ || _) eqn:E0.
  { apply orb_true_iff in E0. rewrite Nat.eqb_eq, Nat.ltb_lt in E0. split_and!; [done|reflexivity|].
    split; [done|]. intros [? _]. lia. }
  apply orb_false_iff in E0 as [E0 _]. apply Nat.eqb_neq in E0.
  pose proof (config_load_flash random (Some config_zero) (aw_config w)) as Hload.
  destruct (config_store_load _ _ _) as [[cw err] c]. destruct Hload as (Hi & Hf & Hok & Hc).
  cbn [aw_admin]. unfold aw_nvs. destruct (err_ok err) eqn:Ee; cbn [negb].
  2: { apply err_ok_false in Ee. cbn [aw_config]. split_and!; [done|done|]. split; [done|].
       intros (_ & blob & hash & pk & ? & ? & ? & ? & _). destruct Ee. apply Hok. split_and!; eauto. }
  apply err_ok_true in Ee as ->. destruct (Hc eq_refl) as (blob & Hb & ->).
  change (default config_zero (Some (config_of_image blob))) with (config_of_image blob).
  apply proj1 in Hok. destruct (Hok eq_refl) as (Hi0 & _ & blob' & Hb' & Hl & Hcur).
  assert (blob' = blob) as -> by congruence. clear Hok Hc Hb'.
  unfold hash_challenge. rewrite Hv. cbn [negb].
  destruct (md_finish (ad_challenge (aw_admin w))) as [hash|] eqn:Eh.
  2: { cbn. split_and!; [done|done|]. split; [done|]. by intros (_ & ? & ? & ? & _ & _ & _ & _ & ? & _). }
  rewrite (proj2 (err_ok_true ESP_OK) eq_refl). cbn [negb].
  destruct (mbedtls_pk_parse_public_key _) as [pk|] eqn:Ek; cbn [aw_admin aw_config].
  2: { split_and!; [done|done|]. split; [done|].
       intros (_ & b & ? & ? & _ & Hb' & _ & _ & _ & Hp & _). assert (b = blob) as -> by congruence. congruence. }
  split_and!; [done|done|]. destruct (mbedtls_pk_verify pk hash (take len buf)) eqn:Ev.
  - split; [|done]. intros _. split; [done|]. exists blob, hash, pk. by split_and!.
  - split; [done|]. intros (_ & b & h & k & _ & Hb' & _ & _ & Hh & Hp & Hver).
    assert (b = blob) as -> by congruence. simplify_eq. congruence.
Qed.

Lemma restart_timer_keeps ms created started (a : admin_state) :
  let a' := (restart_window_timer ms created started a).1 in
  ad_unlocked a' = ad_unlocked a ∧ ad_challenge a' = ad_challenge a ∧ ad_mode a' = ad_mode a ∧
  ad_challenge_valid a' = ad_challenge_valid a.
Proof. unfold restart_window_timer. by repeat (case_match; simplify_eq/=). Qed.

(** The unlock request does what the proof allows, and nothing else. *)
Lemma unlock_spec req w :
  ad_mode (aw_admin w) = ADMIN_SERVER_MODE_MAINTENANCE → ad_challenge_valid (aw_admin w) = true →
  let '(w', err, _) := unlock_post_handler req w in
  same_flash (aw_nvs w) (aw_nvs w') ∧ (err = ESP_OK ↔ admin_proof w req) ∧
  (err = ESP_OK → ad_unlocked (aw_admin w') = true ∧ ad_mode (aw_admin w') = ADMIN_SERVER_MODE_MAINTENANCE ∧
     ad_challenge (aw_admin w') = random_bytes (rq_random req) 8 ∧
     ad_challenge_valid (aw_admin w') = true) ∧
  (err ≠ ESP_OK → aw_admin w' = aw_admin w).
Proof.
  intros Hm Hv. unfold unlock_post_handler. rewrite Hm, Hv. cbn [negb].
  destruct (post_values _ _) as [[|text []]|] eqn:Ep;
    try (split_and!; [reflexivity|split; [done|]; intros (? & ? & ? & ? & ? & ? & Hx & _); congruence|done|done]).
  destruct (parse_hex _ _) as [[err buf] len] eqn:Eh.
  destruct (err_ok err) eqn:Ee; cbn [negb].
  2: { apply err_ok_false in Ee. split_and!; [reflexivity| |done|done]. split; [done|].
       intros (t & ? & ? & ? & ? & ? & Hx & Hy & _). assert (t = text) as -> by congruence. congruence. }
  apply err_ok_true in Ee as ->.
  assert (∃ b, buf = Some b) as [b ->].
  { unfold parse_hex in Eh. repeat (case_match; simplify_eq/=); eauto. }
  pose proof (parse_hex_len _ _ _ _ Eh) as Hl. rewrite length_zeros in Hl.
  pose proof (verify_signature_spec b len (rq_default_random req) w Hl Hv) as Hs.
  destruct (verify_admin_signature _ _ _ _) as [w1 err]. destruct Hs as (Ha & Hf & Hok).
  assert (err = ESP_OK ↔ admin_proof w req) as Hproof.
  { rewrite Hok. unfold admin_proof. split.
    - intros (? & blob & hash & pk & ?). exists text, b, len, blob, hash, pk. naive_solver.
    - intros (t & b' & l & blob & hash & pk & Hx & Hy & ? & ?).
      assert (t = text) as -> by congruence. rewrite Eh in Hy. injection Hy as <- <-. naive_solver. }
  destruct (err_ok err) eqn:Ee; cbn [negb].
  2: { apply err_ok_false in Ee. by split_and!. }
  apply err_ok_true in Ee as ->.
  pose proof (restart_timer_keeps ADMIN_UNLOCKED_WINDOW_MS (rq_timer_create req) (rq_timer_start req)
    (generate_challenge (rq_random req) ((aw_admin w1) <| ad_unlocked := true |>))) as Hk.
  destruct (restart_window_timer _ _ _ _) as [a e]. cbn in Hk. destruct Hk as (K1 & K2 & K3 & K4).
  split_and!; [exact Hf|done| |done]. intros _. cbn. rewrite Ha in K3. by rewrite K1, K2, K3, K4.
Qed.

(** In a locked maintenance window the flash is read and nothing more. *)
Lemma serve_locked uri req w :
  ad_mode (aw_admin w) = ADMIN_SERVER_MODE_MAINTENANCE → ad_unlocked (aw_admin w) = false →
  let w' := (serve uri req w).1.1 in
  same_flash (aw_nvs w) (aw_nvs w') ∧ ad_mode (aw_admin w') = ADMIN_SERVER_MODE_MAINTENANCE ∧
  (ad_unlocked (aw_admin w') = true → uri = POST_unlock ∧ admin_proof w req).
Proof.
  intros Hm Hu. destruct uri; cbn [serve].
  4: { destruct (ad_challenge_valid (aw_admin w)) eqn:Hv.
       - pose proof (unlock_spec req w Hm Hv) as Hs. destruct (unlock_post_handler req w) as [[w' err] r].
         destruct Hs as (Hf & Hp & Hok & Hno). cbn. split; [done|]. destruct (decide (err = ESP_OK)) as [->|He].
         + destruct (Hok eq_refl) as (_ & ? & _). split; [done|]. intros _. split; [done|]. by apply Hp.
         + rewrite Hno by done. split; [done|]. congruence.
       - unfold unlock_post_handler. rewrite Hm, Hv. cbn. split_and!; [reflexivity|done|congruence]. }
  all: unfold root_get_handler, challenge_get_handler, save_post_handler, ribosome_add_post_handler,
         ribosome_provision_post_handler, ribosome_regenerate_post_handler, ribosome_remove_post_handler,
         membrane_template_set_post_handler, device_membrane_set_post_handler, post_gate, fail_with;
       rewrite ?Hm, ?Hu; cbn [negb]; repeat (case_match; try discriminate); cbn -[same_flash];
       (split; [reflexivity|]; split; [done|congruence]).
Qed.

(** The operations of a maintenance window: no restart in bootstrap mode, and no
    unlock request with a proof. *)
Definition unproved_op w (op : admin_op) : Prop :=
  match op with
  | AdminServe POST_unlock req => ¬ admin_proof w req
  | AdminStart config _ _ =>
    match config with Some c => ac_mode c = ADMIN_SERVER_MODE_MAINTENANCE | None => False end
  | _ => True
  end.
Fixpoint unproved w (ops : list admin_op) : Prop :=
  match ops with [] => True | op :: ops' => unproved_op w op ∧ unproved (admin_step w op) ops' end.

Lemma clear_keeps a :
  ad_mode (admin_server_clear_runtime_state a) = ad_mode a ∧
  ad_unlocked (admin_server_clear_runtime_state a) = false.
Proof. done. Qed.

Lemma stop_keeps notify stopped a :
  ad_mode (admin_server_stop_internal notify stopped a).1.1 = ad_mode a ∧
  ad_unlocked (admin_server_stop_internal notify stopped a).1.1 = false.
Proof. unfold admin_server_stop_internal. by repeat (case_match; simplify_eq/=). Qed.

Lemma start_maintenance config random starts a c :
  config = Some c → ac_mode c = ADMIN_SERVER_MODE_MAINTENANCE →
  ad_mode a = ADMIN_SERVER_MODE_MAINTENANCE → ad_unlocked a = false →
  let a' := (admin_server_start config random starts a).1 in
  ad_mode a' = ADMIN_SERVER_MODE_MAINTENANCE ∧ ad_unlocked a' = false.
Proof.
  intros -> Hc Hm Hu. unfold admin_server_start. rewrite Hc. destruct (ad_running a); [done|].
  by destruct (err_ok _).
Qed.

Lemma locked_step w op :
  ad_mode (aw_admin w) = ADMIN_SERVER_MODE_MAINTENANCE → ad_unlocked (aw_admin w) = false →
  unproved_op w op →
  let w' := admin_step w op in
  same_flash (aw_nvs w) (aw_nvs w') ∧ ad_mode (aw_admin w') = ADMIN_SERVER_MODE_MAINTENANCE ∧
  ad_unlocked (aw_admin w') = false.
Proof.
  intros Hm Hu Hop. destruct op as [uri req|config random starts|config ms stopped random starts created started|stopped|random|id now]; cbn [admin_step].
  - destruct (ad_server _); [|by split_and!]. destruct (serve_locked uri req w Hm Hu) as (Hf & Hm' & Hun).
    split_and!; [done|done|]. apply not_true_iff_false. intros Ht. destruct (Hun Ht) as [-> Hp]. by apply Hop.
  - destruct config as [c|]; [|done]. destruct (start_maintenance (Some c) random starts _ c eq_refl Hop Hm Hu).
    by split_and!.
  - cbn [unproved_op] in *. split; [reflexivity|]. cbn [put_admin aw_admin]. unfold admin_server_open_window.
    assert (ad_mode (admin_server_force_release_port80 stopped (aw_admin w)).1 = ADMIN_SERVER_MODE_MAINTENANCE ∧
            ad_unlocked (admin_server_force_release_port80 stopped (aw_admin w)).1 = false) as [Hm1 Hu1].
    { unfold admin_server_force_release_port80. case_match; [done|].
      destruct (stop_keeps false stopped (aw_admin w)) as [-> ->]. done. }
    destruct (admin_server_force_release_port80 _ _) as [a1 e1]. cbn in Hm1, Hu1.
    destruct (err_ok e1); cbn [negb]; [|done].
    set (c := mk_admin_server_config _ _ ADMIN_SERVER_MODE_MAINTENANCE _ _ _ _).
    pose proof (start_maintenance (Some c) random starts a1 c eq_refl eq_refl Hm1 Hu1) as Hs.
    destruct (admin_server_start _ _ _ _) as [a2 e2]. cbn in Hs. destruct (err_ok e2); cbn [negb]; [|done].
    destruct (restart_timer_keeps (if ms =? 0 then 30000 else ms) created started a2) as (-> & _ & -> & _). done.
  - unfold admin_server_stop. destruct (stop_keeps true stopped (aw_admin w)) as [E1 E2].
    split; [reflexivity|]. cbn. by rewrite E1, E2.
  - by split_and!.
  - split; [reflexivity|]. cbn. unfold admin_server_note_mqtt_client. by repeat case_match.
Qed.
End gate.

(** ** Properties: the lock *)

(** C4: without the owner's signature the maintenance window changes nothing.
    Whatever requests arrive in whatever order, with windows closing and
    opening, locks and broker clients in between, as long as no unlock request
    carries a signature of the challenge then in force under the configured
    key, the server stays locked and the flash holds, key by key, what it held
    before: device secrets, templates and configuration. *)
Theorem admin_locked_window_read_only {N : Type} `{NL : NvsLaws N} `{QE : Queue zg_event} `{Md} `{Pk}
    (w : admin_world N) ops :
  ad_mode (aw_admin w) = ADMIN_SERVER_MODE_MAINTENANCE → ad_unlocked (aw_admin w) = false →
  unproved w ops →
  let w' := admin_run w ops in
  ad_unlocked (aw_admin w') = false ∧ ad_mode (aw_admin w') = ADMIN_SERVER_MODE_MAINTENANCE ∧
  ∀ ns key, nvs_lookup (aw_nvs w') ns key = nvs_lookup (aw_nvs w) ns key.
Proof.
  revert w. induction ops as [|op ops IH]; intros w Hm Hu Hop; cbn in *; [done|].
  destruct Hop as [Hop Hops]. destruct (locked_step w op Hm Hu Hop) as (Hf & Hm' & Hu').
  destruct (IH _ Hm' Hu' Hops) as (Hu'' & Hm'' & Hf''). split_and!; [done|done|].
  intros ns key. rewrite Hf''. apply Hf.
Qed.

(** C5: the owner's signature, and nothing else, unlocks the window, once.  In a
    maintenance window with a challenge, an unlock request succeeds exactly
    when it carries a signature of the challenge under the configured key; then
    the window is unlocked and the challenge is a new random one, so the
    signature is spent; any other unlock request leaves the server as it was.
    In both cases the flash is unchanged. *)
Theorem admin_unlock_exact {N : Type} `{NL : NvsLaws N} `{QE : Queue zg_event} `{Md} `{Pk}
    (w : admin_world N) req :
  ad_mode (aw_admin w) = ADMIN_SERVER_MODE_MAINTENANCE → ad_challenge_valid (aw_admin w) = true →
  let w' := (unlock_post_handler req w).1.1 in
  let err := (unlock_post_handler req w).1.2 in
  (err = ESP_OK ↔ admin_proof w req) ∧
  (err = ESP_OK → ad_unlocked (aw_admin w') = true ∧ ad_challenge_valid (aw_admin w') = true ∧
                  ad_challenge (aw_admin w') = random_bytes (rq_random req) 8) ∧
  (err ≠ ESP_OK → aw_admin w' = aw_admin w) ∧
  ∀ ns key, nvs_lookup (aw_nvs w') ns key = nvs_lookup (aw_nvs w) ns key.
Proof.
  intros Hm Hv. pose proof (unlock_spec req w Hm Hv) as Hs.
  destruct (unlock_post_handler req w) as [[w' err] reply]. cbn [fst snd]. destruct Hs as (Hf & Hp & Hok & Hno).
  split_and!; [done| |done|done]. intros He. destruct (Hok He) as (? & _ & ? & ?). done.
Qed.

(** ** Witnesses *)
Definition witness_admin : admin_state :=
  admin_boot <| ad_server := true |> <| ad_running := true |> <| ad_mode := ADMIN_SERVER_MODE_MAINTENANCE |>
    <| ad_challenge := replicate 32 7 |> <| ad_challenge_valid := true |>.

(** A configuration with a one-letter key, for the toy signatures. *)
Definition witness_admin_config : zoneguard_config :=
  (default config_zero (config_store_set_defaults 5 (Some config_zero)))
    <| zc_issuer_public_key_pem := lit "K" ++ zeros 511 |>.
Definition witness_admin_world : admin_world nvs_map :=
  mk_admin_world witness_admin (mk_config_world true
    {[ (Config_store.NVS_NS, Config_store.NVS_KEY) := config_image witness_admin_config ]}
    (event_bus_init true eb_boot).1).

Definition posting (body : bytes) : http_request :=
  mk_http_request (Z.of_nat (List.length body)) [body] true (fun i => Z.of_nat i + 1) 9 ESP_OK ESP_OK ESP_OK 0.

(** The owner's signature of that challenge. *)
Definition witness_signature : bytes := lit "K" ++ [0] ++ toy_digest (replicate 32 7).
Definition witness_unlock : http_request :=
  posting (encode_form [(lit "signature_hex", hex_text witness_signature)]).

Lemma admin_unlock_exact_witness :
  ad_unlocked (aw_admin (unlock_post_handler witness_unlock witness_admin_world).1.1) = true ∧
  ad_challenge (aw_admin (unlock_post_handler witness_unlock witness_admin_world).1.1) =
    random_bytes (fun i => Z.of_nat i + 1) 8.
Proof.
  pose proof (admin_unlock_exact witness_admin_world witness_unlock eq_refl eq_refl) as (_ & Hok & _).
  destruct Hok as (E1 & _ & E2); [vm_compute; reflexivity|]. exact (conj E1 E2).
Defined.

(** Somebody without the key: a forged signature and two requests to the tables. *)
Definition witness_intruder : list admin_op :=
  [AdminServe POST_unlock (posting (encode_form [(lit "signature_hex", lit "00ff")]));
   AdminServe POST_ribosome_add
     (posting (encode_form [(lit "mqtt_client_id", lit "spy"); (lit "template_id", lit "1");
                            (lit "epoch", lit "1"); (lit "device_secret_hex", hex_text (replicate 32 1))]));
   AdminStop ESP_OK; AdminServe POST_ribosome_remove (posting (lit "mqtt_client_id=lamp"))].

Lemma admin_locked_window_read_only_witness :
  ad_unlocked (aw_admin (admin_run witness_admin_world witness_intruder)) = false.
Proof.
  apply (admin_locked_window_read_only witness_admin_world witness_intruder); [reflexivity|reflexivity|].
  split; [|by repeat split].
  intros (text & buf & len & blob & hash & pk & Ht & Hx & _ & _ & Hb & _ & _ & Hh & Hk & Hv).
  vm_compute in Ht. injection Ht as <-. vm_compute in Hx. injection Hx as <- <-.
  injection Hh as <-. apply bool_decide_eq_true in Hv. apply (f_equal List.length) in Hv.
  rewrite length_app, length_toy_digest in Hv. unfold SHA256_LEN in Hv. cbn in Hv. lia.
Defined.
