(* ===== verification/Admin_tables.v ===== *)
(** * Admin tables: what the requests of an unlocked window do to the flash

    The handlers of [Admin_server] seen from the outside: the fields a request
    body carries, whatever the chunks it arrives in; the device table and the
    template table as finite maps in flash; and one edit of those maps per
    successful request. *)

From S2P Require Import Prelude Bytes Slots Tables Blobs Nvs Event_bus Crypto Amino_acids Rna_membrane.
From S2P Require Import Ribosome_table Ribosome_store Config_store Forms Admin_pages Admin_server.

(** ** Reading a request *)
(** The deliveries of a body: nonempty chunks. *)
Definition delivers (deliveries : list bytes) (body : bytes) : Prop :=
  Forall (fun c => c ≠ []) deliveries ∧ concat deliveries = body.

Lemma recv_loop_delivers deliveries received body total :
  delivers deliveries body → total = (List.length received + List.length body)%nat →
  recv_loop deliveries total received = Some (received ++ body).
Proof.
  intros [Hd <-] ->. revert received. induction Hd as [|c l Hc _ IH]; intros received; cbn [recv_loop concat].
  - rewrite (proj2 (Nat.leb_le _ _)) by (cbn; lia). by rewrite app_nil_r.
  - rewrite length_app. assert (0 < List.length c)%nat by (destruct c; [done|cbn; lia]).
    rewrite (proj2 (Nat.leb_gt _ _)) by lia. rewrite take_ge by lia.
    rewrite (proj2 (Nat.eqb_neq _ _)) by lia.
    replace (List.length received + (List.length c + List.length (concat l)))%nat
      with (List.length (received ++ c) + List.length (concat l))%nat by (rewrite length_app; lia).
    by rewrite IH, <- app_assoc.
Qed.

(** The value a buffer of [size] bytes holds after a field was read into it. *)
Definition field_buffer (size : nat) (value : bytes) : bytes :=
  let text := take (size - 1) value ++ [0] in text ++ zeros (size - List.length text).

(** The fields looked up one by one: [None] when one is missing. *)
Fixpoint lookup_values (fields : list (bytes * bytes)) (keys : list (bytes * nat)) : option (list bytes) :=
  match keys with
  | [] => Some []
  | (key, size) :: keys' =>
    value ← form_lookup key fields; values ← lookup_values fields keys'; Some (field_buffer size value :: values)
  end.

Definition key_ok (k : bytes * nat) : Prop := Forall (fun c => c ≠ 0) k.1 ∧ k.2 ≠ O.

Lemma drop_zeros n k : drop k (zeros n) = zeros (n - k).
Proof. apply drop_replicate. Qed.

Lemma get_values_encoded fields rest keys :
  Forall field_ok fields → Forall key_ok keys →
  get_values (encode_form fields ++ 0 :: rest) keys = lookup_values fields keys.
Proof.
  intros Hf. induction 1 as [|[key size] keys [Hk Hs] _ IH]; [done|]. cbn [get_values lookup_values fst snd] in *.
  assert (form_get_value (Some (encode_form fields ++ 0 :: rest)) (Some key) (zeros size) =
          form_get_value (Some (encode_form fields ++ 0 :: rest)) (Some (key ++ [0])) (zeros size)) as ->.
  { unfold form_get_value. by rewrite (c_str_app_zero key []), (c_str_id key). }
  rewrite form_get_value_encoded by (done || by destruct size). rewrite length_zeros.
  destruct (form_lookup key fields) as [v|]; [|done]. cbn [mbind option_bind]. rewrite IH.
  destruct (lookup_values fields keys); [|done]. cbn. unfold field_buffer. by rewrite drop_zeros.
Qed.

(** ** What the parsers can give *)
Lemma decimal_nonneg s : Forall (fun c => isdigit c = true) s → 0 ≤ decimal s.
Proof.
  induction s as [|c s IH] using rev_ind; [done|].
  intros [Hs Hc]%Forall_app. inversion_clear Hc as [|? ? Hd _]. rewrite decimal_snoc.
  unfold isdigit in Hd. bools. specialize (IH Hs). lia.
Qed.

Lemma take_while_Forall f s : Forall (fun c => f c = true) (take_while f s).
Proof. induction s as [|c s IH]; cbn; [constructor|]. destruct (f c) eqn:E; by constructor. Qed.

Lemma strtoul_range s : is_u32 (strtoul s).1.
Proof.
  unfold strtoul. cbv zeta. set (s2 := if _ || _ then _ else _).
  pose proof (decimal_nonneg _ (take_while_Forall isdigit s2)) as Hd.
  destruct (take_while isdigit s2) as [|c d]; [by cbv|]. cbn [fst].
  unfold ULONG_MAX, U32_MAX, is_u32. destruct (_ <? _) eqn:E; bools; [lia|].
  destruct (_ =? 45); [apply u32_range|]. lia.
Qed.

Lemma parse_u32_range text v : parse_u32_field text = Some v → is_u32 v.
Proof.
  destruct text as [t|]; [|done]. cbn. destruct (_ =? 0); [done|].
  pose proof (strtoul_range t) as Hr. destruct (strtoul t) as [value rest].
  destruct (_ || _); [done|]. by intros [= <-].
Qed.

Lemma parse_hex_loop_length n i hex out out' :
  parse_hex_loop n i hex out = Some out' → List.length out' = List.length out.
Proof.
  revert i out. induction n as [|n IH]; intros i out; cbn; [by intros [= ->]|].
  repeat (case_match; [|done]). intros E%IH. by rewrite E, length_insert.
Qed.

Lemma parse_exact_hex_length hex n secret :
  parse_exact_hex hex (Some (zeros n)) = (ESP_OK, Some secret) → List.length secret = n.
Proof.
  unfold parse_exact_hex. destruct (parse_hex _ _) as [[err o] len] eqn:E.
  destruct (err_ok err) eqn:Ee; cbn [negb]; [|intros [= -> _]; by apply err_ok_false in Ee].
  destruct (_ =? _)%nat; [|done]. intros [= ->]. apply err_ok_true in Ee as ->.
  unfold parse_hex in E. destruct hex as [h|]; [|done]. destruct (_ =? _)%nat; [done|].
  destruct (_ || _); [done|]. destruct (parse_hex_loop _ _ _ _) eqn:El; [|done].
  injection E as -> _. apply parse_hex_loop_length in El. by rewrite length_zeros in El.
Qed.

(** A generated secret has a secret's length and is never all zero. *)
Lemma length_random_bytes random n : List.length (random_bytes random n) = (n * 4)%nat.
Proof.
  unfold random_bytes.
  assert (∀ l, List.length (concat ((fun i : nat => le32 (random i)) <$> l)) = (List.length l * 4)%nat) as Hl.
  { induction l as [|x l IH]; [done|]. cbn -[le32]. rewrite length_app, IH. cbn. lia. }
  by rewrite Hl, length_seq.
Qed.

Lemma generate_device_secret_ok random :
  List.length (generate_device_secret random) = RIBOSOME_DEVICE_SECRET_LEN ∧
  secret_zero (generate_device_secret random) = false.
Proof.
  pose proof (length_random_bytes random 8) as Hl. unfold generate_device_secret.
  set (s := random_bytes random 8) in *. unfold secret_zero, RIBOSOME_DEVICE_SECRET_LEN.
  destruct (bytes_all_zero (Some s)) eqn:Ez.
  - rewrite length_insert. split; [done|]. apply not_true_iff_false.
    destruct s as [|c s]; [done|]. cbn [insert list_insert]. rewrite take_ge by (cbn in *; lia).
    rewrite bytes_all_zero_spec. intros Hf. by inversion_clear Hf.
  - split; [done|]. by rewrite take_ge by lia.
Qed.

(** ** The table operations of the server *)
Lemma live_insert {E : Type} n i (e : E) l :
  (i < n)%nat → live n (<[i := e]> l) = <[i := e]> (live n l).
Proof. intros Hi. unfold live. by rewrite take_insert_lt. Qed.

Lemma live_lookup {E : Type} n i (e : E) l : live n l !! i = Some e → (i < n)%nat ∧ l !! i = Some e.
Proof. intros [-> ?]%lookup_take_Some. done. Qed.

(** Changing an entry without changing its identifier. *)
Lemma change_entry_ok t i e f :
  rt_inv t → rt_list t !! i = Some e → entry_ok (f e) → id_of (f e) = id_of e →
  rt_inv (change_entry f i t) ∧ rt_list (change_entry f i t) = <[i := f e]> (rt_list t) ∧
  rt_map (change_entry f i t) = <[id_of e := f e]> (rt_map t).
Proof.
  intros [Hl Hc Hok Hk Hr] Hi He Hid. destruct (live_lookup _ _ _ _ Hi) as [Hlt Hi'].
  assert (alter f i (rt_entries t) = <[i := f e]> (rt_entries t)) as Ea.
  { apply list_eq. intros j. destruct (decide (i = j)) as [<-|].
    - rewrite list_lookup_alter_eq, Hi', list_lookup_insert_eq; [done|]. by eapply lookup_lt_Some.
    - by rewrite list_lookup_alter_ne, list_lookup_insert_ne. }
  assert (rt_list (change_entry f i t) = <[i := f e]> (rt_list t)) as El.
  { unfold rt_list, change_entry. cbn [rt_count rt_entries]. rewrite Ea. by apply live_insert. }
  split_and!; [|done|unfold rt_map; rewrite El; by apply kmap_replace].
  split; rewrite ?El; unfold change_entry; cbn [rt_count rt_entries]; rewrite ?Ea.
  - by rewrite length_insert.
  - done.
  - by apply Forall_insert.
  - by rewrite (keys_replace id_of _ _ e (f e)).
  - by rewrite drop_insert_lt.
Qed.

Lemma find_entry_index t id i :
  rt_inv t → find_id t id = Some i →
  ∃ e, rt_list t !! i = Some e ∧ entry_ok e ∧ id_of e = c_str id ∧ rt_map t !! c_str id = Some e.
Proof.
  intros [_ _ Hok Hk _] (e & He & Hm)%first_index_lookup. fold (rt_list t) in He.
  assert (entry_ok e) as Heok by (by eapply Forall_lookup_1).
  assert (id_of e = c_str id) as Hid.
  { unfold id_matches, strncmp_eq, RIBOSOME_MQTT_CLIENT_ID_LEN in Hm. apply bool_decide_eq_true in Hm.
    pose proof (eok_id_len e Heok) as Hl. unfold id_of. rewrite take_ge in Hm by lia. rewrite Hm in *.
    rewrite length_take in Hl. by rewrite take_ge by lia. }
  exists e. split_and!; [done|done|done|]. apply kmap_Some; [done|]. split; [|done].
  by eapply list_elem_of_lookup_2.
Qed.

(** A template replaces the one with its identifier, or is added. *)
Lemma upsert_spec t r :
  rtt_inv t → template_sized r →
  let '(err, o) := rna_template_table_upsert (Some t) (Some r) in
  (err = ESP_OK ↔ rna_template_validate (Some r) = ESP_OK ∧
     (is_Some (rtt_map t !! rn_id r) ∨ (size (rtt_map t) < RNA_MAX_TEMPLATES)%nat)) ∧
  (err = ESP_OK → ∃ t', o = Some t' ∧ rtt_inv t' ∧ (1 ≤ rtt_count t')%nat ∧
     rtt_map t' = <[rn_id r := copy_template_sanitized r]> (rtt_map t) ∧
     (template_ranged r → Forall template_ranged (rtt_list t) → Forall template_ranged (rtt_list t'))) ∧
  (err ≠ ESP_OK → o = Some t).
Proof.
  intros Hi Hs. pose proof Hi as [Hl Hc Hok Hk Hr]. unfold rna_template_table_upsert.
  rewrite (proj2 (Nat.ltb_ge _ _)) by done. destruct (err_ok _) eqn:Ev; cbn [negb].
  2: { apply err_ok_false in Ev. split_and!; [|done|done]. naive_solver. }
  apply err_ok_true in Ev. destruct (copy_template_valid r Ev Hs) as (Hcok & _ & Hcid).
  fold (rtt_list t). destruct (first_index _ _) as [i|] eqn:Ei.
  - destruct (key_index_Some rn_id (rtt_list t) (rn_id r) i Hk Ei) as (e & He & Heid & Hm).
    fold (rtt_map t) in Hm. destruct (live_lookup _ _ _ _ He) as [Hlt _].
    assert (rtt_list (mk_rna_template_table (<[i := copy_template_sanitized r]> (rtt_templates t)) (rtt_count t)) =
            <[i := copy_template_sanitized r]> (rtt_list t)) as El by by apply live_insert.
    split_and!; [split; [intros _; rewrite Hm; eauto|done]| |done].
    intros _. eexists. split; [done|]. assert (rn_id (copy_template_sanitized r) = rn_id e) as Hid by congruence.
    split_and!.
    + split; rewrite ?El; cbn [rtt_count rtt_templates].
      * by rewrite length_insert.
      * done.
      * by apply Forall_insert.
      * by rewrite (keys_replace rn_id _ _ e).
      * by rewrite drop_insert_lt.
    + cbn. lia.
    + unfold rtt_map. rewrite El, (kmap_replace rn_id _ _ e) by done. by rewrite Heid.
    + intros Hrr Hrl. rewrite El. apply Forall_insert; [done|]. by apply copy_template_ranged.
  - apply key_index_None in Ei. fold (rtt_map t) in Ei. destruct (table_add_spec t r Hi Hs) as [Eq Ha].
    destruct (rna_template_table_add _ _) as [err o]. rewrite Ev, Ei, (proj2 (err_ok_true ESP_OK) eq_refl) in Eq.
    rewrite bool_decide_eq_false_2 in Eq by (by intros [? ?]). cbn [negb] in Eq.
    rewrite (rtt_map_size t Hi), Ei. destruct (_ <=? _)%nat eqn:Ef; injection Eq as -> ->;
      [apply Nat.leb_le in Ef|apply Nat.leb_gt in Ef].
    + split_and!; [|done|done]. split; [done|]. intros [_ [[? ?]|?]]; [done|]. unfold RNA_MAX_TEMPLATES in *. lia.
    + split_and!; [split; [by auto|done]| |done]. intros _. eexists. split; [done|].
      destruct (Ha _ eq_refl) as (Hi' & El & Hm). split_and!; [done|cbn; lia|by rewrite Hm|].
      intros Hrr Hrl. rewrite El. apply Forall_app. split; [done|]. constructor; [|done].
      by apply copy_template_ranged.
Qed.

(** ** The edits *)
Definition entry_with_template (template : Z) (e : ribosome_table_entry) : ribosome_table_entry :=
  mk_ribosome_table_entry (re_mqtt_client_id e) template (re_epoch e) (re_device_secret e).
Definition entry_reissued (random : nat → Z) (e : ribosome_table_entry) : ribosome_table_entry :=
  mk_ribosome_table_entry (re_mqtt_client_id e) (re_template_id e)
    (if re_epoch e =? U32_MAX then 1 else re_epoch e + 1) (generate_device_secret random).

(** A device may be registered: its template exists, it is new, and there is room. *)
Record registrable (templates : gmap Z rna_template) (devices : gmap bytes ribosome_table_entry)
    (id : bytes) (template : Z) (secret : bytes) : Prop := mk_registrable {
  reg_template : is_Some (templates !! template);
  reg_id : id_ok id = true;
  reg_new : devices !! c_str id = None;
  reg_room : (size devices < RIBOSOME_MAX_ENTRIES)%nat;
  reg_valid : template ≠ 0;
  reg_secret : secret_zero secret = false
}.

(** What a request with these field values may do to the templates and the devices. *)
Inductive table_edit (req : http_request) (templates : gmap Z rna_template)
    (devices : gmap bytes ribosome_table_entry) :
    admin_uri → list bytes → gmap Z rna_template → gmap bytes ribosome_table_entry → Prop :=
| Edit_add id template_text epoch_text secret_hex template_id epoch secret :
    parse_u32_field (Some template_text) = Some template_id →
    parse_u32_field (Some epoch_text) = Some epoch →
    parse_exact_hex (Some secret_hex) (Some (zeros RIBOSOME_DEVICE_SECRET_LEN)) = (ESP_OK, Some secret) →
    registrable templates devices id (u16 template_id) secret →
    table_edit req templates devices POST_ribosome_add [id; template_text; epoch_text; secret_hex]
      templates (rt_insert devices id (u16 template_id) epoch secret)
| Edit_provision id template_text epoch_text template_id epoch :
    parse_u32_field (Some template_text) = Some template_id →
    parse_u32_field (Some epoch_text) = Some epoch → is_u16 template_id → epoch ≠ 0 →
    registrable templates devices id template_id (generate_device_secret (rq_random req)) →
    table_edit req templates devices POST_ribosome_provision [id; template_text; epoch_text]
      templates (rt_insert devices id template_id epoch (generate_device_secret (rq_random req)))
| Edit_regenerate id e :
    devices !! c_str id = Some e →
    table_edit req templates devices POST_ribosome_regenerate [id]
      templates (<[c_str id := entry_reissued (rq_random req) e]> devices)
| Edit_remove id e :
    devices !! c_str id = Some e →
    table_edit req templates devices POST_ribosome_remove [id] templates (delete (c_str id) devices)
| Edit_template template_text name aminos rule :
    build_template_from_fields (Some template_text) (Some name) (Some aminos) rna_template_zero =
      (ESP_OK, rule) →
    (is_Some (templates !! rn_id rule) ∨ (size templates < RNA_MAX_TEMPLATES)%nat) →
    table_edit req templates devices POST_membrane_template_set [template_text; name; aminos]
      (<[rn_id rule := copy_template_sanitized rule]> templates) devices
| Edit_device_template id template_text name aminos rule e :
    build_template_from_fields (Some template_text) (Some name) (Some aminos) rna_template_zero =
      (ESP_OK, rule) →
    (is_Some (templates !! rn_id rule) ∨ (size templates < RNA_MAX_TEMPLATES)%nat) →
    devices !! c_str id = Some e →
    table_edit req templates devices POST_device_membrane_set [id; template_text; name; aminos]
      (<[rn_id rule := copy_template_sanitized rule]> templates)
      (<[c_str id := entry_with_template (rn_id rule) e]> devices).

Definition accepted (r : http_reply) : Prop := match r with Reply_error _ _ => False | _ => True end.
Definition is_table_edit (uri : admin_uri) : bool :=
  match uri with
  | POST_ribosome_add | POST_ribosome_provision | POST_ribosome_regenerate | POST_ribosome_remove
  | POST_membrane_template_set | POST_device_membrane_set => true
  | _ => false
  end.
(** The keys of the two tables. *)
Definition table_key (ns key : bytes) : Prop :=
  (ns, key) = (Ribosome_store.NVS_NS, Ribosome_store.NVS_KEY) ∨
  (ns, key) = (Rna_membrane.NVS_NS, Rna_membrane.NVS_KEY).

(** The template a form describes is a valid, well-sized one. *)
Lemma parse_amino_loop_shape fuel p ids count ok ids' count' :
  Forall is_u32 ids → parse_amino_loop fuel p ids count = (ok, ids', count') →
  List.length ids' = List.length ids ∧ Forall is_u32 ids'.
Proof.
  revert p ids count. induction fuel as [|fuel IH]; intros p ids count Hi; cbn [parse_amino_loop].
  - by intros [= _ <- _].
  - destruct (skip_while _ p) as [|c q]; [by intros [= _ <- _]|].
    pose proof (strtoul_range (c :: q)) as Hr. destruct (strtoul _) as [value rest]. cbn [fst] in Hr.
    repeat (case_match; [by intros [= _ <- _]|]).
    assert (Forall is_u32 (<[count := value]> ids)) as Hi' by by apply Forall_insert.
    destruct rest as [|d rest]; [intros [= _ <- _]; by rewrite length_insert|].
    destruct (amino_separator d); [|intros [= _ <- _]; by rewrite length_insert].
    intros E. apply IH in E as [El Ef]; [|done]. by rewrite El, length_insert.
Qed.

Lemma build_template_shape template_text name aminos rule :
  build_template_from_fields template_text name aminos rna_template_zero = (ESP_OK, rule) →
  rna_template_validate (Some rule) = ESP_OK ∧ template_sized rule ∧ template_ranged rule.
Proof.
  unfold build_template_from_fields. destruct template_text as [tt|]; [|done].
  destruct name as [name|]; [|done]. destruct aminos as [aminos|]; [|done].
  destruct (parse_u32_field _) as [template_id|] eqn:Et; [|done]. apply parse_u32_range in Et.
  destruct (_ <? _) eqn:Eu; [done|]. apply Z.ltb_ge in Eu.
  destruct (parse_amino_ids _ _ _) as [[ok ids] count] eqn:Ea.
  destruct ok; cbn [negb]; [|done]. set (t := mk_rna_template _ _ _ _ _).
  assert (template_sized t → template_ranged t →
          (rna_template_validate (Some t), if err_ok (rna_template_validate (Some t)) then t else rna_template_zero)
            = (ESP_OK, rule) →
          rna_template_validate (Some rule) = ESP_OK ∧ template_sized rule ∧ template_ranged rule) as Hend.
  { intros Hs Hr. generalize (eq_refl (rna_template_validate (Some t))).
    generalize (rna_template_validate (Some t)) at 2 3 4. intros v Hv [= -> <-].
    rewrite (proj2 (err_ok_true ESP_OK) eq_refl). by split_and!. }
  apply Hend; clear Hend; unfold t; clear t; cbn [parse_amino_ids rn_aminos rna_template_zero] in Ea.
  all: apply parse_amino_loop_shape in Ea as [El Ef];
    [|apply Forall_forall; intros x Hx; apply elem_of_replicate in Hx as [-> _]; by cbv].
  - exact El.
  - split; [|by split]. cbn. unfold is_u16, is_u32, U16_MAX in *. lia.
Qed.

Section edits.
Context {N : Type} `{NL : NvsLaws N} `{QE : Queue zg_event} `{Md} `{Pk}.
Implicit Types w : admin_world N.

(** The tables in flash; an unreadable one counts as empty. *)
Definition templates_of w : gmap Z rna_template := default ∅ (stored_templates (aw_nvs w)).
Definition devices_of w : gmap bytes ribosome_table_entry := default ∅ (stored_devices (aw_nvs w)).

(** What a handler did: an error short of 500 changed nothing; success left the
    tables as [edit] says and touched no other key. *)
Definition outcome w (h : handled) (edit : gmap Z rna_template → gmap bytes ribosome_table_entry → Prop) : Prop :=
  let '(w', _, reply) := h in
  aw_admin w' = aw_admin w ∧
  match reply with
  | Reply_error status _ => status ≠ 500 → same_flash (aw_nvs w) (aw_nvs w')
  | _ => edit (templates_of w') (devices_of w') ∧
         ∀ ns key, ¬ table_key ns key → nvs_lookup (aw_nvs w') ns key = nvs_lookup (aw_nvs w) ns key
  end.

Lemma outcome_fail w w1 (err : esp_err) (status : Z) (msg : string) edit :
  aw_admin w1 = aw_admin w → same_flash (aw_nvs w) (aw_nvs w1) → outcome w (fail_with w1 err status msg) edit.
Proof. by split. Qed.

Lemma outcome_fail_500 w w1 (err : esp_err) (msg : string) edit :
  aw_admin w1 = aw_admin w → outcome w (fail_with w1 err 500 msg) edit.
Proof. by split. Qed.

Lemma outcome_accepted w w1 (err : esp_err) (reply : http_reply) (edit : gmap Z rna_template → gmap bytes ribosome_table_entry → Prop) :
  accepted reply → aw_admin w1 = aw_admin w → edit (templates_of w1) (devices_of w1) →
  (∀ ns key, ¬ table_key ns key → nvs_lookup (aw_nvs w1) ns key = nvs_lookup (aw_nvs w) ns key) →
  outcome w (w1, err, reply) edit.
Proof. intros Hr Ha He Hk. by destruct reply. Qed.

Lemma load_ribosomes_spec w :
  let '(w', err, t) := load_ribosomes w in
  aw_admin w' = aw_admin w ∧ same_flash (aw_nvs w) (aw_nvs w') ∧
  (err = ESP_OK → rt_inv t ∧ devices_of w = rt_map t ∧
                  (flash_bytes (aw_nvs w) → Forall entry_ranged (rt_list t))).
Proof.
  unfold load_ribosomes. destruct (ribosome_store_load_or_init _ _) as [[n err] t] eqn:E.
  apply load_or_init_spec in E as [Hf Hok]. split_and!; [done|done|]. intros He.
  destruct (Hok He) as (t' & -> & Hi & Hd & Hr). split_and!; [done| |done]. unfold devices_of. by rewrite Hd.
Qed.

Lemma load_templates_spec w :
  let '(w', err, t) := load_templates w in
  aw_admin w' = aw_admin w ∧ same_flash (aw_nvs w) (aw_nvs w') ∧
  (err = ESP_OK → rtt_inv t ∧ templates_of w = rtt_map t ∧
                  (flash_bytes (aw_nvs w) → Forall template_ranged (rtt_list t))).
Proof.
  unfold load_templates. destruct (rna_membrane_load_or_init _ _) as [[n err] t] eqn:E.
  apply rna_load_or_init_spec in E as [Hf Hok]. split_and!; [done|done|]. intros He.
  destruct (Hok He) as (t' & -> & Hi & Hd & Hr). split_and!; [done| |done]. unfold templates_of. by rewrite Hd.
Qed.

Lemma outcome_save w w1 (t : ribosome_table) (msg : string) (err : esp_err) (reply : http_reply) (edit : gmap Z rna_template → gmap bytes ribosome_table_entry → Prop) :
  accepted reply → aw_admin w1 = aw_admin w →
  (∀ ns key, ¬ table_key ns key → nvs_lookup (aw_nvs w1) ns key = nvs_lookup (aw_nvs w) ns key) →
  rt_inv t → Forall entry_ranged (rt_list t) → edit (templates_of w1) (rt_map t) →
  outcome w (save_ribosomes t w1 msg err reply) edit.
Proof.
  intros Hr Ha Hk Hi Hrng He. unfold save_ribosomes.
  destruct (ribosome_store_save (Some t) (aw_nvs w1)) as [n e] eqn:Es.
  destruct (err_ok e) eqn:Ee; [apply err_ok_true in Ee as ->|by apply outcome_fail_500].
  destruct (store_save_stores t _ _ Hi Hrng Es) as [_ Hother].
  apply outcome_accepted; [done|done| |].
  - unfold templates_of, devices_of. cbn. rewrite (stored_devices_save t _ _ Hi Hrng Es).
    assert (stored_templates n = stored_templates (aw_nvs w1)) as ->; [|exact He].
    unfold stored_templates. by rewrite Hother.
  - intros ns key Hn. cbn. rewrite Hother; [by apply Hk|]. intros E. apply Hn. by left.
Qed.

Lemma post_gate_outcome req w h edit :
  (ad_mode (aw_admin w) = ADMIN_SERVER_MODE_MAINTENANCE → ad_unlocked (aw_admin w) = true →
   outcome w h edit) →
  outcome w (post_gate req w h)
    (fun T D => ad_mode (aw_admin w) = ADMIN_SERVER_MODE_MAINTENANCE ∧ ad_unlocked (aw_admin w) = true ∧ edit T D).
Proof.
  intros Hh. unfold post_gate. destruct (rq_alloc req); cbn [negb]; [|by apply outcome_fail_500].
  destruct (ad_mode _) eqn:Em; [by apply outcome_fail|]. destruct (ad_unlocked _) eqn:Eu; cbn [negb]; [|by apply outcome_fail].
  specialize (Hh eq_refl eq_refl). destruct h as [[w' err] reply]. unfold outcome in *.
  destruct Hh as [Ha Hh]. split; [done|].
  destruct reply; [exact Hh|..]; destruct Hh as [He Hk]; (split; [by split|exact Hk]).
Qed.

(** ** The handlers *)
Lemma register_device_outcome (id : bytes) (template_id epoch : Z) (secret : bytes) (err : esp_err) (reply : http_reply) w
    (edit : gmap Z rna_template → gmap bytes ribosome_table_entry → Prop) :
  flash_bytes (aw_nvs w) → is_u32 epoch → List.length secret = RIBOSOME_DEVICE_SECRET_LEN → accepted reply →
  (registrable (templates_of w) (devices_of w) id (u16 template_id) secret →
   edit (templates_of w) (rt_insert (devices_of w) id (u16 template_id) epoch secret)) →
  outcome w (register_device id template_id epoch secret err reply w) edit.
Proof.
  intros Hb He Hl Hr Hedit. unfold register_device.
  pose proof (load_templates_spec w) as Hs. destruct (load_templates w) as [[w1 e1] T]. destruct Hs as (Ha1 & Hf1 & Hok1).
  destruct (err_ok e1) eqn:E1; cbn [negb orb]; [|by apply outcome_fail].
  apply err_ok_true in E1. destruct (Hok1 E1) as (HiT & HT & _). rewrite table_find_spec by done.
  destruct (rtt_map T !! u16 template_id) eqn:Et; [|by apply outcome_fail].
  pose proof (load_ribosomes_spec w1) as Hs. destruct (load_ribosomes w1) as [[w2 e2] t]. destruct Hs as (Ha2 & Hf2 & Hok2).
  destruct (err_ok e2) eqn:E2; cbn [negb]; [|apply outcome_fail; [congruence|by rewrite Hf1]].
  apply err_ok_true in E2. destruct (Hok2 E2) as (Hi & Hd & Hrng).
  assert (devices_of w = rt_map t) as Hdw by (rewrite <- Hd; unfold devices_of; by rewrite Hf1).
  assert (same_flash (aw_nvs w) (aw_nvs w2)) as Hf by (by rewrite Hf1).
  destruct (add_config_step t id (u16 template_id) epoch secret Hi) as [Hi' Hstep]; [cbn; lia|].
  unfold rt_step in Hi', Hstep. destruct (ribosome_table_add_from_config _ _) as [e3 t'].
  cbn [fst snd] in Hi', Hstep. destruct (err_ok e3) eqn:E3; cbn [negb]; [|apply outcome_fail; [congruence|done]].
  apply err_ok_true in E3 as ->. cbn [rt_spec] in Hstep.
  destruct (_ <=? _)%nat eqn:C1; [done|]. destruct (id_ok id) eqn:C2; cbn [negb] in Hstep; [|done].
  case_bool_decide as C3; [done|]. destruct (_ || _) eqn:C4; [done|]. apply orb_false_iff in C4 as [C4 C5].
  injection Hstep as Hm. apply outcome_save; [done|congruence| |done| |].
  - intros ns key _. apply Hf.
  - apply map_ranged; [done|]. rewrite Hm. apply map_Forall_insert_2.
    + split; [apply u16_range|done].
    + apply map_ranged; [done|]. apply Hrng. by rewrite <- Hf1.
  - assert (templates_of w2 = templates_of w) as -> by (unfold templates_of; by rewrite <- Hf).
    rewrite Hm, <- Hdw. apply Hedit. rewrite HT, Hdw. split; [by eauto|done|by apply eq_None_not_Some| | |done].
    + by apply Nat.leb_gt in C1.
    + by apply Z.eqb_neq in C4.
Qed.

(** Editing the entry of one device. *)
Lemma edit_entry_outcome (f : ribosome_table_entry → ribosome_table_entry) (id : bytes) w w1 w2
    (t : ribosome_table) (i : nat) (msg : string) (err : esp_err) (reply : http_reply)
    (edit : gmap Z rna_template → gmap bytes ribosome_table_entry → Prop) :
  accepted reply → aw_admin w2 = aw_admin w →
  (∀ ns key, ¬ table_key ns key → nvs_lookup (aw_nvs w2) ns key = nvs_lookup (aw_nvs w) ns key) →
  rt_inv t → Forall entry_ranged (rt_list t) → devices_of w1 = rt_map t → find_id t id = Some i →
  (∀ e, entry_ok e → entry_ranged e → entry_ok (f e) ∧ entry_ranged (f e) ∧ id_of (f e) = id_of e) →
  (∀ e, devices_of w1 !! c_str id = Some e → edit (templates_of w2) (<[c_str id := f e]> (devices_of w1))) →
  outcome w (save_ribosomes (change_entry f i t) w2 msg err reply) edit.
Proof.
  intros Hr Ha Hk Hi Hrng Hd Hfind Hf Hedit.
  destruct (find_entry_index t id i Hi Hfind) as (e & He & Heok & Hid & Hm).
  assert (entry_ranged e) as Her by (by eapply Forall_lookup_1). destruct (Hf e Heok Her) as (Hok' & Hr' & Hid').
  destruct (change_entry_ok t i e f Hi He Hok' Hid') as (Hi' & El & Hm').
  apply outcome_save; [done|done|done|done| |].
  - rewrite El. by apply Forall_insert.
  - rewrite Hm', Hid, <- Hd. apply Hedit. by rewrite Hd.
Qed.

(** The fields each request reads. *)
Definition edit_fields (uri : admin_uri) : list (bytes * nat) :=
  match uri with
  | POST_ribosome_add => [id_field; template_field; epoch_field;
                          (lit "device_secret_hex", (ADMIN_DEVICE_SECRET_HEX_LEN + 1)%nat)]
  | POST_ribosome_provision => [id_field; template_field; epoch_field]
  | POST_ribosome_regenerate | POST_ribosome_remove => [id_field]
  | POST_membrane_template_set => [template_field; name_field; amino_field]
  | POST_device_membrane_set => [id_field; template_field; name_field; amino_field]
  | _ => []
  end.

(** The edit a request makes: that of its field values. *)
Definition request_edit (uri : admin_uri) (req : http_request) w
    (T : gmap Z rna_template) (D : gmap bytes ribosome_table_entry) : Prop :=
  ∃ values, post_values req (edit_fields uri) = Some values ∧
    table_edit req (templates_of w) (devices_of w) uri values T D.

Lemma add_outcome req w :
  flash_bytes (aw_nvs w) →
  outcome w (ribosome_add_post_handler req w) (fun T D => ad_mode (aw_admin w) = ADMIN_SERVER_MODE_MAINTENANCE ∧
    ad_unlocked (aw_admin w) = true ∧ request_edit POST_ribosome_add req w T D).
Proof.
  intros Hb. apply post_gate_outcome. intros _ _. unfold request_edit, edit_fields.
  destruct (post_values _ _) as [[|id [|tt [|et [|sh []]]]]|] eqn:Ep; try by apply outcome_fail.
  destruct (parse_exact_hex _ _) as [err secret] eqn:Es.
  destruct (parse_u32_field (Some tt)) as [template_id|] eqn:Et; [|by apply outcome_fail].
  destruct (parse_u32_field (Some et)) as [epoch|] eqn:Ee; [|by apply outcome_fail].
  destruct (err_ok err) eqn:Er; [|by apply outcome_fail]. apply err_ok_true in Er as ->.
  assert (∃ s, secret = Some s) as [s ->].
  { unfold parse_exact_hex, parse_hex in Es. repeat (case_match; simplify_eq/=); eauto. }
  apply register_device_outcome; [done|by eapply parse_u32_range|by eapply parse_exact_hex_length|done|].
  intros Hr. eexists. split; [done|]. by apply Edit_add.
Qed.

Lemma provision_outcome req w :
  flash_bytes (aw_nvs w) →
  outcome w (ribosome_provision_post_handler req w) (fun T D => ad_mode (aw_admin w) = ADMIN_SERVER_MODE_MAINTENANCE ∧
    ad_unlocked (aw_admin w) = true ∧ request_edit POST_ribosome_provision req w T D).
Proof.
  intros Hb. apply post_gate_outcome. intros _ _. unfold request_edit, edit_fields.
  destruct (post_values _ _) as [[|id [|tt [|et []]]]|] eqn:Ep; try by apply outcome_fail.
  destruct (parse_u32_field (Some tt)) as [template_id|] eqn:Et; [|by apply outcome_fail].
  destruct (parse_u32_field (Some et)) as [epoch|] eqn:Ee; [|by apply outcome_fail].
  destruct (_ || _) eqn:Eb; [by apply outcome_fail|]. apply orb_false_iff in Eb as [Eu Ez].
  apply Z.ltb_ge in Eu. apply Z.eqb_neq in Ez. pose proof (parse_u32_range _ _ Et) as Ht.
  assert (is_u16 template_id) as Hu by (unfold is_u16, is_u32, U16_MAX in *; lia).
  pose proof (u16_small _ Hu) as Eu16. destruct (generate_device_secret_ok (rq_random req)) as [Hl _].
  apply register_device_outcome; [done|by eapply parse_u32_range|done|done|].
  rewrite Eu16. intros Hr. eexists. split; [done|]. by apply Edit_provision.
Qed.

Lemma next_epoch_range epoch : is_u32 epoch → is_u32 (if epoch =? U32_MAX then 1 else epoch + 1).
Proof. unfold is_u32, U32_MAX. destruct (epoch =? _) eqn:E; bools; lia. Qed.

Lemma entry_with_secret_ok e epoch secret :
  entry_ok e → List.length secret = RIBOSOME_DEVICE_SECRET_LEN → secret_zero secret = false →
  entry_ok (mk_ribosome_table_entry (re_mqtt_client_id e) (re_template_id e) epoch secret).
Proof.
  intros [K1 K2 K3 K4 K5 K6] Hl Hz. split; [exact K1|exact K2|exact K3|exact K4|exact Hl|].
  unfold secret_zero in Hz. rewrite take_ge in Hz by lia. intros Hf%bytes_all_zero_spec.
  unfold re_device_secret in Hf. congruence.
Qed.

Lemma reissued_ok random e :
  entry_ok e → entry_ranged e →
  entry_ok (entry_reissued random e) ∧ entry_ranged (entry_reissued random e) ∧
  id_of (entry_reissued random e) = id_of e.
Proof.
  intros Hok [Ht He]. destruct (generate_device_secret_ok random) as [Hl Hz]. split.
  - exact (entry_with_secret_ok e _ _ Hok Hl Hz).
  - split; [split; [exact Ht|exact (next_epoch_range _ He)]|reflexivity].
Qed.

Lemma regenerate_outcome req w :
  flash_bytes (aw_nvs w) →
  outcome w (ribosome_regenerate_post_handler req w) (fun T D => ad_mode (aw_admin w) = ADMIN_SERVER_MODE_MAINTENANCE ∧
    ad_unlocked (aw_admin w) = true ∧ request_edit POST_ribosome_regenerate req w T D).
Proof.
  intros Hb. apply post_gate_outcome. intros _ _. unfold request_edit, edit_fields.
  destruct (post_values _ _) as [[|id []]|] eqn:Ep; try by apply outcome_fail.
  pose proof (load_ribosomes_spec w) as Hs. destruct (load_ribosomes w) as [[w1 e1] t]. destruct Hs as (Ha & Hf & Hok).
  destruct (err_ok e1) eqn:E1; cbn [negb]; [|by apply outcome_fail_500]. apply err_ok_true in E1.
  destruct (Hok E1) as (Hi & Hd & Hrng). unfold find_ribosome_entry.
  rewrite (proj2 (Nat.ltb_ge _ _)) by (by destruct Hi).
  destruct (find_id t id) as [i|] eqn:Ei; [|by apply outcome_fail].
  apply (edit_entry_outcome (entry_reissued (rq_random req)) id w w w1); try done.
  - by apply Hrng.
  - intros e. apply reissued_ok.
  - intros e He. eexists. split; [done|].
    assert (templates_of w1 = templates_of w) as -> by (unfold templates_of; by rewrite Hf). by constructor.
Qed.

Lemma remove_outcome req w :
  flash_bytes (aw_nvs w) →
  outcome w (ribosome_remove_post_handler req w) (fun T D => ad_mode (aw_admin w) = ADMIN_SERVER_MODE_MAINTENANCE ∧
    ad_unlocked (aw_admin w) = true ∧ request_edit POST_ribosome_remove req w T D).
Proof.
  intros Hb. apply post_gate_outcome. intros _ _. unfold request_edit, edit_fields.
  destruct (post_values _ _) as [[|id []]|] eqn:Ep; try by apply outcome_fail.
  pose proof (load_ribosomes_spec w) as Hs. destruct (load_ribosomes w) as [[w1 e1] t]. destruct Hs as (Ha & Hf & Hok).
  destruct (err_ok e1) eqn:E1; cbn [negb]; [|by apply outcome_fail_500]. apply err_ok_true in E1.
  destruct (Hok E1) as (Hi & Hd & Hrng). specialize (Hrng Hb). destruct (remove_step t id Hi) as [Hi' Hstep]. unfold rt_step in Hi', Hstep.
  destruct (ribosome_table_remove_entry _ _) as [e2 t']. cbn [fst snd] in Hi', Hstep.
  destruct (err_ok e2) eqn:E2; cbn [negb]; [|by apply outcome_fail]. apply err_ok_true in E2 as ->.
  cbn [rt_spec] in Hstep. destruct (id_ok id); cbn [negb] in Hstep; [|done].
  case_bool_decide as Hex; [|done]. injection Hstep as Hm. apply outcome_save; try done.
  - apply map_ranged; [done|]. rewrite Hm. apply map_Forall_delete. by apply map_ranged.
  - eexists. split; [done|].
    assert (templates_of w1 = templates_of w) as -> by (unfold templates_of; by rewrite Hf).
    rewrite Hm, Hd. destruct Hex as [e He]. eapply Edit_remove. exact He.
Qed.

Lemma templates_saved w (n : N) t n0 :
  rtt_inv t → (1 ≤ rtt_count t)%nat → Forall template_ranged (rtt_list t) →
  rna_membrane_save (Some t) n0 = (n, ESP_OK) →
  templates_of (put_nvs n w) = rtt_map t ∧ stored_devices n = stored_devices n0 ∧
  ∀ ns key, ¬ table_key ns key → nvs_lookup n ns key = nvs_lookup n0 ns key.
Proof.
  intros Hi Hp Hr Hs. destruct (rna_save_stores t _ _ Hi Hp Hr Hs) as [_ Hother]. split_and!.
  - unfold templates_of. cbn. by rewrite (stored_templates_save t _ _ Hi Hp Hr Hs).
  - unfold stored_devices. by rewrite Hother.
  - intros ns key Hn. apply Hother. intros E. apply Hn. by right.
Qed.

Lemma template_outcome req w :
  flash_bytes (aw_nvs w) →
  outcome w (membrane_template_set_post_handler req w) (fun T D => ad_mode (aw_admin w) = ADMIN_SERVER_MODE_MAINTENANCE ∧
    ad_unlocked (aw_admin w) = true ∧ request_edit POST_membrane_template_set req w T D).
Proof.
  intros Hb. apply post_gate_outcome. intros _ _. unfold request_edit, edit_fields.
  destruct (post_values _ _) as [[|tt [|nm [|am []]]]|] eqn:Ep; try by apply outcome_fail.
  destruct (build_template_from_fields _ _ _ _) as [e0 rule] eqn:Er.
  destruct (err_ok e0) eqn:E0; cbn [negb]; [|by apply outcome_fail]. apply err_ok_true in E0 as ->.
  destruct (build_template_shape _ _ _ _ Er) as (_ & Hsz & Hrr).
  pose proof (load_templates_spec w) as Hs. destruct (load_templates w) as [[w1 e1] T]. destruct Hs as (Ha & Hf & Hok).
  destruct (err_ok e1) eqn:E1; cbn [negb]; [|by apply outcome_fail_500]. apply err_ok_true in E1.
  destruct (Hok E1) as (Hi & HT & Hrng). specialize (Hrng Hb).
  pose proof (upsert_spec T rule Hi Hsz) as Hup. destruct (rna_template_table_upsert _ _) as [e2 T'].
  destruct Hup as (Hiff & Hup & _). destruct (err_ok e2) eqn:E2; cbn [negb]; [|by apply outcome_fail].
  apply err_ok_true in E2. destruct (Hup E2) as (T2 & -> & Hi2 & Hp2 & Hm2 & Hr2). apply Hiff in E2 as [_ Hroom].
  destruct (rna_membrane_save _ _) as [n e3] eqn:Es.
  destruct (err_ok e3) eqn:E3; cbn [negb]; [|by apply outcome_fail_500]. apply err_ok_true in E3 as ->.
  destruct (templates_saved w1 n T2 _ Hi2 Hp2 (Hr2 Hrr Hrng) Es) as (Ht & Hd & Hk).
  apply outcome_accepted; [done|done| |].
  - assert (devices_of (put_nvs n w1) = devices_of w) as -> by (unfold devices_of; cbn; by rewrite Hd, Hf).
    eexists. split; [done|]. rewrite Ht, Hm2, <- HT. eapply Edit_template; [done|]. by rewrite HT.
  - intros ns key Hn. cbn. rewrite Hk by done. apply Hf.
Qed.

Lemma device_template_outcome req w :
  flash_bytes (aw_nvs w) →
  outcome w (device_membrane_set_post_handler req w) (fun T D => ad_mode (aw_admin w) = ADMIN_SERVER_MODE_MAINTENANCE ∧
    ad_unlocked (aw_admin w) = true ∧ request_edit POST_device_membrane_set req w T D).
Proof.
  intros Hb. apply post_gate_outcome. intros _ _. unfold request_edit, edit_fields.
  destruct (post_values _ _) as [[|id [|tt [|nm [|am []]]]]|] eqn:Ep; try by apply outcome_fail.
  destruct (build_template_from_fields _ _ _ _) as [e0 rule] eqn:Er.
  destruct (err_ok e0) eqn:E0; cbn [negb]; [|by apply outcome_fail]. apply err_ok_true in E0 as ->.
  destruct (build_template_shape _ _ _ _ Er) as (Hval & Hsz & Hrr).
  pose proof (load_ribosomes_spec w) as Hs. destruct (load_ribosomes w) as [[w1 e1] D]. destruct Hs as (Ha1 & Hf1 & Hok1).
  destruct (err_ok e1) eqn:E1; cbn [negb]; [|by apply outcome_fail_500]. apply err_ok_true in E1.
  destruct (Hok1 E1) as (HiD & HD & HrD). specialize (HrD Hb).
  pose proof (load_templates_spec w1) as Hs. destruct (load_templates w1) as [[w2 e2] T]. destruct Hs as (Ha2 & Hf2 & Hok2).
  destruct (err_ok e2) eqn:E2; cbn [negb]; [|apply outcome_fail_500; congruence]. apply err_ok_true in E2.
  destruct (Hok2 E2) as (Hi & HT & Hrng). specialize (Hrng (proj1 (flash_bytes_proper _ _ Hf1) Hb)).
  assert (same_flash (aw_nvs w) (aw_nvs w2)) as Hf by (by rewrite Hf1).
  assert (aw_admin w2 = aw_admin w) as Ha by congruence.
  pose proof (upsert_spec T rule Hi Hsz) as Hup. destruct (rna_template_table_upsert _ _) as [e3 T'].
  destruct Hup as (Hiff & Hup & _). destruct (err_ok e3) eqn:E3; cbn [negb]; [|by apply outcome_fail].
  apply err_ok_true in E3. destruct (Hup E3) as (T2 & -> & Hi2 & Hp2 & Hm2 & Hr2). apply Hiff in E3 as [_ Hroom].
  unfold ribosome_assign_template.
  rewrite (proj2 (Nat.ltb_ge _ _)) by (by destruct HiD). cbn [orb].
  assert (rn_id rule ≠ RNA_TEMPLATE_ID_INVALID) as Hnz by (by apply template_validate_spec in Hval as [? _]).
  assert (rna_template_id_valid (rn_id rule) = true) as -> by (apply negb_true_iff; by apply Z.eqb_neq).
  cbn [negb]. destruct (find_id D id) as [i|] eqn:Ei; [|by apply outcome_fail].
  change (err_ok ESP_OK) with true. cbn [negb default].
  destruct (rna_membrane_save _ _) as [n e4] eqn:Es.
  destruct (err_ok e4) eqn:E4; cbn [negb]; [|by apply outcome_fail_500]. apply err_ok_true in E4 as ->.
  destruct (templates_saved w2 n T2 _ Hi2 Hp2 (Hr2 Hrr Hrng) Es) as (Ht & Hd & Hk).
  assert (templates_of w = rtt_map T) as HTw by (rewrite <- HT; unfold templates_of; by rewrite Hf1).
  apply (edit_entry_outcome (entry_with_template (rn_id rule)) id w w); try done.
  - intros ns key Hn. cbn. rewrite Hk by done. apply Hf.
  - intros e [K1 K2 K3 K4 K5 K6] [? ?]. split; [by split|]. split; [|done]. split; [apply Hrr|done].
  - intros e He. eexists. split; [done|]. rewrite Ht, Hm2, <- HTw.
    eapply Edit_device_template; [done| |done]. by rewrite HTw.
Qed.
End edits.

(** ** Properties *)

(** C16: a form is read as it was filled in.  Whatever the chunks in which the
    body of a form is delivered, as long as it fits the buffer, a handler
    gets for every field it asks for exactly the value entered, percent-decoded
    and cut to the size of its buffer, and rejects the body exactly when a field
    is missing; the receive loop ends. *)
Theorem admin_form_roundtrip req fields keys :
  Forall field_ok fields → Forall key_ok keys →
  rq_content_len req = Z.of_nat (List.length (encode_form fields)) →
  (0 < List.length (encode_form fields) < ADMIN_POST_BUF_SIZE)%nat →
  delivers (rq_recv req) (encode_form fields) →
  post_values req keys = lookup_values fields keys.
Proof.
  intros Hf Hk Hc Hl Hd. unfold post_values, read_request_body. rewrite Hc.
  assert ((Z.of_nat (List.length (encode_form fields)) <=? 0) = false) as -> by (apply Z.leb_gt; lia).
  assert ((Z.of_nat ADMIN_POST_BUF_SIZE <=? Z.of_nat (List.length (encode_form fields))) = false) as ->
    by (apply Z.leb_gt; lia).
  cbn [orb]. rewrite Nat2Z.id, (recv_loop_delivers _ [] (encode_form fields)) by done.
  rewrite (proj2 (err_ok_true ESP_OK) eq_refl). cbn [app].
  unfold memcpy. rewrite take_ge by done. rewrite drop_zeros.
  destruct (ADMIN_POST_BUF_SIZE - _)%nat as [|k] eqn:Ek; [lia|]. cbn [zeros replicate].
  by apply get_values_encoded.
Qed.

(** C6: one edit per request.  A request to the tables that is answered without
    an error was made in an unlocked maintenance window, and it made exactly the
    edit its fields describe to the template and device maps in flash: a new
    device under a known template with a fresh identifier, a device reissued
    with the next epoch and a new secret, a device removed, a template set, a
    device given a template; nothing else in flash changed.  A request refused
    with any error but a server error (500) changed nothing. *)
Theorem admin_table_edits_refine {N : Type} `{NL : NvsLaws N} `{QE : Queue zg_event} `{Md} `{Pk}
    (w : admin_world N) uri req :
  flash_bytes (aw_nvs w) → is_table_edit uri = true →
  let w' := (serve uri req w).1.1 in
  let reply := (serve uri req w).2 in
  aw_admin w' = aw_admin w ∧
  (accepted reply →
   ad_mode (aw_admin w) = ADMIN_SERVER_MODE_MAINTENANCE ∧ ad_unlocked (aw_admin w) = true ∧
   request_edit uri req w (templates_of w') (devices_of w') ∧
   ∀ ns key, ¬ table_key ns key → nvs_lookup (aw_nvs w') ns key = nvs_lookup (aw_nvs w) ns key) ∧
  (∀ status message, reply = Reply_error status message → status ≠ 500 →
   ∀ ns key, nvs_lookup (aw_nvs w') ns key = nvs_lookup (aw_nvs w) ns key).
Proof.
  intros Hb Hu.
  assert (outcome w (serve uri req w) (fun T D => ad_mode (aw_admin w) = ADMIN_SERVER_MODE_MAINTENANCE ∧
    ad_unlocked (aw_admin w) = true ∧ request_edit uri req w T D)) as Ho.
  { destruct uri; try done; [by apply add_outcome|by apply provision_outcome|by apply regenerate_outcome|
      by apply remove_outcome|by apply template_outcome|by apply device_template_outcome]. }
  destruct (serve uri req w) as [[w' err] reply]. cbn [fst snd]. destruct Ho as [Ha Ho].
  split; [done|]. split.
  - intros Hr. destruct reply; [done|..]; destruct Ho as [(? & ? & ?) ?]; by split_and!.
  - intros status message -> Hs. exact (Ho Hs).
Qed.

(** ** Witnesses *)
Definition witness_form : list (bytes * bytes) :=
  [(lit "mqtt_client_id", lit "lamp & co"); (lit "template_id", lit "65537"); (lit "epoch", lit "4");
   (lit "device_secret_hex", hex_text (replicate 32 10))].
(** The form, delivered in three chunks. *)
Definition witness_chunks : http_request :=
  let body := encode_form witness_form in
  mk_http_request (Z.of_nat (List.length body)) [take 7 body; take 30 (drop 7 body); drop 37 body]
    true (fun _ => 0) 0 ESP_OK ESP_OK ESP_OK 0.

Lemma witness_form_ok : Forall field_ok witness_form.
Proof.
  unfold field_ok, bytes_ok, is_u8. apply (bool_decide_unpack _). vm_compute. exact I.
Qed.

Lemma admin_form_roundtrip_witness :
  post_values witness_chunks [id_field; (lit "epoch", 3%nat)] =
  Some [lit "lamp & co" ++ zeros 24; lit "4" ++ zeros 2].
Proof.
  rewrite (admin_form_roundtrip witness_chunks witness_form [id_field; (lit "epoch", 3%nat)]).
  - vm_compute; reflexivity.
  - exact witness_form_ok.
  - repeat constructor; discriminate.
  - vm_compute; reflexivity.
  - unfold ADMIN_POST_BUF_SIZE. split; apply Nat.ltb_lt; vm_compute; reflexivity.
  - split; [repeat constructor; discriminate|vm_compute; reflexivity].
Defined.

(** The device is registered under template 1: the template number of the form,
    65537, was cut to 16 bits. *)
Definition witness_tables_world : admin_world nvs_map :=
  mk_admin_world (witness_admin <| ad_unlocked := true |>) (mk_config_world true ∅ (event_bus_init true eb_boot).1).

Lemma admin_table_edits_refine_witness :
  ∃ id epoch secret,
    devices_of (serve POST_ribosome_add witness_chunks witness_tables_world).1.1 =
    rt_insert (devices_of witness_tables_world) id 1 epoch secret.
Proof.
  destruct (admin_table_edits_refine witness_tables_world POST_ribosome_add witness_chunks) as (_ & Hok & _);
    [intros ns key d Hd; discriminate Hd|reflexivity|].
  destruct Hok as (_ & _ & (values & Hp & He) & _).
  - assert ((serve POST_ribosome_add witness_chunks witness_tables_world).2 = Reply_text (lit "ribosome added"))
      as -> by (vm_compute; reflexivity). exact I.
  - set (D := devices_of _.1.1) in *. clearbody D.
    set (T := templates_of _) in He at 2. clearbody T.
    inversion He as [id tt et sh template_id epoch secret Ht E1 E2 E3 E4 Ev E5 E6| | | | |]. subst values.
    vm_compute in Hp. injection Hp as _ <- _ _. vm_compute in Ht. injection Ht as <-.
    by exists id, epoch, secret.
Defined.
