(* ===== verification/MQTT_broker.v ===== *)
(** * MQTT broker: the local broker and the client that publishes through it

    [MQTT_broker/MQTT_broker.c].  The broker itself is the Mosquitto library;
    the component decides which clients it accepts, hands messages on, and
    publishes by opening a TCP connection to the broker and writing MQTT
    packets.  The static variables are [mb_state]; the callbacks' answers and
    those of the sockets are arguments. *)

From S2P Require Import Prelude Bytes Forms.

Definition MQTT_BROKER_DEFAULT_PORT : Z := 1883.
Definition MQTT_BROKER_TOPIC_LEN : nat := 96.
Definition MQTT_BROKER_PAYLOAD_MAX_LEN : Z := 256.
Definition MQTT_LOCAL_PUBLISH_CLIENT_ID : bytes := lit "zoneguard-local".
Definition INT_MAX : Z := 2147483647.

(** ** Data *)
Record mqtt_broker_connect := mk_mqtt_broker_connect {
  mc_client_id : option bytes;
  mc_username : option bytes;
  mc_password : option bytes;
  mc_password_len : Z
}.

Record mqtt_broker_message := mk_mqtt_broker_message {
  mm_client_id : option bytes;
  mm_topic : option bytes;
  mm_payload : option bytes;
  mm_payload_len : Z;
  mm_qos : Z;
  mm_retained : bool;
  mm_remote_ip : Z
}.

(** Callbacks and contexts are addresses, 0 for NULL. *)
Record mqtt_broker_config := mk_mqtt_broker_config {
  mg_listen_port : Z;
  mg_bind_ip : Z;
  mg_max_payload_len : Z;
  mg_allow_anonymous : bool;
  mg_zone_id : Z;
  mg_connect_cb : Z;
  mg_connect_ctx : Z;
  mg_message_cb : Z;
  mg_message_ctx : Z
}.
#[export] Instance mqtt_broker_config_settable : Settable mqtt_broker_config := fun r =>
  mk_mqtt_broker_config (mg_listen_port r) (mg_bind_ip r) (mg_max_payload_len r) (mg_allow_anonymous r)
    (mg_zone_id r) (mg_connect_cb r) (mg_connect_ctx r) (mg_message_cb r) (mg_message_ctx r).

Record mqtt_broker_stats := mk_mqtt_broker_stats {
  mt_listen_port : Z;
  mt_bind_ip : Z;
  mt_accepted_clients : Z;
  mt_rejected_clients : Z;
  mt_connected_clients : Z;
  mt_rx_packets : Z;
  mt_rx_publishes : Z;
  mt_last_exit_code : Z
}.
#[export] Instance mqtt_broker_stats_settable : Settable mqtt_broker_stats := fun r =>
  mk_mqtt_broker_stats (mt_listen_port r) (mt_bind_ip r) (mt_accepted_clients r) (mt_rejected_clients r)
    (mt_connected_clients r) (mt_rx_packets r) (mt_rx_publishes r) (mt_last_exit_code r).

(** [mb_mosq_port] is the port of [s_mosq_config], its host is [mb_host]. *)
Record mb_state := mk_mb_state {
  mb_config : mqtt_broker_config;
  mb_stats : mqtt_broker_stats;
  mb_mosq_port : Z;
  mb_lock : bool;
  mb_task : bool;
  mb_running : bool;
  mb_host : bytes
}.
#[export] Instance mb_state_settable : Settable mb_state := fun r =>
  mk_mb_state (mb_config r) (mb_stats r) (mb_mosq_port r) (mb_lock r) (mb_task r) (mb_running r) (mb_host r).

Definition mqtt_config_zero : mqtt_broker_config := mk_mqtt_broker_config 0 0 0 false 0 0 0 0 0.
Definition mqtt_stats_zero : mqtt_broker_stats := mk_mqtt_broker_stats 0 0 0 0 0 0 0 0.
Definition mb_boot : mb_state :=
  mk_mb_state mqtt_config_zero mqtt_stats_zero 0 false false false (zeros 16).

(** ** Start and stop *)
(** [ntohl] on the little-endian target. *)
Definition ntohl (x : Z) : Z := of_le32 (rev (le32 x)).

Definition bind_ip_to_host (bind_ip : Z) (out : option bytes) : option bytes :=
  match out with
  | None => None
  | Some o =>
    let text :=
      if bind_ip =? 0 then lit "0.0.0.0"
      else
        let host_ip := ntohl bind_ip in
        print_u (Z.land (Z.shiftr host_ip 24) 255) ++ lit "." ++
        print_u (Z.land (Z.shiftr host_ip 16) 255) ++ lit "." ++
        print_u (Z.land (Z.shiftr host_ip 8) 255) ++ lit "." ++
        print_u (Z.land host_ip 255) in
    let text := take 15 text ++ [0] in
    Some (memcpy o text (List.length text))
  end.

Definition mqtt_broker_config_defaults (config : option mqtt_broker_config) : option mqtt_broker_config :=
  match config with
  | None => None
  | Some _ =>
    Some (mqtt_config_zero <| mg_listen_port := MQTT_BROKER_DEFAULT_PORT |>
            <| mg_max_payload_len := MQTT_BROKER_PAYLOAD_MAX_LEN |>
            <| mg_allow_anonymous := true |> <| mg_zone_id := 1 |>)
  end.

(** The caller's configuration with its zeros filled in. *)
Definition sane_config (c : mqtt_broker_config) : mqtt_broker_config :=
  let c := if mg_listen_port c =? 0 then c <| mg_listen_port := MQTT_BROKER_DEFAULT_PORT |> else c in
  let c := if (mg_max_payload_len c =? 0) || (MQTT_BROKER_PAYLOAD_MAX_LEN <? mg_max_payload_len c)
           then c <| mg_max_payload_len := MQTT_BROKER_PAYLOAD_MAX_LEN |> else c in
  if mg_zone_id c =? 0 then c <| mg_zone_id := 1 |> else c.

(** [lock_created] and [task_created] are the answers of [xSemaphoreCreateMutex]
    and [xTaskCreate]. *)
Definition mqtt_broker_start (config : option mqtt_broker_config) (lock_created task_created : bool)
    (s : mb_state) : mb_state * esp_err :=
  if mb_running s then (s, ESP_OK)
  else if negb (mb_lock s) && negb lock_created then (s, ESP_ERR_NO_MEM)
  else
    let s := s <| mb_lock := true |> in
    let c := default mqtt_config_zero (mqtt_broker_config_defaults (Some (mb_config s))) in
    let c := match config with Some c => sane_config c | None => c end in
    let s := s <| mb_config := c |> in
    let s := s <| mb_stats := mqtt_stats_zero <| mt_listen_port := mg_listen_port c |>
                                              <| mt_bind_ip := mg_bind_ip c |> |> in
    let s := s <| mb_host := default [] (bind_ip_to_host (mg_bind_ip c) (Some (mb_host s))) |> in
    let s := s <| mb_mosq_port := mg_listen_port c |> in
    let s := s <| mb_running := true |> in
    if task_created then (s <| mb_task := true |>, ESP_OK)
    else (s <| mb_running := false |> <| mb_task := false |>, ESP_ERR_NO_MEM).

(** Also whether [mosq_broker_stop] is called; the task ends later. *)
Definition mqtt_broker_stop (s : mb_state) : mb_state * esp_err * bool :=
  if negb (mb_running s) then (s, ESP_OK, false) else (s, ESP_OK, true).
Definition mqtt_broker_is_running (s : mb_state) : bool := mb_running s.

(** The end of the broker task, once [mosq_broker_run] returned [rc]. *)
Definition broker_task (rc : Z) (s : mb_state) : mb_state :=
  s <| mb_running := false |> <| mb_task := false |>
    <| mb_stats := (mb_stats s) <| mt_last_exit_code := rc |> |>.

Definition mqtt_broker_get_stats (s : mb_state) : mqtt_broker_stats := mb_stats s.

(** ** What Mosquitto asks *)
(** A client connects; [cb] is what the connect callback answers.  The status
    (0 accepts), and the callback's call if any. *)
Definition handle_mosq_connect (cb : mqtt_broker_connect → bool) (client_id username password : option bytes)
    (password_len : Z) (s : mb_state) : mb_state * Z * option (Z * mqtt_broker_connect * Z) :=
  let accepted :=
    negb (negb (mg_allow_anonymous (mb_config s)) &&
          match username with Some u => nth 0 u 0 =? 0 | None => true end) in
  let event := mk_mqtt_broker_connect client_id username password (if 0 <? password_len then password_len else 0) in
  let called := accepted && negb (mg_connect_cb (mb_config s) =? 0) in
  let accepted := if called then cb event else accepted in
  let call := if called then Some (mg_connect_cb (mb_config s), event, mg_connect_ctx (mb_config s)) else None in
  let st := mb_stats s in
  if accepted
  then (s <| mb_stats := st <| mt_accepted_clients := inc64 (mt_accepted_clients st) |>
                            <| mt_connected_clients := inc64 (mt_connected_clients st) |> |>, 0, call)
  else (s <| mb_stats := st <| mt_rejected_clients := inc64 (mt_rejected_clients st) |> |>, 1, call).

(** A message was published; the callback's call if any. *)
Definition handle_mosq_message (client topic data : option bytes) (len qos : Z) (retain : Z) (s : mb_state) :
    mb_state * option (Z * mqtt_broker_message * Z) :=
  let st := mb_stats s in
  let s := s <| mb_stats := st <| mt_rx_packets := inc64 (mt_rx_packets st) |>
                               <| mt_rx_publishes := inc64 (mt_rx_publishes st) |> |> in
  if mg_message_cb (mb_config s) =? 0 then (s, None)
  else
    let message := mk_mqtt_broker_message client topic data (if 0 <? len then len else 0)
                     (if 0 <=? qos then u8 qos else 0) (negb (retain =? 0)) 0 in
    (s, Some (mg_message_cb (mb_config s), message, mg_message_ctx (mb_config s))).

(** ** MQTT packets *)
(** [room] bytes of the length field are left. *)
Fixpoint encode_remaining_loop (room : nat) (value : Z) : bytes :=
  match room with
  | O => []
  | S room' =>
    let byte := value mod 128 in
    let value := value / 128 in
    if 0 <? value then Z.lor byte 128 :: encode_remaining_loop room' value else [byte]
  end.
Definition mqtt_encode_remaining_len (value : Z) : bytes := encode_remaining_loop 4 value.

(** A packet under construction is the bytes written so far into a buffer of
    [packet_size]; each call gives the status and the packet after it. *)
Definition mqtt_append_u16 (packet_size : nat) (value : Z) (packet : bytes) : esp_err * bytes :=
  if (packet_size <? List.length packet + 2)%nat then (ESP_ERR_INVALID_SIZE, packet)
  else (ESP_OK, packet ++ [Z.land (Z.shiftr value 8) 255; Z.land value 255]).

Definition mqtt_append_bytes (packet_size : nat) (data : option bytes) (len : nat) (packet : bytes) :
    esp_err * bytes :=
  if ((0 <? len)%nat && match data with None => true | Some _ => false end) ||
     (packet_size <? List.length packet + len)%nat
  then (ESP_ERR_INVALID_SIZE, packet)
  else (ESP_OK, packet ++ take len (default [] data)).

Definition and_then (r : esp_err * bytes) (f : bytes → esp_err * bytes) : esp_err * bytes :=
  let '(err, packet) := r in if err_ok err then f packet else (err, packet).
Notation "r ⊳ f" := (and_then r f) (at level 50, left associativity).

Definition mqtt_append_string (packet_size : nat) (text : option bytes) (packet : bytes) : esp_err * bytes :=
  let len := match text with Some t => strlen t | None => O end in
  if U16_MAX <? Z.of_nat len then (ESP_ERR_INVALID_SIZE, packet)
  else mqtt_append_u16 packet_size (u16 (Z.of_nat len)) packet ⊳ mqtt_append_bytes packet_size text len.

Definition connect_packet : esp_err * bytes :=
  let client_id := MQTT_LOCAL_PUBLISH_CLIENT_ID in
  let remaining := mqtt_encode_remaining_len (10 + 2 + Z.of_nat (strlen client_id)) in
  mqtt_append_bytes 128 (Some remaining) (List.length remaining) [16]
    ⊳ mqtt_append_string 128 (Some (lit "MQTT"))
    ⊳ mqtt_append_bytes 128 (Some [4; 2]) 2
    ⊳ mqtt_append_u16 128 15
    ⊳ mqtt_append_string 128 (Some client_id).

Definition publish_packet (topic : bytes) (payload : option bytes) (payload_len : nat) (retain : bool) :
    esp_err * bytes :=
  let packet_size := (MQTT_BROKER_TOPIC_LEN + Z.to_nat MQTT_BROKER_PAYLOAD_MAX_LEN + 8)%nat in
  let topic_len := strlen topic in
  let remaining := mqtt_encode_remaining_len (2 + Z.of_nat topic_len + Z.of_nat payload_len) in
  mqtt_append_bytes packet_size (Some remaining) (List.length remaining)
      [u8 (Z.lor 48 (if retain then 1 else 0))]
    ⊳ mqtt_append_u16 packet_size (u16 (Z.of_nat topic_len))
    ⊳ mqtt_append_bytes packet_size (Some topic) topic_len
    ⊳ mqtt_append_bytes packet_size payload payload_len.

(** ** The connection *)
Inductive errno := ENOMEM | EINVAL | ETIMEDOUT | E_other (code : Z).
Definition socket_errno_to_esp (err : errno) : esp_err :=
  match err with
  | ENOMEM => ESP_ERR_NO_MEM
  | EINVAL => ESP_ERR_INVALID_ARG
  | ETIMEDOUT => ESP_ERR_TIMEOUT
  | E_other _ => ESP_FAIL
  end.

(** What [send] answers: an error, or how many bytes it took. *)
Inductive send_answer := Send_error (err : errno) | Send_took (n : nat).
(** The answers of the network during one publication; the sends are numbered. *)
Record net := mk_net {
  net_socket : option errno;
  net_connect : option errno;
  net_send : nat → send_answer;
  net_recv : errno + bytes
}.

(** The send loop from call [i] on: the status, the next call and the bytes that
    went out.  [None] is an exhausted fuel. *)
Fixpoint send_loop (fuel : nat) (answers : nat → send_answer) (i : nat) (data : bytes) :
    option (esp_err * nat * bytes) :=
  match fuel with
  | O => None
  | S fuel' =>
    if (List.length data =? 0)%nat then Some (ESP_OK, i, [])
    else
      match answers i with
      | Send_error e => Some (socket_errno_to_esp e, S i, [])
      | Send_took O => Some (ESP_ERR_INVALID_STATE, S i, [])
      | Send_took n =>
        match send_loop fuel' answers (S i) (drop n data) with
        | Some (err, j, sent) => Some (err, j, take n data ++ sent)
        | None => None
        end
      end
  end.
Definition send_all (answers : nat → send_answer) (i : nat) (data : bytes) : esp_err * nat * bytes :=
  default (ESP_FAIL, i, []) (send_loop (S (List.length data)) answers i data).

Definition local_mqtt_send_connect (io : net) : esp_err * nat * bytes :=
  let '(err, packet) := connect_packet in
  if negb (err_ok err) then (err, O, [])
  else
    let '(err, i, wire) := send_all (net_send io) 0 packet in
    if negb (err_ok err) then (err, i, wire)
    else
      match net_recv io with
      | inl e => (socket_errno_to_esp e, i, wire)
      | inr data =>
        let got := take 4 data in
        let connack := memcpy (zeros 4) got (List.length got) in
        if negb (List.length got =? 4)%nat || negb (nth 0 connack 0 =? 32) || negb (nth 1 connack 0 =? 2) ||
           negb (nth 3 connack 0 =? 0)
        then (ESP_ERR_INVALID_RESPONSE, i, wire) else (ESP_OK, i, wire)
      end.

(** What a publication did: its status, the address and port it connected to,
    the bytes it sent, and the sockets it opened and closed. *)
Record publication := mk_publication {
  pub_err : esp_err;
  pub_target : option (Z * Z);
  pub_wire : bytes;
  pub_opened : nat;
  pub_closed : nat
}.

Definition local_mqtt_publish (c : mqtt_broker_config) (io : net) (topic : bytes) (payload : option bytes)
    (payload_len : nat) (qos : Z) (retain : bool) : publication :=
  if negb (qos =? 0) then mk_publication ESP_ERR_NOT_SUPPORTED None [] 0 0
  else if U16_MAX <? Z.of_nat (strlen topic) then mk_publication ESP_ERR_INVALID_SIZE None [] 0 0
  else
    match net_socket io with
    | Some e => mk_publication (socket_errno_to_esp e) None [] 0 0
    | None =>
      let address := if negb (mg_bind_ip c =? 0) then mg_bind_ip c else of_le32 [127; 0; 0; 1] in
      let target := Some (address, mg_listen_port c) in
      match net_connect io with
      | Some e => mk_publication (socket_errno_to_esp e) target [] 1 1
      | None =>
        let '(err, i, wire) := local_mqtt_send_connect io in
        if negb (err_ok err) then mk_publication err target wire 1 1
        else
          let '(err, packet) := publish_packet topic payload payload_len retain in
          if negb (err_ok err) then mk_publication err target wire 1 1
          else
            let '(err, i, sent) := send_all (net_send io) i packet in
            let bye := if err_ok err then (send_all (net_send io) i [224; 0]).2 else [] in
            mk_publication err target (wire ++ sent ++ bye) 1 1
      end
    end.

(** The status, and the publication if one was attempted.  [client_id] is not
    used beyond its check. *)
Definition broker_publish_internal (s : mb_state) (io : net) (client_id topic payload : option bytes)
    (payload_len : Z) (qos : Z) (retain : bool) : esp_err * option publication :=
  if match client_id with Some id => nth 0 id 0 =? 0 | None => false end then (ESP_ERR_INVALID_ARG, None)
  else
    match topic with
    | None => (ESP_ERR_INVALID_ARG, None)
    | Some t =>
      if nth 0 t 0 =? 0 then (ESP_ERR_INVALID_ARG, None)
      else if (0 <? payload_len) && match payload with None => true | Some _ => false end
      then (ESP_ERR_INVALID_ARG, None)
      else if (mg_max_payload_len (mb_config s) <? payload_len) || (INT_MAX <? payload_len)
      then (ESP_ERR_INVALID_SIZE, None)
      else if 2 <? qos then (ESP_ERR_INVALID_ARG, None)
      else if negb (mb_running s) then (ESP_ERR_INVALID_STATE, None)
      else
        let p := local_mqtt_publish (mb_config s) io t payload (Z.to_nat payload_len) qos retain in
        (pub_err p, Some p)
    end.

Definition mqtt_broker_publish (s : mb_state) (io : net) (topic payload : option bytes) (payload_len : Z)
    (qos : Z) (retain : bool) : esp_err * option publication :=
  broker_publish_internal s io None topic payload payload_len qos retain.

Definition mqtt_broker_publish_to_client (s : mb_state) (io : net) (client_id topic payload : option bytes)
    (payload_len : Z) (qos : Z) (retain : bool) : esp_err * option publication :=
  match client_id with
  | None => (ESP_ERR_INVALID_ARG, None)
  | Some _ => broker_publish_internal s io client_id topic payload payload_len qos retain
  end.

(** ** Specification: reading packets (MQTT 3.1.1) *)
Inductive mqtt_packet :=
| Pkt_connect (client_id : bytes) (keep_alive : Z)
| Pkt_publish (retain : bool) (topic payload : bytes)
| Pkt_disconnect.

(** The remaining length: seven bits a byte, least significant first. *)
Fixpoint decode_remaining_loop (room : nat) (multiplier : Z) (b : bytes) : option (Z * bytes) :=
  match room, b with
  | S room', x :: b' =>
    if x <? 128 then Some (x * multiplier, b')
    else match decode_remaining_loop room' (multiplier * 128) b' with
         | Some (v, rest) => Some ((x - 128) * multiplier + v, rest)
         | None => None
         end
  | _, _ => None
  end.
Definition decode_remaining (b : bytes) : option (Z * bytes) := decode_remaining_loop 4 1 b.

Definition be16 (x : Z) : bytes := [x / 256 mod 256; x mod 256].
Definition decode_u16 (b : bytes) : option (Z * bytes) :=
  match b with hi :: lo :: rest => Some (256 * hi + lo, rest) | _ => None end.
Definition decode_string (b : bytes) : option (bytes * bytes) :=
  match decode_u16 b with
  | Some (n, rest) =>
    if (Z.of_nat (List.length rest) <? n) then None else Some (take (Z.to_nat n) rest, drop (Z.to_nat n) rest)
  | None => None
  end.

(** One packet with the length its header announces, and the rest. *)
Definition decode_packet (b : bytes) : option (mqtt_packet * bytes) :=
  match b with
  | [] => None
  | header :: b' =>
    '(n, b') ← decode_remaining b';
    if (Z.of_nat (List.length b') <? n) then None
    else
      let body := take (Z.to_nat n) b' in
      let rest := drop (Z.to_nat n) b' in
      if header =? 16 then
        '(protocol, body) ← decode_string body;
        match body with
        | level :: flags :: body =>
          '(keep_alive, body) ← decode_u16 body;
          '(client_id, body) ← decode_string body;
          if bool_decide (protocol = lit "MQTT") && (level =? 4) && (flags =? 2) && (List.length body =? 0)%nat
          then Some (Pkt_connect client_id keep_alive, rest) else None
        | _ => None
        end
      else if (header =? 48) || (header =? 49) then
        '(topic, payload) ← decode_string body;
        Some (Pkt_publish (header =? 49) topic payload, rest)
      else if (header =? 224) && (n =? 0) then Some (Pkt_disconnect, rest)
      else None
  end.

(** ** Packets read back *)
Lemma lor_128 b : 0 ≤ b < 128 → Z.lor b 128 = b + 128.
Proof.
  intros Hb. assert (is_u8 b) as Hu by (unfold is_u8; lia).
  apply (is_u8_forall (fun b => b < 128 → Z.lor b 128 = b + 128)); [by forall_compute|done|lia].
Qed.

Lemma decode_encode_loop room multiplier value rest :
  0 ≤ value < 128 ^ Z.of_nat room → room ≠ O →
  decode_remaining_loop room multiplier (encode_remaining_loop room value ++ rest) =
  Some (value * multiplier, rest).
Proof.
  revert multiplier value. induction room as [|room IH]; intros multiplier value Hv Hr; [done|].
  cbn [encode_remaining_loop decode_remaining_loop].
  pose proof (Z.mod_pos_bound value 128 ltac:(lia)) as Hm. pose proof (Z.div_mod value 128 ltac:(lia)) as Hd.
  destruct (0 <? value / 128) eqn:E.
  - apply Z.ltb_lt in E. cbn [app decode_remaining_loop].
    rewrite lor_128 by lia.
    assert ((value mod 128 + 128 <? 128) = false) as -> by (apply Z.ltb_ge; lia).
    assert (room ≠ O) as Hroom.
    { intros ->. cbn in Hv. assert (value / 128 = 0) by (apply Z.div_small; lia). lia. }
    rewrite IH; [f_equal; f_equal; nia|split; [lia|]|done].
    apply Z.div_lt_upper_bound; [lia|]. rewrite Nat2Z.inj_succ, Z.pow_succ_r in Hv by lia. lia.
  - apply Z.ltb_ge in E. cbn [app decode_remaining_loop].
    assert ((value mod 128 <? 128) = true) as -> by (apply Z.ltb_lt; lia).
    assert (value / 128 = 0) by (pose proof (Z.div_pos value 128); lia). f_equal. f_equal. lia.
Qed.

Lemma decode_encode_remaining value rest :
  0 ≤ value < 268435456 → decode_remaining (mqtt_encode_remaining_len value ++ rest) = Some (value, rest).
Proof. intros Hv. unfold decode_remaining, mqtt_encode_remaining_len. rewrite decode_encode_loop by done. by rewrite Z.mul_1_r. Qed.

Lemma encode_remaining_length room value : (List.length (encode_remaining_loop room value) ≤ room)%nat.
Proof.
  revert value. induction room as [|room IH]; intros value; cbn; [lia|].
  destruct (_ <? _); cbn; [|lia]. specialize (IH (value / 128)). lia.
Qed.

Lemma u16_bytes value : is_u16 value → [Z.land (Z.shiftr value 8) 255; Z.land value 255] = be16 value.
Proof.
  intros Hv. unfold be16, is_u16 in *. rewrite !land_255, Z.shiftr_div_pow2 by lia. done.
Qed.

Lemma decode_u16_be16 value rest : is_u16 value → decode_u16 (be16 value ++ rest) = Some (value, rest).
Proof.
  intros Hv. unfold be16, decode_u16, is_u16 in *. cbn [app]. f_equal. f_equal.
  rewrite (Z.mod_small (value / 256)) by (split; [apply Z.div_pos; lia|apply Z.div_lt_upper_bound; lia]).
  rewrite <- Z.div_mod by lia. done.
Qed.

Lemma decode_string_app s rest :
  is_u16 (Z.of_nat (List.length s)) →
  decode_string (be16 (Z.of_nat (List.length s)) ++ s ++ rest) = Some (s, rest).
Proof.
  intros Hs. unfold decode_string. rewrite decode_u16_be16 by done.
  rewrite length_app, Nat2Z.id, take_app_length, drop_app_length.
  by rewrite (proj2 (Z.ltb_ge _ _)) by lia.
Qed.

Lemma append_bytes_ok size data len packet packet' :
  mqtt_append_bytes size data len packet = (ESP_OK, packet') → packet' = packet ++ take len (default [] data).
Proof. unfold mqtt_append_bytes. case_match; [done|]. by intros [= <-]. Qed.
Lemma append_u16_ok size value packet packet' :
  mqtt_append_u16 size value packet = (ESP_OK, packet') →
  packet' = packet ++ [Z.land (Z.shiftr value 8) 255; Z.land value 255].
Proof. unfold mqtt_append_u16. case_match; [done|]. by intros [= <-]. Qed.
Lemma and_then_ok r f packet : and_then r f = (ESP_OK, packet) → ∃ p, r = (ESP_OK, p) ∧ f p = (ESP_OK, packet).
Proof.
  destruct r as [err p]. unfold and_then. destruct (err_ok err) eqn:E.
  - unfold err_ok, err_eqb in E. apply bool_decide_eq_true in E as ->. by eauto.
  - intros [= -> ->]. done.
Qed.

(** A built publish packet reads back as the message. *)
Lemma publish_packet_decodes topic payload payload_len retain packet rest :
  publish_packet topic payload payload_len retain = (ESP_OK, packet) →
  Z.of_nat (strlen topic) ≤ U16_MAX →
  (payload_len ≤ List.length (default [] payload))%nat →
  decode_packet (packet ++ rest) =
  Some (Pkt_publish retain (c_str topic) (take payload_len (default [] payload)), rest).
Proof.
  unfold publish_packet. set (r := mqtt_encode_remaining_len _). intros Hb Ht Hp.
  apply and_then_ok in Hb as (p3 & Hb & Hd). apply and_then_ok in Hb as (p2 & Hb & Hc).
  apply and_then_ok in Hb as (p1 & Ha & Hb).
  pose proof Hd as Hsize. apply append_bytes_ok in Ha, Hc, Hd. apply append_u16_ok in Hb.
  assert (is_u16 (Z.of_nat (strlen topic))) as Hu by (unfold is_u16, U16_MAX in *; lia).
  rewrite (u16_small _ Hu), u16_bytes in Hb by done. subst p1 p2 p3. cbn [default] in *.
  set (body := take payload_len _) in *.
  assert (List.length body = payload_len) as Hbody by (unfold body; apply length_take_le; done).
  assert (take (strlen topic) topic = c_str topic) as Htopic.
  { unfold strlen. clear. induction topic as [|c t IH]; cbn; [done|]. destruct (c =? 0); cbn; [done|]. by rewrite IH. }
  change (id topic) with topic in *. rewrite Htopic in *. change (id r) with r in *.
  rewrite take_ge in Hd by lia.
  assert (Z.of_nat (List.length packet) ≤ 360) as Hlen.
  { unfold mqtt_append_bytes in Hsize. destruct (_ || _) eqn:E; [done|]. injection Hsize as Hsize.
    apply orb_false_iff in E as [_ E]. apply Nat.ltb_ge in E.
    change (MQTT_BROKER_TOPIC_LEN + Z.to_nat MQTT_BROKER_PAYLOAD_MAX_LEN + 8)%nat with 360%nat in E.
    rewrite Hd, length_app, Hbody. rewrite take_ge in E by lia. lia. }
  subst packet. rewrite <- !app_assoc. cbn [app decode_packet].
  unfold r. rewrite decode_encode_remaining.
  2: { rewrite !length_app, Hbody in Hlen. cbn [List.length be16] in Hlen. fold (strlen topic) in Hlen. lia. }
  cbn [mbind option_bind].
  assert (Z.of_nat (List.length (be16 (Z.of_nat (strlen topic)) ++ c_str topic ++ body)) =
          2 + Z.of_nat (strlen topic) + Z.of_nat payload_len) as Hn.
  { rewrite !length_app, Hbody. cbn [List.length be16]. fold (strlen topic). lia. }
  rewrite (app_assoc (c_str topic)), (app_assoc (be16 _)). rewrite <- Hn, Nat2Z.id, take_app_length, drop_app_length.
  rewrite length_app. rewrite (proj2 (Z.ltb_ge _ _)) by lia.
  unfold strlen. rewrite decode_string_app by (exact Hu).
  by destruct retain.
Qed.

(** ** The send loop *)
Lemma send_loop_spec fuel answers i data :
  (List.length data < fuel)%nat →
  ∃ err j sent, send_loop fuel answers i data = Some (err, j, sent) ∧
    (i ≤ j ≤ i + List.length data)%nat ∧ ∃ unsent, data = sent ++ unsent ∧ (err = ESP_OK ↔ unsent = []).
Proof.
  revert i data. induction fuel as [|fuel IH]; intros i data Hf; [lia|]. cbn [send_loop].
  destruct (List.length data =? 0)%nat eqn:E0.
  { apply Nat.eqb_eq, length_zero_iff_nil in E0 as ->. exists ESP_OK, i, []. split_and!; [done|lia|cbn; lia|].
    by exists []. }
  apply Nat.eqb_neq in E0. assert (data ≠ []) as Hne by (intros ->; done).
  destruct (answers i) as [e|[|n]].
  - exists (socket_errno_to_esp e), (S i), []. split_and!; [done|lia|lia|]. exists data. split; [done|].
    split; [by destruct e|done].
  - exists ESP_ERR_INVALID_STATE, (S i), []. split_and!; [done|lia|lia|]. by exists data.
  - destruct (IH (S i) (drop (S n) data)) as (err & j & sent & -> & Hj & unsent & Hd & Hok).
    { rewrite length_drop. lia. }
    rewrite length_drop in Hj. exists err, j, (take (S n) data ++ sent). split_and!; [done|lia|lia|].
    exists unsent. split; [|done]. by rewrite <- app_assoc, <- Hd, take_drop.
Qed.

Lemma send_loop_fuel fuel fuel' answers i data :
  (List.length data < fuel)%nat → (List.length data < fuel')%nat →
  send_loop fuel answers i data = send_loop fuel' answers i data.
Proof.
  revert fuel' i data. induction fuel as [|fuel IH]; intros [|fuel'] i data Hf Hf'; try lia. cbn [send_loop].
  destruct (List.length data =? 0)%nat eqn:E0; [done|]. apply Nat.eqb_neq in E0.
  destruct (answers i) as [|[|n]]; [done..|]. rewrite (IH fuel') by (rewrite length_drop; lia). done.
Qed.

Lemma send_all_spec answers i data :
  let '(err, j, sent) := send_all answers i data in
  ∃ unsent, data = sent ++ unsent ∧ (err = ESP_OK ↔ unsent = []).
Proof.
  unfold send_all. destruct (send_loop_spec (S (List.length data)) answers i data) as (err & j & sent & -> & _ & ?); [lia|].
  done.
Qed.

(** A call of [send] that ends a transfer: an error, or no byte taken. *)
Definition refused (a : send_answer) : Prop := match a with Send_took (S _) => False | _ => True end.

(** Only a refused call stops a transfer, and each call before it took a byte. *)
Lemma send_loop_refused fuel answers i data err j sent :
  send_loop fuel answers i data = Some (err, j, sent) →
  (err = ESP_OK → (j ≤ i + List.length sent)%nat) ∧
  (err ≠ ESP_OK → ∃ k, (i ≤ k ≤ i + List.length sent)%nat ∧ refused (answers k)).
Proof.
  revert i data err j sent. induction fuel as [|fuel IH]; intros i data err j sent; [done|]. cbn [send_loop].
  destruct (List.length data =? 0)%nat eqn:E0; [intros [= <- <- <-]; split; [cbn; lia|done]|].
  apply Nat.eqb_neq in E0. destruct (answers i) as [e|[|n]] eqn:Ea.
  - intros [= <- <- <-]. split; [by destruct e|]. intros _. exists i. rewrite Ea. split; [cbn; lia|done].
  - intros [= <- <- <-]. split; [done|]. intros _. exists i. rewrite Ea. split; [cbn; lia|done].
  - destruct (send_loop fuel answers (S i) _) as [[[err' j'] sent']|] eqn:E; [|done]. intros [= <- <- <-].
    destruct (IH _ _ _ _ _ E) as [Hok Hno]. rewrite length_app, length_take. split.
    + intros He. specialize (Hok He). lia.
    + intros He. destruct (Hno He) as (k & Hk & Hr). exists k. split; [lia|done].
Qed.

Lemma send_all_refused answers i data :
  let '(err, j, sent) := send_all answers i data in
  (err = ESP_OK → (j ≤ i + List.length sent)%nat) ∧
  (err ≠ ESP_OK → ∃ k, (i ≤ k ≤ i + List.length sent)%nat ∧ refused (answers k)).
Proof.
  unfold send_all. destruct (send_loop_spec (S (List.length data)) answers i data) as (err & j & sent & E & _); [lia|].
  rewrite E. by eapply send_loop_refused.
Qed.

(** Sends that always take something deliver everything. *)
Lemma send_loop_all fuel answers i data :
  (∀ k, ∃ n, answers k = Send_took (S n)) → (List.length data < fuel)%nat →
  ∃ j, send_loop fuel answers i data = Some (ESP_OK, j, data).
Proof.
  intros Ha. revert i data. induction fuel as [|fuel IH]; intros i data Hf; [lia|]. cbn [send_loop].
  destruct (List.length data =? 0)%nat eqn:E0.
  { apply Nat.eqb_eq, length_zero_iff_nil in E0 as ->. by exists i. }
  apply Nat.eqb_neq in E0. destruct (Ha i) as [n ->].
  destruct (IH (S i) (drop (S n) data)) as [j ->]; [rewrite length_drop; lia|].
  exists j. by rewrite take_drop.
Qed.

Lemma send_all_all answers i data :
  (∀ k, ∃ n, answers k = Send_took (S n)) → ∃ j, send_all answers i data = (ESP_OK, j, data).
Proof. intros Ha. unfold send_all. destruct (send_loop_all (S (List.length data)) answers i data Ha) as [j ->]; eauto. Qed.

(** ** Truncated packets *)
Lemma decode_remaining_app room m b more n rest :
  decode_remaining_loop room m b = Some (n, rest) → decode_remaining_loop room m (b ++ more) = Some (n, rest ++ more).
Proof.
  revert m b n rest. induction room as [|room IH]; intros m b n rest; [done|].
  destruct b as [|x b]; [done|]. cbn. destruct (x <? 128); [by intros [= <- <-]|].
  destruct (decode_remaining_loop room _ b) as [[v r]|] eqn:E; [|done]. intros [= <- <-].
  by rewrite (IH _ _ _ _ E).
Qed.

(** More bytes after a packet do not change how it reads. *)
Lemma decode_packet_app b more q rest :
  decode_packet b = Some (q, rest) → decode_packet (b ++ more) = Some (q, rest ++ more).
Proof.
  destruct b as [|header b]; [done|]. cbn [app decode_packet]. unfold decode_remaining.
  destruct (decode_remaining_loop 4 1 b) as [[n b']|] eqn:E; [|done].
  rewrite (decode_remaining_app _ _ _ more _ _ E). cbn [mbind option_bind]. rewrite length_app.
  destruct (Z.of_nat (List.length b') <? n) eqn:El; [done|]. apply Z.ltb_ge in El.
  rewrite (proj2 (Z.ltb_ge _ _)) by lia. rewrite take_app_le, drop_app_le by lia.
  destruct (header =? 16).
  - destruct (decode_string _) as [[protocol body]|]; [|done]. cbn [mbind option_bind].
    destruct body as [|level [|flags body]]; [done..|].
    destruct (decode_u16 body) as [[ka body']|]; [|done]. cbn [mbind option_bind].
    destruct (decode_string body') as [[id body'']|]; [|done]. cbn [mbind option_bind].
    case_match; [|done]. by intros [= <- <-].
  - destruct (_ || _).
    + destruct (decode_string _) as [[topic payload]|]; [|done]. cbn [mbind option_bind]. by intros [= <- <-].
    + case_match; [|done]. by intros [= <- <-].
Qed.

(** A packet cut short does not read as a packet. *)
Lemma decode_packet_cut b unsent q q' rest' :
  decode_packet (b ++ unsent) = Some (q, []) → unsent ≠ [] → decode_packet b ≠ Some (q', rest').
Proof.
  intros Hall Hne Hcut. apply (decode_packet_app _ unsent) in Hcut. rewrite Hall in Hcut.
  injection Hcut as _ Hr. symmetry in Hr. apply app_eq_nil in Hr as [_ ?]. done.
Qed.

(** ** A publication *)
Definition local_connect : mqtt_packet := Pkt_connect MQTT_LOCAL_PUBLISH_CLIENT_ID 15.

Lemma connect_packet_ok :
  ∃ packet, connect_packet = (ESP_OK, packet) ∧ ∀ rest, decode_packet (packet ++ rest) = Some (local_connect, rest).
Proof.
  eexists. split; [vm_compute; reflexivity|]. intros rest.
  apply (decode_packet_app _ rest _ []). vm_compute. reflexivity.
Qed.

Lemma send_connect_spec io packet :
  connect_packet = (ESP_OK, packet) →
  let '(err, i, wire) := local_mqtt_send_connect io in
  ∃ unsent, packet = wire ++ unsent ∧ (err = ESP_OK → unsent = [] ∧ (i ≤ List.length wire)%nat).
Proof.
  intros E. unfold local_mqtt_send_connect. rewrite E. change (err_ok ESP_OK) with true. cbn [negb].
  pose proof (send_all_spec (net_send io) 0 packet) as Hs.
  pose proof (send_all_refused (net_send io) 0 packet) as Hr.
  destruct (send_all _ _ _) as [[err i] wire]. destruct Hs as (unsent & Hp & Hok), Hr as [Hi _].
  destruct (err_ok err) eqn:Ee; cbn [negb].
  - unfold err_ok, err_eqb in Ee. apply bool_decide_eq_true in Ee. specialize (Hi Ee). apply Hok in Ee as ->.
    destruct (net_recv io) as [e|d]; [|destruct (_ || _)]; cbn; exists []; split_and!; done.
  - cbn. exists unsent. split; [done|]. by intros ->.
Qed.

(** What a publication that goes out puts on the wire: CONNECT, the PUBLISH and
    DISCONNECT, the last one cut short only where the network refused a call of
    [send]. *)
Definition publishes (io : net) (retain : bool) (topic payload wire : bytes) : Prop :=
  ∃ w tail, decode_packet wire = Some (local_connect, w) ∧
    decode_packet w = Some (Pkt_publish retain topic payload, tail) ∧
    (decode_packet tail = Some (Pkt_disconnect, []) ∨
     tail `prefix_of` [224; 0] ∧ ∃ k, (k ≤ List.length wire)%nat ∧ refused (net_send io k)).
(** A wire on which the broker never sees a second packet. *)
Definition publishes_nothing (wire : bytes) : Prop :=
  ∀ q w, decode_packet wire = Some (q, w) → ∀ q' w', decode_packet w ≠ Some (q', w').

Lemma connect_cut packet wire unsent :
  connect_packet = (ESP_OK, packet) → packet = wire ++ unsent → publishes_nothing wire.
Proof.
  intros E Hp q w Hw q' w'. destruct connect_packet_ok as (packet' & E' & Hc).
  rewrite E in E'. injection E' as <-. specialize (Hc []). rewrite app_nil_r in Hc.
  destruct (decide (unsent = [])) as [->|Hne].
  - rewrite app_nil_r in Hp. subst wire. rewrite Hc in Hw. injection Hw as <- <-. done.
  - exfalso. rewrite Hp in Hc. by eapply decode_packet_cut.
Qed.

Lemma local_mqtt_publish_spec c io topic payload payload_len qos retain :
  (payload_len ≤ List.length (default [] payload))%nat →
  let p := local_mqtt_publish c io topic payload payload_len qos retain in
  pub_opened p = pub_closed p ∧
  (pub_err p = ESP_OK → publishes io retain (c_str topic) (take payload_len (default [] payload)) (pub_wire p)) ∧
  (pub_err p ≠ ESP_OK → publishes_nothing (pub_wire p)).
Proof.
  intros Hpl. unfold local_mqtt_publish.
  assert (publishes_nothing []) as Hnil by done.
  destruct (qos =? 0); cbn [negb]; [|by split_and!].
  destruct (U16_MAX <? _) eqn:Et; [by split_and!|]. apply Z.ltb_ge in Et.
  destruct (net_socket io) as [e|]; [split_and!; [done|intros He; by destruct e|by intros _]|].
  destruct (net_connect io) as [e|]; [split_and!; [done|intros He; by destruct e|by intros _]|].
  destruct connect_packet_ok as (cp & Ecp & Hcp). pose proof (send_connect_spec io cp Ecp) as Hs.
  destruct (local_mqtt_send_connect io) as [[err i] wire]. destruct Hs as (unsent & Hw & Hok).
  destruct (err_ok err) eqn:Ee; cbn [negb pub_err pub_wire pub_opened pub_closed].
  2: { split_and!; [done|intros ->; done|]. intros _. by eapply connect_cut. }
  unfold err_ok, err_eqb in Ee. apply bool_decide_eq_true in Ee. apply Hok in Ee as [-> Hi].
  rewrite app_nil_r in Hw. subst wire.
  destruct (publish_packet topic payload payload_len retain) as [e2 pp] eqn:Ep.
  destruct (err_ok e2) eqn:Ee; cbn [negb pub_err pub_wire pub_opened pub_closed].
  2: { split_and!; [done|intros ->; done|]. intros _. eapply (connect_cut cp cp []); [done|]. by rewrite app_nil_r. }
  unfold err_ok, err_eqb in Ee. apply bool_decide_eq_true in Ee as ->.
  pose proof (fun rest => publish_packet_decodes _ _ _ _ _ rest Ep Et Hpl) as Hpp.
  pose proof (send_all_spec (net_send io) i pp) as Hs. pose proof (send_all_refused (net_send io) i pp) as Hr.
  destruct (send_all (net_send io) i pp) as [[e3 j] sent]. destruct Hs as (unsent & -> & Hok3), Hr as [Hj _].
  cbn [pub_err pub_wire pub_opened pub_closed]. split; [done|]. split.
  - intros ->. rewrite (proj1 Hok3 eq_refl), app_nil_r in Hpp. change (err_ok ESP_OK) with true. cbn iota.
    specialize (Hj eq_refl).
    pose proof (send_all_spec (net_send io) j [224; 0]) as Hb. pose proof (send_all_refused (net_send io) j [224; 0]) as Hr.
    destruct (send_all _ j _) as [[e4 k] bye]. destruct Hb as (u & Hu & Hok4), Hr as [_ Hr].
    exists (sent ++ bye), bye. split; [apply Hcp|]. split; [apply Hpp|].
    destruct (decide (e4 = ESP_OK)) as [E4|E4].
    + left. apply Hok4 in E4 as ->. rewrite app_nil_r in Hu. subst bye. reflexivity.
    + right. split; [by exists u|]. destruct (Hr E4) as (k' & Hk' & Href). exists k'. split; [|done].
      cbn [snd]. rewrite !length_app. lia.
  - intros Hne. assert (unsent ≠ []) as Hu by (intros ->; by apply Hne, Hok3).
    assert (err_ok e3 = false) as -> by (by apply bool_decide_eq_false). rewrite app_nil_r.
    intros q w Hq. rewrite Hcp in Hq. injection Hq as _ <-. intros q' w'.
    eapply decode_packet_cut; [|exact Hu]. specialize (Hpp []). by rewrite app_nil_r in Hpp.
Qed.

Lemma publish_packet_fits topic payload payload_len retain :
  (strlen topic + payload_len ≤ 355)%nat → payload ≠ None ∨ payload_len = O →
  ∃ packet, publish_packet topic payload payload_len retain = (ESP_OK, packet).
Proof.
  intros Hl Hp. unfold publish_packet.
  change (MQTT_BROKER_TOPIC_LEN + Z.to_nat MQTT_BROKER_PAYLOAD_MAX_LEN + 8)%nat with 360%nat.
  set (r := mqtt_encode_remaining_len _).
  assert (List.length r ≤ 2)%nat as Hr.
  { unfold r, mqtt_encode_remaining_len. set (v := 2 + _ + _). assert (0 ≤ v < 16384) as Hv by lia.
    cbn [encode_remaining_loop]. destruct (0 <? v / 128); [|cbn; lia].
    assert (v / 128 / 128 = 0) as -> by (rewrite Z.div_div by lia; apply Z.div_small; lia). cbn. lia. }
  unfold mqtt_append_bytes at 1. rewrite andb_false_r. cbn [orb List.length].
  rewrite (proj2 (Nat.ltb_ge _ _)) by lia. unfold and_then at 3. change (err_ok ESP_OK) with true. cbn iota.
  unfold mqtt_append_u16. rewrite length_app, length_take. cbn [List.length default].
  rewrite (proj2 (Nat.ltb_ge _ _)) by lia. unfold and_then at 2. change (err_ok ESP_OK) with true. cbn iota.
  unfold mqtt_append_bytes at 1. rewrite andb_false_r. cbn [orb]. rewrite !length_app, length_take. cbn [List.length default].
  rewrite (proj2 (Nat.ltb_ge _ _)) by lia. unfold and_then. change (err_ok ESP_OK) with true. cbn iota.
  unfold mqtt_append_bytes. rewrite !length_app, !length_take. cbn [List.length default].
  rewrite (proj2 (Nat.ltb_ge 360 _)) by lia. rewrite orb_false_r.
  destruct payload; [rewrite andb_false_r; by eauto|].
  destruct Hp as [?| ->]; [done|]. by eauto.
Qed.

(** ** Everything that happens to the component *)
Inductive mb_op :=
| MbStart (config : option mqtt_broker_config) (lock_created task_created : bool)
| MbStop
| MbExit (rc : Z)
| MbConnect (cb : mqtt_broker_connect → bool) (client_id username password : option bytes) (password_len : Z)
| MbMessage (client topic data : option bytes) (len qos retain : Z).

Definition mb_step (s : mb_state) (op : mb_op) : mb_state :=
  match op with
  | MbStart config lock_created task_created => (mqtt_broker_start config lock_created task_created s).1
  | MbStop => (mqtt_broker_stop s).1.1
  | MbExit rc => broker_task rc s
  | MbConnect cb client_id username password password_len =>
    (handle_mosq_connect cb client_id username password password_len s).1.1
  | MbMessage client topic data len qos retain => (handle_mosq_message client topic data len qos retain s).1
  end.

(** Ranges of a configuration in force, and the balance of the counters: no
    client is ever counted as gone. *)
Record mb_inv (s : mb_state) : Prop := mk_mb_inv {
  mbi_task : mb_task s = mb_running s;
  mbi_payload : mb_running s = true → 0 < mg_max_payload_len (mb_config s) ≤ MQTT_BROKER_PAYLOAD_MAX_LEN;
  mbi_port : mb_running s = true → mg_listen_port (mb_config s) ≠ 0 ∧ mb_mosq_port s = mg_listen_port (mb_config s);
  mbi_zone : mb_running s = true → mg_zone_id (mb_config s) ≠ 0;
  mbi_connected : mt_connected_clients (mb_stats s) = mt_accepted_clients (mb_stats s)
}.

(** A caller's configuration holds a [uint16_t] payload length. *)
Definition mb_op_ok (op : mb_op) : Prop :=
  match op with MbStart (Some c) _ _ => is_u16 (mg_max_payload_len c) | _ => True end.

Lemma sane_config_ok c :
  is_u16 (mg_max_payload_len c) →
  0 < mg_max_payload_len (sane_config c) ≤ MQTT_BROKER_PAYLOAD_MAX_LEN ∧
  mg_listen_port (sane_config c) ≠ 0 ∧ mg_zone_id (sane_config c) ≠ 0.
Proof.
  unfold is_u16, sane_config, MQTT_BROKER_PAYLOAD_MAX_LEN, MQTT_BROKER_DEFAULT_PORT. intros Hu.
  destruct (mg_listen_port c =? 0) eqn:E1; cbn;
    destruct (mg_max_payload_len c =? 0) eqn:E2; cbn;
    try (destruct (256 <? mg_max_payload_len c) eqn:E3; cbn);
    destruct (mg_zone_id c =? 0) eqn:E4; cbn; bools; split_and!; lia || done.
Qed.

Lemma start_inv config lock_created task_created s :
  mb_op_ok (MbStart config lock_created task_created) → mb_inv s →
  mb_inv (mqtt_broker_start config lock_created task_created s).1.
Proof.
  intros Hop Hi. unfold mqtt_broker_start. destruct (mb_running s) eqn:Er; [done|].
  destruct (_ && _); [done|]. set (c := match config with Some c => _ | None => _ end).
  assert (0 < mg_max_payload_len c ≤ MQTT_BROKER_PAYLOAD_MAX_LEN ∧ mg_listen_port c ≠ 0 ∧ mg_zone_id c ≠ 0) as (Hp & Hport & Hz).
  { unfold c. destruct config as [c0|]; [by apply sane_config_ok|]. cbn. unfold MQTT_BROKER_PAYLOAD_MAX_LEN. split_and!; lia || done. }
  destruct task_created; split; cbn; done.
Qed.

Lemma mb_step_inv s op : mb_op_ok op → mb_inv s → mb_inv (mb_step s op).
Proof.
  intros Hop Hi. destruct op; cbn [mb_step].
  - by apply start_inv.
  - unfold mqtt_broker_stop. by destruct (negb _).
  - destruct Hi as [K1 K2 K3 K4 K5]. by split.
  - destruct Hi as [K1 K2 K3 K4 K5]. unfold handle_mosq_connect.
    match goal with |- context [if ?b then (_, 0, _) else _] => destruct b end; split; cbn; try done.
    by rewrite K5.
  - destruct Hi as [K1 K2 K3 K4 K5]. unfold handle_mosq_message. by destruct (_ =? 0); split.
Qed.

(** ** Properties *)

(** The send loop always ends.  Whatever the socket answers, call by call,
    the loop returns after at most as many sends as there are bytes; what went
    out is a prefix of the data, and the status is OK exactly when it is all of
    it. *)
Theorem mqtt_send_all_terminates answers i data fuel :
  (List.length data < fuel)%nat →
  ∃ err j sent, send_loop fuel answers i data = Some (err, j, sent) ∧ send_all answers i data = (err, j, sent) ∧
    (j - i ≤ List.length data)%nat ∧ sent `prefix_of` data ∧ (err = ESP_OK ↔ sent = data).
Proof.
  intros Hf. destruct (send_loop_spec fuel answers i data Hf) as (err & j & sent & E & Hj & unsent & -> & Hok).
  exists err, j, sent. split; [done|]. split; [|split; [lia|split; [by exists unsent|]]].
  - unfold send_all. by rewrite (send_loop_fuel _ fuel), E by lia.
  - rewrite Hok. split; [intros ->; by rewrite app_nil_r|]. intros Hs.
    apply (app_inv_head sent). by rewrite app_nil_r.
Qed.

(** C29: What a publication puts on the wire.  Read with the packet format of
    MQTT 3.1.1, a publication that reports success sent the local client's
    CONNECT, then one PUBLISH with exactly the topic, the payload and the retain
    flag given, then a DISCONNECT and nothing more; the DISCONNECT alone may be
    cut short, and only when one of the calls of [send] it made was refused by
    the network.  A publication that reports a failure sent no complete PUBLISH.
    Every socket opened is closed. *)
Theorem mqtt_publish_delivers s io topic payload payload_len qos retain err p :
  (Z.to_nat payload_len ≤ List.length (default [] payload))%nat →
  mqtt_broker_publish s io topic payload payload_len qos retain = (err, Some p) →
  pub_opened p = pub_closed p ∧
  (err = ESP_OK → publishes io retain (c_str (default [] topic))
                    (take (Z.to_nat payload_len) (default [] payload)) (pub_wire p)) ∧
  (err ≠ ESP_OK → publishes_nothing (pub_wire p)).
Proof.
  intros Hl. unfold mqtt_broker_publish, broker_publish_internal. destruct topic as [t|]; [|done].
  destruct (nth 0 t 0 =? 0); [done|]. destruct (_ && _); [done|]. destruct (_ || _); [done|].
  destruct (2 <? qos); [done|]. destruct (negb _); [done|]. intros [= <- <-].
  by apply local_mqtt_publish_spec.
Qed.

(** C30: A publication within the limits reaches the broker, whole.  If the
    component runs, the quality of service is 0, the topic is not empty, topic
    and payload are at most 355 bytes together and the payload within the
    configured limit, the socket opens and connects, every send takes at least a
    byte and the broker accepts the connection, then, however the sends are cut,
    the publication succeeds: the address and port it connected to are the
    broker's own, and the bytes it sent read as CONNECT, PUBLISH with the topic,
    the payload and the retain flag given, and DISCONNECT, with nothing more. *)
Theorem mqtt_publish_succeeds s io topic payload payload_len retain flags rest :
  mb_running s = true → nth 0 topic 0 ≠ 0 →
  0 ≤ payload_len ≤ mg_max_payload_len (mb_config s) → mg_max_payload_len (mb_config s) ≤ INT_MAX →
  Z.of_nat (strlen topic) + payload_len ≤ 355 →
  (Z.to_nat payload_len ≤ List.length (default [] payload))%nat →
  net_socket io = None → net_connect io = None → (∀ k, ∃ n, net_send io k = Send_took (S n)) →
  net_recv io = inr ([32; 2; flags; 0] ++ rest) →
  ∃ p w1 w2, mqtt_broker_publish s io (Some topic) payload payload_len 0 retain = (ESP_OK, Some p) ∧
    pub_target p = Some (if mg_bind_ip (mb_config s) =? 0 then of_le32 [127; 0; 0; 1] else mg_bind_ip (mb_config s),
                         mg_listen_port (mb_config s)) ∧
    decode_packet (pub_wire p) = Some (local_connect, w1) ∧
    decode_packet w1 = Some (Pkt_publish retain (c_str topic) (take (Z.to_nat payload_len) (default [] payload)), w2) ∧
    decode_packet w2 = Some (Pkt_disconnect, []).
Proof.
  intros Hrun Ht Hpl Hmax Hsize Hp Hs Hc Hsend Hrecv.
  assert (payload ≠ None ∨ Z.to_nat payload_len = O) as Hp' by (destruct payload; [by left|right; cbn in Hp; lia]).
  unfold mqtt_broker_publish, broker_publish_internal.
  rewrite (proj2 (Z.eqb_neq _ _) Ht), Hrun.
  assert ((0 <? payload_len) && match payload with None => true | Some _ => false end = false) as ->.
  { destruct payload; [apply andb_false_r|]. rewrite andb_true_r. apply Z.ltb_ge. cbn in Hp. lia. }
  rewrite (proj2 (Z.ltb_ge (mg_max_payload_len _) _)), (proj2 (Z.ltb_ge INT_MAX _)) by lia. cbn [orb negb].
  change (2 <? 0) with false. cbn iota.
  pose proof (local_mqtt_publish_spec (mb_config s) io topic payload (Z.to_nat payload_len) 0 retain Hp) as Hspec.
  assert (pub_err (local_mqtt_publish (mb_config s) io topic payload (Z.to_nat payload_len) 0 retain) = ESP_OK ∧
    pub_target (local_mqtt_publish (mb_config s) io topic payload (Z.to_nat payload_len) 0 retain) =
      Some (if mg_bind_ip (mb_config s) =? 0 then of_le32 [127; 0; 0; 1] else mg_bind_ip (mb_config s),
            mg_listen_port (mb_config s))) as [Herr Htgt].
  { clear Hspec. unfold local_mqtt_publish. change (0 =? 0) with true. cbn [negb].
    rewrite (proj2 (Z.ltb_ge U16_MAX _)) by (unfold U16_MAX; lia). rewrite Hs, Hc.
    destruct connect_packet_ok as (cp & Ecp & _). unfold local_mqtt_send_connect. rewrite Ecp.
    change (err_ok ESP_OK) with true. cbn [negb]. destruct (send_all_all (net_send io) 0 cp Hsend) as [i ->].
    change (err_ok ESP_OK) with true. cbn [negb]. rewrite Hrecv. cbn -[publish_packet send_all]. rewrite take_0.
    cbn -[publish_packet send_all].
    destruct (publish_packet_fits topic payload (Z.to_nat payload_len) retain) as [pp ->]; [lia|done|].
    change (err_ok ESP_OK) with true. cbn [negb]. destruct (send_all_all (net_send io) i pp Hsend) as [j ->].
    split; [done|]. cbn. by destruct (mg_bind_ip _ =? 0). }
  destruct Hspec as (_ & Hok & _). destruct (Hok Herr) as (w1 & w2 & H1 & H2 & H3).
  eexists _, w1, w2. split; [by rewrite Herr|]. split_and!; try done.
  destruct H3 as [H3|(_ & k & _ & Hr)]; [done|]. destruct (Hsend k) as [n E]. by rewrite E in Hr.
Qed.

(** Whatever clients, messages, starts, stops and exits follow one another,
    a running broker has a task, a port, a zone and a payload limit between 1
    and 256, and a mosquitto port that is its own; and the number of connected
    clients it reports is the number it ever accepted. *)
Theorem mqtt_broker_run_invariant ops :
  Forall mb_op_ok ops → mb_inv (fold_left mb_step ops mb_boot).
Proof.
  assert (mb_inv mb_boot) as Hi by (by split). revert Hi. generalize mb_boot.
  induction ops as [|op ops IH]; intros s Hi Hops; [done|]. inversion_clear Hops.
  cbn [fold_left]. apply IH; [by apply mb_step_inv|done].
Qed.

(** The client a message is published to is not part of the publication: every
    subscriber of the topic gets it. *)
Lemma publish_to_client_broadcasts s io id topic payload payload_len qos retain :
  nth 0 id 0 ≠ 0 →
  mqtt_broker_publish_to_client s io (Some id) topic payload payload_len qos retain =
  mqtt_broker_publish s io topic payload payload_len qos retain.
Proof.
  intros Hid. unfold mqtt_broker_publish_to_client, mqtt_broker_publish, broker_publish_internal.
  by rewrite (proj2 (Z.eqb_neq _ _) Hid).
Qed.

(** ** Witnesses *)
(** A socket that takes ten bytes at a time. *)
Definition witness_net : net := mk_net None None (fun _ => Send_took 10) (inr [32; 2; 0; 0]).
Definition witness_broker : mb_state :=
  (mqtt_broker_start (Some (mqtt_config_zero <| mg_bind_ip := of_le32 [192; 168; 4; 1] |>)) true true mb_boot).1.
Definition witness_publication : esp_err * option publication :=
  mqtt_broker_publish witness_broker witness_net (Some (lit "zone/lamp/cmd")) (Some [1; 0; 255]) 3 0 true.

(** The third call fails after twenty bytes. *)
Definition witness_sends (k : nat) : send_answer :=
  match k with 2%nat => Send_error ETIMEDOUT | _ => Send_took 10 end.
Lemma mqtt_send_all_terminates_witness :
  send_all witness_sends 0 (replicate 25 7) = (ESP_ERR_TIMEOUT, 3%nat, replicate 20 7).
Proof.
  destruct (mqtt_send_all_terminates witness_sends 0 (replicate 25 7) 26) as (err & j & sent & E & -> & _);
    [rewrite length_replicate; lia|]. vm_compute in E. by injection E as <- <- <-.
Defined.

Lemma mqtt_publish_delivers_witness :
  publishes witness_net true (lit "zone/lamp/cmd") [1; 0; 255] (default [] (pub_wire <$> witness_publication.2)).
Proof.
  destruct witness_publication as [err [p|]] eqn:E; [|vm_compute in E; discriminate E].
  destruct (mqtt_publish_delivers witness_broker witness_net (Some (lit "zone/lamp/cmd")) (Some [1; 0; 255]) 3 0 true
              err p) as (_ & Hok & _); [cbn; lia|exact E|].
  apply Hok. vm_compute in E. by injection E as <- _.
Defined.

Lemma mqtt_publish_succeeds_witness :
  ∃ p w1 w2, witness_publication = (ESP_OK, Some p) ∧ pub_target p = Some (of_le32 [192; 168; 4; 1], 1883) ∧
    decode_packet (pub_wire p) = Some (local_connect, w1) ∧
    decode_packet w1 = Some (Pkt_publish true (lit "zone/lamp/cmd") [1; 0; 255], w2) ∧
    decode_packet w2 = Some (Pkt_disconnect, []).
Proof.
  apply (mqtt_publish_succeeds witness_broker witness_net (lit "zone/lamp/cmd") (Some [1; 0; 255]) 3 true 0 []);
    try reflexivity; try (vm_compute; split; discriminate); try (vm_compute; discriminate).
  intros k. by exists 9%nat.
Defined.

Lemma mqtt_broker_run_invariant_witness :
  mb_inv (fold_left mb_step
    [MbStart None true true; MbConnect (fun _ => true) (Some (lit "lamp")) None None 0; MbStop; MbExit 0] mb_boot).
Proof. apply mqtt_broker_run_invariant. repeat constructor. Defined.
