(* ===== verification/Setup_button.v ===== *)
(** * Setup button: a callback when the button is held

    [setup_button/setup_button.c].  A task polls a GPIO and calls back once per
    press that lasts [hold_ms].  The static variables are [sb_state]; the local
    variables of a task are [sb_task_state], and a turn of a task is one pass of
    its loop.  The levels of the pin, the answers of the GPIO driver and of
    [xTaskCreate] are arguments, and so is [GPIO_NUM_MAX], which belongs to the
    chip. *)

From S2P Require Import Prelude.

Definition SETUP_BUTTON_DEFAULT_GPIO : Z := 0.
Definition SETUP_BUTTON_DEFAULT_HOLD_MS : Z := 5000.
Definition SETUP_BUTTON_DEFAULT_POLL_MS : Z := 50.

(** ** Data *)
(** The callback and its context are addresses, 0 for NULL. *)
Record setup_button_config := mk_setup_button_config {
  sc_gpio_num : Z;
  sc_active_low : bool;
  sc_hold_ms : Z;
  sc_poll_ms : Z;
  sc_on_hold : Z;
  sc_ctx : Z
}.
#[export] Instance setup_button_config_settable : Settable setup_button_config := fun r =>
  mk_setup_button_config (sc_gpio_num r) (sc_active_low r) (sc_hold_ms r) (sc_poll_ms r) (sc_on_hold r) (sc_ctx r).

(** [pressed_ms] and [armed]. *)
Record sb_task_state := mk_sb_task_state { tk_pressed_ms : Z; tk_armed : bool }.

(** [sb_tasks] are the tasks that exist, [sb_task] is whether [s_task] is set. *)
Record sb_state := mk_sb_state {
  sb_config : setup_button_config;
  sb_task : bool;
  sb_running : bool;
  sb_tasks : list sb_task_state
}.
#[export] Instance sb_state_settable : Settable sb_state := fun r =>
  mk_sb_state (sb_config r) (sb_task r) (sb_running r) (sb_tasks r).

Definition sb_boot : sb_state := mk_sb_state (mk_setup_button_config 0 false 0 0 0 0) false false [].
Definition fresh_task : sb_task_state := mk_sb_task_state 0 true.

(** ** Operations *)
Definition button_pressed (c : setup_button_config) (level : Z) : bool :=
  if sc_active_low c then level =? 0 else negb (level =? 0).

(** One pass of the loop: the locals and whether [on_hold] is called. *)
Definition setup_button_turn (c : setup_button_config) (level : Z) (t : sb_task_state) : sb_task_state * bool :=
  if button_pressed c level then
    let pressed_ms := if tk_pressed_ms t <? sc_hold_ms c then u32 (tk_pressed_ms t + sc_poll_ms c)
                      else tk_pressed_ms t in
    if tk_armed t && (sc_hold_ms c <=? pressed_ms)
    then (mk_sb_task_state pressed_ms false, negb (sc_on_hold c =? 0))
    else (mk_sb_task_state pressed_ms (tk_armed t), false)
  else (mk_sb_task_state 0 true, false).

(** Task [i] runs: a pass of its loop, or its end when [s_running] is false.
    Also the callback made. *)
Definition setup_button_task (i : nat) (level : Z) (s : sb_state) : sb_state * option (Z * Z) :=
  match sb_tasks s !! i with
  | None => (s, None)
  | Some t =>
    if sb_running s then
      let '(t', call) := setup_button_turn (sb_config s) level t in
      (s <| sb_tasks := <[i := t']> (sb_tasks s) |>,
       if call then Some (sc_on_hold (sb_config s), sc_ctx (sb_config s)) else None)
    else (s <| sb_task := false |> <| sb_tasks := delete i (sb_tasks s) |>, None)
  end.

Section button.
(** The number of pins of the chip. *)
Context (GPIO_NUM_MAX : Z).

Definition setup_button_start (config : option setup_button_config) (gpio_configured : esp_err)
    (task_created : bool) (s : sb_state) : sb_state * esp_err :=
  if sb_running s then (s, ESP_OK)
  else
    match config with
    | None => (s, ESP_ERR_INVALID_ARG)
    | Some c =>
      if sc_on_hold c =? 0 then (s, ESP_ERR_INVALID_ARG)
      else
        let c := if sc_gpio_num c <? 0 then c <| sc_gpio_num := SETUP_BUTTON_DEFAULT_GPIO |> else c in
        if GPIO_NUM_MAX <=? sc_gpio_num c then (s <| sb_config := c |>, ESP_ERR_INVALID_ARG)
        else
          let c := if sc_hold_ms c =? 0 then c <| sc_hold_ms := SETUP_BUTTON_DEFAULT_HOLD_MS |> else c in
          let c := if sc_poll_ms c =? 0 then c <| sc_poll_ms := SETUP_BUTTON_DEFAULT_POLL_MS |> else c in
          let s := s <| sb_config := c |> in
          if negb (err_ok gpio_configured) then (s, gpio_configured)
          else if task_created
          then (s <| sb_running := true |> <| sb_task := true |> <| sb_tasks := sb_tasks s ++ [fresh_task] |>, ESP_OK)
          else (s <| sb_running := false |> <| sb_task := false |>, ESP_ERR_NO_MEM)
    end.

Definition setup_button_stop (s : sb_state) : sb_state * esp_err :=
  if negb (sb_running s) then (s, ESP_OK) else (s <| sb_running := false |>, ESP_OK).
Definition setup_button_is_running (s : sb_state) : bool := sb_running s.
End button.

(** ** Specification *)
(** The callbacks of one task over the levels it reads. *)
Fixpoint task_calls (c : setup_button_config) (t : sb_task_state) (levels : list Z) : list bool :=
  match levels with
  | [] => []
  | level :: levels' =>
    let '(t', call) := setup_button_turn c level t in call :: task_calls c t' levels'
  end.

(** The callback comes with the [k]-th pressed poll in a row, [n] being the
    pressed polls so far. *)
Fixpoint calls_at (k n : nat) (pressed : list bool) : list bool :=
  match pressed with
  | [] => []
  | p :: pressed' =>
    let n' := if p then S n else O in bool_decide (n' = k) :: calls_at k n' pressed'
  end.

(** The polls a press must last: [hold_ms / poll_ms], rounded up. *)
Definition hold_polls (c : setup_button_config) : nat :=
  Z.to_nat ((sc_hold_ms c + sc_poll_ms c - 1) / sc_poll_ms c).

(** A configuration in force: no zero, and no wrap-around when a poll is added. *)
Definition config_sane (c : setup_button_config) : Prop :=
  0 < sc_hold_ms c ∧ 0 < sc_poll_ms c ∧ sc_hold_ms c + sc_poll_ms c ≤ U32_MAX + 1 ∧ sc_on_hold c ≠ 0.

(** The locals after [n] pressed polls in a row. *)
Definition task_after (c : setup_button_config) (n : nat) (t : sb_task_state) : Prop :=
  tk_pressed_ms t = Z.of_nat (n `min` hold_polls c) * sc_poll_ms c ∧ tk_armed t = bool_decide (n < hold_polls c)%nat.

(** The press is long enough from [hold_polls] polls on, and not before. *)
Lemma hold_polls_spec c m :
  config_sane c → (sc_hold_ms c ≤ Z.of_nat m * sc_poll_ms c) ↔ (hold_polls c ≤ m)%nat.
Proof.
  intros (Hh & Hp & _ & _). unfold hold_polls.
  pose proof (Z.div_mod (sc_hold_ms c + sc_poll_ms c - 1) (sc_poll_ms c) ltac:(lia)) as Hd.
  pose proof (Z.mod_pos_bound (sc_hold_ms c + sc_poll_ms c - 1) (sc_poll_ms c) Hp) as Hm.
  set (q := _ / _) in *. assert (0 ≤ q) by (apply Z.div_pos; lia). split; intros; nia.
Qed.

Lemma hold_polls_pos c : config_sane c → (0 < hold_polls c)%nat.
Proof.
  intros Hc. pose proof (hold_polls_spec c 0 Hc) as Hs. destruct Hc as (Hh & _).
  destruct (decide (hold_polls c = 0)%nat); [|lia]. assert (hold_polls c ≤ 0)%nat as Hle by lia. apply Hs in Hle. lia.
Qed.

Lemma task_after_turn c n t level :
  config_sane c → task_after c n t →
  let '(t', call) := setup_button_turn c level t in
  let n' := if button_pressed c level then S n else O in
  task_after c n' t' ∧ call = bool_decide (n' = hold_polls c).
Proof.
  intros Hc [Hms Har]. pose proof (hold_polls_pos c Hc) as Hk. unfold setup_button_turn.
  destruct (button_pressed c level).
  2: { split; [|rewrite bool_decide_eq_false_2; [done|lia]]. split; cbn; [done|].
       by rewrite bool_decide_eq_true_2. }
  assert (∀ m, (sc_hold_ms c ≤ Z.of_nat m * sc_poll_ms c) ↔ (hold_polls c ≤ m)%nat) as Hs
    by (intros m; by apply hold_polls_spec).
  assert ((if tk_pressed_ms t <? sc_hold_ms c then u32 (tk_pressed_ms t + sc_poll_ms c) else tk_pressed_ms t) =
          Z.of_nat (S n `min` hold_polls c) * sc_poll_ms c) as ->.
  { rewrite Hms. destruct (_ <? _) eqn:E; bools.
    - assert (n < hold_polls c)%nat.
      { destruct (decide (hold_polls c ≤ n)%nat) as [Hle|]; [|lia]. rewrite Nat.min_r in E by done.
        pose proof (proj2 (Hs (hold_polls c)) ltac:(lia)). lia. }
      rewrite (Nat.min_l n) in E |- * by lia. rewrite (Nat.min_l (S n)) by lia. rewrite u32_small; [lia|].
      destruct Hc as (Hh0 & Hp0 & Hw & _). unfold is_u32, U32_MAX in *. nia.
    - assert (hold_polls c ≤ n)%nat by (apply Hs in E; lia). by rewrite !Nat.min_r by lia. }
  assert ((sc_hold_ms c <=? Z.of_nat (S n `min` hold_polls c) * sc_poll_ms c) = bool_decide (hold_polls c ≤ S n)%nat) as ->.
  { apply eq_bool_prop_intro. rewrite bool_decide_spec, Is_true_true, Z.leb_le, Hs. lia. }
  rewrite Har. destruct Hc as (_ & _ & _ & Hcb).
  destruct (decide (n < hold_polls c)%nat); [rewrite (bool_decide_eq_true_2 (n < _)%nat) by done|
    rewrite (bool_decide_eq_false_2 (n < _)%nat) by done]; cbn [andb].
  - destruct (decide (hold_polls c ≤ S n)%nat); [rewrite (bool_decide_eq_true_2 (hold_polls c ≤ S n)%nat) by done|
      rewrite (bool_decide_eq_false_2 (hold_polls c ≤ S n)%nat) by done].
    + assert (S n = hold_polls c) by lia. rewrite (proj2 (Z.eqb_neq _ _) Hcb), bool_decide_eq_true_2 by done.
      split; [|done]. split; [done|]. cbn. rewrite bool_decide_eq_false_2; [done|lia].
    + rewrite bool_decide_eq_false_2 by lia. split; [|done]. split; [done|]. cbn.
      rewrite bool_decide_eq_true_2; [done|lia].
  - rewrite bool_decide_eq_false_2 by lia. split; [|done]. split; [done|]. cbn.
    rewrite bool_decide_eq_false_2; [done|lia].
Qed.

(** ** Properties *)

(** C40: One callback per press that is held long enough.  Over any sequence of
    pin levels a task calls back exactly at the polls that are the
    [hold_ms / poll_ms]-th (rounded up) pressed poll in a row: a shorter press
    calls nothing, a longer one calls once, and a new press needs a release. *)
Theorem setup_button_calls_exact c levels :
  config_sane c →
  task_calls c fresh_task levels = calls_at (hold_polls c) 0 (button_pressed c <$> levels).
Proof.
  intros Hc. assert (task_after c 0 fresh_task) as Ht.
  { split; [done|]. pose proof (hold_polls_pos c Hc). cbn. by rewrite bool_decide_eq_true_2. }
  revert Ht. generalize fresh_task O. induction levels as [|level levels IH]; intros t n Ht; [done|].
  cbn [task_calls calls_at fmap list_fmap]. pose proof (task_after_turn c n t level Hc Ht) as Hturn.
  destruct (setup_button_turn c level t) as [t' call]. destruct Hturn as [Ht' ->]. f_equal. by apply IH.
Qed.

(** A restart before the old task has seen the stop leaves both tasks alive:
    the button then calls back twice. *)
Definition restarted_button : sb_state :=
  let c := mk_setup_button_config 0 true 50 50 1 2 in
  let s := (setup_button_start 40 (Some c) ESP_OK true sb_boot).1 in
  (setup_button_start 40 (Some c) ESP_OK true (setup_button_stop s).1).1.
Lemma setup_button_restart_doubles :
  (setup_button_task 0 0 restarted_button).2 = Some (1, 2) ∧
  (setup_button_task 1 0 (setup_button_task 0 0 restarted_button).1).2 = Some (1, 2).
Proof. by vm_compute. Qed.

(** ** Witnesses *)
Definition witness_button : setup_button_config := mk_setup_button_config 0 true 120 50 1 2.

(** Three polls make 150 ms: a press of two polls, one of four, one of three. *)
Lemma setup_button_calls_exact_witness :
  task_calls witness_button fresh_task [0; 0; 1; 0; 0; 0; 0; 1; 0; 0; 0] =
  [false; false; false; false; false; true; false; false; false; false; true].
Proof.
  rewrite setup_button_calls_exact; [vm_compute; reflexivity|].
  repeat split; cbn; unfold U32_MAX; lia.
Defined.
