(* ===== verification/Zone_gateway.v ===== *)
(** * Zone gateway: address translation once the uplink is there

    [zone_gateway/zone_gateway.c].  A task waits for the station's IP address,
    enables NAPT on the access point and then watches the uplink.  The static
    variables are [zg_state]; a turn of the task runs from one [vTaskDelay] to
    the next, and [zs_pc] is where it stands between turns.  The answers of the
    Wi-Fi manager and of the network interfaces are arguments. *)

From S2P Require Import Prelude.

(** ** Data *)
Inductive zone_gateway_state :=
| ZONE_GATEWAY_STATE_STOPPED | ZONE_GATEWAY_STATE_WAITING_UPLINK | ZONE_GATEWAY_STATE_RUNNING
| ZONE_GATEWAY_STATE_ERROR.
#[export] Instance zone_gateway_state_dec : EqDecision zone_gateway_state.
Proof. solve_decision. Defined.

Record zone_gateway_config := mk_zone_gateway_config {
  zf_wait_for_sta_ip : bool;
  zf_wait_interval_ms : Z;
  zf_uplink_timeout_ms : Z;
  zf_set_sta_as_default : bool;
  zf_auto_recover : bool
}.

(** Where the task is: created, in the wait with [waited] ms behind it, or in
    the loop at its end. *)
Inductive gateway_pc := Pc_start | Pc_wait (waited : Z) | Pc_run.

(** [zs_pc] is [None] when [s_task] is NULL. *)
Record zg_state := mk_zg_state {
  zs_pc : option gateway_pc;
  zs_config : zone_gateway_config;
  zs_state : zone_gateway_state;
  zs_napt_enabled : bool;
  zs_stop_requested : bool;
  zs_start_attempts : Z;
  zs_last_error : esp_err
}.
#[export] Instance zg_state_settable : Settable zg_state := fun r =>
  mk_zg_state (zs_pc r) (zs_config r) (zs_state r) (zs_napt_enabled r) (zs_stop_requested r)
    (zs_start_attempts r) (zs_last_error r).

Definition load_default_config : zone_gateway_config := mk_zone_gateway_config true 500 30000 true false.
Definition zg_boot : zg_state :=
  mk_zg_state None (mk_zone_gateway_config false 0 0 false false) ZONE_GATEWAY_STATE_STOPPED false false 0 ESP_OK.

(** What the rest of the system answers during a turn. *)
Record uplink := mk_uplink {
  up_has_ip : bool;
  up_sta_netif : bool;
  up_ap_netif : bool;
  up_set_default : esp_err;
  up_napt_enable : esp_err;
  up_napt_disable : esp_err
}.

(** ** The task *)
Definition enable_gateway_napt (up : uplink) (s : zg_state) : zg_state * esp_err :=
  if negb (up_sta_netif up) || negb (up_ap_netif up) then (s, ESP_ERR_INVALID_STATE)
  else if zf_set_sta_as_default (zs_config s) && negb (err_ok (up_set_default up)) then (s, up_set_default up)
  else if negb (err_ok (up_napt_enable up)) then (s, up_napt_enable up)
  else (s <| zs_napt_enabled := true |>, ESP_OK).

Definition disable_gateway_napt (up : uplink) (s : zg_state) : zg_state * esp_err :=
  if negb (up_ap_netif up) then (s, ESP_ERR_INVALID_STATE)
  else if err_ok (up_napt_disable up) then (s <| zs_napt_enabled := false |>, ESP_OK)
  else (s, up_napt_disable up).

(** One pass of the wait: [inr] is its result, [inl] the time waited so far. *)
Definition wait_pass (up : uplink) (waited : Z) (s : zg_state) : Z + bool :=
  let c := zs_config s in
  let interval := if zf_wait_interval_ms c =? 0 then 500 else zf_wait_interval_ms c in
  if zs_stop_requested s then inr false
  else if up_has_ip up then inr true
  else if (0 <? zf_uplink_timeout_ms c) && (zf_uplink_timeout_ms c <=? waited) then inr false
  else inl (u32 (waited + interval)).

(** One pass of the loop at the end, until its delay or the end of the task. *)
Definition run_pass (up : uplink) (s : zg_state) : zg_state :=
  if zs_stop_requested s then
    (disable_gateway_napt up s).1 <| zs_state := ZONE_GATEWAY_STATE_STOPPED |> <| zs_pc := None |>
  else
    let s :=
      if zf_auto_recover (zs_config s) then
        if negb (up_has_ip up) then s <| zs_state := ZONE_GATEWAY_STATE_WAITING_UPLINK |>
        else match zs_state s with
             | ZONE_GATEWAY_STATE_WAITING_UPLINK => s <| zs_state := ZONE_GATEWAY_STATE_RUNNING |>
             | _ => s
             end
      else s in
    s <| zs_pc := Some Pc_run |>.

(** The task gives up: [goto] the end with an error. *)
Definition task_failed (err : esp_err) (s : zg_state) : zg_state :=
  s <| zs_state := ZONE_GATEWAY_STATE_ERROR |> <| zs_last_error := err |> <| zs_pc := None |>.

(** From the end of the wait to the first delay of the loop. *)
Definition after_wait (up : uplink) (s : zg_state) : zg_state :=
  let s := s <| zs_start_attempts := inc32 (zs_start_attempts s) |> in
  let '(s, err) := enable_gateway_napt up s in
  if negb (err_ok err) then task_failed err s
  else run_pass up (s <| zs_state := ZONE_GATEWAY_STATE_RUNNING |>).

Definition wait_turn (up : uplink) (waited : Z) (s : zg_state) : zg_state :=
  match wait_pass up waited s with
  | inl waited => s <| zs_pc := Some (Pc_wait waited) |>
  | inr true => after_wait up s
  | inr false => task_failed ESP_ERR_TIMEOUT s
  end.

Definition gateway_task (up : uplink) (s : zg_state) : zg_state :=
  match zs_pc s with
  | None => s
  | Some Pc_start =>
    let s := s <| zs_state := ZONE_GATEWAY_STATE_WAITING_UPLINK |> <| zs_napt_enabled := false |>
               <| zs_last_error := ESP_OK |> in
    if zf_wait_for_sta_ip (zs_config s) then wait_turn up 0 s else after_wait up s
  | Some (Pc_wait waited) => wait_turn up waited s
  | Some Pc_run => run_pass up s
  end.

(** ** Calls *)
Definition zone_gateway_start (config : option zone_gateway_config) (task_created : bool) (s : zg_state) :
    zg_state * esp_err :=
  match zs_pc s with
  | Some _ => (s, ESP_OK)
  | None =>
    let c := match config with
             | None => load_default_config
             | Some c => if zf_wait_interval_ms c =? 0
                         then mk_zone_gateway_config (zf_wait_for_sta_ip c) 500 (zf_uplink_timeout_ms c)
                                (zf_set_sta_as_default c) (zf_auto_recover c)
                         else c
             end in
    let s := s <| zs_config := c |> <| zs_stop_requested := false |>
               <| zs_state := ZONE_GATEWAY_STATE_WAITING_UPLINK |> <| zs_napt_enabled := false |>
               <| zs_last_error := ESP_OK |> in
    if task_created then (s <| zs_pc := Some Pc_start |>, ESP_OK)
    else (s <| zs_state := ZONE_GATEWAY_STATE_ERROR |> <| zs_last_error := ESP_ERR_NO_MEM |>, ESP_ERR_NO_MEM)
  end.

Definition zone_gateway_stop (s : zg_state) : zg_state * esp_err :=
  match zs_pc s with None => (s, ESP_OK) | Some _ => (s <| zs_stop_requested := true |>, ESP_OK) end.

Definition zone_gateway_is_running (s : zg_state) : bool :=
  bool_decide (zs_state s = ZONE_GATEWAY_STATE_RUNNING).
Definition zone_gateway_is_napt_enabled (s : zg_state) : bool := zs_napt_enabled s.

Record zone_gateway_status := mk_zone_gateway_status {
  zt_state : zone_gateway_state;
  zt_napt_enabled : bool;
  zt_sta_has_ip : bool;
  zt_start_attempts : Z;
  zt_last_error : esp_err
}.
Definition zone_gateway_get_status (has_ip : bool) (s : zg_state) : zone_gateway_status :=
  mk_zone_gateway_status (zs_state s) (zs_napt_enabled s) has_ip (zs_start_attempts s) (zs_last_error s).

(** The polling loop of [zone_gateway_start_and_wait]; [seen i] is the state at
    the [i]-th poll, which other tasks change meanwhile.  [None] is an exhausted
    fuel. *)
Fixpoint start_wait_loop (fuel : nat) (seen : nat → zg_state) (i : nat) (waited timeout_ms poll_ms : Z) :
    option esp_err :=
  match fuel with
  | O => None
  | S fuel' =>
    if timeout_ms <=? waited then Some ESP_ERR_TIMEOUT
    else if zone_gateway_is_running (seen i) && zone_gateway_is_napt_enabled (seen i) then Some ESP_OK
    else start_wait_loop fuel' seen (S i) (u32 (waited + poll_ms)) timeout_ms poll_ms
  end.

Definition zone_gateway_start_and_wait (fuel : nat) (config : option zone_gateway_config) (task_created : bool)
    (seen : zg_state → nat → zg_state) (timeout_ms poll_ms : Z) (s : zg_state) : zg_state * option esp_err :=
  let '(s, err) := zone_gateway_start config task_created s in
  if negb (err_ok err) then (s, Some err)
  else
    let poll_ms := if poll_ms =? 0 then 250 else poll_ms in
    (s, start_wait_loop fuel (seen s) 0 0 timeout_ms poll_ms).

(** ** Everything that happens *)
Inductive zg_op :=
| ZgStart (config : option zone_gateway_config) (task_created : bool)
| ZgStop
| ZgTurn (up : uplink).
Definition zg_step (s : zg_state) (op : zg_op) : zg_state :=
  match op with
  | ZgStart config task_created => (zone_gateway_start config task_created s).1
  | ZgStop => (zone_gateway_stop s).1
  | ZgTurn up => gateway_task up s
  end.
Definition zg_run (s : zg_state) (ops : list zg_op) : zg_state := fold_left zg_step ops s.

(** What the reported state means. *)
Record zg_inv (s : zg_state) : Prop := mk_zg_inv {
  zgi_running : zs_state s = ZONE_GATEWAY_STATE_RUNNING → zs_pc s = Some Pc_run ∧ zs_napt_enabled s = true;
  zgi_loop : zs_pc s = Some Pc_run →
             zs_napt_enabled s = true ∧
             (zs_state s = ZONE_GATEWAY_STATE_RUNNING ∨ zs_state s = ZONE_GATEWAY_STATE_WAITING_UPLINK);
  zgi_ended : zs_pc s = None →
              zs_state s = ZONE_GATEWAY_STATE_STOPPED ∨ zs_state s = ZONE_GATEWAY_STATE_ERROR;
  zgi_error : zs_state s = ZONE_GATEWAY_STATE_ERROR → zs_last_error s ≠ ESP_OK ∧ zs_napt_enabled s = false;
  zgi_waiting : ∀ waited, zs_pc s = Some Pc_start ∨ zs_pc s = Some (Pc_wait waited) →
                zs_state s = ZONE_GATEWAY_STATE_WAITING_UPLINK ∧ zs_napt_enabled s = false;
  zgi_interval : zs_pc s ≠ None → zf_wait_interval_ms (zs_config s) ≠ 0
}.

(** The clauses of the invariant, case by case. *)
Ltac zg_clauses := split; cbn; intros; destruct_or?; simplify_eq; auto; try congruence; try done.

Lemma err_ok_iff e : err_ok e = true ↔ e = ESP_OK.
Proof. unfold err_ok, err_eqb. apply bool_decide_eq_true. Qed.

Lemma run_pass_inv up s :
  zs_napt_enabled s = true → zf_wait_interval_ms (zs_config s) ≠ 0 →
  zs_state s = ZONE_GATEWAY_STATE_RUNNING ∨ zs_state s = ZONE_GATEWAY_STATE_WAITING_UPLINK →
  zg_inv (run_pass up s).
Proof.
  intros Hn Hi Hs. unfold run_pass. destruct (zs_stop_requested s).
  - unfold disable_gateway_napt. destruct (up_ap_netif up); [destruct (err_ok (up_napt_disable up))|]; zg_clauses.
  - destruct (zf_auto_recover _); [destruct (up_has_ip up); [destruct Hs as [E|E]; rewrite E|]|]; zg_clauses.
Qed.

Lemma task_failed_inv err s : err ≠ ESP_OK → zs_napt_enabled s = false → zg_inv (task_failed err s).
Proof. intros He Hn. zg_clauses. Qed.

Lemma after_wait_inv up s :
  zs_napt_enabled s = false → zf_wait_interval_ms (zs_config s) ≠ 0 → zg_inv (after_wait up s).
Proof.
  intros Hn Hi. unfold after_wait, enable_gateway_napt. cbn [zs_config].
  destruct (_ || _); [by apply task_failed_inv|].
  destruct (_ && _) eqn:Ed.
  { apply andb_true_iff in Ed as [_ Ed]. apply negb_true_iff in Ed. rewrite Ed. cbn [negb].
    apply task_failed_inv; [|done]. intros E. by rewrite (proj2 (err_ok_iff _) E) in Ed. }
  destruct (err_ok (up_napt_enable up)) eqn:En; cbn [negb].
  - change (err_ok ESP_OK) with true. cbn [negb]. apply run_pass_inv; [done|done|by left].
  - rewrite En. cbn [negb]. apply task_failed_inv; [|done]. intros E. by rewrite (proj2 (err_ok_iff _) E) in En.
Qed.

Lemma wait_turn_inv up waited s :
  zs_napt_enabled s = false → zf_wait_interval_ms (zs_config s) ≠ 0 →
  zs_state s = ZONE_GATEWAY_STATE_WAITING_UPLINK → zg_inv (wait_turn up waited s).
Proof.
  intros Hn Hi Hs. unfold wait_turn. destruct (wait_pass up waited s) as [w|[]].
  - zg_clauses.
  - by apply after_wait_inv.
  - by apply task_failed_inv.
Qed.

Lemma zg_step_inv s op : zg_inv s → zg_inv (zg_step s op).
Proof.
  intros Hi. destruct op as [config created| |up]; cbn [zg_step].
  - unfold zone_gateway_start. destruct (zs_pc s) eqn:Ep; [done|].
    set (c := match config with None => _ | Some _ => _ end).
    assert (zf_wait_interval_ms c ≠ 0) as Hc.
    { unfold c. destruct config as [c0|]; [|done]. destruct (_ =? 0) eqn:E; [done|]. by apply Z.eqb_neq in E. }
    destruct created; zg_clauses.
  - unfold zone_gateway_stop. destruct (zs_pc s) eqn:Ep; [|done]. destruct Hi. split; cbn; rewrite ?Ep in *; auto.
  - unfold gateway_task. destruct Hi as [Hr Hl He Her Hw Hiv]. destruct (zs_pc s) as [[|waited|]|] eqn:Ep.
    + cbn [zs_config]. destruct (zf_wait_for_sta_ip _); [apply wait_turn_inv|apply after_wait_inv]; try done; by apply Hiv.
    + destruct (Hw waited) as [Hs Hn]; [by right|]. apply wait_turn_inv; [done|by apply Hiv|done].
    + destruct (Hl eq_refl) as [Hn Hs]. apply run_pass_inv; [done|by apply Hiv|done].
    + split; rewrite ?Ep; done.
Qed.






(** [zone_gateway_start_and_wait] polls a bounded number of times. *)
Lemma start_wait_ends fuel seen i waited timeout_ms poll_ms :
  0 < poll_ms → timeout_ms + poll_ms ≤ U32_MAX + 1 → 0 ≤ waited →
  timeout_ms ≤ waited + (Z.of_nat fuel - 1) * poll_ms → (0 < fuel)%nat →
  ∃ err, start_wait_loop fuel seen i waited timeout_ms poll_ms = Some err ∧
    (err = ESP_OK → ∃ j, zone_gateway_is_running (seen j) = true ∧ zone_gateway_is_napt_enabled (seen j) = true).
Proof.
  intros Hp Hw. revert i waited. induction fuel as [|fuel IH]; intros i waited H0 Hn Hf; [lia|]. cbn [start_wait_loop].
  destruct (timeout_ms <=? waited) eqn:El; [by eexists|]. apply Z.leb_gt in El.
  destruct (_ && _) eqn:Er; [apply andb_true_iff in Er; by eauto|].
  rewrite u32_small by (unfold is_u32, U32_MAX in *; lia). apply IH; nia.
Qed.

(** With a timeout of [UINT32_MAX] the counter wraps past it: the call never
    times out. *)
Lemma start_wait_wraps fuel seen i waited :
  (∀ j, zone_gateway_is_running (seen j) = false) → is_u32 waited → waited mod 2 = 0 →
  start_wait_loop fuel seen i waited U32_MAX 250 = None.
Proof.
  intros Hs. revert i waited. induction fuel as [|fuel IH]; intros i waited Hw Hm; [done|]. cbn [start_wait_loop].
  assert ((U32_MAX <=? waited) = false) as ->.
  { apply Z.leb_gt. unfold is_u32, U32_MAX in *. destruct (decide (waited = 4294967295)) as [->|]; [done|lia]. }
  rewrite Hs. cbn [andb]. apply IH; [apply u32_range|].
  unfold u32. rewrite <- (Znumtheory.Zmod_div_mod 2 4294967296) by (try lia; by exists 2147483648).
  rewrite Z.add_mod, Hm by lia. done.
Qed.

(** ** Properties *)

(** C38: RUNNING means NAT.  After any sequence of starts, stops and turns of the
    task, under any answers of the system: the gateway reports RUNNING only
    while its task is in its loop and NAPT is enabled; while it waits NAPT is
    off; when the task has ended the state is STOPPED or ERROR; ERROR always
    comes with an error code and with NAPT off. *)
Theorem zone_gateway_run_invariant ops : zg_inv (zg_run zg_boot ops).
Proof.
  assert (zg_inv zg_boot) as Hi by zg_clauses. revert Hi. generalize zg_boot.
  induction ops as [|op ops IH]; intros s Hi; [done|]. by apply IH, zg_step_inv.
Qed.



