(* ===== verification/Wifi_driver.v ===== *)
(** * The Wi-Fi driver as its callers see it

    [wifi_manager] and [setup_ap] are sequences of ESP-IDF calls.  A call is a
    value of [wifi_call]; a component's calls are appended, each with the error
    code it was answered with, to a log.  The driver itself is not part of the
    repository: what it answers is a function of everything called so far. *)

From S2P Require Import Prelude Bytes.

Inductive wifi_mode := WIFI_MODE_AP | WIFI_MODE_APSTA.
Inductive wifi_auth_mode := WIFI_AUTH_OPEN | WIFI_AUTH_WPA2_PSK | WIFI_AUTH_WPA_WPA2_PSK.
#[export] Instance wifi_mode_dec : EqDecision wifi_mode.
Proof. solve_decision. Defined.

(** The members of [wifi_config_t] the code sets; [ws_sae_both] is the choice
    WPA3_SAE_PWE_BOTH. *)
Record wifi_sta_config := mk_wifi_sta_config {
  ws_ssid : bytes;
  ws_password : bytes;
  ws_threshold : wifi_auth_mode;
  ws_sae_both : bool
}.
Record wifi_ap_config := mk_wifi_ap_config {
  wa_ssid : bytes;
  wa_password : bytes;
  wa_ssid_len : Z;
  wa_channel : Z;
  wa_max_connection : Z;
  wa_authmode : wifi_auth_mode;
  wa_ssid_hidden : bool
}.

Inductive wifi_call :=
| Call_nvs_flash_init | Call_nvs_flash_erase
| Call_esp_netif_init | Call_esp_event_loop_create_default
| Call_esp_wifi_init | Call_esp_wifi_deinit
| Call_register_wifi_handler | Call_register_ip_handler
| Call_esp_wifi_set_mode (mode : wifi_mode)
| Call_esp_wifi_set_config_sta (config : wifi_sta_config)
| Call_esp_wifi_set_config_ap (config : wifi_ap_config)
| Call_esp_wifi_set_ps_none
| Call_esp_wifi_start | Call_esp_wifi_stop
| Call_esp_wifi_connect | Call_esp_wifi_disconnect.

Definition wifi_log : Type := list (wifi_call * esp_err).

Definition ESP_ERR_WIFI_NOT_STARTED : esp_err := ESP_ERR_OTHER 12290.

(** Creating an interface answers its handle, 0 for NULL. *)
Record wifi_driver := mk_wifi_driver {
  wd_call : wifi_log → wifi_call → esp_err;
  wd_event_group : wifi_log → bool;
  wd_sta_netif : wifi_log → Z;
  wd_ap_netif : wifi_log → Z
}.
Definition good_driver : wifi_driver :=
  mk_wifi_driver (fun _ _ => ESP_OK) (fun _ => true) (fun _ => 1) (fun _ => 2).

(** ** Reading a log *)
Definition mode_of (e : wifi_call * esp_err) : option wifi_mode :=
  match e with (Call_esp_wifi_set_mode m, ESP_OK) => Some m | _ => None end.
Definition sta_config_of (e : wifi_call * esp_err) : option wifi_sta_config :=
  match e with (Call_esp_wifi_set_config_sta c, ESP_OK) => Some c | _ => None end.
Definition ap_config_of (e : wifi_call * esp_err) : option wifi_ap_config :=
  match e with (Call_esp_wifi_set_config_ap c, ESP_OK) => Some c | _ => None end.
(** The last setting the driver accepted. *)
Definition last_set {A} (f : wifi_call * esp_err → option A) (log : wifi_log) : option A := last (omap f log).
Definition radio_mode : wifi_log → option wifi_mode := last_set mode_of.

Definition is_connect (e : wifi_call * esp_err) : bool :=
  match e.1 with Call_esp_wifi_connect => true | _ => false end.
Definition is_wifi_registration (e : wifi_call * esp_err) : bool :=
  match e with (Call_register_wifi_handler, ESP_OK) => true | _ => false end.
Definition is_ip_registration (e : wifi_call * esp_err) : bool :=
  match e with (Call_register_ip_handler, ESP_OK) => true | _ => false end.
Definition count_calls (f : wifi_call * esp_err → bool) (log : wifi_log) : nat := List.length (List.filter f log).

Lemma last_set_app {A} (f : wifi_call * esp_err → option A) log e :
  last_set f (log ++ [e]) = match f e with Some a => Some a | None => last_set f log end.
Proof. apply last_omap_snoc. Qed.

Lemma count_calls_app f log e :
  count_calls f (log ++ [e]) = (count_calls f log + if f e then 1 else 0)%nat.
Proof. unfold count_calls. rewrite List.filter_app, length_app. cbn. by destruct (f e). Qed.
