(* ===== verification/Wifi_manager.v ===== *)
(** * Wi-Fi manager: station and access point

    [wifi_manager/wifi_manager.c].  The static variables are [wm_state], with
    the log of driver calls; the FreeRTOS event group is the pair of its two
    bits.  The event loop calls [handle_wifi_event] once per registration, so a
    second start after a stop makes every event count twice. *)

From S2P Require Import Prelude Bytes Event_bus Wifi_driver.

(** ** Data *)
Definition WIFI_MANAGER_MAX_SSID_LEN : nat := 32.
Definition WIFI_MANAGER_MAX_PASSWORD_LEN : nat := 64.

Record wifi_manager_config := mk_wifi_manager_config {
  wc_sta_ssid : bytes;
  wc_sta_password : bytes;
  wc_ap_ssid : bytes;
  wc_ap_password : bytes;
  wc_ap_channel : Z;
  wc_ap_max_connections : Z;
  wc_sta_max_retries : Z;
  wc_ap_hidden : bool
}.
#[export] Instance wifi_manager_config_settable : Settable wifi_manager_config := fun r =>
  mk_wifi_manager_config (wc_sta_ssid r) (wc_sta_password r) (wc_ap_ssid r) (wc_ap_password r)
    (wc_ap_channel r) (wc_ap_max_connections r) (wc_sta_max_retries r) (wc_ap_hidden r).

Definition wifi_config_zero : wifi_manager_config :=
  mk_wifi_manager_config (zeros WIFI_MANAGER_MAX_SSID_LEN) (zeros WIFI_MANAGER_MAX_PASSWORD_LEN)
    (zeros WIFI_MANAGER_MAX_SSID_LEN) (zeros WIFI_MANAGER_MAX_PASSWORD_LEN) 0 0 0 false.

Inductive wifi_manager_sta_state :=
| WIFI_MANAGER_STA_DISCONNECTED | WIFI_MANAGER_STA_CONNECTING | WIFI_MANAGER_STA_CONNECTED
| WIFI_MANAGER_STA_GOT_IP.

(** The bits WIFI_MANAGER_BIT_STA_CONNECTED and WIFI_MANAGER_BIT_STA_GOT_IP. *)
Record group_bits := mk_group_bits { gb_connected : bool; gb_got_ip : bool }.
#[export] Instance group_bits_settable : Settable group_bits := fun r =>
  mk_group_bits (gb_connected r) (gb_got_ip r).
Definition no_bits : group_bits := mk_group_bits false false.

Record wm_state := mk_wm_state {
  wm_event_group : option group_bits;
  wm_sta_netif : Z;
  wm_ap_netif : Z;
  wm_config : wifi_manager_config;
  wm_normal_config : wifi_manager_config;
  wm_sta_state : wifi_manager_sta_state;
  wm_retry_count : Z;
  wm_clients : Z;
  wm_started : bool;
  wm_normal_valid : bool;
  wm_ap_only : bool;
  wm_log : wifi_log
}.
#[export] Instance wm_state_settable : Settable wm_state := fun r =>
  mk_wm_state (wm_event_group r) (wm_sta_netif r) (wm_ap_netif r) (wm_config r) (wm_normal_config r)
    (wm_sta_state r) (wm_retry_count r) (wm_clients r) (wm_started r) (wm_normal_valid r) (wm_ap_only r)
    (wm_log r).

Definition wm_boot : wm_state :=
  mk_wm_state None 0 0 wifi_config_zero wifi_config_zero WIFI_MANAGER_STA_DISCONNECTED 0 0 false false false [].

Section manager.
Context `{QE : Queue zg_event} (d : wifi_driver).

(** ** Driver calls *)
Definition ask (c : wifi_call) (w : wm_state) : wm_state * esp_err :=
  let e := wd_call d (wm_log w) c in (w <| wm_log ::= fun l => l ++ [(c, e)] |>, e).

(** [ESP_ERROR_CHECK]: [None] is the abort. *)
Definition esp_error_check (r : wm_state * esp_err) : option wm_state :=
  if err_ok r.2 then Some r.1 else None.

(** [if (err == ESP_OK) err = ...;]. *)
Definition then_ok (r : wm_state * esp_err) (k : wm_state → wm_state * esp_err) : wm_state * esp_err :=
  if err_ok r.2 then k r.1 else r.

Definition init_nvs_if_needed (w : wm_state) : option (wm_state * esp_err) :=
  let '(w, ret) := ask Call_nvs_flash_init w in
  if err_eqb ret ESP_ERR_NVS_NO_FREE_PAGES || err_eqb ret ESP_ERR_NVS_NEW_VERSION_FOUND then
    w ← esp_error_check (ask Call_nvs_flash_erase w); Some (ask Call_nvs_flash_init w)
  else Some (w, ret).

Definition init_netif_and_event_loop (w : wm_state) : wm_state * esp_err :=
  let '(w, ret) := ask Call_esp_netif_init w in
  if negb (err_ok ret) && negb (err_eqb ret ESP_ERR_INVALID_STATE) then (w, ret)
  else
    let '(w, ret) := ask Call_esp_event_loop_create_default w in
    if negb (err_ok ret) && negb (err_eqb ret ESP_ERR_INVALID_STATE) then (w, ret) else (w, ESP_OK).

Definition get_ap_auth_mode (password : option bytes) : wifi_auth_mode :=
  match password with
  | None => WIFI_AUTH_OPEN
  | Some p => if nth 0 p 0 =? 0 then WIFI_AUTH_OPEN else WIFI_AUTH_WPA_WPA2_PSK
  end.

(** ** Event handlers *)
Inductive wifi_event :=
| WIFI_EVENT_STA_START
| WIFI_EVENT_STA_CONNECTED
| WIFI_EVENT_STA_DISCONNECTED
| WIFI_EVENT_AP_START
| WIFI_EVENT_AP_STOP
| WIFI_EVENT_AP_STACONNECTED (aid : Z)
| WIFI_EVENT_AP_STADISCONNECTED (aid : Z)
| WIFI_EVENT_OTHER.

(** [timer_us] is the clock of the event bus. *)
Definition publish_ap_client_event (type : zg_event_type) (reason : bytes) (aid timer_us : Z) (bus : eb_state) :
    eb_state :=
  (event_bus_publish
     (Some (mk_zg_event type 0 0 aid 0 0 0 0 0 0 0 (safe_copy (zeros 48) (Some reason)))) timer_us bus).1.

Definition handle_wifi_event (timer_us : Z) (ev : wifi_event) (s : wm_state * eb_state) : wm_state * eb_state :=
  let '(w, bus) := s in
  match ev with
  | WIFI_EVENT_STA_START =>
    ((ask Call_esp_wifi_connect (w <| wm_sta_state := WIFI_MANAGER_STA_CONNECTING |>)).1, bus)
  | WIFI_EVENT_STA_CONNECTED =>
    let w := w <| wm_sta_state := WIFI_MANAGER_STA_CONNECTED |> <| wm_retry_count := 0 |> in
    (w <| wm_event_group ::= fmap (fun g => g <| gb_connected := true |>) |>, bus)
  | WIFI_EVENT_STA_DISCONNECTED =>
    let w := w <| wm_event_group ::= fmap (fun _ => no_bits) |> in
    let w := w <| wm_sta_state := WIFI_MANAGER_STA_DISCONNECTED |> in
    if wm_ap_only w then (w, bus)
    else if wm_retry_count w <? wc_sta_max_retries (wm_config w) then
      let w := w <| wm_retry_count ::= fun n => u8 (n + 1) |> in
      ((ask Call_esp_wifi_connect (w <| wm_sta_state := WIFI_MANAGER_STA_CONNECTING |>)).1, bus)
    else (w, bus)
  | WIFI_EVENT_AP_STACONNECTED aid =>
    (w <| wm_clients ::= fun n => u8 (n + 1) |>,
     publish_ap_client_event ZG_EVENT_AP_CLIENT_JOINED (lit "ap_client_joined") aid timer_us bus)
  | WIFI_EVENT_AP_STADISCONNECTED aid =>
    (w <| wm_clients ::= dec_if_pos |>,
     publish_ap_client_event ZG_EVENT_AP_CLIENT_LEFT (lit "ap_client_left") aid timer_us bus)
  | WIFI_EVENT_AP_START | WIFI_EVENT_AP_STOP | WIFI_EVENT_OTHER => (w, bus)
  end.

(** [got_ip] is [event_id == IP_EVENT_STA_GOT_IP]. *)
Definition handle_ip_event (got_ip : bool) (w : wm_state) : wm_state :=
  if got_ip then
    w <| wm_sta_state := WIFI_MANAGER_STA_GOT_IP |>
      <| wm_event_group ::= fmap (fun g => g <| gb_got_ip := true |>) |>
  else w.

(** ** Configuration *)
Definition sta_config_from (config : wifi_manager_config) : wifi_sta_config :=
  mk_wifi_sta_config (safe_copy (zeros 32) (Some (wc_sta_ssid config)))
    (safe_copy (zeros 64) (Some (wc_sta_password config))) WIFI_AUTH_WPA2_PSK true.

Definition configure_sta_from (config : option wifi_manager_config) (w : wm_state) : wm_state * esp_err :=
  match config with
  | None => (w, ESP_ERR_INVALID_ARG)
  | Some config => ask (Call_esp_wifi_set_config_sta (sta_config_from config)) w
  end.

(** The struct from its [ap_ssid] on: [strlen] reads on where the name fills its
    array. *)
Definition config_from_ap_ssid (config : wifi_manager_config) : bytes :=
  wc_ap_ssid config ++ wc_ap_password config ++
  [wc_ap_channel config; wc_ap_max_connections config; wc_sta_max_retries config; if wc_ap_hidden config then 1 else 0].

Definition ap_config_from (config : wifi_manager_config) : wifi_ap_config :=
  mk_wifi_ap_config (safe_copy (zeros 32) (Some (wc_ap_ssid config)))
    (safe_copy (zeros 64) (Some (wc_ap_password config)))
    (u8 (Z.of_nat (strlen (config_from_ap_ssid config))))
    (if wc_ap_channel config =? 0 then 6 else wc_ap_channel config)
    (if wc_ap_max_connections config =? 0 then 4 else wc_ap_max_connections config)
    (get_ap_auth_mode (Some (wc_ap_password config))) (wc_ap_hidden config).

Definition configure_ap_from (config : option wifi_manager_config) (w : wm_state) : wm_state * esp_err :=
  match config with
  | None => (w, ESP_ERR_INVALID_ARG)
  | Some config => ask (Call_esp_wifi_set_config_ap (ap_config_from config)) w
  end.

(** ** Calls *)
Definition with_defaults (c : wifi_manager_config) : wifi_manager_config :=
  let c := if wc_ap_channel c =? 0 then c <| wc_ap_channel := 6 |> else c in
  let c := if wc_ap_max_connections c =? 0 then c <| wc_ap_max_connections := 4 |> else c in
  if wc_sta_max_retries c =? 0 then c <| wc_sta_max_retries := 10 |> else c.

Definition wipe_passwords (c : wifi_manager_config) : wifi_manager_config :=
  c <| wc_sta_password := zeros WIFI_MANAGER_MAX_PASSWORD_LEN |>
    <| wc_ap_password := zeros WIFI_MANAGER_MAX_PASSWORD_LEN |>.

(** From the interfaces on: the calls under [ESP_ERROR_CHECK]. *)
Definition start_radio (w : wm_state) : option (wm_state * esp_err) :=
  w ← esp_error_check (ask Call_esp_wifi_init w);
  w ← esp_error_check (ask Call_register_wifi_handler w);
  w ← esp_error_check (ask Call_register_ip_handler w);
  w ← esp_error_check (ask (Call_esp_wifi_set_mode WIFI_MODE_APSTA) w);
  w ← esp_error_check (configure_sta_from (Some (wm_config w)) w);
  w ← esp_error_check (configure_ap_from (Some (wm_config w)) w);
  w ← esp_error_check (ask Call_esp_wifi_set_ps_none (w <| wm_config ::= wipe_passwords |>));
  w ← esp_error_check (ask Call_esp_wifi_start w);
  Some (w <| wm_started := true |>, ESP_OK).

Definition wifi_manager_start (config : option wifi_manager_config) (w : wm_state) : option (wm_state * esp_err) :=
  match config with
  | None => Some (w, ESP_ERR_INVALID_ARG)
  | Some config =>
    if wm_started w then Some (w, ESP_OK) else
    let c := with_defaults config in
    let w := w <| wm_config := c |> <| wm_normal_config := c |> <| wm_normal_valid := true |> <| wm_ap_only := false |> in
    '(w, ret) ← init_nvs_if_needed w;
    w ← esp_error_check (w, ret);
    w ← esp_error_check (init_netif_and_event_loop w);
    let w := w <| wm_event_group := if wd_event_group d (wm_log w) then Some no_bits else None |> in
    if negb (wd_event_group d (wm_log w)) then Some (w <| wm_config := wifi_config_zero |>, ESP_ERR_NO_MEM) else
    let w := w <| wm_sta_netif := wd_sta_netif d (wm_log w) |> in
    if wm_sta_netif w =? 0 then Some (w <| wm_config := wifi_config_zero |>, ESP_FAIL) else
    let w := w <| wm_ap_netif := wd_ap_netif d (wm_log w) |> in
    if wm_ap_netif w =? 0 then Some (w <| wm_config := wifi_config_zero |>, ESP_FAIL) else
    start_radio w
  end.

Definition wifi_manager_stop (w : wm_state) : wm_state * esp_err :=
  if negb (wm_started w) then (w, ESP_OK) else
  let '(w, ret) := ask Call_esp_wifi_stop w in
  if negb (err_ok ret) then (w, ret) else
  let '(w, ret) := ask Call_esp_wifi_deinit w in
  if negb (err_ok ret) then (w, ret) else
  let w := w <| wm_event_group := None |> in
  let w := w <| wm_sta_netif := 0 |> <| wm_ap_netif := 0 |> in
  let w := w <| wm_sta_state := WIFI_MANAGER_STA_DISCONNECTED |> <| wm_retry_count := 0 |> <| wm_clients := 0 |> in
  let w := w <| wm_config := wifi_config_zero |> <| wm_started := false |> in
  (w <| wm_normal_valid := false |> <| wm_ap_only := false |> <| wm_normal_config := wifi_config_zero |>, ESP_OK).

Definition temporary_ap_config (ssid : bytes) (password : option bytes) (max_connections : Z) (w : wm_state) :
    wifi_manager_config :=
  wifi_config_zero <| wc_ap_ssid := safe_copy (zeros WIFI_MANAGER_MAX_SSID_LEN) (Some ssid) |>
    <| wc_ap_password := safe_copy (zeros WIFI_MANAGER_MAX_PASSWORD_LEN) password |>
    <| wc_ap_channel := if wm_normal_valid w then wc_ap_channel (wm_normal_config w) else 6 |>
    <| wc_ap_max_connections := if max_connections =? 0 then 1 else max_connections |>.

Definition wifi_manager_switch_to_ap (ssid password : option bytes) (max_connections : Z) (w : wm_state) :
    wm_state * esp_err :=
  match wm_started w, ssid with
  | true, Some ssid =>
    if nth 0 ssid 0 =? 0 then (w, ESP_ERR_INVALID_ARG) else
    let ap_config := temporary_ap_config ssid password max_connections w in
    let w := w <| wm_event_group ::= fmap (fun _ => no_bits) |> in
    let w := w <| wm_sta_state := WIFI_MANAGER_STA_DISCONNECTED |> <| wm_retry_count := 0 |> <| wm_clients := 0 |>
               <| wm_ap_only := true |> in
    let w := (ask Call_esp_wifi_disconnect w).1 in
    let '(w, err) := then_ok (ask (Call_esp_wifi_set_mode WIFI_MODE_AP) w) (configure_ap_from (Some ap_config)) in
    if negb (err_ok err) then (w <| wm_ap_only := false |>, err) else (w, ESP_OK)
  | _, _ => (w, ESP_ERR_INVALID_ARG)
  end.

(** The chain of calls of [wifi_manager_restore_normal]. *)
Definition restore_calls (w : wm_state) : wm_state * esp_err :=
  let '(w, err) := ask Call_esp_wifi_stop w in
  let err := if err_eqb err ESP_ERR_WIFI_NOT_STARTED then ESP_OK else err in
  let r := then_ok (w, err) (ask (Call_esp_wifi_set_mode WIFI_MODE_APSTA)) in
  let r := then_ok r (configure_sta_from (Some (wm_normal_config w))) in
  let r := then_ok r (configure_ap_from (Some (wm_normal_config w))) in
  let r := then_ok r (ask Call_esp_wifi_start) in
  then_ok r (ask Call_esp_wifi_connect).

Definition wifi_manager_restore_normal (w : wm_state) : wm_state * esp_err :=
  if negb (wm_started w) then (w, ESP_ERR_INVALID_STATE)
  else if negb (wm_normal_valid w) then (w, ESP_ERR_INVALID_STATE)
  else if negb (wm_ap_only w) then (w, ESP_OK)
  else
    let '(w, err) := restore_calls (w <| wm_ap_only := false |> <| wm_clients := 0 |>) in
    if negb (err_ok err) then (w, err)
    else (w <| wm_sta_state := WIFI_MANAGER_STA_CONNECTING |> <| wm_retry_count := 0 |>, ESP_OK).

Definition wifi_manager_is_sta_connected (w : wm_state) : bool :=
  match wm_event_group w with None => false | Some g => gb_connected g end.
Definition wifi_manager_has_ip (w : wm_state) : bool :=
  match wm_event_group w with None => false | Some g => gb_got_ip g end.

Record wifi_manager_status := mk_wifi_manager_status {
  wst_sta_state : wifi_manager_sta_state;
  wst_sta_retry_count : Z;
  wst_ap_connected_clients : Z
}.
Definition wifi_manager_get_status (w : wm_state) : wifi_manager_status :=
  mk_wifi_manager_status (wm_sta_state w) (wm_retry_count w) (wm_clients w).
Definition wifi_manager_get_sta_netif (w : wm_state) : Z := wm_sta_netif w.
Definition wifi_manager_get_ap_netif (w : wm_state) : Z := wm_ap_netif w.

(** [ip_info] is what [esp_netif_get_ip_info] answers; the result is the error
    and the address written to [*out_ip]. *)
Definition wifi_manager_get_ap_ip (out_ip : bool) (ip_info : esp_err * Z) (w : wm_state) : esp_err * option Z :=
  if negb out_ip then (ESP_ERR_INVALID_ARG, None)
  else if wm_ap_netif w =? 0 then (ESP_ERR_INVALID_STATE, None)
  else if err_ok ip_info.1 then (ESP_OK, Some ip_info.2) else (ip_info.1, None).

(** ** Everything that happens *)
(** The event loop runs every registration. *)
Definition wifi_handlers (w : wm_state) : nat := count_calls is_wifi_registration (wm_log w).
Definition ip_handlers (w : wm_state) : nat := count_calls is_ip_registration (wm_log w).

Definition deliver_wifi (timer_us : Z) (ev : wifi_event) (s : wm_state * eb_state) : wm_state * eb_state :=
  Nat.iter (wifi_handlers s.1) (handle_wifi_event timer_us ev) s.
Definition deliver_ip (got_ip : bool) (s : wm_state * eb_state) : wm_state * eb_state :=
  (Nat.iter (ip_handlers s.1) (handle_ip_event got_ip) s.1, s.2).

Inductive wm_op :=
| WmStart (config : option wifi_manager_config)
| WmStop
| WmSwitch (ssid password : option bytes) (max_connections : Z)
| WmRestore
| WmWifiEvent (timer_us : Z) (ev : wifi_event)
| WmIpEvent (got_ip : bool).

Definition wm_step (s : wm_state * eb_state) (op : wm_op) : option (wm_state * eb_state) :=
  let '(w, bus) := s in
  match op with
  | WmStart config => '(w, _) ← wifi_manager_start config w; Some (w, bus)
  | WmStop => Some ((wifi_manager_stop w).1, bus)
  | WmSwitch ssid password max_connections =>
    Some ((wifi_manager_switch_to_ap ssid password max_connections w).1, bus)
  | WmRestore => Some ((wifi_manager_restore_normal w).1, bus)
  | WmWifiEvent timer_us ev => Some (deliver_wifi timer_us ev s)
  | WmIpEvent got_ip => Some (deliver_ip got_ip s)
  end.

(** [None] is a restart of the device. *)
Definition wm_run (s : option (wm_state * eb_state)) (ops : list wm_op) : option (wm_state * eb_state) :=
  fold_left (fun s op => s ← s; wm_step s op) ops s.

(** ** The log is all a driver call changes *)
Lemma ask_eq c w : ask c w = (w <| wm_log := wm_log w ++ [(c, wd_call d (wm_log w) c)] |>, wd_call d (wm_log w) c).
Proof. done. Qed.

Lemma check_ask c w w' :
  esp_error_check (ask c w) = Some w' → w' = w <| wm_log := wm_log w ++ [(c, ESP_OK)] |>.
Proof.
  unfold esp_error_check, ask. cbn. destruct (err_ok _) eqn:E; [|done]. apply bool_decide_eq_true in E. rewrite E.
  by intros [= <-].
Qed.

Lemma check_some w w' e : esp_error_check (w, e) = Some w' → w' = w ∧ e = ESP_OK.
Proof.
  unfold esp_error_check. cbn. destruct (err_ok e) eqn:E; [|done]. apply bool_decide_eq_true in E. by intros [= <-].
Qed.

Definition log_only (w w' : wm_state) : Prop := w' = w <| wm_log := wm_log w' |>.

Lemma log_only_ask c w w' e : ask c w = (w', e) → log_only w w'.
Proof. rewrite ask_eq. intros E. by apply pair_equal_spec in E as [<- _]. Qed.

Lemma log_only_trans w1 w2 w3 : log_only w1 w2 → log_only w2 w3 → log_only w1 w3.
Proof. unfold log_only. intros -> ->. done. Qed.

Lemma init_nvs_log w w' e : init_nvs_if_needed w = Some (w', e) → log_only w w'.
Proof.
  unfold init_nvs_if_needed. destruct (ask _ w) as [w1 e1] eqn:E1. apply log_only_ask in E1.
  destruct (_ || _); [|by intros E; apply Some_inj, pair_equal_spec in E as [<- _]].
  destruct (esp_error_check _) as [w2|] eqn:E2; [|done]. apply check_ask in E2. subst w2. intros E.
  apply Some_inj, pair_equal_spec in E as [<- _]. by rewrite E1.
Qed.

Lemma init_netif_log w w' e : init_netif_and_event_loop w = (w', e) → log_only w w'.
Proof.
  unfold init_netif_and_event_loop. destruct (ask _ w) as [w1 e1] eqn:E1. apply log_only_ask in E1.
  destruct (_ && _); [by intros E; apply pair_equal_spec in E as [<- _]|].
  destruct (ask _ w1) as [w2 e2] eqn:E2. apply log_only_ask in E2. pose proof (log_only_trans _ _ _ E1 E2).
  by destruct (_ && _); intros E; apply pair_equal_spec in E as [<- _].
Qed.

(** The calls a start makes of the radio. *)
Definition start_entries (c : wifi_manager_config) : wifi_log :=
  (fun call => (call, ESP_OK)) <$>
  [Call_esp_wifi_init; Call_register_wifi_handler; Call_register_ip_handler; Call_esp_wifi_set_mode WIFI_MODE_APSTA;
   Call_esp_wifi_set_config_sta (sta_config_from c); Call_esp_wifi_set_config_ap (ap_config_from c);
   Call_esp_wifi_set_ps_none; Call_esp_wifi_start].

Lemma start_radio_exact w w' e :
  start_radio w = Some (w', e) →
  e = ESP_OK ∧
  w' = w <| wm_config ::= wipe_passwords |> <| wm_started := true |>
         <| wm_log := wm_log w ++ start_entries (wm_config w) |>.
Proof.
  unfold start_radio, start_entries. intros E.
  repeat match type of E with
  | (mbind _ (esp_error_check ?m)) = _ =>
    destruct (esp_error_check m) as [?w|] eqn:Ew; cbn [mbind option_bind] in E; [|done];
    cbn [configure_sta_from configure_ap_from] in Ew; apply check_ask in Ew; subst
  end.
  apply Some_inj, pair_equal_spec in E as [<- <-]. split; [done|].
  cbn [fmap list_fmap wm_log]. destruct w. cbn. by rewrite <- !app_assoc.
Qed.

(** What a start that returns did. *)
Lemma wifi_manager_start_cases config w w' e :
  wifi_manager_start config w = Some (w', e) →
  match config with
  | None => w' = w
  | Some config =>
    if wm_started w then w' = w
    else ∃ group sta ap log,
      let c := with_defaults config in
      let base := w <| wm_normal_config := c |> <| wm_normal_valid := true |> <| wm_ap_only := false |>
                    <| wm_event_group := group |> <| wm_sta_netif := sta |> <| wm_ap_netif := ap |> in
      (e ≠ ESP_OK ∧ w' = base <| wm_config := wifi_config_zero |> <| wm_log := log |> ∧
       (group = None ∨ group = Some no_bits)) ∨
      (e = ESP_OK ∧ group = Some no_bits ∧
       w' = base <| wm_config := wipe_passwords c |> <| wm_started := true |>
              <| wm_log := log ++ start_entries c |>)
  end.
Proof.
  unfold wifi_manager_start. destruct config as [config|]; [|by intros [= <- _]].
  destruct (wm_started w) eqn:Es; [by intros [= <- _]|].
  destruct (init_nvs_if_needed _) as [[w1 e1]|] eqn:E1; cbn [mbind option_bind]; [|done].
  apply init_nvs_log in E1. destruct (esp_error_check _) as [w1'|] eqn:Ec1; cbn [mbind option_bind]; [|done].
  apply check_some in Ec1 as [-> _].
  destruct (init_netif_and_event_loop w1) as [w2 e2] eqn:E2. apply init_netif_log in E2.
  destruct (esp_error_check _) as [w2'|] eqn:Ec2; cbn [mbind option_bind]; [|done].
  apply check_some in Ec2 as [-> _].
  assert (log_only (w <| wm_config := with_defaults config |> <| wm_normal_config := with_defaults config |>
                      <| wm_normal_valid := true |> <| wm_ap_only := false |>) w2) as El by (by eapply log_only_trans).
  rewrite El. generalize (wm_log w2) as log. clear. intros log.
  destruct (wd_event_group d log) eqn:Eg; cbn; rewrite ?Eg; cbn [negb].
  - destruct (wd_sta_netif d log =? 0) eqn:Esta.
    { intros [= <- <-]. exists (Some no_bits), (wd_sta_netif d log), (wm_ap_netif w), log. left.
      split_and!; [discriminate|reflexivity|by right]. }
    destruct (wd_ap_netif d log =? 0) eqn:Eap.
    { intros [= <- <-]. exists (Some no_bits), (wd_sta_netif d log), (wd_ap_netif d log), log. left.
      split_and!; [discriminate|reflexivity|by right]. }
    intros E. apply start_radio_exact in E as [-> ->].
    exists (Some no_bits), (wd_sta_netif d log), (wd_ap_netif d log), log. right. split_and!; reflexivity.
  - intros [= <- <-]. exists None, (wm_sta_netif w), (wm_ap_netif w), log. left.
    split_and!; [discriminate|reflexivity|by left].
Qed.

(** ** The invariant *)
Record wm_inv (w : wm_state) : Prop := mk_wm_inv {
  wi_retry : 0 ≤ wm_retry_count w ≤ wc_sta_max_retries (wm_config w);
  wi_clients : is_u8 (wm_clients w);
  wi_down : wm_started w = false → wm_ap_only w = false ∧ wm_config w = wifi_config_zero;
  wi_up : wm_started w = true →
          wm_event_group w ≠ None ∧ wm_normal_valid w = true ∧ wm_config w = wipe_passwords (wm_normal_config w);
  wi_retries : wm_started w = true → wc_sta_max_retries (wm_config w) ≠ 0;
  wi_disconnected : wm_sta_state w = WIFI_MANAGER_STA_DISCONNECTED → default no_bits (wm_event_group w) = no_bits;
  wi_ap_only : wm_ap_only w = true → radio_mode (wm_log w) = Some WIFI_MODE_AP
}.

Lemma wm_boot_inv : wm_inv wm_boot.
Proof. by split. Qed.

(** A call that sets no mode keeps the invariant. *)
Lemma wm_inv_log w c e : mode_of (c, e) = None → wm_inv w → wm_inv (w <| wm_log := wm_log w ++ [(c, e)] |>).
Proof.
  intros Hm []. split; cbn; try assumption. intros Ha. unfold radio_mode. rewrite last_set_app, Hm. auto.
Qed.

Lemma ask_inv c w : mode_of (c, wd_call d (wm_log w) c) = None → wm_inv w → wm_inv (ask c w).1.
Proof. intros Hm Hi. rewrite ask_eq. by apply wm_inv_log. Qed.

Lemma handle_wifi_event_inv timer_us ev s : wm_inv s.1 → wm_inv (handle_wifi_event timer_us ev s).1.
Proof.
  destruct s as [w bus]. intros Hi. pose proof Hi as [Hr Hc Hd Hu Hm Hb Ha]. cbn [fst] in *.
  destruct ev; cbn [handle_wifi_event fst]; try exact Hi.
  - apply ask_inv; [done|]. split; cbn; auto. discriminate.
  - split; cbn; auto; [lia| |discriminate]. intros Hs. destruct (Hu Hs) as (Hg & ? & ?).
    split_and!; [|done|done]. by destruct (wm_event_group w).
  - set (w' := w <| wm_event_group ::= _ |> <| wm_sta_state := _ |>).
    assert (wm_inv w') as Hi'.
    { split; cbn; auto.
      - intros Hs. destruct (Hu Hs) as (Hg & ? & ?). split_and!; [|done|done]. by destruct (wm_event_group w).
      - by destruct (wm_event_group w). }
    destruct (wm_ap_only w') eqn:Eap; [done|]. destruct (_ <? _) eqn:El; [|done]. apply ask_inv; [done|].
    destruct Hi' as [Hr' Hc' Hd' Hu' Hm' Hb' Ha']. apply Z.ltb_lt in El. split; cbn in *; auto; try discriminate.
    pose proof (Z.mod_le (wm_retry_count w + 1) 256). pose proof (u8_range (wm_retry_count w + 1)).
    unfold is_u8, u8 in *. lia.
  - split; cbn; auto. apply u8_range.
  - split; cbn; auto. unfold dec_if_pos, is_u8 in *. case_decide; lia.
Qed.

Lemma handle_ip_event_inv got_ip w : wm_inv w → wm_inv (handle_ip_event got_ip w).
Proof.
  intros Hi. destruct got_ip; [|exact Hi]. destruct Hi as [Hr Hc Hd Hu Hm Hb Ha].
  split; cbn; auto; [|discriminate]. intros Hs. destruct (Hu Hs) as (Hg & ? & ?). split_and!; [|done|done].
  by destruct (wm_event_group w).
Qed.

Lemma iter_inv {A} (P : A → Prop) (f : A → A) n a : (∀ a, P a → P (f a)) → P a → P (Nat.iter n f a).
Proof. intros Hf Ha. induction n; cbn; auto. Qed.

Lemma wifi_stop_inv w : wm_inv w → wm_inv (wifi_manager_stop w).1.
Proof.
  intros Hi. unfold wifi_manager_stop. destruct (negb (wm_started w)); [done|].
  rewrite ask_eq. cbn beta iota. destruct (negb _); [by apply wm_inv_log|].
  rewrite ask_eq. cbn beta iota. destruct (negb _); [by do 2 (apply wm_inv_log; [done|])|].
  by split.
Qed.

(** A chain of calls that started from [w]. *)
Definition calls_from (w : wm_state) (r : wm_state * esp_err) : Prop := ∃ log e, r = (w <| wm_log := log |>, e).

Lemma calls_from_ask w r c : calls_from w r → calls_from w (then_ok r (ask c)).
Proof.
  intros (log & e & ->). unfold then_ok. cbn [fst snd]. destruct (err_ok e); [|by eexists _, _].
  rewrite ask_eq. by eexists _, _.
Qed.

Lemma restore_calls_from w : calls_from w (restore_calls w).
Proof.
  unfold restore_calls. rewrite ask_eq. cbn beta iota zeta. do 5 apply calls_from_ask. by eexists _, _.
Qed.

Lemma wifi_restore_inv w : wm_inv w → wm_inv (wifi_manager_restore_normal w).1.
Proof.
  intros Hi. unfold wifi_manager_restore_normal. destruct (negb (wm_started w)) eqn:Es; [done|].
  destruct (negb (wm_normal_valid w)); [done|]. destruct (negb (wm_ap_only w)); [done|].
  destruct (restore_calls_from (w <| wm_ap_only := false |> <| wm_clients := 0 |>)) as (log & err & ->).
  apply negb_false_iff in Es. destruct Hi as [Hr Hc Hd Hu Hm Hb Ha].
  destruct (negb (err_ok err)); cbn [fst]; split; cbn; auto; try discriminate; try done; try lia.
  all: rewrite Es; discriminate.
Qed.

Lemma wifi_switch_inv ssid password max_connections w :
  wm_inv w → wm_inv (wifi_manager_switch_to_ap ssid password max_connections w).1.
Proof.
  intros Hi. unfold wifi_manager_switch_to_ap. destruct (wm_started w) eqn:Es; [|done]. destruct ssid as [ssid|]; [|done].
  destruct (_ =? 0); [done|]. cbn zeta. set (base := w <| wm_event_group ::= _ |> <| wm_sta_state := _ |>
    <| wm_retry_count := 0 |> <| wm_clients := 0 |> <| wm_ap_only := true |>).
  assert (∀ only log, (only = true → radio_mode log = Some WIFI_MODE_AP) →
            wm_inv (base <| wm_log := log |> <| wm_ap_only := only |>)) as Hbase.
  { intros only log Ho. destruct Hi as [Hr Hc Hd Hu Hm Hb Ha]. unfold base. split; cbn; auto; try done; try lia.
    - rewrite Es. discriminate.
    - intros Hs. destruct (Hu Hs) as (Hg & ? & ?). split_and!; [|done|done]. by destruct (wm_event_group w).
    - by destruct (wm_event_group w). }
  assert (wm_ap_only base = true) as Hap by done. clearbody base. clear - Hbase Hap.
  rewrite ask_eq. unfold then_ok. rewrite ask_eq. cbn [fst snd].
  set (log1 := wm_log base ++ _). change (wm_log (base <| wm_log := log1 |>)) with log1.
  destruct (err_ok (wd_call d log1 _)) eqn:E1.
  - cbn [configure_ap_from]. rewrite ask_eq. cbn beta iota. destruct (negb _); cbn [fst].
    + by apply (Hbase false (_ ++ _)).
    + apply bool_decide_eq_true in E1. rewrite E1.
      assert (∀ log, radio_mode log = Some WIFI_MODE_AP → wm_inv (base <| wm_log := log |>)) as Hb'.
      { intros log Hl. specialize (Hbase true log (fun _ => Hl)). by destruct base; cbn in *; subst. }
      apply (Hb' (_ ++ _)). unfold radio_mode. rewrite last_set_app.
      change (wm_log (base <| wm_log := log1 |> <| wm_log := ?l |>)) with l. by rewrite last_set_app.
  - cbn [negb]. cbn beta iota. rewrite E1. cbn [negb fst]. by apply (Hbase false (_ ++ _)).
Qed.

(** What the struct of a caller holds. *)
Definition caller_config_ok (c : wifi_manager_config) : Prop :=
  is_u8 (wc_ap_channel c) ∧ is_u8 (wc_ap_max_connections c) ∧ is_u8 (wc_sta_max_retries c).

Lemma with_defaults_retries c : is_u8 (wc_sta_max_retries c) →
  is_u8 (wc_sta_max_retries (with_defaults c)) ∧ wc_sta_max_retries (with_defaults c) ≠ 0.
Proof.
  intros Hc. unfold with_defaults. destruct (wc_ap_channel c =? 0), (wc_ap_max_connections _ =? 0);
    cbn; (destruct (wc_sta_max_retries c =? 0) eqn:E; cbn; [done|apply Z.eqb_neq in E; done]).
Qed.

Lemma wifi_start_inv config w w' e :
  (∀ c, config = Some c → caller_config_ok c) → wm_inv w → wifi_manager_start config w = Some (w', e) → wm_inv w'.
Proof.
  intros Hc Hi E. apply wifi_manager_start_cases in E. destruct config as [c|]; [|by subst].
  destruct (wm_started w) eqn:Es; [by subst|]. destruct E as (group & sta & ap & log & E). cbn zeta in E.
  destruct Hi as [Hr Hcl Hd Hu Hm Hb Ha]. destruct (Hd Es) as [Hap Hz]. rewrite Hz in Hr. cbn in Hr.
  destruct (with_defaults_retries c) as [Hw Hw0]; [by apply (Hc c)|].
  destruct E as [(_ & -> & Hg)|(_ & -> & ->)]; (split; [cbn; unfold is_u8 in *; try lia|exact Hcl|..]).
  - by cbn.
  - cbn. rewrite Es. discriminate.
  - cbn. rewrite Es. discriminate.
  - cbn. destruct Hg as [->| ->]; done.
  - by cbn.
  - by cbn.
  - by cbn.
  - by cbn.
  - by cbn.
  - by cbn.
Qed.

Definition wm_op_ok (op : wm_op) : Prop :=
  match op with WmStart (Some c) => caller_config_ok c | _ => True end.

Lemma wm_step_inv s op s' : wm_op_ok op → wm_inv s.1 → wm_step s op = Some s' → wm_inv s'.1.
Proof.
  destruct s as [w bus]. intros Ho Hi. destruct op as [config| |ssid password maxc| |us ev|got]; cbn [wm_step].
  - destruct (wifi_manager_start config w) as [[w' e]|] eqn:E; cbn; [|done]. intros [= <-].
    apply wifi_start_inv in E; [done|intros c ->; exact Ho|done].
  - intros E. apply Some_inj in E as <-. by apply wifi_stop_inv.
  - intros E. apply Some_inj in E as <-. by apply wifi_switch_inv.
  - intros E. apply Some_inj in E as <-. by apply wifi_restore_inv.
  - intros E. apply Some_inj in E as <-. unfold deliver_wifi.
    apply (iter_inv (fun s => wm_inv s.1)); [intros; by apply handle_wifi_event_inv|done].
  - intros E. apply Some_inj in E as <-. apply (iter_inv wm_inv); [intros; by apply handle_ip_event_inv|done].
Qed.

(** ** Reconnection attempts *)
Definition connects (w : wm_state) : nat := count_calls is_connect (wm_log w).

(** What [k] lost connections in a row may still attempt. *)
Definition attempts (w : wm_state) (k : nat) : nat :=
  if wm_ap_only w then 0%nat else Nat.min k (Z.to_nat (wc_sta_max_retries (wm_config w) - wm_retry_count w)).

Record reconnecting (w0 : wm_state) (k : nat) (w : wm_state) : Prop := mk_reconnecting {
  rc_ap_only : wm_ap_only w = wm_ap_only w0;
  rc_config : wm_config w = wm_config w0;
  rc_handlers : wifi_handlers w = wifi_handlers w0;
  rc_retry : wm_retry_count w = wm_retry_count w0 + Z.of_nat (attempts w0 k);
  rc_connects : connects w = (connects w0 + attempts w0 k)%nat
}.

(** The events that neither start nor end an attempt. *)
Definition is_disconnect (ev : wifi_event) : bool :=
  match ev with WIFI_EVENT_STA_DISCONNECTED => true | _ => false end.
Definition no_connection (ev : wifi_event) : Prop :=
  match ev with WIFI_EVENT_STA_START | WIFI_EVENT_STA_CONNECTED => False | _ => True end.

Lemma reconnecting_event w0 k timer_us ev s :
  wm_retry_count w0 ≤ wc_sta_max_retries (wm_config w0) → 0 ≤ wm_retry_count w0 → is_u8 (wc_sta_max_retries (wm_config w0)) →
  no_connection ev → reconnecting w0 k s.1 →
  reconnecting w0 (if is_disconnect ev then S k else k) (handle_wifi_event timer_us ev s).1.
Proof.
  intros Hle H0 Hu Hn. destruct s as [w bus]. intros Hr. pose proof Hr as [Ha Hc Hh Hre Hco].
  destruct ev; try done; cbn [handle_wifi_event fst is_disconnect] in *; [|by split..].
  set (w' := w <| wm_event_group ::= _ |> <| wm_sta_state := _ |>).
  change (wm_ap_only w') with (wm_ap_only w). change (wm_retry_count w') with (wm_retry_count w).
  change (wm_config w') with (wm_config w). rewrite Ha, Hc. unfold attempts in Hre, Hco.
  destruct (wm_ap_only w0) eqn:Eap.
  - split; unfold attempts; rewrite ?Eap; try done; cbn; lia.
  - destruct (wm_retry_count w <? _) eqn:El; [apply Z.ltb_lt in El|apply Z.ltb_ge in El].
    + rewrite ask_eq. unfold is_u8 in Hu. split; cbn [fst]; unfold attempts; rewrite ?Eap; try done.
      * unfold wifi_handlers in *. rewrite <- Hh. cbn [wm_log]. etransitivity; [apply count_calls_app|]. apply Nat.add_0_r.
      * change (u8 (wm_retry_count w + 1) = wm_retry_count w0 +
          Z.of_nat (Nat.min (S k) (Z.to_nat (wc_sta_max_retries (wm_config w0) - wm_retry_count w0)))).
        rewrite u8_small by (unfold is_u8; lia). lia.
      * unfold connects in *. etransitivity; [apply count_calls_app|].
        change (count_calls is_connect (wm_log w) + 1 = count_calls is_connect (wm_log w0) +
          Nat.min (S k) (Z.to_nat (wc_sta_max_retries (wm_config w0) - wm_retry_count w0)))%nat.
        rewrite Hco. lia.
    + split; unfold attempts; rewrite ?Eap; try done.
      * change (wm_retry_count (w', bus).1) with (wm_retry_count w). lia.
      * change (connects (w', bus).1) with (connects w). lia.
Qed.

Definition disconnects (evs : list (Z * wifi_event)) : nat := List.length (List.filter (fun e => is_disconnect e.2) evs).
Definition deliver_all (evs : list (Z * wifi_event)) (s : wm_state * eb_state) : wm_state * eb_state :=
  fold_left (fun s e => deliver_wifi e.1 e.2 s) evs s.

Lemma reconnecting_deliver w0 k e s :
  wm_retry_count w0 ≤ wc_sta_max_retries (wm_config w0) → 0 ≤ wm_retry_count w0 → is_u8 (wc_sta_max_retries (wm_config w0)) →
  no_connection e.2 → reconnecting w0 k s.1 →
  reconnecting w0 (k + if is_disconnect e.2 then wifi_handlers w0 else 0) (deliver_wifi e.1 e.2 s).1.
Proof.
  intros Hle H0 Hu Hn Hr. unfold deliver_wifi. rewrite (rc_handlers _ _ _ Hr).
  induction (wifi_handlers w0) as [|h IH]; cbn [Nat.iter].
  - destruct (is_disconnect e.2); by rewrite Nat.add_0_r.
  - pose proof (reconnecting_event w0 _ e.1 e.2 _ Hle H0 Hu Hn IH) as Hs.
    destruct (is_disconnect e.2); [by rewrite Nat.add_succ_r|done].
Qed.

Lemma reconnecting_all w0 evs k s :
  wm_retry_count w0 ≤ wc_sta_max_retries (wm_config w0) → 0 ≤ wm_retry_count w0 → is_u8 (wc_sta_max_retries (wm_config w0)) →
  Forall (fun e => no_connection e.2) evs → reconnecting w0 k s.1 →
  reconnecting w0 (k + wifi_handlers w0 * disconnects evs) (deliver_all evs s).1.
Proof.
  intros Hle H0 Hu. revert k s. induction evs as [|e evs IH]; intros k s Hf Hr.
  - cbn. by rewrite Nat.mul_0_r, Nat.add_0_r.
  - inversion_clear Hf as [|? ? He Hf']. pose proof (reconnecting_deliver w0 k e s Hle H0 Hu He Hr) as Hs.
    specialize (IH _ _ Hf' Hs). unfold disconnects, deliver_all in *. cbn [List.filter fold_left].
    destruct (is_disconnect e.2); cbn [List.length]; [|by rewrite Nat.add_0_r in IH].
    by replace (k + wifi_handlers w0 * S (List.length (List.filter (fun e => is_disconnect e.2) evs)))%nat with
      (k + wifi_handlers w0 + wifi_handlers w0 * List.length (List.filter (fun e => is_disconnect e.2) evs))%nat by lia.
Qed.

(** ** Restoring *)
Lemma then_ok_ask r c w e :
  then_ok r (ask c) = (w, e) → err_ok e = true →
  ∃ w', r = (w', ESP_OK) ∧ w = w' <| wm_log := wm_log w' ++ [(c, ESP_OK)] |>.
Proof.
  destruct r as [w' e']. unfold then_ok. cbn [fst snd]. destruct (err_ok e') eqn:E'.
  - apply bool_decide_eq_true in E'. subst e'. rewrite ask_eq. intros E He. apply pair_equal_spec in E as [<- <-].
    apply bool_decide_eq_true in He. rewrite He. by exists w'.
  - intros E He. apply pair_equal_spec in E as [_ <-]. by rewrite He in E'.
Qed.

(** The calls a restore makes after stopping the radio. *)
Definition restore_entries (c : wifi_manager_config) : wifi_log :=
  (fun call => (call, ESP_OK)) <$>
  [Call_esp_wifi_set_mode WIFI_MODE_APSTA; Call_esp_wifi_set_config_sta (sta_config_from c);
   Call_esp_wifi_set_config_ap (ap_config_from c); Call_esp_wifi_start; Call_esp_wifi_connect].

Lemma restore_calls_exact w w' e :
  restore_calls w = (w', e) → err_ok e = true →
  ∃ stopped, wm_log w' = wm_log w ++ (Call_esp_wifi_stop, stopped) :: restore_entries (wm_normal_config w).
Proof.
  unfold restore_calls. rewrite ask_eq. cbn beta iota zeta. intros E He.
  apply then_ok_ask in E as (w5 & E & ->); [|done]. apply then_ok_ask in E as (w4 & E & ->); [|done].
  apply then_ok_ask in E as (w3 & E & ->); [|done]. apply then_ok_ask in E as (w2 & E & ->); [|done].
  apply then_ok_ask in E as (w1 & E & ->); [|done]. apply pair_equal_spec in E as [<- _].
  eexists. cbn. rewrite <- !app_assoc. reflexivity.
Qed.

(** What the radio was last told. *)
Definition radio_setup (log : wifi_log) : option wifi_mode * option wifi_sta_config * option wifi_ap_config :=
  (radio_mode log, last_set sta_config_of log, last_set ap_config_of log).
Definition normal_setup (c : wifi_manager_config) : option wifi_mode * option wifi_sta_config * option wifi_ap_config :=
  (Some WIFI_MODE_APSTA, Some (sta_config_from c), Some (ap_config_from c)).

Lemma radio_setup_start log c : radio_setup (log ++ start_entries c) = normal_setup c.
Proof. unfold radio_setup, radio_mode, last_set, start_entries. rewrite !omap_app. cbn. by rewrite !last_snoc. Qed.
Lemma radio_setup_restore log e c : radio_setup (log ++ (Call_esp_wifi_stop, e) :: restore_entries c) = normal_setup c.
Proof. unfold radio_setup, radio_mode, last_set, restore_entries. rewrite !omap_app. cbn. by rewrite !last_snoc. Qed.

(** What no call but a stop changes of a running manager. *)
Definition running_with (c : wifi_manager_config) (w : wm_state) : Prop :=
  wm_started w = true ∧ wm_normal_valid w = true ∧ wm_normal_config w = c.

Lemma handle_wifi_event_running c timer_us ev s :
  running_with c s.1 → running_with c (handle_wifi_event timer_us ev s).1.
Proof.
  destruct s as [w bus]. intros Hr. destruct ev; try exact Hr. cbn [handle_wifi_event].
  destruct (wm_ap_only _); [exact Hr|]. destruct (_ <? _); exact Hr.
Qed.

Lemma wm_step_running c s op s' :
  op ≠ WmStop → running_with c s.1 → wm_step s op = Some s' → running_with c s'.1.
Proof.
  destruct s as [w bus]. cbn [fst]. intros Hop Hr.
  destruct op as [config| |ssid password maxc| |us ev|got]; cbn [wm_step]; [|done|..].
  - destruct Hr as (Hs & Hv & Hn). unfold wifi_manager_start. rewrite Hs.
    destruct config; cbn; intros E; apply Some_inj in E as <-; done.
  - intros E. apply Some_inj in E as <-. unfold wifi_manager_switch_to_ap. destruct Hr as (Hs & Hv & Hn). rewrite Hs.
    destruct ssid as [ssid|]; [|done]. destruct (_ =? 0); [done|]. unfold then_ok, configure_ap_from.
    rewrite !ask_eq. cbn [fst snd]. destruct (err_ok _); cbn beta iota; destruct (negb _); done.
  - intros E. apply Some_inj in E as <-. unfold wifi_manager_restore_normal. destruct Hr as (Hs & Hv & Hn). rewrite Hs, Hv.
    destruct (wm_ap_only w); [|done]. destruct (restore_calls_from (w <| wm_ap_only := false |> <| wm_clients := 0 |>)) as (log & err & Er).
    cbn [negb]. rewrite Er. destruct (negb _); done.
  - intros E. apply Some_inj in E as <-. apply (iter_inv (fun s => running_with c s.1)); [|done].
    intros. by apply handle_wifi_event_running.
  - intros E. apply Some_inj in E as <-. apply (iter_inv (running_with c)); [|done]. intros. by destruct got.
Qed.

Lemma wm_run_none ops : wm_run None ops = None.
Proof. induction ops; [done|exact IHops]. Qed.

Lemma wm_run_ind (P : wm_state * eb_state → Prop) (ok : wm_op → Prop) ops s s' :
  (∀ s op s', ok op → P s → wm_step s op = Some s' → P s') →
  Forall ok ops → P s → wm_run (Some s) ops = Some s' → P s'.
Proof.
  intros Hstep. revert s. induction ops as [|op ops IH]; intros s Hf Hs; [by intros [= <-]|].
  inversion_clear Hf as [|? ? Ho Hf']. unfold wm_run. cbn [fold_left mbind option_bind].
  destruct (wm_step s op) as [s1|] eqn:E; [|intros E2; pose proof (wm_run_none ops) as E3; unfold wm_run in E3; congruence].
  intros Hrun. by eapply IH; [| |exact Hrun]; [|eapply Hstep].
Qed.

(** The calls that change the mode and went well: answered ESP_OK, or nothing was
    asked of the driver. *)
Definition went_well (op : wm_op) (w : wm_state) : Prop :=
  let ok (r : wm_state * esp_err) := r.2 = ESP_OK ∨ wm_log r.1 = wm_log w in
  match op with
  | WmSwitch ssid password max_connections => ok (wifi_manager_switch_to_ap ssid password max_connections w)
  | WmRestore => ok (wifi_manager_restore_normal w)
  | _ => True
  end.
Fixpoint all_well (ops : list wm_op) (s : wm_state * eb_state) : Prop :=
  match ops with
  | [] => True
  | op :: rest => went_well op s.1 ∧ match wm_step s op with Some s' => all_well rest s' | None => True end
  end.

(** Outside AP-only mode the radio has its normal setup. *)
Definition settled (c : wifi_manager_config) (w : wm_state) : Prop :=
  running_with c w ∧ (wm_ap_only w = false → radio_setup (wm_log w) = normal_setup c).

Lemma radio_setup_connect log e : radio_setup (log ++ [(Call_esp_wifi_connect, e)]) = radio_setup log.
Proof. unfold radio_setup, radio_mode. by rewrite !last_set_app. Qed.

Lemma handle_wifi_event_settled c timer_us ev s : settled c s.1 → settled c (handle_wifi_event timer_us ev s).1.
Proof.
  intros [Hr Hs]. split; [by apply handle_wifi_event_running|]. revert Hs. destruct s as [w bus]. cbn [fst].
  destruct ev; cbn [handle_wifi_event]; try done.
  - intros Hs Hap. rewrite ask_eq. cbn [fst wm_log]. etrans; [apply radio_setup_connect|]. by apply Hs.
  - intros Hs. destruct (wm_ap_only (_ <| wm_sta_state := WIFI_MANAGER_STA_DISCONNECTED |>)); [exact Hs|].
    destruct (_ <? _); [|exact Hs]. intros Hap. rewrite ask_eq. cbn [fst wm_log].
    etrans; [apply radio_setup_connect|]. by apply Hs.
Qed.

Lemma restore_ok_setup c w w' :
  running_with c w → wifi_manager_restore_normal w = (w', ESP_OK) →
  (wm_ap_only w = false ∧ w' = w) ∨ (wm_ap_only w = true ∧ radio_setup (wm_log w') = normal_setup c).
Proof.
  intros (Hs & Hv & Hn) E. unfold wifi_manager_restore_normal in E. rewrite Hs, Hv in E. cbn [negb] in E.
  destruct (wm_ap_only w) eqn:Hap; cbn [negb] in E; [right|left; by apply pair_equal_spec in E as [<- _]].
  split; [done|]. destruct (restore_calls _) as [w4 err] eqn:E4. destruct (err_ok err) eqn:Ee; [|by destruct err].
  apply restore_calls_exact in E4 as [stopped El]; [|done]. apply pair_equal_spec in E as [<- _].
  change (wm_log (w4 <| wm_sta_state := WIFI_MANAGER_STA_CONNECTING |> <| wm_retry_count := 0 |>)) with (wm_log w4).
  change (wm_normal_config (w <| wm_ap_only := false |> <| wm_clients := 0 |>)) with (wm_normal_config w) in El.
  by rewrite El, Hn, radio_setup_restore.
Qed.

Lemma restore_failed_log w w' e :
  wifi_manager_restore_normal w = (w', e) → wm_log w' = wm_log w → w' = w.
Proof.
  unfold wifi_manager_restore_normal. destruct (negb (wm_started w)); [by intros [= <- _]|].
  destruct (negb (wm_normal_valid w)); [by intros [= <- _]|]. destruct (negb (wm_ap_only w)); [by intros [= <- _]|].
  set (w0 := w <| wm_ap_only := false |> <| wm_clients := 0 |>). intros E El. exfalso.
  assert ((List.length (wm_log w) < List.length (wm_log (restore_calls w0).1))%nat) as Hl.
  { unfold restore_calls. rewrite ask_eq. cbn beta iota zeta.
    assert (∀ r c, (List.length (wm_log (fst r)) ≤ List.length (wm_log (then_ok r (ask c)).1))%nat) as Hm.
    { intros [w1 e1] c. unfold then_ok. cbn [fst snd]. destruct (err_ok e1); [|done]. rewrite ask_eq. cbn.
      rewrite length_app. lia. }
    eapply Nat.lt_le_trans; [|apply Hm]. eapply Nat.lt_le_trans; [|apply Hm]. eapply Nat.lt_le_trans; [|apply Hm].
    eapply Nat.lt_le_trans; [|apply Hm]. eapply Nat.lt_le_trans; [|apply Hm]. cbn. rewrite length_app. cbn. lia. }
  destruct (restore_calls w0) as [w4 err]. cbn [fst] in Hl.
  destruct (negb (err_ok err)); apply pair_equal_spec in E as [<- _]; cbn in El; rewrite El in Hl; lia.
Qed.

Lemma switch_well c ssid password maxc w :
  went_well (WmSwitch ssid password maxc) w → settled c w →
  wm_ap_only (wifi_manager_switch_to_ap ssid password maxc w).1 = false →
  radio_setup (wm_log (wifi_manager_switch_to_ap ssid password maxc w).1) = normal_setup c.
Proof.
  intros Hw [_ Hs]. unfold went_well in Hw. revert Hw. unfold wifi_manager_switch_to_ap.
  destruct (wm_started w), ssid as [ssid|]; try done. destruct (_ =? 0); [done|].
  unfold then_ok, configure_ap_from. rewrite !ask_eq. cbn [fst snd].
  destruct (err_ok _) eqn:E1; cbn beta iota; rewrite ?E1; destruct (negb _) eqn:E2; cbn [fst snd]; try done.
  all: intros [H|H]; [by rewrite H in E2 || by rewrite H in E1|]; apply (f_equal List.length) in H; cbn in H;
    rewrite !length_app in H; cbn in H; lia.
Qed.

Lemma wm_step_settled c s op s' :
  op ≠ WmStop → went_well op s.1 → settled c s.1 → wm_step s op = Some s' → settled c s'.1.
Proof.
  intros Hop Hw Hs E. split; [by eapply wm_step_running; [done|apply Hs|]|]. destruct s as [w bus]. cbn [fst] in *.
  destruct op as [config| |ssid password maxc| |us ev|got]; cbn [wm_step] in E; [|done|..].
  - destruct Hs as [(Hst & _ & _) Hs]. unfold wifi_manager_start in E. rewrite Hst in E.
    destruct config; cbn in E; apply Some_inj in E as <-; exact Hs.
  - apply Some_inj in E as <-. by apply switch_well.
  - apply Some_inj in E as <-. destruct Hs as [Hr Hs]. cbn [fst]. unfold went_well in Hw.
    destruct (wifi_manager_restore_normal w) as [w' e] eqn:Er. cbn [fst snd] in *. destruct Hw as [->|Hw].
    + by destruct (restore_ok_setup c w w' Hr Er) as [(_ & ->)|(_ & ?)]; [apply Hs|].
    + by rewrite (restore_failed_log _ _ _ Er Hw).
  - apply Some_inj in E as <-. apply (iter_inv (fun s => settled c s.1)); [|done].
    intros. by apply handle_wifi_event_settled.
  - apply Some_inj in E as <-. cbn [deliver_ip fst]. destruct Hs as [_ Hs].
    apply (iter_inv (fun w => wm_ap_only w = false → radio_setup (wm_log w) = normal_setup c)); [|done].
    intros w1 H1. by destruct got.
Qed.

Lemma wm_run_settled c ops s s' :
  Forall (fun op => op ≠ WmStop) ops → all_well ops s → settled c s.1 → wm_run (Some s) ops = Some s' → settled c s'.1.
Proof.
  revert s. induction ops as [|op ops IH]; intros s Hf Hw Hs; [by intros [= <-]|].
  inversion_clear Hf as [|? ? Ho Hf']. destruct Hw as [Hw Hrest]. unfold wm_run. cbn [fold_left mbind option_bind].
  destruct (wm_step s op) as [s1|] eqn:E; [|intros E2; pose proof (wm_run_none ops) as E3; unfold wm_run in E3; congruence].
  apply IH; [done|done|]. by eapply wm_step_settled.
Qed.

(** A restore that fails is not repeated: the next one answers ESP_OK and calls
    nothing. *)
Lemma restore_failure_sticks w w' e :
  wifi_manager_restore_normal w = (w', e) → wm_started w = true → wm_normal_valid w = true →
  wifi_manager_restore_normal w' = (w', ESP_OK).
Proof.
  intros E Hs Hv. unfold wifi_manager_restore_normal in E. rewrite Hs, Hv in E. cbn [negb] in E.
  destruct (negb (wm_ap_only w)) eqn:Ea.
  - apply pair_equal_spec in E as [<- _]. unfold wifi_manager_restore_normal. by rewrite Hs, Hv, Ea.
  - destruct (restore_calls_from (w <| wm_ap_only := false |> <| wm_clients := 0 |>)) as (log & err & Er). rewrite Er in E.
    destruct (negb (err_ok err)); apply pair_equal_spec in E as [<- _]; unfold wifi_manager_restore_normal;
      cbn; by rewrite Hs, Hv.
Qed.
End manager.

(** ** Properties *)

(** C36: The Wi-Fi state after anything that happens.  After any sequence of
    starts, stops, switches, restores and events, whatever the driver answers,
    the invariant holds: the retry counter stays within the configured limit;
    the client counter is a byte; a manager that is not started has no
    configuration and is not in AP mode; a started one keeps its normal
    configuration with the working copy's passwords wiped; a disconnected
    station reports neither connection nor address; and AP-only means the last
    mode the driver accepted is AP. *)
Theorem wifi_manager_run_invariant `{QE : Queue zg_event} d bus ops w' bus' :
  Forall wm_op_ok ops → wm_run d (Some (wm_boot, bus)) ops = Some (w', bus') → wm_inv w'.
Proof.
  intros Hf Hrun. change (wm_inv (w', bus').1). revert Hrun. apply (wm_run_ind d (fun s => wm_inv s.1) wm_op_ok); [|done|exact wm_boot_inv].
  intros s op s1 Ho Hs. by apply (wm_step_inv d s).
Qed.

(** C37: Reconnection is bounded, and off in AP mode.  While no connection comes
    up, [n] lost connections, in between any other events, make exactly as many
    attempts to connect as the retry limit leaves room for (times the number of
    registered handlers), and none while the manager is in AP-only mode. *)
Theorem wifi_reconnects_exact `{QE : Queue zg_event} d w bus evs :
  wm_inv w → is_u8 (wc_sta_max_retries (wm_config w)) → Forall (fun e => no_connection e.2) evs →
  let w' := (deliver_all d evs (w, bus)).1 in
  let room := Z.to_nat (wc_sta_max_retries (wm_config w) - wm_retry_count w) in
  connects w' = (connects w + if wm_ap_only w then 0 else Nat.min (wifi_handlers w * disconnects evs) room)%nat.
Proof.
  intros Hi Hu Hf w' room. destruct (wi_retry w Hi) as [H0 Hle].
  assert (reconnecting w 0 w) as Hr by (split; unfold attempts; rewrite ?Nat.min_0_l; destruct (wm_ap_only w); try done; lia).
  pose proof (reconnecting_all d w evs 0 (w, bus) Hle H0 Hu Hf Hr) as Hall. exact (rc_connects _ _ _ Hall).
Qed.

(** C35: Back from AP mode as before.  After a start, whatever happens short of a
    stop: a restore that answers ESP_OK leaves the radio with the mode and the
    station and access point settings it got at the start, those of the caller's
    configuration, if the manager was in AP-only mode when it was called, or if
    no switch and no earlier restore failed once it had called the driver.  (In
    the remaining case it answers ESP_OK with the radio as the failure left it,
    see [failed_switch_sticks] and [restore_failure_sticks].) *)
Theorem wifi_ap_detour_restores `{QE : Queue zg_event} d config w w1 bus ops w2 bus2 w3 :
  wm_started w = false → wifi_manager_start d (Some config) w = Some (w1, ESP_OK) →
  Forall (fun op => op ≠ WmStop) ops → wm_run d (Some (w1, bus)) ops = Some (w2, bus2) →
  wm_ap_only w2 = true ∨ all_well d ops (w1, bus) →
  wifi_manager_restore_normal d w2 = (w3, ESP_OK) →
  radio_setup (wm_log w3) = radio_setup (wm_log w1) ∧
  radio_setup (wm_log w3) = normal_setup (with_defaults config).
Proof.
  intros Hw E1 Hf Hrun Hor E3. apply wifi_manager_start_cases in E1. rewrite Hw in E1.
  destruct E1 as (group & sta & ap & log & [(E & _)|(_ & _ & Ew1)]); [done|].
  assert (settled (with_defaults config) w1) as Hs1
    by (rewrite Ew1; split; [done|]; intros _; apply radio_setup_start).
  assert (radio_setup (wm_log w1) = normal_setup (with_defaults config)) as Hn1
    by (rewrite Ew1; apply radio_setup_start).
  assert (running_with (with_defaults config) w2) as Hr.
  { destruct Hs1 as [Hr1 _]. apply (wm_run_ind d (fun s => running_with (with_defaults config) s.1) (fun op => op ≠ WmStop)
      ops (w1, bus) (w2, bus2) (fun s op s' Ho => wm_step_running d _ s op s' Ho) Hf) in Hrun; done. }
  assert (radio_setup (wm_log w3) = normal_setup (with_defaults config)) as H3; [|by rewrite H3, Hn1].
  destruct (restore_ok_setup d _ _ _ Hr E3) as [(Hap & ->)|(_ & ?)]; [|done].
  destruct Hor as [?|Hall]; [congruence|].
  pose proof (wm_run_settled d _ ops (w1, bus) (w2, bus2) Hf Hall Hs1 Hrun) as [_ Hset]. by apply Hset.
Qed.

(** A switch that fails after the mode was set leaves the radio in AP mode and
    the manager believing it is not: a restore then does nothing. *)
Definition no_ap_config : wifi_driver :=
  mk_wifi_driver
    (fun log c => match c with
                  | Call_esp_wifi_set_config_ap _ => if bool_decide (radio_mode log = Some WIFI_MODE_AP) then ESP_FAIL else ESP_OK
                  | _ => ESP_OK
                  end) (fun _ => true) (fun _ => 1) (fun _ => 2).
Definition witness_wifi_config : wifi_manager_config :=
  mk_wifi_manager_config (safe_copy (zeros 32) (Some (lit "home"))) (safe_copy (zeros 64) (Some (lit "secret123")))
    (safe_copy (zeros 32) (Some (lit "zone"))) (safe_copy (zeros 64) None) 0 0 2 false.
Definition started_wifi (d : wifi_driver) : wm_state :=
  match wifi_manager_start d (Some witness_wifi_config) wm_boot with Some (w, _) => w | None => wm_boot end.
Lemma failed_switch_sticks :
  let '(w, err) := wifi_manager_switch_to_ap no_ap_config (Some (lit "setup")) None 1 (started_wifi no_ap_config) in
  err = ESP_FAIL ∧ radio_mode (wm_log w) = Some WIFI_MODE_AP ∧
  wifi_manager_restore_normal no_ap_config w = (w, ESP_OK).
Proof. vm_compute. auto. Qed.

(** A stop leaves the handlers registered: after the next start every event is
    handled twice, and one client counts as two. *)
Lemma restart_counts_twice :
  let w := started_wifi good_driver in
  let w := (wifi_manager_stop good_driver w).1 in
  match wifi_manager_start good_driver (Some witness_wifi_config) w with
  | Some (w, _) => wm_clients (deliver_wifi good_driver 0 (WIFI_EVENT_AP_STACONNECTED 1) (w, eb_boot)).1 = 2
  | None => False
  end.
Proof. by vm_compute. Qed.

(** ** Witnesses *)
Definition witness_wifi_ops : list wm_op :=
  [WmStart (Some witness_wifi_config); WmWifiEvent 0 WIFI_EVENT_STA_START; WmWifiEvent 5 WIFI_EVENT_STA_CONNECTED;
   WmIpEvent true; WmSwitch (Some (lit "setup")) (Some (lit "password")) 2; WmWifiEvent 9 WIFI_EVENT_STA_DISCONNECTED].

Definition witness_ap_only : wm_state :=
  (default (wm_boot, eb_boot) (wm_run good_driver (Some (wm_boot, eb_boot)) witness_wifi_ops)).1.

Lemma wifi_manager_run_invariant_witness : wm_inv witness_ap_only.
Proof.
  apply (wifi_manager_run_invariant good_driver eb_boot witness_wifi_ops witness_ap_only eb_boot); [|vm_compute; reflexivity].
  repeat constructor; vm_compute; congruence.
Defined.

(** Two retries: of three lost connections two are answered. *)
Lemma wifi_reconnects_exact_witness :
  let w := started_wifi good_driver in
  connects (deliver_all good_driver
    [(1, WIFI_EVENT_STA_DISCONNECTED); (2, WIFI_EVENT_AP_STACONNECTED 3); (3, WIFI_EVENT_STA_DISCONNECTED);
     (4, WIFI_EVENT_STA_DISCONNECTED)] (w, eb_boot)).1 = 2%nat.
Proof.
  cbv zeta. rewrite wifi_reconnects_exact; [vm_compute; reflexivity|..].
  - split; vm_compute; (done || (intros; split_and!; done) || (intros; split; done)).
  - vm_compute. split; congruence.
  - repeat constructor.
Defined.

Lemma wifi_ap_detour_restores_witness :
  radio_setup (wm_log (wifi_manager_restore_normal good_driver witness_ap_only).1) = normal_setup (with_defaults witness_wifi_config).
Proof.
  refine (proj2 (wifi_ap_detour_restores good_driver witness_wifi_config wm_boot (started_wifi good_driver) eb_boot
    (tail witness_wifi_ops) witness_ap_only eb_boot _ _ _ _ _ _ _)); try (vm_compute; reflexivity).
  - repeat constructor; discriminate.
  - left. vm_compute. reflexivity.
Defined.
