(* ===== verification/Setup_ap.v ===== *)
(** * Setup access point

    [setup_ap/setup_ap.c]: the access point of the first configuration, one
    sequence of driver calls that stops at the first error. *)

From S2P Require Import Prelude Bytes Wifi_driver.

(** The static interface handle and the log of driver calls. *)
Record sa_state := mk_sa_state { sa_netif : Z; sa_log : wifi_log }.

Definition copy_str (dst : bytes) (src : option bytes) : bytes := safe_copy dst src.

Section setup.
Context (d : wifi_driver).

Definition sa_ask (c : wifi_call) (s : sa_state) : sa_state * esp_err :=
  let e := wd_call d (sa_log s) c in (mk_sa_state (sa_netif s) (sa_log s ++ [(c, e)]), e).

(** A call, then the rest unless it failed; [tolerated] is the second condition
    of [ret != ESP_OK && ret != ESP_ERR_INVALID_STATE]. *)
Definition sa_then (tolerate : bool) (c : wifi_call) (k : sa_state → sa_state * esp_err) (s : sa_state) :
    sa_state * esp_err :=
  let '(s, ret) := sa_ask c s in
  if negb (err_ok ret) && negb (tolerate && err_eqb ret ESP_ERR_INVALID_STATE) then (s, ret) else k s.

Definition setup_protected (password : option bytes) : bool :=
  match password with None => false | Some p => 8 <=? Z.of_nat (strlen p) end.

Definition setup_ap_config (ssid : bytes) (password : option bytes) : wifi_ap_config :=
  let copied := copy_str (zeros 64) password in
  mk_wifi_ap_config (copy_str (zeros 32) (Some ssid))
    (if setup_protected password then copied else <[0%nat := 0]> copied)
    (u8 (Z.of_nat (strlen ssid))) 6 2
    (if setup_protected password then WIFI_AUTH_WPA_WPA2_PSK else WIFI_AUTH_OPEN) false.

Definition setup_ap_start (ssid password : option bytes) (s : sa_state) : sa_state * esp_err :=
  match ssid with
  | None => (s, ESP_ERR_INVALID_ARG)
  | Some ssid =>
    if nth 0 ssid 0 =? 0 then (s, ESP_ERR_INVALID_ARG) else
    sa_then true Call_esp_netif_init (
    sa_then true Call_esp_event_loop_create_default (fun s =>
    let s := mk_sa_state (wd_ap_netif d (sa_log s)) (sa_log s) in
    if sa_netif s =? 0 then (s, ESP_FAIL) else
    sa_then true Call_esp_wifi_init (
    sa_then false (Call_esp_wifi_set_mode WIFI_MODE_AP) (
    sa_then false (Call_esp_wifi_set_config_ap (setup_ap_config ssid password)) (
    sa_then false Call_esp_wifi_start (fun s => (s, ESP_OK))))) s)) s
  end.

(** ** What a sequence of calls leaves in the log *)
(** The calls appended, when the result is an error or a success. *)
Definition sa_outcome (failing ok : wifi_log → Prop) (s : sa_state) (r : sa_state * esp_err) : Prop :=
  ∃ new, sa_log r.1 = sa_log s ++ new ∧ if err_ok r.2 then ok new else failing new.

Lemma sa_then_outcome tolerate c k s (failing ok : wifi_log → Prop) :
  (∀ e, e ≠ ESP_OK → failing [(c, e)]) →
  (∀ e s', e = ESP_OK ∨ tolerate = true → sa_log s' = sa_log s ++ [(c, e)] → sa_netif s' = sa_netif s →
     sa_outcome (fun new => failing ((c, e) :: new)) (fun new => ok ((c, e) :: new)) s' (k s')) →
  sa_outcome failing ok s (sa_then tolerate c k s).
Proof.
  intros Hf Hk. unfold sa_then, sa_ask. set (e := wd_call d (sa_log s) c).
  destruct (err_ok e) eqn:Ee; cbn [negb andb].
  - apply bool_decide_eq_true in Ee. rewrite Ee. destruct (Hk ESP_OK (mk_sa_state (sa_netif s) (sa_log s ++ [(c, ESP_OK)])))
      as (new & E & Hn); [by left|done|done|]. exists ((c, ESP_OK) :: new). rewrite E. cbn. by rewrite <- app_assoc.
  - destruct (negb (tolerate && _)) eqn:Et.
    + exists [(c, e)]. cbn [fst snd sa_log]. rewrite Ee. split; [done|]. apply Hf. intros ->. discriminate.
    + apply negb_false_iff, andb_true_iff in Et as [Et _].
      destruct (Hk e (mk_sa_state (sa_netif s) (sa_log s ++ [(c, e)]))) as (new & E & Hn); [by right|done|done|].
      exists ((c, e) :: new). rewrite E. cbn. by rewrite <- app_assoc.
Qed.

(** No call of the list started the radio. *)
Definition not_started (new : wifi_log) : Prop := (Call_esp_wifi_start, ESP_OK) ∉ new.
(** The three calls that must succeed, last. *)
Definition setup_running (config : wifi_ap_config) (new : wifi_log) : Prop :=
  ∃ before, new = before ++ [(Call_esp_wifi_set_mode WIFI_MODE_AP, ESP_OK); (Call_esp_wifi_set_config_ap config, ESP_OK);
                             (Call_esp_wifi_start, ESP_OK)].

Ltac no_start := intros; unfold not_started; rewrite ?not_elem_of_cons; split_and?; (congruence || apply not_elem_of_nil).

Lemma setup_ap_start_outcome ssid password s :
  sa_outcome not_started (setup_running (setup_ap_config (default [] ssid) password)) s (setup_ap_start ssid password s).
Proof.
  assert (∀ failing ok s e, failing [] → e ≠ ESP_OK → sa_outcome failing ok s (s, e)) as Hstop.
  { intros failing ok s' e Hf He. exists []. rewrite app_nil_r. split; [done|]. by destruct e. }
  unfold setup_ap_start. destruct ssid as [ssid|]; [|apply Hstop; [no_start|done]].
  destruct (_ =? 0); [apply Hstop; [no_start|done]|].
  apply sa_then_outcome; [no_start|]. intros e1 s1 _ _ _.
  apply sa_then_outcome; [no_start|]. intros e2 s2 _ _ _. cbn zeta.
  match goal with |- sa_outcome ?f ?o _ (if _ then (?s3, _) else ?r) =>
    assert (sa_outcome f o s3 (if sa_netif s3 =? 0 then (s3, ESP_FAIL) else r)) as Hr; [|exact Hr] end.
  destruct (_ =? 0); [apply Hstop; [no_start|done]|].
  apply sa_then_outcome; [no_start|]. intros e3 s3 _ _ _.
  apply sa_then_outcome; [no_start|]. intros e4 s4 [->|?] _ _; [|done].
  apply sa_then_outcome; [no_start|]. intros e5 s5 [->|?] _ _; [|done].
  apply sa_then_outcome; [no_start|]. intros e6 s6 [->|?] _ _; [|done].
  exists []. rewrite app_nil_r. split; [done|]. cbn. by eexists [_; _; _].
Qed.
End setup.

(** ** Properties *)

(** The setup network is up exactly when the call says so.  ESP_OK means
    that the last three driver calls set AP mode, the network's settings and
    started the radio, all accepted; any error means the radio was not started.
    The network's name is the given one cut to 31 bytes, and it is open exactly
    when the password has fewer than 8 bytes. *)
Theorem setup_ap_start_exact d ssid password s :
  let '(s', err) := setup_ap_start d ssid password s in
  let config := setup_ap_config (default [] ssid) password in
  (∃ new, sa_log s' = sa_log s ++ new ∧ if err_ok err then setup_running config new else not_started new) ∧
  c_str (wa_ssid config) = take 31 (c_str (default [] ssid)) ∧
  (wa_authmode config = WIFI_AUTH_OPEN ↔ ∀ p, password = Some p → (strlen p < 8)%nat).
Proof.
  destruct (setup_ap_start d ssid password s) as [s' err] eqn:E. cbn zeta.
  split; [|split; [by apply (c_str_safe_copy (zeros 32))|]].
  - pose proof (setup_ap_start_outcome d ssid password s) as Ho. rewrite E in Ho. exact Ho.
  - unfold setup_ap_config, setup_protected. cbn [wa_authmode]. destruct password as [p|].
    + destruct (8 <=? _) eqn:El; [apply Z.leb_le in El|apply Z.leb_gt in El]; split; try done.
      * intros Hp. specialize (Hp p eq_refl). lia.
      * intros _ q [= <-]. lia.
    + by split.
Qed.

(** A name of 32 bytes or more is cut to 31, but its full length is what the
    driver is told. *)
Lemma setup_ap_long_name :
  let config := setup_ap_config (replicate 40 65) None in
  strlen (wa_ssid config) = 31%nat ∧ wa_ssid_len config = 40.
Proof. by vm_compute. Qed.

