(* ===== verification/G2g_ble.v ===== *)
(** * Guardian-to-guardian radio: the host side

    [g2g_ble/g2g_ble.c].  Everything but the transmit task: the peer table, the
    advertising and scanning switches with the delayed resumption, the callbacks
    of the NimBLE host, the receive task and the public calls.  The static
    variables are [g2_state].  Calls into NimBLE are appended to a log with
    their return codes, which are a function of everything called so far; the
    connections, losses of connections and characteristics that the host reports
    to the callbacks are noted in the same log, with code 0.  The FreeRTOS
    queues are those of [Event_bus]. *)

From S2P Require Import Prelude Bytes Event_bus.

Definition G2G_BLE_FRAGMENT_MAX_LEN : Z := 220.
Definition G2G_BLE_MAX_PEERS : nat := 8.
Definition G2G_BLE_TX_QUEUE_LEN : nat := 4.
Definition G2G_RX_QUEUE_LEN : nat := 4.
Definition G2G_RESUME_DELAY_MS : Z := 350.
Definition G2G_RESUME_RETRY_MS : Z := 250.

(** Codes of NimBLE. *)
Definition BLE_HS_EALREADY : Z := 2.
Definition BLE_HS_EDONE : Z := 14.
Definition BLE_HS_EBUSY : Z := 15.
Definition BLE_HS_CONN_HANDLE_NONE : Z := 65535.
Definition BLE_ATT_ERR_INVALID_ATTR_VALUE_LEN : Z := 13.
Definition BLE_ATT_ERR_UNLIKELY : Z := 14.

Definition G2G_SERVICE_UUID : bytes :=
  [0x42; 0x4e; 0x47; 0x32; 0x47; 0x2d; 0x41; 0x50; 0x2d; 0x54; 0x52; 0x41; 0x4e; 0x53; 0x50; 0x01].

(** [pdMS_TO_TICKS] at the configured 100 ticks per second. *)
Definition pdMS_TO_TICKS (ms : Z) : Z := ms * 100 / 1000.

(** ** Data *)
Record ble_addr := mk_ble_addr { ad_type : Z; ad_val : bytes }.
#[export] Instance ble_addr_dec : EqDecision ble_addr.
Proof. solve_decision. Defined.

(** [gf_exclude] is [exclude_addr] when [has_exclude_addr] is set. *)
Record g2g_fragment := mk_g2g_fragment {
  gf_len : Z;
  gf_exclude : option ble_addr;
  gf_bytes : bytes
}.
(** The bytes of the fragment that are sent and handed on. *)
Definition fragment_payload (f : g2g_fragment) : bytes := take (Z.to_nat (gf_len f)) (gf_bytes f).

(** [s_tx]; its [fragment] is always NULL. *)
Record g2g_tx_ctx := mk_g2g_tx_ctx {
  tc_active : bool;
  tc_ok : bool;
  tc_conn_handle : Z;
  tc_chr_handle : Z
}.
#[export] Instance g2g_tx_ctx_settable : Settable g2g_tx_ctx := fun r =>
  mk_g2g_tx_ctx (tc_active r) (tc_ok r) (tc_conn_handle r) (tc_chr_handle r).
Definition g2g_tx_zero : g2g_tx_ctx := mk_g2g_tx_ctx false false 0 0.

(** The callback and its context are addresses, 0 for NULL. *)
Record g2g_ble_config := mk_g2g_ble_config {
  gc_guardian_id : Z;
  gc_zone_id : Z;
  gc_on_fragment : Z;
  gc_ctx : Z
}.
Definition g2g_config_zero : g2g_ble_config := mk_g2g_ble_config 0 0 0 0.

Record g2g_ble_stats := mk_g2g_ble_stats {
  gt_discovered_peers : Z;
  gt_queued_fragments : Z;
  gt_tx_fragments : Z;
  gt_tx_errors : Z;
  gt_rx_fragments : Z;
  gt_rx_errors : Z
}.
#[export] Instance g2g_ble_stats_settable : Settable g2g_ble_stats := fun r =>
  mk_g2g_ble_stats (gt_discovered_peers r) (gt_queued_fragments r) (gt_tx_fragments r) (gt_tx_errors r)
    (gt_rx_fragments r) (gt_rx_errors r).
Definition g2g_stats_zero : g2g_ble_stats := mk_g2g_ble_stats 0 0 0 0 0 0.

Definition g2g_peers_zero : list (option ble_addr) := replicate G2G_BLE_MAX_PEERS None.

(** ** NimBLE *)
(** The calls into the host and, with code 0, three things it reports: an
    established connection (outbound when it came during a transmission, and who
    is at its other end), a lost one, and a characteristic found. *)
Inductive ble_call :=
| Call_adv_set_fields | Call_adv_start (own : Z) | Call_adv_stop
| Call_disc (own : Z) | Call_disc_cancel
| Call_connect (own : Z) (addr : ble_addr) | Call_conn_cancel
| Call_terminate (conn : Z)
| Call_write (conn chr : Z) (data : bytes)
| Call_exchange_mtu (conn : Z) | Call_disc_svc (conn : Z) | Call_disc_chrs (conn first last : Z)
| Call_ensure_addr | Call_infer_auto
| Event_connect (outbound : bool) (conn : Z) (peer : option ble_addr)
| Event_disconnect (conn : Z)
| Event_chr (chr : Z).

Definition ble_log : Type := list (ble_call * Z).

(** The return codes, the parser of advertisements (its 128-bit UUIDs) and the
    address type [ble_hs_id_infer_auto] finds. *)
Record ble_host := mk_ble_host {
  bh_rc : ble_log → ble_call → Z;
  bh_parse_adv : bytes → option (list bytes);
  bh_own_addr_type : Z
}.

Section g2g.
Context `{QF : Queue g2g_fragment} (h : ble_host).

(** [gs_rx_peer] and [gs_cb_exclude] hold an address when the flag beside it is
    set, [gs_tx_done] is the binary semaphore, [gs_ticks] the tick count, and
    [gs_calls] are the fragments handed to the callback so far. *)
Record g2_state := mk_g2_state {
  gs_config : g2g_ble_config;
  gs_stats : g2g_ble_stats;
  gs_running : bool;
  gs_synced : bool;
  gs_advertising : bool;
  gs_scanning : bool;
  gs_rx_active : bool;
  gs_resume_pending : bool;
  gs_resume_at : Z;
  gs_rx_conn : Z;
  gs_rx_peer : option ble_addr;
  gs_cb_exclude : option ble_addr;
  gs_own_addr_type : Z;
  gs_peers : list (option ble_addr);
  gs_tx_queue : option (queue g2g_fragment);
  gs_rx_queue : option (queue g2g_fragment);
  gs_tx_done : option bool;
  gs_tx : g2g_tx_ctx;
  gs_ticks : Z;
  gs_log : ble_log;
  gs_calls : list bytes
}.
#[export] Instance g2_state_settable : Settable g2_state := fun r =>
  mk_g2_state (gs_config r) (gs_stats r) (gs_running r) (gs_synced r) (gs_advertising r) (gs_scanning r)
    (gs_rx_active r) (gs_resume_pending r) (gs_resume_at r) (gs_rx_conn r) (gs_rx_peer r) (gs_cb_exclude r)
    (gs_own_addr_type r) (gs_peers r) (gs_tx_queue r) (gs_rx_queue r) (gs_tx_done r) (gs_tx r) (gs_ticks r)
    (gs_log r) (gs_calls r).

Definition g2_boot : g2_state :=
  mk_g2_state g2g_config_zero g2g_stats_zero false false false false false false 0 0 None None 0 g2g_peers_zero
    None None None g2g_tx_zero 0 [] [].

(** A call into NimBLE. *)
Definition ble (c : ble_call) (s : g2_state) : g2_state * Z :=
  let rc := bh_rc h (gs_log s) c in (s <| gs_log ::= fun l => l ++ [(c, rc)] |>, rc).

(** What the host reports is noted in the log. *)
Definition note (e : ble_call) (s : g2_state) : g2_state := s <| gs_log ::= fun l => l ++ [(e, 0)] |>.

Definition gap_busy (rc : Z) : bool := (rc =? BLE_HS_EALREADY) || (rc =? BLE_HS_EBUSY).
Definition gap_already (rc : Z) : bool := rc =? BLE_HS_EALREADY.

Definition stats_inc (f : g2g_ble_stats → g2g_ble_stats) (s : g2_state) : g2_state := s <| gs_stats ::= f |>.

Definition addr_equal (a b : ble_addr) : bool := (ad_type a =? ad_type b) && bool_decide (ad_val a = ad_val b).

Definition batch_excludes_peer (fragments : list g2g_fragment) (addr : ble_addr) : bool :=
  match fragments with
  | [] => false
  | _ => forallb (fun f => match gf_exclude f with None => false | Some a => addr_equal a addr end) fragments
  end.

(** ** Peers *)
Definition uuid128_equal (a b : bytes) : bool := bool_decide (a = b).

Definition adv_has_service (data : bytes) : bool :=
  match data with
  | [] => false
  | _ => match bh_parse_adv h data with
         | None => false
         | Some uuids => existsb (fun u => uuid128_equal u G2G_SERVICE_UUID) uuids
         end
  end.

Definition remember_peer (addr : ble_addr) (s : g2_state) : g2_state :=
  if existsb (fun p => match p with None => false | Some a => addr_equal a addr end) (gs_peers s) then s
  else match list_find (fun p => p = None) (gs_peers s) with
       | None => s
       | Some (i, _) => stats_inc (fun t => t <| gt_discovered_peers ::= inc64 |>) (s <| gs_peers ::= <[i := Some addr]> |>)
       end.

(** ** Advertising and scanning *)
Definition start_advertising (s : g2_state) : g2_state * esp_err :=
  if negb (gs_synced s) || gs_advertising s then (s, ESP_OK) else
  let '(s, rc) := ble Call_adv_set_fields s in
  if negb (rc =? 0) then
    if gap_busy rc then (s <| gs_advertising := true |>, ESP_OK) else (s, ESP_FAIL)
  else
  let '(s, rc) := ble (Call_adv_start (gs_own_addr_type s)) s in
  if negb (rc =? 0) then
    if gap_already rc then (s <| gs_advertising := true |>, ESP_OK)
    else if rc =? BLE_HS_EBUSY then (s, ESP_ERR_INVALID_STATE) else (s, ESP_FAIL)
  else (s <| gs_advertising := true |>, ESP_OK).

Definition start_scanning (s : g2_state) : g2_state * esp_err :=
  if negb (gs_synced s) || gs_scanning s then (s, ESP_OK) else
  let '(s, rc) := ble (Call_disc (gs_own_addr_type s)) s in
  if negb (rc =? 0) then
    if gap_already rc then (s <| gs_scanning := true |>, ESP_OK)
    else if rc =? BLE_HS_EBUSY then (s, ESP_ERR_INVALID_STATE) else (s, ESP_FAIL)
  else (s <| gs_scanning := true |>, ESP_OK).

Definition stop_scanning (s : g2_state) : g2_state :=
  if gs_scanning s then (ble Call_disc_cancel s).1 <| gs_scanning := false |> else s.
Definition stop_advertising (s : g2_state) : g2_state :=
  if gs_advertising s then (ble Call_adv_stop s).1 <| gs_advertising := false |> else s.

Definition schedule_presence_resume (delay_ms : Z) (s : g2_state) : g2_state :=
  if negb (gs_running s) then s
  else s <| gs_resume_pending := true |> <| gs_resume_at := u32 (gs_ticks s + pdMS_TO_TICKS delay_ms) |>.

Definition resume_presence_now (s : g2_state) : g2_state * esp_err :=
  if negb (gs_running s) || negb (gs_synced s) || tc_active (gs_tx s) || gs_rx_active s
  then (schedule_presence_resume G2G_RESUME_RETRY_MS s, ESP_ERR_INVALID_STATE)
  else
    let '(s, adv_err) := start_advertising s in
    let '(s, scan_err) := start_scanning s in
    if negb (err_ok adv_err) || negb (err_ok scan_err)
    then (schedule_presence_resume G2G_RESUME_RETRY_MS s, ESP_ERR_INVALID_STATE)
    else (s, ESP_OK).

(** The tick count has reached [resume_at], wrap-around included. *)
Definition resume_due (s : g2_state) : bool := negb (s32 (u32 (gs_ticks s - gs_resume_at s)) <? 0).

Definition maybe_resume_presence (s : g2_state) : g2_state :=
  if negb (gs_resume_pending s) then s
  else if negb (resume_due s) then s
  else (resume_presence_now (s <| gs_resume_pending := false |>)).1.

(** ** Callbacks of the GATT client *)
Definition tx_complete (ok : bool) (s : g2_state) : g2_state :=
  s <| gs_tx ::= (fun t => t <| tc_ok := ok |>) |> <| gs_tx_done ::= fmap (fun _ => true) |>.

(** [error] is the status, [None] for a NULL pointer. *)
Definition chr_disc_cb (error : option Z) (chr : option Z) (s : g2_state) : g2_state :=
  match error with
  | None => tx_complete false s
  | Some status =>
    match chr, status =? 0 with
    | Some val_handle, true =>
      tx_complete true (note (Event_chr val_handle) s <| gs_tx ::= fun t => t <| tc_chr_handle := val_handle |> |>)
    | _, _ => if (status =? BLE_HS_EDONE) && (tc_chr_handle (gs_tx s) =? 0) then tx_complete false s else s
    end
  end.

Definition svc_disc_cb (conn : Z) (error : option Z) (service : option (Z * Z)) (s : g2_state) : g2_state :=
  match error with
  | None => tx_complete false s
  | Some status =>
    match service, status =? 0 with
    | Some (first, last), true =>
      let '(s, rc) := ble (Call_disc_chrs conn first last) s in if negb (rc =? 0) then tx_complete false s else s
    | _, _ => if status =? BLE_HS_EDONE then tx_complete false s else s
    end
  end.

Definition mtu_cb (conn : Z) (s : g2_state) : g2_state :=
  let '(s, rc) := ble (Call_disc_svc conn) s in if negb (rc =? 0) then tx_complete false s else s.

(** ** GAP events *)
(** [desc] is the address at the other end, as [ble_gap_conn_find] gives it if it
    succeeds. *)
Inductive ble_gap_event :=
| Gap_disc (addr : ble_addr) (data : bytes)
| Gap_connect (status conn : Z) (desc : option ble_addr)
| Gap_disconnect (conn : Z)
| Gap_adv_complete
| Gap_disc_complete
| Gap_other.

Definition gap_connected (status conn : Z) (desc : option ble_addr) (s : g2_state) : g2_state :=
  if tc_active (gs_tx s) then
    if status =? 0 then
      let s := note (Event_connect true conn desc) s in
      let s := s <| gs_advertising := false |> <| gs_tx ::= fun t => t <| tc_conn_handle := conn |> |> in
      let '(s, rc) := ble (Call_exchange_mtu conn) s in
      if negb (rc =? 0) then mtu_cb conn s else s
    else schedule_presence_resume G2G_RESUME_RETRY_MS (tx_complete false s)
  else if status =? 0 then
    let s := note (Event_connect false conn desc) s in
    stop_scanning (s <| gs_advertising := false |> <| gs_rx_active := true |> <| gs_rx_conn := conn |> <| gs_rx_peer := desc |>)
  else schedule_presence_resume G2G_RESUME_RETRY_MS s.

Definition gap_disconnected (conn : Z) (s : g2_state) : g2_state :=
  let s := note (Event_disconnect conn) s in
  let s := if tc_active (gs_tx s) && (tc_conn_handle (gs_tx s) =? conn)
           then tx_complete false (s <| gs_tx ::= fun t => t <| tc_conn_handle := BLE_HS_CONN_HANDLE_NONE |> |>) else s in
  let s := if gs_rx_active s && (gs_rx_conn s =? conn)
           then s <| gs_rx_active := false |> <| gs_rx_conn := BLE_HS_CONN_HANDLE_NONE |> <| gs_rx_peer := None |> else s in
  schedule_presence_resume G2G_RESUME_DELAY_MS (s <| gs_advertising := false |>).

Definition gap_event (event : ble_gap_event) (s : g2_state) : g2_state :=
  match event with
  | Gap_disc addr data => if adv_has_service data then remember_peer addr s else s
  | Gap_connect status conn desc => gap_connected status conn desc s
  | Gap_disconnect conn => gap_disconnected conn s
  | Gap_adv_complete => schedule_presence_resume G2G_RESUME_DELAY_MS (s <| gs_advertising := false |>)
  | Gap_disc_complete => schedule_presence_resume G2G_RESUME_DELAY_MS (s <| gs_scanning := false |>)
  | Gap_other => s
  end.

Definition on_reset (s : g2_state) : g2_state := s <| gs_synced := false |>.

Definition on_sync (s : g2_state) : g2_state :=
  let '(s, rc) := ble Call_ensure_addr s in
  if negb (rc =? 0) then s else
  let '(s, rc) := ble Call_infer_auto s in
  if negb (rc =? 0) then s else
  schedule_presence_resume 0 (s <| gs_own_addr_type := bh_own_addr_type h |> <| gs_synced := true |>).

(** ** Receiving *)
(** A write by a peer: whether it is a characteristic write, its bytes, and
    whether [os_mbuf_copydata] succeeds. *)
Definition rx_access_cb (write_chr : bool) (data : bytes) (copied : bool) (s : g2_state) : g2_state * Z :=
  let rx_error s := stats_inc (fun t => t <| gt_rx_errors ::= inc64 |>) s in
  if negb write_chr then (s, BLE_ATT_ERR_UNLIKELY) else
  let len := u16 (Z.of_nat (List.length data)) in
  if (len =? 0) || (G2G_BLE_FRAGMENT_MAX_LEN <? len) then (rx_error s, BLE_ATT_ERR_INVALID_ATTR_VALUE_LEN)
  else match gs_rx_queue s with
  | None => (rx_error s, BLE_ATT_ERR_UNLIKELY)
  | Some q =>
    let fragment := mk_g2g_fragment len (gs_rx_peer s) (memcpy (zeros 220) data (Z.to_nat len)) in
    if negb copied then (rx_error s, BLE_ATT_ERR_UNLIKELY) else
    let s := stats_inc (fun t => t <| gt_rx_fragments ::= inc64 |>) s in
    match xQueueSend q fragment with
    | None => (rx_error s, BLE_ATT_ERR_UNLIKELY)
    | Some q' => (s <| gs_rx_queue := Some q' |>, 0)
    end
  end.

(** A pass of [rx_task] up to the call of the callback, and from its return on;
    what the callback and the other tasks do happens in between. *)
Definition rx_task_take (s : g2_state) : g2_state :=
  if negb (gs_running s) then s else
  match gs_rx_queue s with
  | None => s
  | Some q =>
    match xQueueReceive q with
    | None => s
    | Some (fragment, q') =>
      let s := s <| gs_rx_queue := Some q' |> in
      if gc_on_fragment (gs_config s) =? 0 then s
      else s <| gs_cb_exclude := gf_exclude fragment |> <| gs_calls ::= fun l => l ++ [fragment_payload fragment] |>
    end
  end.
Definition rx_task_done (s : g2_state) : g2_state := s <| gs_cb_exclude := None |>.

(** ** Calls *)
(** [created]: the two queues are those the interface creates; [nimble] is what
    [nimble_port_init] answers, [gatts] the code of the service registration,
    [tasks] whether the three tasks were created. *)
Definition g2g_ble_start (config : option g2g_ble_config) (semaphore : bool) (nimble : esp_err) (gatts : Z)
    (tasks : bool * bool * bool) (s : g2_state) : g2_state * esp_err :=
  if gs_running s then (s, ESP_OK) else
  let c := default g2g_config_zero config in
  let c := if gc_zone_id c =? 0
           then mk_g2g_ble_config (gc_guardian_id c) 1 (gc_on_fragment c) (gc_ctx c) else c in
  let s := s <| gs_config := c |> <| gs_stats := g2g_stats_zero |> <| gs_peers := g2g_peers_zero |>
             <| gs_tx := g2g_tx_zero |> in
  let s := s <| gs_rx_active := false |> <| gs_rx_conn := BLE_HS_CONN_HANDLE_NONE |> <| gs_rx_peer := None |>
             <| gs_cb_exclude := None |> <| gs_resume_pending := false |> <| gs_resume_at := 0 |> in
  let s := s <| gs_tx_queue := xQueueCreate G2G_BLE_TX_QUEUE_LEN |> <| gs_rx_queue := xQueueCreate G2G_RX_QUEUE_LEN |>
             <| gs_tx_done := if semaphore then Some false else None |> in
  let release s := s <| gs_tx_queue := None |> <| gs_rx_queue := None |> <| gs_tx_done := None |> in
  match gs_tx_queue s, gs_rx_queue s, gs_tx_done s with
  | Some _, Some _, Some _ =>
    if negb (err_ok nimble) then (s, nimble)
    else if negb (gatts =? 0) then (s, ESP_FAIL)
    else if negb (tasks.1.1 && tasks.1.2 && tasks.2) then (release s, ESP_ERR_NO_MEM)
    else (s <| gs_running := true |>, ESP_OK)
  | _, _, _ => (release s, ESP_ERR_NO_MEM)
  end.

(** [g2g_ble_stop] up to its delay, and after it. *)
Definition g2g_ble_stop (s : g2_state) : g2_state * esp_err :=
  if negb (gs_running s) then (s, ESP_OK) else
  let s := s <| gs_running := false |> <| gs_resume_pending := false |> <| gs_rx_active := false |>
             <| gs_rx_conn := BLE_HS_CONN_HANDLE_NONE |> <| gs_rx_peer := None |> <| gs_cb_exclude := None |> in
  let s := stop_advertising (stop_scanning s) in
  let conn := tc_conn_handle (gs_tx s) in
  (if negb (conn =? BLE_HS_CONN_HANDLE_NONE) then (ble (Call_terminate conn) s).1 else s, ESP_OK).
Definition g2g_ble_stop_end (s : g2_state) : g2_state :=
  s <| gs_tx_queue := None |> <| gs_rx_queue := None |> <| gs_tx_done := None |>.

Definition g2g_ble_is_running (s : g2_state) : bool := gs_running s.

Definition g2g_ble_send_fragment (data : option bytes) (len : Z) (s : g2_state) : g2_state * esp_err :=
  match gs_running s, gs_tx_queue s with
  | true, Some q =>
    match data with
    | None => (s, ESP_ERR_INVALID_ARG)
    | Some data =>
      if (len =? 0) || (G2G_BLE_FRAGMENT_MAX_LEN <? len) then (s, ESP_ERR_INVALID_ARG) else
      let fragment := mk_g2g_fragment (u16 len) (gs_cb_exclude s) (memcpy (zeros 220) data (Z.to_nat len)) in
      match xQueueSend q fragment with
      | None => (s, ESP_ERR_NO_MEM)
      | Some q' => (stats_inc (fun t => t <| gt_queued_fragments ::= inc64 |>) (s <| gs_tx_queue := Some q' |>), ESP_OK)
      end
    end
  | _, _ => (s, ESP_ERR_INVALID_STATE)
  end.

Definition g2g_ble_get_stats (s : g2_state) : g2g_ble_stats := gs_stats s.

(** ** What the other tasks and the host do *)
Inductive g2_op :=
| G2Gap (event : ble_gap_event)
| G2Mtu (conn : Z)
| G2Svc (conn : Z) (error : option Z) (service : option (Z * Z))
| G2Chr (error chr : option Z)
| G2Reset
| G2Sync
| G2Write (write_chr : bool) (data : bytes) (copied : bool)
| G2RxTake
| G2RxDone
| G2Send (data : option bytes) (len : Z)
| G2Stop
| G2StopEnd
| G2Start (config : option g2g_ble_config) (semaphore : bool) (nimble : esp_err) (gatts : Z) (tasks : bool * bool * bool)
| G2Tick (n : Z).

Definition g2_step (s : g2_state) (op : g2_op) : g2_state :=
  match op with
  | G2Gap event => gap_event event s
  | G2Mtu conn => mtu_cb conn s
  | G2Svc conn error service => svc_disc_cb conn error service s
  | G2Chr error chr => chr_disc_cb error chr s
  | G2Reset => on_reset s
  | G2Sync => on_sync s
  | G2Write write_chr data copied => (rx_access_cb write_chr data copied s).1
  | G2RxTake => rx_task_take s
  | G2RxDone => rx_task_done s
  | G2Send data len => (g2g_ble_send_fragment data len s).1
  | G2Stop => (g2g_ble_stop s).1
  | G2StopEnd => g2g_ble_stop_end s
  | G2Start config semaphore nimble gatts tasks => (g2g_ble_start config semaphore nimble gatts tasks s).1
  | G2Tick n => s <| gs_ticks ::= fun t => u32 (t + n) |>
  end.
Definition g2_run (s : g2_state) (ops : list g2_op) : g2_state := fold_left g2_step ops s.

(** ** Presence *)
(** A running and synchronised radio is visible and listening, or something will
    make it so. *)
Definition presence_ok (s : g2_state) : Prop :=
  gs_running s = true → gs_synced s = true →
  gs_resume_pending s = true ∨ tc_active (gs_tx s) = true ∨ gs_rx_active s = true ∨
  (gs_advertising s = true ∧ gs_scanning s = true).

Lemma schedule_presence delay_ms s : presence_ok (schedule_presence_resume delay_ms s).
Proof. unfold schedule_presence_resume, presence_ok. destruct (gs_running s) eqn:E; cbn; auto. by rewrite E. Qed.

(** What a call or a counter changes is no part of presence. *)
Definition same_presence (s s' : g2_state) : Prop :=
  gs_running s' = gs_running s ∧ gs_synced s' = gs_synced s ∧ gs_resume_pending s' = gs_resume_pending s ∧
  tc_active (gs_tx s') = tc_active (gs_tx s) ∧ gs_rx_active s' = gs_rx_active s ∧
  gs_advertising s' = gs_advertising s ∧ gs_scanning s' = gs_scanning s.

Lemma same_presence_ok s s' : same_presence s s' → presence_ok s → presence_ok s'.
Proof. unfold presence_ok. by intros (-> & -> & -> & -> & -> & -> & ->). Qed.

Lemma stop_scanning_fields s :
  gs_rx_active (stop_scanning s) = gs_rx_active s ∧ gs_running (stop_scanning s) = gs_running s ∧
  gs_synced (stop_scanning s) = gs_synced s ∧ gs_resume_pending (stop_scanning s) = gs_resume_pending s ∧
  gs_tx (stop_scanning s) = gs_tx s.
Proof. unfold stop_scanning. by destruct (gs_scanning s). Qed.
Lemma stop_advertising_fields s :
  gs_rx_active (stop_advertising s) = gs_rx_active s ∧ gs_running (stop_advertising s) = gs_running s ∧
  gs_synced (stop_advertising s) = gs_synced s ∧ gs_resume_pending (stop_advertising s) = gs_resume_pending s ∧
  gs_tx (stop_advertising s) = gs_tx s.
Proof. unfold stop_advertising. by destruct (gs_advertising s). Qed.

(** A start that answers ESP_OK is on, and changes nothing else. *)
Lemma start_advertising_ok s s' err :
  start_advertising s = (s', err) → gs_synced s = true →
  (err = ESP_OK → gs_advertising s' = true) ∧ gs_scanning s' = gs_scanning s ∧ gs_synced s' = gs_synced s ∧
  gs_running s' = gs_running s.
Proof.
  unfold start_advertising. intros E Hs. rewrite Hs in E. cbn [negb orb] in E.
  destruct (gs_advertising s) eqn:Ea; [by injection E as <- <-|].
  unfold ble in E. cbn beta iota zeta in E. destruct (negb _); [destruct (gap_busy _)|];
    [by injection E as <- <-|by injection E as <- <-|].
  destruct (negb _); [destruct (gap_already _); [|destruct (_ =? _)]|]; by injection E as <- <-.
Qed.

Lemma start_scanning_ok s s' err :
  start_scanning s = (s', err) → gs_synced s = true →
  (err = ESP_OK → gs_scanning s' = true) ∧ gs_advertising s' = gs_advertising s ∧ gs_synced s' = gs_synced s ∧
  gs_running s' = gs_running s.
Proof.
  unfold start_scanning. intros E Hs. rewrite Hs in E. cbn [negb orb] in E.
  destruct (gs_scanning s) eqn:Ea; [by injection E as <- <-|].
  unfold ble in E. cbn beta iota zeta in E.
  destruct (negb _); [destruct (gap_already _); [|destruct (_ =? _)]|]; by injection E as <- <-.
Qed.

(** A resumption brings both back or schedules another. *)
Lemma resume_presence s s' err :
  resume_presence_now s = (s', err) →
  presence_ok s' ∧ (err = ESP_OK → gs_advertising s' = true ∧ gs_scanning s' = true).
Proof.
  unfold resume_presence_now. destruct (negb (gs_running s) || _ || _ || _) eqn:E.
  { intros E'. apply pair_equal_spec in E' as [<- <-]. split; [apply schedule_presence|done]. }
  rewrite !orb_false_iff, !negb_false_iff in E. destruct E as [[[Hr Hs] _] _].
  destruct (start_advertising s) as [s1 e1] eqn:E1. destruct (start_scanning s1) as [s2 e2] eqn:E2.
  destruct (start_advertising_ok _ _ _ E1 Hs) as (Ha & _ & Hs1 & _). rewrite Hs in Hs1.
  destruct (start_scanning_ok _ _ _ E2 Hs1) as (Hc & Ha2 & _).
  destruct (err_ok e1) eqn:O1, (err_ok e2) eqn:O2; cbn [negb orb]; intros E; apply pair_equal_spec in E as [<- <-];
    try (split; [apply schedule_presence|done]).
  apply bool_decide_eq_true in O1, O2.
  assert (gs_advertising s2 = true ∧ gs_scanning s2 = true) as Hon by (rewrite Ha2; auto).
  split; [intros _ _; by do 3 right|done].
Qed.

Lemma maybe_resume_ok s : presence_ok s → presence_ok (maybe_resume_presence s).
Proof.
  intros Hs. unfold maybe_resume_presence. destruct (negb _); [done|]. destruct (negb _); [done|].
  destruct (resume_presence_now _) as [s' err] eqn:E. by apply resume_presence in E as [? _].
Qed.

Definition not_start (op : g2_op) : Prop := match op with G2Start _ _ _ _ _ => False | _ => True end.

Ltac presence_same := eapply same_presence_ok; [|eassumption]; unfold same_presence; cbn; tauto.

Lemma gap_event_presence event s : presence_ok s → presence_ok (gap_event event s).
Proof.
  intros Hs. destruct event as [addr data|status conn desc|conn| | |]; cbn [gap_event].
  - destruct (adv_has_service data); [|done]. unfold remember_peer. destruct (existsb _ _); [done|].
    destruct (list_find _ _) as [[i o]|]; [presence_same|done].
  - unfold gap_connected. destruct (tc_active (gs_tx s)) eqn:Et, (status =? 0).
    + unfold mtu_cb, ble. cbn beta iota zeta. intros _ _. right. left. by destruct (negb _); [destruct (negb _)|].
    + apply schedule_presence.
    + intros _ _. do 2 right. left. by rewrite (proj1 (stop_scanning_fields _)).
    + apply schedule_presence.
  - apply schedule_presence.
  - apply schedule_presence.
  - apply schedule_presence.
  - done.
Qed.

Lemma g2_step_presence s op : not_start op → presence_ok s → presence_ok (g2_step s op).
Proof.
  intros Ho Hs. destruct op as [event|conn|conn error service|error chr| | |w data copied| | |data len| | |c sem n g t|n];
    cbn [g2_step not_start] in *; [by apply gap_event_presence| | | | | | | | | | | |done|presence_same].
  - unfold mtu_cb, ble. cbn beta iota zeta. destruct (negb _); presence_same.
  - unfold svc_disc_cb, ble. destruct error as [status|]; [|presence_same].
    destruct service as [[first last]|], (status =? 0); cbn beta iota zeta; repeat case_match; try done; presence_same.
  - unfold chr_disc_cb. repeat case_match; try done; presence_same.
  - by intros _ ?.
  - unfold on_sync, ble. cbn beta iota zeta. destruct (negb _); [presence_same|]. destruct (negb _); [presence_same|].
    apply schedule_presence.
  - unfold rx_access_cb. repeat (case_match; cbn [fst]); try done; presence_same.
  - unfold rx_task_take. repeat case_match; try done; presence_same.
  - presence_same.
  - unfold g2g_ble_send_fragment. repeat (case_match; cbn [fst]); try done; presence_same.
  - unfold g2g_ble_stop. destruct (gs_running s) eqn:E; [|done]. cbn [negb].
    assert (∀ s', gs_running s' = false → presence_ok s') as Hoff by (intros s' E'; unfold presence_ok; by rewrite E').
    cbn zeta. set (s1 := s <| gs_running := false |> <| gs_resume_pending := false |> <| gs_rx_active := false |>
      <| gs_rx_conn := _ |> <| gs_rx_peer := None |> <| gs_cb_exclude := None |>).
    apply Hoff. destruct (negb _); cbn [fst ble];
      [change (gs_running (stop_advertising (stop_scanning s1)) = false)|];
      rewrite (proj1 (proj2 (stop_advertising_fields _))), (proj1 (proj2 (stop_scanning_fields _))); done.
  - presence_same.
Qed.
End g2g.
