(* ===== verification/G2g_tx.v ===== *)
(** * Guardian-to-guardian radio: the transmit task

    [tx_task] and [send_batch_to_peer] of [g2g_ble/g2g_ble.c].  The task runs
    between delays and waits; what the host, the receive task and the callers do
    meanwhile is an argument: [env n] is the sequence of their steps during the
    [n]-th pause.  A pause of a delay lasts at least that long.

    Where a write went is read off the log: a connection handle belongs to the
    peer of the last connection reported under it, and the characteristic is the
    one the host reported since ([deliveries]).  The host is [honest] during a
    transmission when the outbound connections it reports are those the task
    asked for. *)

From S2P Require Import Prelude Bytes Event_bus G2g_ble.

Definition G2G_TX_BATCH_MAX : nat := G2G_BLE_TX_QUEUE_LEN.
Definition G2G_CONN_TIMEOUT_MS : Z := 3000.
Definition G2G_TX_IDLE_WAIT_MS : Z := 1500.
Definition G2G_TX_RETRY_MAX : nat := 5.
Definition G2G_TX_RETRY_DELAY_MS : Z := 450.
Definition G2G_TX_DISCOVERY_SETTLE_MS : Z := 120.
Definition G2G_TX_POST_RX_SETTLE_MS : Z := 250.

(** ** Specification: who gets a write *)
(** After a log: who is at the other end of a connection, the last one reported
    under its handle and not lost since; the peer the task asked for last; and
    the characteristic found since, 0 for none. *)
Definition peer_at (log : ble_log) (conn : Z) : option ble_addr :=
  if conn =? BLE_HS_CONN_HANDLE_NONE then None
  else fold_left (fun p e => match e.1 with
                             | Event_connect _ c peer => if c =? conn then peer else p
                             | Event_disconnect c => if c =? conn then None else p
                             | _ => p end) log None.
Definition target (log : ble_log) : option ble_addr :=
  fold_left (fun a e => match e.1 with Call_connect _ addr => Some addr | _ => a end) log None.
Definition found_chr (log : ble_log) : Z :=
  fold_left (fun v e => match e.1 with Call_connect _ _ => 0 | Event_chr chr => chr | _ => v end) log 0.

(** During [new], after [past], the connections reported while the task is
    transmitting are the ones it asked for. *)
Fixpoint honest (past new : ble_log) : Prop :=
  match new with
  | [] => True
  | e :: rest =>
    match e.1 with Event_connect true _ peer => peer = target past | _ => True end ∧ honest (past ++ [e]) rest
  end.

(** The writes in [new], after [past]: who got each, whether it went to the
    characteristic found, its data and the code it was answered with. *)
Record delivery := mk_delivery { dv_peer : option ble_addr; dv_found : bool; dv_data : bytes; dv_rc : Z }.
Fixpoint deliveries (past new : ble_log) : list delivery :=
  match new with
  | [] => []
  | e :: rest =>
    match e.1 with
    | Call_write conn chr data => [mk_delivery (peer_at past conn) (found_chr past =? chr) data e.2]
    | _ => []
    end ++ deliveries (past ++ [e]) rest
  end.

Lemma honest_app past l1 l2 : honest past (l1 ++ l2) ↔ honest past l1 ∧ honest (past ++ l1) l2.
Proof.
  revert past. induction l1 as [|e l1 IH]; intros past; cbn [app honest]; [rewrite app_nil_r; tauto|].
  rewrite IH, <- app_assoc. cbn [app]. tauto.
Qed.
Lemma deliveries_app past l1 l2 : deliveries past (l1 ++ l2) = deliveries past l1 ++ deliveries (past ++ l1) l2.
Proof.
  revert past. induction l1 as [|e l1 IH]; intros past; cbn [app deliveries]; [by rewrite app_nil_r|].
  by rewrite IH, <- !app_assoc.
Qed.

(** Neither a connection nor its end, nor a characteristic. *)
Definition neutral (e : ble_call * Z) : Prop :=
  match e.1 with Call_connect _ _ | Event_connect _ _ _ | Event_disconnect _ | Event_chr _ => False | _ => True end.
Lemma neutral_views log new : Forall neutral new →
  (∀ conn, peer_at (log ++ new) conn = peer_at log conn) ∧ target (log ++ new) = target log ∧
  found_chr (log ++ new) = found_chr log.
Proof.
  intros H. revert log. induction H as [|[c rc] new Hc _ IH]; intros log; [by rewrite app_nil_r|].
  rewrite cons_middle, app_assoc. destruct (IH (log ++ [(c, rc)])) as (Hp & Ht & Hf). rewrite Ht, Hf.
  split_and!.
  - intros conn. rewrite Hp. unfold peer_at. rewrite fold_left_app. destruct c; done.
  - unfold target. rewrite fold_left_app. by destruct c.
  - unfold found_chr. rewrite fold_left_app. by destruct c.
Qed.

(** The fragments of a batch, each to the peer, to the characteristic found, and
    accepted. *)
Definition all_to (addr : ble_addr) (fs : list g2g_fragment) : list delivery :=
  (fun f => mk_delivery (Some addr) true (fragment_payload f) 0) <$> fs.

Section tx.
Context `{QF : Queue g2g_fragment} (h : ble_host) (env : nat → list g2_op).

(** The state of the component with the number of pauses so far. *)
Notation task_state := (g2_state * nat)%type.

(** [vTaskDelay], or (with 0) a wait that something else may end. *)
Definition pause (ms : Z) (t : task_state) : task_state :=
  let s := g2_run h t.1 (env t.2) in
  let elapsed := u32 (gs_ticks s - gs_ticks t.1) in
  (if elapsed <? pdMS_TO_TICKS ms then s <| gs_ticks := u32 (gs_ticks t.1 + pdMS_TO_TICKS ms) |> else s, S t.2).

Definition tx_ble (c : ble_call) (t : task_state) : task_state * Z :=
  let '(s, rc) := ble h c t.1 in ((s, t.2), rc).
Definition on_state (f : g2_state → g2_state) (t : task_state) : task_state := (f t.1, t.2).

(** The wait for the receiver to become idle; also whether it waited.  [None]
    is an exhausted fuel. *)
Fixpoint wait_rx (fuel : nat) (wait_start : Z) (waited_for_rx : bool) (t : task_state) : option (task_state * bool) :=
  match fuel with
  | O => None
  | S fuel' =>
    if gs_running t.1 && gs_rx_active t.1 then
      if pdMS_TO_TICKS G2G_TX_IDLE_WAIT_MS <? u32 (gs_ticks t.1 - wait_start) then Some (t, true)
      else wait_rx fuel' wait_start true (pause 50 t)
    else Some (t, waited_for_rx)
  end.

(** The writes of a batch, until one is refused. *)
Fixpoint write_fragments (fragments : list g2g_fragment) (t : task_state) : task_state * bool :=
  match fragments with
  | [] => (t, true)
  | f :: rest =>
    let tx := gs_tx t.1 in
    let '(t, rc) := tx_ble (Call_write (tc_conn_handle tx) (tc_chr_handle tx) (fragment_payload f)) t in
    let t := pause 100 t in
    if rc =? 0 then write_fragments rest t else (t, false)
  end.

(** [xSemaphoreTake(s_tx_done, 0)]. *)
Definition take_tx_done (s : g2_state) : g2_state * bool :=
  match gs_tx_done s with Some true => (s <| gs_tx_done := Some false |>, true) | _ => (s, false) end.

(** Connected: discovery, the writes and the end of the connection. *)
Definition transmit (fragments : list g2g_fragment) (t : task_state) : task_state * bool :=
  let t := pause 0 t in
  let '(s, done) := take_tx_done t.1 in
  let t := (s, t.2) in
  let ok := done && tc_ok (gs_tx s) && negb (tc_conn_handle (gs_tx s) =? BLE_HS_CONN_HANDLE_NONE)
            && negb (tc_chr_handle (gs_tx s) =? 0) in
  let t := if done then t else (tx_ble Call_conn_cancel t).1 in
  let '(t, ok) := if ok then write_fragments fragments (pause G2G_TX_DISCOVERY_SETTLE_MS t) else (t, false) in
  let conn := tc_conn_handle (gs_tx t.1) in
  let t := if negb (conn =? BLE_HS_CONN_HANDLE_NONE) then (tx_ble (Call_terminate conn) t).1 else t in
  let t := on_state (fun s => s <| gs_tx ::= fun x => x <| tc_active := false |> |>) t in
  (on_state (schedule_presence_resume G2G_RESUME_DELAY_MS) t, ok).

(** An attempt, once the receiver is idle. *)
Definition try_batch (addr : ble_addr) (fragments : list g2g_fragment) (t : task_state) : task_state * bool :=
  let t := on_state (fun s => stop_scanning h (stop_advertising h s)) t in
  let t := on_state (fun s => s <| gs_tx := mk_g2g_tx_ctx true false BLE_HS_CONN_HANDLE_NONE 0 |>
                                <| gs_tx_done ::= fmap (fun _ => false) |>) t in
  let '(t, rc) := tx_ble (Call_connect (gs_own_addr_type t.1) addr) t in
  if negb (rc =? 0) then
    let t := on_state (fun s => s <| gs_tx ::= fun x => x <| tc_active := false |> |>) t in
    (pause G2G_TX_RETRY_DELAY_MS (on_state (schedule_presence_resume G2G_RESUME_RETRY_MS) t), false)
  else
    let '(t, ok) := transmit fragments t in
    if ok then (t, true) else (pause G2G_TX_RETRY_DELAY_MS t, false).

(** The attempts that are left. *)
Fixpoint send_attempts (fuel left : nat) (addr : ble_addr) (fragments : list g2g_fragment) (t : task_state) :
    option (task_state * bool) :=
  match left with
  | O => Some (t, false)
  | S left' =>
    if negb (gs_running t.1) then Some (t, false) else
    match wait_rx fuel (gs_ticks t.1) false t with
    | None => None
    | Some (t, waited_for_rx) =>
      if gs_rx_active t.1 then send_attempts fuel left' addr fragments (pause G2G_TX_RETRY_DELAY_MS t)
      else
        let t := if waited_for_rx then pause G2G_TX_POST_RX_SETTLE_MS t else t in
        let '(t, ok) := try_batch addr fragments t in
        if ok then Some (t, true) else send_attempts fuel left' addr fragments t
    end
  end.

Definition send_batch_to_peer (fuel : nat) (addr : ble_addr) (fragments : list g2g_fragment) (t : task_state) :
    option (task_state * bool) :=
  match fragments, gs_tx_done t.1 with
  | [], _ | _, None => Some (t, false)
  | _, Some _ => send_attempts fuel G2G_TX_RETRY_MAX addr fragments t
  end.

(** The locals of the pass over the peers. *)
Record tx_pass := mk_tx_pass { tp_sent : bool; tp_has_peer : bool; tp_attempted : bool; tp_skipped_origin : bool }.

Definition count_batch (sent : bool) (n : nat) (s : g2_state) : g2_state :=
  stats_inc (Nat.iter n (fun x => if sent then x <| gt_tx_fragments ::= inc64 |> else x <| gt_tx_errors ::= inc64 |>)) s.

(** Peer after peer, from slot [i] of the table as it is when its turn comes. *)
Fixpoint send_to_peers (fuel : nat) (slots : list nat) (batch : list g2g_fragment) (p : tx_pass) (t : task_state) :
    option (task_state * tx_pass) :=
  match slots with
  | [] => Some (t, p)
  | i :: rest =>
    match nth i (gs_peers t.1) None with
    | None => send_to_peers fuel rest batch p t
    | Some addr =>
      if batch_excludes_peer batch addr
      then send_to_peers fuel rest batch (mk_tx_pass (tp_sent p) true (tp_attempted p) true) t
      else
        match send_batch_to_peer fuel addr batch t with
        | None => None
        | Some (t, sent) =>
          send_to_peers fuel rest batch (mk_tx_pass (tp_sent p || sent) true true (tp_skipped_origin p))
            (on_state (count_batch sent (List.length batch)) t)
        end
    end
  end.

(** What the task does with a batch it has taken. *)
Definition tx_send_batch (fuel : nat) (batch : list g2g_fragment) (t : task_state) : option task_state :=
  '(t, p) ← send_to_peers fuel (seq 0 G2G_BLE_MAX_PEERS) batch (mk_tx_pass false false false false) t;
  Some (if negb (tp_sent p) && (tp_attempted p || negb (tp_skipped_origin p))
        then on_state (schedule_presence_resume G2G_RESUME_RETRY_MS) t else t).

(** [xQueueReceive(s_tx_queue, ...)]. *)
Definition tx_receive (s : g2_state) : option (g2g_fragment * g2_state) :=
  match gs_tx_queue s with
  | None => None
  | Some q => match xQueueReceive q with None => None | Some (f, q') => Some (f, s <| gs_tx_queue := Some q' |>) end
  end.
Fixpoint receive_more (room : nat) (s : g2_state) : list g2g_fragment * g2_state :=
  match room with
  | O => ([], s)
  | S room' => match tx_receive s with
               | None => ([], s)
               | Some (f, s) => let '(batch, s) := receive_more room' s in (f :: batch, s)
               end
  end.

(** A pass up to the batch: [None] when nothing came. *)
Definition tx_take_batch (t : task_state) : task_state * option (list g2g_fragment) :=
  let t := pause 0 (on_state (maybe_resume_presence h) t) in
  match tx_receive t.1 with
  | None => (t, None)
  | Some (f, s) =>
    let t := pause 30 (s, t.2) in
    let '(batch, s) := receive_more (G2G_TX_BATCH_MAX - 1) t.1 in ((s, t.2), Some (f :: batch))
  end.

Definition tx_task (fuel : nat) (t : task_state) : option task_state :=
  if negb (gs_running t.1) then Some t else
  let '(t, batch) := tx_take_batch t in
  match batch with None => Some t | Some batch => tx_send_batch fuel batch t end.

(** ** What a step adds to the log *)
Definition extends (P : ble_call * Z → Prop) (s s' : g2_state) : Prop :=
  ∃ new, gs_log s' = gs_log s ++ new ∧ Forall P new.

#[local] Instance extends_preorder P : PreOrder (extends P).
Proof.
  split.
  - intros s. exists []. by rewrite app_nil_r.
  - intros s1 s2 s3 (new1 & E1 & F1) (new2 & E2 & F2). exists (new1 ++ new2).
    by rewrite E2, E1, app_assoc, Forall_app.
Qed.

Lemma extends_same P s s' : gs_log s' = gs_log s → extends P s s'.
Proof. intros E. exists []. by rewrite E, app_nil_r. Qed.
Lemma extends_ble P c s s' rc : ble h c s = (s', rc) → P (c, rc) → extends P s s'.
Proof. intros E Hp. injection E as <- <-. eexists [_]. split; [reflexivity|]. by repeat constructor. Qed.

(** Neither a connection nor a write: what the host and the other tasks call. *)
Definition host_entry (e : ble_call * Z) : Prop :=
  match e.1 with Call_connect _ _ | Call_write _ _ _ => False | _ => True end.

(** One call at most, then fields. *)
Ltac host_call := first
  [ by apply extends_same
  | eexists [_]; split; [reflexivity|by repeat constructor]
  | eexists [_; _]; split; [cbn; rewrite <- ?app_assoc; reflexivity|by repeat constructor]
  | eexists [_; _; _]; split; [cbn; rewrite <- ?app_assoc; reflexivity|by repeat constructor] ].
Lemma schedule_extends P delay_ms s : extends P s (schedule_presence_resume delay_ms s).
Proof. apply extends_same. unfold schedule_presence_resume. by destruct (negb _). Qed.

Lemma start_advertising_extends s : extends host_entry s (start_advertising h s).1.
Proof. unfold start_advertising, ble. cbn beta iota zeta. repeat case_match; cbn [fst]; host_call. Qed.
Lemma start_scanning_extends s : extends host_entry s (start_scanning h s).1.
Proof. unfold start_scanning, ble. cbn beta iota zeta. repeat case_match; cbn [fst]; host_call. Qed.
Lemma stop_advertising_extends s : extends host_entry s (stop_advertising h s).
Proof. unfold stop_advertising, ble. cbn beta iota zeta. repeat case_match; host_call. Qed.
Lemma stop_scanning_extends s : extends host_entry s (stop_scanning h s).
Proof. unfold stop_scanning, ble. cbn beta iota zeta. repeat case_match; host_call. Qed.

Lemma maybe_resume_extends s : extends host_entry s (maybe_resume_presence h s).
Proof.
  unfold maybe_resume_presence, resume_presence_now. destruct (negb _); [done|]. destruct (negb _); [done|].
  set (s1 := s <| gs_resume_pending := false |>). transitivity s1; [by apply extends_same|].
  destruct (_ || _); [apply schedule_extends|].
  destruct (start_advertising h s1) as [s2 e2] eqn:E2. destruct (start_scanning h s2) as [s3 e3] eqn:E3.
  pose proof (start_advertising_extends s1) as H2. pose proof (start_scanning_extends s2) as H3.
  rewrite E2 in H2. rewrite E3 in H3. transitivity s2; [exact H2|]. transitivity s3; [exact H3|].
  destruct (_ || _); [apply schedule_extends|done].
Qed.

Lemma gap_event_extends event s : extends host_entry s (gap_event h event s).
Proof.
  destruct event as [addr data|status conn desc|conn| | |]; cbn [gap_event].
  - unfold remember_peer. repeat case_match; host_call.
  - unfold gap_connected. destruct (tc_active (gs_tx s)), (status =? 0).
    + unfold mtu_cb, ble. cbn beta iota zeta. repeat case_match; host_call.
    + etransitivity; [|apply schedule_extends]. by apply extends_same.
    + etransitivity; [|apply stop_scanning_extends]. host_call.
    + apply schedule_extends.
  - unfold gap_disconnected. etransitivity; [|apply schedule_extends]. repeat case_match; host_call.
  - etransitivity; [|apply schedule_extends]. by apply extends_same.
  - etransitivity; [|apply schedule_extends]. by apply extends_same.
  - done.
Qed.

Lemma g2_step_extends s op : extends host_entry s (g2_step h s op).
Proof.
  destruct op as [event|conn|conn error service|error chr| | |w data copied| | |data len| | |c sem n g t|n]; cbn [g2_step].
  - apply gap_event_extends.
  - unfold mtu_cb, ble. cbn beta iota zeta. repeat case_match; host_call.
  - unfold svc_disc_cb, ble. cbn beta iota zeta. repeat case_match; host_call.
  - unfold chr_disc_cb. repeat case_match; host_call.
  - host_call.
  - unfold on_sync, ble. cbn beta iota zeta. case_match; [host_call|]. case_match; [host_call|].
    etransitivity; [|apply schedule_extends]. host_call.
  - unfold rx_access_cb. repeat (case_match; cbn [fst]); host_call.
  - unfold rx_task_take. repeat case_match; host_call.
  - host_call.
  - unfold g2g_ble_send_fragment. repeat (case_match; cbn [fst]); host_call.
  - unfold g2g_ble_stop. case_match; [done|]. cbn [fst]. set (s1 := s <| gs_running := false |> <| gs_resume_pending := _ |>
      <| gs_rx_active := _ |> <| gs_rx_conn := _ |> <| gs_rx_peer := _ |> <| gs_cb_exclude := _ |>).
    transitivity s1; [by apply extends_same|]. transitivity (stop_scanning h s1); [apply stop_scanning_extends|].
    transitivity (stop_advertising h (stop_scanning h s1)); [apply stop_advertising_extends|]. case_match; host_call.
  - host_call.
  - unfold g2g_ble_start. repeat (case_match; cbn [fst]); host_call.
  - host_call.
Qed.

Lemma extends_weaken (P Q : ble_call * Z → Prop) s s' : (∀ e, P e → Q e) → extends P s s' → extends Q s s'.
Proof. intros Hpq (new & E & F). exists new. split; [done|]. by eapply Forall_impl. Qed.

Lemma pause_extends ms t : extends host_entry t.1 (pause ms t).1.
Proof.
  unfold pause. transitivity (g2_run h t.1 (env t.2)).
  - unfold g2_run. generalize t.1 as s. induction (env t.2) as [|op ops IH]; intros s; [done|].
    cbn [fold_left]. etransitivity; [apply g2_step_extends|apply IH].
  - cbn [fst]. case_match; host_call.
Qed.

(** ** What the task adds to the log *)
(** Connections to peers the batch may go to, and writes of its fragments. *)
Definition batch_entry (batch : list g2g_fragment) (e : ble_call * Z) : Prop :=
  match e.1 with
  | Call_connect _ addr => batch_excludes_peer batch addr = false
  | Call_write _ _ data => data ∈ fragment_payload <$> batch
  | _ => True
  end.

Lemma host_batch_entry batch e : host_entry e → batch_entry batch e.
Proof. unfold host_entry, batch_entry. by destruct (e.1). Qed.
#[local] Hint Resolve host_batch_entry : core.

Lemma pause_batch batch ms t : extends (batch_entry batch) t.1 (pause ms t).1.
Proof. eapply extends_weaken; [|apply pause_extends]. auto. Qed.
Lemma tx_ble_batch batch c t t' rc :
  tx_ble c t = (t', rc) → batch_entry batch (c, rc) → extends (batch_entry batch) t.1 t'.1.
Proof.
  unfold tx_ble. destruct (ble h c t.1) as [s rc'] eqn:E. intros E' Hb. injection E' as <- <-.
  exact (extends_ble _ _ _ _ _ E Hb).
Qed.

Lemma wait_rx_batch batch fuel start waited t t' w :
  wait_rx fuel start waited t = Some (t', w) → extends (batch_entry batch) t.1 t'.1.
Proof.
  revert waited t. induction fuel as [|fuel IH]; intros waited t; cbn [wait_rx]; [done|].
  repeat case_match; try (by intros [= <- <-]). intros E. apply IH in E.
  etransitivity; [apply pause_batch|exact E].
Qed.

Lemma write_fragments_batch batch fs t t' ok :
  (∀ f, f ∈ fs → f ∈ batch) → write_fragments fs t = (t', ok) → extends (batch_entry batch) t.1 t'.1.
Proof.
  revert t. induction fs as [|f fs IH]; intros t Hin; cbn [write_fragments]; [by intros [= <- <-]|].
  destruct (tx_ble _ t) as [t1 rc] eqn:E1.
  assert (extends (batch_entry batch) t.1 (pause 100 t1).1) as H1.
  { etransitivity; [|apply pause_batch]. eapply tx_ble_batch; [exact E1|]. cbn.
    apply list_elem_of_fmap. exists f. split; [done|]. apply Hin. by left. }
  destruct (rc =? 0); [|by intros [= <- <-]]. intros E. etransitivity; [exact H1|].
  apply IH in E; [exact E|]. intros f' Hf. apply Hin. by right.
Qed.

Lemma on_state_schedule P delay_ms t : extends P t.1 (on_state (schedule_presence_resume delay_ms) t).1.
Proof. apply schedule_extends. Qed.

Lemma transmit_batch batch t t' ok :
  transmit batch t = (t', ok) → extends (batch_entry batch) t.1 t'.1.
Proof.
  unfold transmit. set (t1 := pause 0 t). destruct (take_tx_done t1.1) as [s done] eqn:E1.
  assert (extends (batch_entry batch) t1.1 s) as H1.
  { apply extends_same. unfold take_tx_done in E1. repeat case_match; by injection E1 as <- <-. }
  set (ok0 := done && _ && _ && _). set (t2 := if done then _ else _).
  assert (extends (batch_entry batch) s t2.1) as H2 by (unfold t2; destruct done; [done|]; unfold tx_ble, ble; host_call).
  destruct (if ok0 then _ else _) as [t3 ok3] eqn:E3.
  assert (extends (batch_entry batch) t2.1 t3.1) as H3.
  { destruct ok0; [|by injection E3 as <- <-]. etransitivity; [apply (pause_batch _ G2G_TX_DISCOVERY_SETTLE_MS)|].
    by eapply write_fragments_batch; [|exact E3]. }
  intros E. apply pair_equal_spec in E as [<- _]. etransitivity; [apply (pause_batch _ 0)|]. fold t1.
  etransitivity; [exact H1|]. etransitivity; [exact H2|]. etransitivity; [exact H3|].
  etransitivity; [|apply on_state_schedule]. destruct (negb (tc_conn_handle (gs_tx t3.1) =? _)); [|by apply extends_same]. unfold tx_ble, ble. host_call.
Qed.

Lemma try_batch_batch addr batch t t' ok :
  batch_excludes_peer batch addr = false → try_batch addr batch t = (t', ok) → extends (batch_entry batch) t.1 t'.1.
Proof.
  intros Hx. unfold try_batch. set (t1 := on_state _ (on_state _ t)).
  assert (extends (batch_entry batch) t.1 t1.1) as H1.
  { eapply extends_weaken; [apply host_batch_entry|]. etransitivity; [apply stop_advertising_extends|].
    etransitivity; [apply stop_scanning_extends|]. by apply extends_same. }
  destruct (tx_ble _ t1) as [t2 rc] eqn:E2.
  assert (extends (batch_entry batch) t.1 t2.1) as H2.
  { etransitivity; [exact H1|]. eapply tx_ble_batch; [exact E2|exact Hx]. }
  destruct (negb (rc =? 0)).
  - intros E. apply pair_equal_spec in E as [<- _]. etransitivity; [exact H2|].
    etransitivity; [|apply pause_batch]. etransitivity; [|apply on_state_schedule]. by apply extends_same.
  - destruct (transmit batch t2) as [t3 ok3] eqn:E3. apply transmit_batch in E3.
    destruct ok3; intros E; apply pair_equal_spec in E as [<- _]; etransitivity; try exact H2; [exact E3|].
    etransitivity; [exact E3|apply pause_batch].
Qed.

Lemma send_attempts_batch fuel left addr batch t t' ok :
  batch_excludes_peer batch addr = false → send_attempts fuel left addr batch t = Some (t', ok) →
  extends (batch_entry batch) t.1 t'.1.
Proof.
  intros Hx. revert t. induction left as [|left IH]; intros t; cbn [send_attempts]; [by intros [= <- <-]|].
  destruct (negb _); [by intros [= <- <-]|]. destruct (wait_rx _ _ _ t) as [[t1 w]|] eqn:E1; [|done].
  apply (wait_rx_batch batch) in E1. destruct (gs_rx_active t1.1).
  - intros E. apply IH in E. etransitivity; [exact E1|]. etransitivity; [apply pause_batch|exact E].
  - set (t2 := if w then _ else _). assert (extends (batch_entry batch) t.1 t2.1) as H2.
    { unfold t2. destruct w; [|done]. etransitivity; [exact E1|apply pause_batch]. }
    destruct (try_batch _ _ t2) as [t3 ok3] eqn:E3. apply (try_batch_batch _ _ _ _ _ Hx) in E3.
    destruct ok3; [|intros E; apply IH in E; etransitivity; [exact H2|]; by etransitivity].
    intros E. apply Some_inj, pair_equal_spec in E as [<- _]. by etransitivity.
Qed.

Lemma count_batch_log sent n s : gs_log (count_batch sent n s) = gs_log s.
Proof. done. Qed.

Lemma send_to_peers_batch fuel slots batch p t t' p' :
  send_to_peers fuel slots batch p t = Some (t', p') → extends (batch_entry batch) t.1 t'.1.
Proof.
  revert p t. induction slots as [|i slots IH]; intros p t; cbn [send_to_peers]; [by intros [= <- <-]|].
  destruct (nth i _ _) as [addr|]; [|apply IH]. destruct (batch_excludes_peer batch addr) eqn:Hx; [apply IH|].
  destruct (send_batch_to_peer _ _ _ t) as [[t1 sent]|] eqn:E1; [|done]. intros E. apply IH in E.
  etransitivity; [|exact E]. transitivity t1.1; [|by apply extends_same].
  unfold send_batch_to_peer in E1. destruct batch; [by injection E1 as <- <-|].
  destruct (gs_tx_done t.1); [|by injection E1 as <- <-]. by eapply send_attempts_batch.
Qed.

Lemma tx_send_batch_extends fuel batch t t' :
  tx_send_batch fuel batch t = Some t' → extends (batch_entry batch) t.1 t'.1.
Proof.
  unfold tx_send_batch. destruct (send_to_peers _ _ _ _ t) as [[t1 p]|] eqn:E; [|done]. cbn [mbind option_bind].
  apply send_to_peers_batch in E. intros E'. apply Some_inj in E' as <-. etransitivity; [exact E|].
  case_match; [apply on_state_schedule|done].
Qed.

(** ** The writes of a successful attempt *)
Definition writes (log : ble_log) : list (bytes * Z) :=
  omap (fun e => match e.1 with Call_write _ _ data => Some (data, e.2) | _ => None end) log.
Definition accepted_writes (fs : list g2g_fragment) : list (bytes * Z) := (fun f => (fragment_payload f, 0)) <$> fs.
Definition adds_writes (w : list (bytes * Z)) (s s' : g2_state) : Prop :=
  ∃ new, gs_log s' = gs_log s ++ new ∧ writes new = w.

Lemma adds_writes_trans w1 w2 s1 s2 s3 : adds_writes w1 s1 s2 → adds_writes w2 s2 s3 → adds_writes (w1 ++ w2) s1 s3.
Proof.
  intros (new1 & E1 & W1) (new2 & E2 & W2). exists (new1 ++ new2). split; [by rewrite E2, E1, app_assoc|].
  unfold writes. by rewrite omap_app, <- W1, <- W2.
Qed.
Lemma adds_no_writes w s1 s2 s3 : adds_writes w s1 s2 → extends host_entry s2 s3 → adds_writes w s1 s3.
Proof.
  intros H1 (new & E & F). rewrite <- (app_nil_r w). eapply adds_writes_trans; [exact H1|]. exists new. split; [done|].
  clear E. induction F as [|[c rc] new Hc F IH]; [done|]. cbn. destruct c; try done.
Qed.
Lemma adds_no_writes_l w s1 s2 s3 : extends host_entry s1 s2 → adds_writes w s2 s3 → adds_writes w s1 s3.
Proof.
  intros H1 H2. change w with ([] ++ w). eapply adds_writes_trans; [|exact H2].
  eapply (adds_no_writes [] s1 s1); [|exact H1]. exists []. by rewrite app_nil_r.
Qed.
Lemma tx_ble_host c t t' rc : tx_ble c t = (t', rc) → host_entry (c, rc) → extends host_entry t.1 t'.1.
Proof.
  unfold tx_ble. destruct (ble h c t.1) as [s rc'] eqn:E. intros E' Hb. injection E' as <- <-.
  exact (extends_ble _ _ _ _ _ E Hb).
Qed.

Lemma write_fragments_writes fs t t' :
  write_fragments fs t = (t', true) → adds_writes (accepted_writes fs) t.1 t'.1.
Proof.
  revert t. induction fs as [|f fs IH]; intros t; cbn [write_fragments].
  - intros [= <-]. exists []. by rewrite app_nil_r.
  - destruct (tx_ble _ t) as [t1 rc] eqn:E1. destruct (rc =? 0) eqn:Er; [|done]. apply Z.eqb_eq in Er. subst rc.
    intros E. apply IH in E. change (accepted_writes (f :: fs)) with ([(fragment_payload f, 0)] ++ accepted_writes fs).
    eapply adds_writes_trans; [|exact E]. eapply adds_no_writes; [|apply pause_extends].
    unfold tx_ble, ble in E1. apply pair_equal_spec in E1 as [<- Erc]. eexists [_]. split; [reflexivity|].
    cbn. by rewrite Erc.
Qed.

Lemma transmit_writes batch t t' :
  transmit batch t = (t', true) → adds_writes (accepted_writes batch) t.1 t'.1.
Proof.
  unfold transmit. set (t1 := pause 0 t). destruct (take_tx_done t1.1) as [s done] eqn:E1.
  assert (extends host_entry t1.1 s) as H1.
  { apply extends_same. unfold take_tx_done in E1. repeat case_match; by injection E1 as <- <-. }
  set (ok0 := done && _ && _ && _). set (t2 := if done then _ else _).
  assert (extends host_entry s t2.1) as H2 by (unfold t2; destruct done; [done|]; unfold tx_ble, ble; host_call).
  clearbody ok0 t2. destruct (if ok0 then _ else _) as [t3 ok3] eqn:E3. intros E. apply pair_equal_spec in E as [<- ->].
  destruct ok0; [|done]. apply write_fragments_writes in E3.
  apply (adds_no_writes_l _ _ t1.1); [apply pause_extends|]. apply (adds_no_writes_l _ _ s); [done|].
  apply (adds_no_writes_l _ _ t2.1); [done|]. eapply adds_no_writes_l; [apply (pause_extends G2G_TX_DISCOVERY_SETTLE_MS)|].
  eapply adds_no_writes; [exact E3|]. etransitivity; [|apply on_state_schedule].
  destruct (negb (tc_conn_handle (gs_tx t3.1) =? _)); [|by apply extends_same]. unfold tx_ble, ble. host_call.
Qed.

(** ** Who gets the writes of an attempt *)
(** Between a request for a connection to [addr] and the end of the attempt: the
    handle the task writes to is none, or one whose other end is [addr], and the
    characteristic is the one found since. *)
Record tied (addr : ble_addr) (s : g2_state) : Prop := {
  ti_active : tc_active (gs_tx s) = true;
  ti_target : target (gs_log s) = Some addr;
  ti_conn : tc_conn_handle (gs_tx s) = BLE_HS_CONN_HANDLE_NONE ∨
            peer_at (gs_log s) (tc_conn_handle (gs_tx s)) = Some addr;
  ti_chr : found_chr (gs_log s) = tc_chr_handle (gs_tx s);
}.

Lemma tied_neutral addr s s' :
  extends neutral s s' → tc_active (gs_tx s') = tc_active (gs_tx s) →
  tc_conn_handle (gs_tx s') = tc_conn_handle (gs_tx s) → tc_chr_handle (gs_tx s') = tc_chr_handle (gs_tx s) →
  tied addr s → tied addr s'.
Proof.
  intros (new & E & F) Ea Ec Er [H1 H2 H3 H4]. destruct (neutral_views (gs_log s) new F) as (Hp & Ht & Hf).
  split; rewrite ?Ea, ?Ec, ?Er, ?E, ?Hp, ?Ht, ?Hf; done.
Qed.

(** From [s] to [s'], if the host is honest in between: [P] leads to [Q], and the
    writes are as [D] says. *)
Definition seg (P Q : g2_state → Prop) (D : list delivery → Prop) (s s' : g2_state) : Prop :=
  ∃ new, gs_log s' = gs_log s ++ new ∧
    (honest (gs_log s) new → P s → Q s' ∧ D (deliveries (gs_log s) new)).

Lemma seg_trans P Q R D1 D2 (D : list delivery → Prop) s1 s2 s3 :
  seg P Q D1 s1 s2 → seg Q R D2 s2 s3 → (∀ d1 d2, D1 d1 → D2 d2 → D (d1 ++ d2)) → seg P R D s1 s3.
Proof.
  intros (n1 & E1 & H1) (n2 & E2 & H2) HD. exists (n1 ++ n2). split; [by rewrite E2, E1, app_assoc|].
  intros [Hh1 Hh2]%honest_app HP. destruct (H1 Hh1 HP) as [HQ Hd1]. rewrite <- E1 in Hh2.
  destruct (H2 Hh2 HQ) as [HR Hd2]. split; [done|]. rewrite deliveries_app, <- E1. by apply HD.
Qed.
Lemma seg_weaken P P' Q Q' (D D' : list delivery → Prop) s s' :
  seg P Q D s s' → (P' s → P s) → (Q s' → Q' s') → (∀ d, D d → D' d) → seg P' Q' D' s s'.
Proof. intros (new & E & H) HP HQ HD. exists new. split; [done|]. intros Hh Hp. destruct (H Hh (HP Hp)). auto. Qed.

Definition none (ds : list delivery) : Prop := ds = [].
Lemma seg_then P Q R D s1 s2 s3 : seg P Q none s1 s2 → seg Q R D s2 s3 → seg P R D s1 s3.
Proof. intros H1 H2. eapply seg_trans; [exact H1|exact H2|]. intros d1 d2 E Hd. unfold none in E. by subst d1. Qed.
Lemma seg_before P Q R D s1 s2 s3 : seg P Q D s1 s2 → seg Q R none s2 s3 → seg P R D s1 s3.
Proof.
  intros H1 H2. eapply seg_trans; [exact H1|exact H2|]. intros d1 d2 Hd E. unfold none in E. subst d2.
  by rewrite app_nil_r.
Qed.

Lemma host_no_deliveries past new : Forall host_entry new → deliveries past new = [].
Proof. intros H. revert past. induction H as [|[c rc] new Hc _ IH]; intros past; [done|].
  unfold host_entry in Hc. cbn in *. destruct c; done || apply IH.
Qed.
Lemma seg_host (P Q : g2_state → Prop) s s' :
  extends host_entry s s' →
  (∀ new, gs_log s' = gs_log s ++ new → honest (gs_log s) new → P s → Q s') → seg P Q none s s'.
Proof.
  intros (new & E & F) H. exists new. split; [done|]. intros Hh Hp.
  split; [by eapply H|]. by rewrite host_no_deliveries.
Qed.
Lemma seg_quiet D s s' : extends host_entry s s' → D [] → seg (fun _ => True) (fun _ => True) D s s'.
Proof.
  intros (new & E & F) HD. exists new. split; [done|]. intros _ _. split; [done|]. by rewrite host_no_deliveries.
Qed.

(** What the host and the other tasks do keeps an attempt tied to its peer. *)
Ltac keep := eapply tied_neutral; [| | | |eassumption]; [host_call|..]; done.

Lemma schedule_tied addr delay_ms s : tied addr s → tied addr (schedule_presence_resume delay_ms s).
Proof. unfold schedule_presence_resume. destruct (negb _); [done|]. intros H. keep. Qed.
Lemma stop_scanning_tied addr s : tied addr s → tied addr (stop_scanning h s).
Proof. unfold stop_scanning, ble. cbn beta iota zeta. destruct (gs_scanning s); [|done]. intros H. keep. Qed.
Lemma stop_advertising_tied addr s : tied addr s → tied addr (stop_advertising h s).
Proof. unfold stop_advertising, ble. cbn beta iota zeta. destruct (gs_advertising s); [|done]. intros H. keep. Qed.

Lemma connect_tied addr conn s :
  tied addr s →
  tied addr (note (Event_connect true conn (Some addr)) s
             <| gs_advertising := false |> <| gs_tx ::= fun t => t <| tc_conn_handle := conn |> |>).
Proof.
  intros [H1 H2 H3 H4]. split; cbn; [done|..].
  - unfold target. by rewrite fold_left_app.
  - destruct (conn =? BLE_HS_CONN_HANDLE_NONE) eqn:E; [left; by apply Z.eqb_eq|right].
    unfold peer_at. rewrite E, fold_left_app. cbn. by rewrite Z.eqb_refl.
  - unfold found_chr. by rewrite fold_left_app.
Qed.

Lemma gap_connected_tied addr status conn desc s new :
  gs_log (gap_connected h status conn desc s) = gs_log s ++ new → honest (gs_log s) new → tied addr s →
  tied addr (gap_connected h status conn desc s).
Proof.
  intros El Hh Ht. pose proof (ti_active _ _ Ht) as Ha. unfold gap_connected in *. rewrite Ha in *.
  destruct (status =? 0); [|apply schedule_tied; keep].
  set (s1 := note (Event_connect true conn desc) s 
    <| gs_advertising := false |> <| gs_tx ::= fun t => t <| tc_conn_handle := conn |> |>) in *.
  assert (extends neutral s1 (let '(s2, rc) := ble h (Call_exchange_mtu conn) s1 in
    if negb (rc =? 0) then mtu_cb h conn s2 else s2)) as Hx
    by (unfold mtu_cb, ble; cbn beta iota zeta; repeat case_match; host_call).
  pose proof Hx as (new2 & E2 & _). pose proof (eq_trans (eq_sym E2) El) as Ex. clear El E2. rename Ex into El.
  change (gs_log s1) with (gs_log s ++ [(Event_connect true conn desc, 0)]) in El. rewrite <- app_assoc in El.
  apply app_inv_head in El as <-. destruct Hh as [Hd _]. cbn in Hd. rewrite (ti_target _ _ Ht) in Hd.
  assert (tied addr s1) as H1 by (unfold s1; rewrite Hd; by apply connect_tied).
  eapply tied_neutral; [exact Hx| | | |exact H1]; unfold mtu_cb, ble; cbn beta iota zeta; by repeat case_match.
Qed.

Lemma gap_disconnected_tied addr conn s : tied addr s → tied addr (gap_disconnected conn s).
Proof.
  intros [H1 H2 H3 H4]. unfold gap_disconnected. apply schedule_tied.
  set (s1 := note (Event_disconnect conn) s).
  set (s2 := if tc_active (gs_tx s1) && _ then _ else s1).
  assert (tied addr s2) as Ht.
  { assert (target (gs_log s1) = Some addr) as Ht1 by (unfold s1, target; cbn; by rewrite fold_left_app).
    assert (found_chr (gs_log s1) = tc_chr_handle (gs_tx s)) as Hf1 by (unfold s1, found_chr; cbn; by rewrite fold_left_app).
    unfold s2. change (gs_tx s1) with (gs_tx s). rewrite H1. cbn [andb].
    destruct (tc_conn_handle (gs_tx s) =? conn) eqn:E; split; cbn; try done; [by left|].
    destruct H3 as [H3|H3]; [by left|right]. unfold peer_at in *. destruct (_ =? BLE_HS_CONN_HANDLE_NONE); [done|].
    rewrite fold_left_app. cbn. by rewrite Z.eqb_sym, E. }
  clearbody s2. destruct (_ && _); keep.
Qed.

Lemma g2_step_tied addr s op new :
  not_start op → gs_log (g2_step h s op) = gs_log s ++ new → honest (gs_log s) new → tied addr s →
  tied addr (g2_step h s op).
Proof.
  intros Ho El Hh Ht.
  destruct op as [event|conn|conn error service|error chr| | |w data copied| | |data len| | |c sem n g t|n];
    cbn [g2_step not_start] in *; [..|done|keep].
  - destruct event as [addr' data|status conn desc|conn| | |]; cbn [gap_event] in *.
    + unfold remember_peer. repeat case_match; try done; keep.
    + by eapply gap_connected_tied.
    + by apply gap_disconnected_tied.
    + apply schedule_tied. keep.
    + apply schedule_tied. keep.
    + done.
  - unfold mtu_cb, ble. cbn beta iota zeta. case_match; keep.
  - unfold svc_disc_cb, ble. destruct error as [status|]; [|keep].
    destruct service as [[first last]|], (status =? 0); cbn beta iota zeta; repeat case_match; try done; keep.
  - unfold chr_disc_cb. destruct error as [status|]; [|keep].
    assert (tied addr (if (status =? BLE_HS_EDONE) && (tc_chr_handle (gs_tx s) =? 0) then tx_complete false s else s))
      as Hd by (case_match; [keep|done]).
    destruct chr as [v|], (status =? 0); try exact Hd.
    clear El Hh Hd. destruct Ht as [H1 H2 H3 H4]. split; cbn; [done|..].
    + unfold target. by rewrite fold_left_app.
    + unfold peer_at in *. destruct (_ =? BLE_HS_CONN_HANDLE_NONE); [by left; destruct H3|]. by rewrite fold_left_app.
    + unfold found_chr. by rewrite fold_left_app.
  - keep.
  - unfold on_sync, ble. cbn beta iota zeta. case_match; [keep|]. case_match; [keep|]. apply schedule_tied. keep.
  - unfold rx_access_cb. repeat (case_match; cbn [fst]); try done; keep.
  - unfold rx_task_take. repeat case_match; try done; keep.
  - keep.
  - unfold g2g_ble_send_fragment. repeat (case_match; cbn [fst]); try done; keep.
  - unfold g2g_ble_stop. case_match; [done|]. cbn [fst].
    set (s1 := s <| gs_running := false |> <| gs_resume_pending := _ |>
      <| gs_rx_active := _ |> <| gs_rx_conn := _ |> <| gs_rx_peer := _ |> <| gs_cb_exclude := _ |>).
    assert (tied addr s1) as H1 by (unfold s1; keep).
    assert (tied addr (stop_advertising h (stop_scanning h s1))) as H2 by (by apply stop_advertising_tied, stop_scanning_tied).
    case_match; [|done]. keep.
  - keep.
Qed.

(** *** The task's own steps *)
Definition no_start : Prop := ∀ n, Forall not_start (env n).
(** The host refuses a write on no connection. *)
Definition refuses_unlinked : Prop :=
  ∀ log chr data, bh_rc h log (Call_write BLE_HS_CONN_HANDLE_NONE chr data) ≠ 0.

Lemma pause_seg addr ms t : no_start → seg (tied addr) (tied addr) none t.1 (pause ms t).1.
Proof.
  intros Hn. unfold pause. set (s1 := g2_run h t.1 (env t.2)).
  assert (seg (tied addr) (tied addr) none t.1 s1) as H1.
  { unfold s1, g2_run. generalize t.1. induction (Hn t.2) as [|op ops Ho _ IH]; intros s; cbn [fold_left].
    - exists []. split; [by rewrite app_nil_r|]. done.
    - eapply seg_then; [|apply IH].
      apply seg_host; [apply g2_step_extends|]. intros new. by apply g2_step_tied. }
  clearbody s1. cbn [fst]. destruct (_ <? _); [|done].
  eapply seg_then; [exact H1|]. apply (seg_host (tied addr) (tied addr)); [host_call|].
  intros _ _ _ Ht. keep.
Qed.

Lemma tx_ble_seg addr c t t' rc :
  tx_ble c t = (t', rc) → host_entry (c, rc) → neutral (c, rc) → seg (tied addr) (tied addr) none t.1 t'.1.
Proof.
  intros E Hh Hn. apply seg_host; [by eapply tx_ble_host|]. intros _ _ _ Ht.
  unfold tx_ble, ble in E. apply pair_equal_spec in E as [<- Erc].
  eapply tied_neutral; [| | | |exact Ht]; try done. eexists [_]. split; [reflexivity|]. rewrite Erc. by repeat constructor.
Qed.

(** One write goes to the peer of the attempt or to nobody. *)
Definition to_peer (addr : ble_addr) (fs : list g2g_fragment) (d : delivery) : Prop :=
  (dv_peer d = None ∨ dv_peer d = Some addr) ∧ dv_data d ∈ fragment_payload <$> fs.
Definition sends (addr : ble_addr) (fs : list g2g_fragment) (ok : bool) (ds : list delivery) : Prop :=
  Forall (to_peer addr fs) ds ∧ (ok = true → refuses_unlinked → ds = all_to addr fs).

Lemma write_seg addr f fs t t' rc :
  tx_ble (Call_write (tc_conn_handle (gs_tx t.1)) (tc_chr_handle (gs_tx t.1)) (fragment_payload f)) t = (t', rc) →
  seg (tied addr) (tied addr)
    (fun ds => Forall (to_peer addr (f :: fs)) ds ∧ (rc = 0 → refuses_unlinked → ds = all_to addr [f])) t.1 t'.1.
Proof.
  unfold tx_ble, ble. intros E. apply pair_equal_spec in E as [<- Erc]. eexists [_]. split; [reflexivity|].
  intros _ Ht. pose proof Ht as [_ _ Hc Hf]. rewrite Erc. split; [|split].
  - eapply tied_neutral; [| | | |exact Ht]; try done. eexists [_]. split; [reflexivity|]. by repeat constructor.
  - cbn. constructor; [|constructor]. split; [|by left]. cbn.
    destruct Hc as [->|Hc]; [by left|by right].
  - intros Hrc Href. cbn. rewrite Hf, Z.eqb_refl. destruct Hc as [Hc|Hc]; [|by rewrite Hc, Hrc].
    exfalso. apply (Href (gs_log t.1) (tc_chr_handle (gs_tx t.1)) (fragment_payload f)). rewrite <- Hc. congruence.
Qed.

Lemma write_fragments_seg addr fs t t' ok :
  no_start → write_fragments fs t = (t', ok) → seg (tied addr) (tied addr) (sends addr fs ok) t.1 t'.1.
Proof.
  intros Hn. revert t. induction fs as [|f fs IH]; intros t; cbn [write_fragments].
  - intros [= <- <-]. exists []. split; [by rewrite app_nil_r|]. by split.
  - destruct (tx_ble _ t) as [t1 rc] eqn:E1. pose proof (write_seg addr f fs _ _ _ E1) as H1.
    pose proof (seg_before _ _ _ _ _ _ _ H1 (pause_seg addr 100 t1 Hn)) as H2. clear H1.
    destruct (rc =? 0) eqn:Er.
    + apply Z.eqb_eq in Er. intros E. apply IH in E. eapply seg_trans; [exact H2|exact E|].
      intros d1 d2 [F1 D1] [F2 D2]. split.
      * apply Forall_app. split; [done|]. eapply Forall_impl; [exact F2|]. intros d [? ?]. split; [done|by right].
      * intros Hok Href. by rewrite (D1 Er Href), (D2 Hok Href).
    + intros E. apply pair_equal_spec in E as [<- <-]. eapply seg_weaken; [exact H2|done|done|].
      intros d [F1 _]. by split.
Qed.

Lemma transmit_seg addr batch t t' ok :
  no_start → transmit batch t = (t', ok) → seg (tied addr) (fun _ => True) (sends addr batch ok) t.1 t'.1.
Proof.
  intros Hn. unfold transmit. pose proof (pause_seg addr 0 t Hn) as H0. set (t1 := pause 0 t) in *.
  destruct (take_tx_done t1.1) as [s done] eqn:E1.
  assert (seg (tied addr) (tied addr) none t.1 s) as H1.
  { eapply seg_then; [exact H0|]. unfold take_tx_done in E1.
    apply seg_host; [apply extends_same; repeat case_match; by injection E1 as <- <-|].
    intros _ _ _ Ht. repeat case_match; apply pair_equal_spec in E1 as [<- _]; try done; keep. }
  set (ok0 := done && _ && _ && _). set (t2 := if done then _ else _).
  assert (seg (tied addr) (tied addr) none t.1 t2.1) as H2.
  { unfold t2. destruct done; [done|]. destruct (tx_ble Call_conn_cancel (s, t1.2)) as [t3 rc] eqn:E.
    eapply seg_then; [exact H1|exact (tx_ble_seg addr _ _ _ _ E I I)]. }
  clearbody ok0 t2. destruct (if ok0 then _ else _) as [t3 ok3] eqn:E3. intros E. apply pair_equal_spec in E as [<- <-].
  assert (seg (tied addr) (tied addr) (sends addr batch ok3) t.1 t3.1) as H3.
  { destruct ok0.
    - eapply (write_fragments_seg addr) in E3; [|done]. eapply seg_then; [exact H2|].
      eapply seg_then; [apply (pause_seg addr G2G_TX_DISCOVERY_SETTLE_MS t2 Hn)|exact E3].
    - apply pair_equal_spec in E3 as [<- <-]. eapply seg_weaken; [exact H2|done|done|]. intros d Hd. unfold none in Hd. subst d. by split. }
  apply (seg_before _ (fun _ => True) _ _ _ t3.1); [eapply seg_weaken; [exact H3|done..]|apply seg_quiet; [|done]].
  etransitivity; [|apply on_state_schedule].
    destruct (negb (tc_conn_handle (gs_tx t3.1) =? _)); [|by apply extends_same]. unfold tx_ble, ble. host_call.
Qed.

(** A request for a connection begins an attempt. *)
Lemma request_tied addr own s s' rc :
  ble h (Call_connect own addr) (s <| gs_tx := mk_g2g_tx_ctx true false BLE_HS_CONN_HANDLE_NONE 0 |>
    <| gs_tx_done ::= fmap (fun _ => false) |>) = (s', rc) → tied addr s'.
Proof.
  intros E. unfold ble in E. apply pair_equal_spec in E as [<- _]. split; cbn; [done|..].
  - unfold target. by rewrite fold_left_app.
  - by left.
  - unfold found_chr. by rewrite fold_left_app.
Qed.

(** The last connection is to the peer, and the writes from then on are those of
    the whole batch; with an honest host that refuses writes on no connection,
    each of them went to that peer. *)
Definition delivered (addr : ble_addr) (batch : list g2g_fragment) (s s' : g2_state) : Prop :=
  ∃ before own after, gs_log s' = gs_log s ++ before ++ (Call_connect own addr, 0) :: after ∧
    writes after = accepted_writes batch ∧
    (no_start → refuses_unlinked → honest (gs_log s) (before ++ (Call_connect own addr, 0) :: after) →
     deliveries (gs_log s ++ before ++ [(Call_connect own addr, 0)]) after = all_to addr batch).

Lemma delivered_later P addr batch s1 s2 s3 : extends P s1 s2 → delivered addr batch s2 s3 → delivered addr batch s1 s3.
Proof.
  intros (new & E & _) (before & own & after & E' & W & D). exists (new ++ before), own, after.
  rewrite <- !app_assoc, !(app_assoc (gs_log s1)), <- E. split; [done|]. split; [done|].
  intros Hn Hr [_ Hh]%honest_app. rewrite <- E in Hh. by apply D.
Qed.

Lemma request_log addr own s s' :
  ble h (Call_connect own addr) s = (s', 0) → gs_log s' = gs_log s ++ [(Call_connect own addr, 0)].
Proof. unfold ble. intros E. apply pair_equal_spec in E as [<- Erc]. cbn. by rewrite Erc. Qed.

(** The state of a request: the radio quiet and a new transmission begun. *)
Definition begun (t : task_state) : task_state :=
  on_state (fun s => s <| gs_tx := mk_g2g_tx_ctx true false BLE_HS_CONN_HANDLE_NONE 0 |>
                       <| gs_tx_done ::= fmap (fun _ => false) |>)
    (on_state (fun s => stop_scanning h (stop_advertising h s)) t).
Lemma begun_extends t : extends host_entry t.1 (begun t).1.
Proof.
  etransitivity; [apply stop_advertising_extends|]. etransitivity; [apply stop_scanning_extends|]. by apply extends_same.
Qed.
Lemma begun_tied addr own t t' rc : tx_ble (Call_connect own addr) (begun t) = (t', rc) → tied addr t'.1.
Proof.
  unfold tx_ble. destruct (ble _ _ _) as [s rc'] eqn:E. intros E'. apply pair_equal_spec in E' as [<- _].
  exact (request_tied addr own _ _ _ E).
Qed.

Lemma try_batch_delivers addr batch t t' : try_batch addr batch t = (t', true) → delivered addr batch t.1 t'.1.
Proof.
  unfold try_batch. cbv zeta. fold (begun t). destruct (tx_ble _ (begun t)) as [t2 rc] eqn:E2.
  destruct (rc =? 0) eqn:Er; cbn [negb]; [|done]. apply Z.eqb_eq in Er. subst rc.
  destruct (transmit batch t2) as [t3 ok3] eqn:E3. destruct ok3; [|done]. intros E. apply pair_equal_spec in E as [<- _].
  pose proof (transmit_writes _ _ _ E3) as (after & El & W). pose proof (begun_tied _ _ _ _ _ E2) as Ht.
  assert (gs_log t2.1 = gs_log (begun t).1 ++ [(Call_connect (gs_own_addr_type (begun t).1) addr, 0)]) as El2.
  { unfold tx_ble in E2. destruct (ble _ _ _) as [s rc'] eqn:Eb. apply pair_equal_spec in E2 as [<- ->].
    by apply request_log in Eb. }
  eapply delivered_later; [apply begun_extends|]. exists [], (gs_own_addr_type (begun t).1), after.
  cbn [app]. split; [by rewrite El, El2, <- app_assoc|]. split; [done|]. intros Hn Hr [_ Hh].
  destruct (transmit_seg addr batch t2 t3 true Hn E3) as (new & El' & Hseg).
  assert (new = after) as -> by (rewrite El in El'; by apply app_inv_head in El').
  rewrite <- El2 in *. destruct (Hseg Hh Ht) as [_ [_ Hd]]. by apply Hd.
Qed.

Lemma send_attempts_delivers fuel left addr batch t t' :
  batch_excludes_peer batch addr = false → send_attempts fuel left addr batch t = Some (t', true) →
  delivered addr batch t.1 t'.1.
Proof.
  intros Hx. revert t. induction left as [|left IH]; intros t; cbn [send_attempts]; [done|].
  destruct (negb _); [done|]. destruct (wait_rx _ _ _ t) as [[t1 w]|] eqn:E1; [|done].
  apply (wait_rx_batch batch) in E1. destruct (gs_rx_active t1.1).
  - intros E. apply IH in E. eapply delivered_later; [exact E1|]. eapply delivered_later; [apply pause_extends|exact E].
  - set (t2 := if w then _ else _). assert (extends (batch_entry batch) t.1 t2.1) as H2.
    { unfold t2. destruct w; [|done]. etransitivity; [exact E1|apply pause_batch]. }
    destruct (try_batch _ _ t2) as [t3 ok3] eqn:E3. destruct ok3.
    + intros E. apply Some_inj, pair_equal_spec in E as [<- _]. eapply delivered_later; [exact H2|].
      by apply try_batch_delivers.
    + apply (try_batch_batch _ _ _ _ _ Hx) in E3. intros E. apply IH in E.
      eapply delivered_later; [exact H2|]. by eapply delivered_later.
Qed.

(** *** No write to an excluded peer *)
Definition allowed (batch : list g2g_fragment) (d : delivery) : Prop :=
  ∀ addr, dv_peer d = Some addr → batch_excludes_peer batch addr = false.
Definition all_allowed (batch : list g2g_fragment) : g2_state → g2_state → Prop :=
  seg (fun _ => True) (fun _ => True) (Forall (allowed batch)).

Lemma allowed_trans batch s1 s2 s3 : all_allowed batch s1 s2 → all_allowed batch s2 s3 → all_allowed batch s1 s3.
Proof. intros H1 H2. eapply seg_trans; [exact H1|exact H2|]. intros d1 d2 ? ?. by apply Forall_app. Qed.
Lemma allowed_host batch s s' : extends host_entry s s' → all_allowed batch s s'.
Proof. intros H. apply seg_quiet; [done|constructor]. Qed.
Lemma allowed_pause batch ms t : all_allowed batch t.1 (pause ms t).1.
Proof. apply allowed_host, pause_extends. Qed.

Lemma try_batch_allowed addr batch t t' ok :
  no_start → batch_excludes_peer batch addr = false → try_batch addr batch t = (t', ok) →
  all_allowed batch t.1 t'.1.
Proof.
  intros Hn Hx. unfold try_batch. cbv zeta. fold (begun t). destruct (tx_ble _ (begun t)) as [t2 rc] eqn:E2.
  pose proof (begun_tied _ _ _ _ _ E2) as Ht.
  assert (all_allowed batch t.1 t2.1) as H2.
  { eapply allowed_trans; [apply allowed_host, begun_extends|]. unfold tx_ble, ble in E2.
    apply pair_equal_spec in E2 as [<- _]. eexists [_]. split; [reflexivity|]. intros _ _. split; [done|constructor]. }
  destruct (negb (rc =? 0)).
  - intros E. apply pair_equal_spec in E as [<- _]. eapply allowed_trans; [exact H2|].
    eapply allowed_trans; [|apply allowed_pause]. apply allowed_host.
    etransitivity; [|apply on_state_schedule]. by apply extends_same.
  - destruct (transmit batch t2) as [t3 ok3] eqn:E3.
    assert (all_allowed batch t2.1 t3.1) as H3.
    { eapply seg_weaken; [exact (transmit_seg addr batch t2 t3 ok3 Hn E3)|done|done|]. intros ds [F _].
      eapply Forall_impl; [exact F|]. intros d [[E|E] _] a Ha; congruence. }
    pose proof (allowed_trans _ _ _ _ H2 H3) as H.
    destruct ok3; intros E; apply pair_equal_spec in E as [<- _]; [exact H|].
    eapply allowed_trans; [exact H|apply allowed_pause].
Qed.

Lemma wait_rx_host fuel start waited t t' w :
  wait_rx fuel start waited t = Some (t', w) → extends host_entry t.1 t'.1.
Proof.
  revert waited t. induction fuel as [|fuel IH]; intros waited t; cbn [wait_rx]; [done|].
  repeat case_match; try (by intros [= <- <-]). intros E. apply IH in E.
  etransitivity; [apply pause_extends|exact E].
Qed.

Lemma send_attempts_allowed fuel left addr batch t t' ok :
  no_start → batch_excludes_peer batch addr = false → send_attempts fuel left addr batch t = Some (t', ok) →
  all_allowed batch t.1 t'.1.
Proof.
  intros Hn Hx. revert t. induction left as [|left IH]; intros t; cbn [send_attempts].
  { intros [= <- <-]. by apply allowed_host. }
  destruct (negb _); [intros [= <- <-]; by apply allowed_host|].
  destruct (wait_rx _ _ _ t) as [[t1 w]|] eqn:E1; [|done].
  apply wait_rx_host, (allowed_host batch) in E1. destruct (gs_rx_active t1.1).
  - intros E. apply IH in E. eapply allowed_trans; [exact E1|]. eapply allowed_trans; [apply allowed_pause|exact E].
  - set (t2 := if w then _ else _). assert (all_allowed batch t.1 t2.1) as H2.
    { unfold t2. destruct w; [|done]. eapply allowed_trans; [exact E1|apply allowed_pause]. }
    destruct (try_batch _ _ t2) as [t3 ok3] eqn:E3. apply (try_batch_allowed _ _ _ _ _ Hn Hx) in E3.
    destruct ok3; [|intros E; apply IH in E; eapply allowed_trans; [exact H2|]; by eapply allowed_trans].
    intros E. apply Some_inj, pair_equal_spec in E as [<- _]. by eapply allowed_trans.
Qed.

Lemma send_to_peers_allowed fuel slots batch p t t' p' :
  no_start → send_to_peers fuel slots batch p t = Some (t', p') → all_allowed batch t.1 t'.1.
Proof.
  intros Hn. revert p t. induction slots as [|i slots IH]; intros p t; cbn [send_to_peers].
  { intros [= <- <-]. by apply allowed_host. }
  destruct (nth i _ _) as [addr|]; [|apply IH]. destruct (batch_excludes_peer batch addr) eqn:Hx; [apply IH|].
  destruct (send_batch_to_peer _ _ _ t) as [[t1 sent]|] eqn:E1; [|done]. intros E. apply IH in E.
  eapply allowed_trans; [|exact E]. apply (allowed_trans _ _ t1.1); [|apply allowed_host; by apply extends_same].
  unfold send_batch_to_peer in E1. destruct batch; [injection E1 as <- <-; by apply allowed_host|].
  destruct (gs_tx_done t.1); [|injection E1 as <- <-; by apply allowed_host]. by eapply send_attempts_allowed.
Qed.

Lemma tx_send_batch_allowed fuel batch t t' :
  no_start → tx_send_batch fuel batch t = Some t' → all_allowed batch t.1 t'.1.
Proof.
  intros Hn. unfold tx_send_batch. destruct (send_to_peers _ _ _ _ t) as [[t1 p]|] eqn:E; [|done].
  cbn [mbind option_bind]. apply send_to_peers_allowed in E; [|done]. intros E'. apply Some_inj in E' as <-.
  eapply allowed_trans; [exact E|]. apply allowed_host. case_match; [apply on_state_schedule|done].
Qed.

(** ** The task ends its waits *)
(** The ticks that pass during a list of steps. *)
Definition ticks_in (ops : list g2_op) : Z :=
  foldr (fun op acc => match op with G2Tick n => n + acc | _ => acc end) 0 ops.
Definition clock_sane : Prop := ∀ n, 0 ≤ ticks_in (env n) < 2147483648.

Lemma ble_ticks c s : gs_ticks (ble h c s).1 = gs_ticks s.
Proof. done. Qed.
Lemma schedule_ticks delay_ms s : gs_ticks (schedule_presence_resume delay_ms s) = gs_ticks s.
Proof. unfold schedule_presence_resume. by destruct (negb _). Qed.
Lemma stop_scanning_ticks s : gs_ticks (stop_scanning h s) = gs_ticks s.
Proof. unfold stop_scanning. by destruct (gs_scanning s). Qed.
Lemma stop_advertising_ticks s : gs_ticks (stop_advertising h s) = gs_ticks s.
Proof. unfold stop_advertising. by destruct (gs_advertising s). Qed.

Lemma gap_event_ticks event s : gs_ticks (gap_event h event s) = gs_ticks s.
Proof.
  destruct event as [addr data|status conn desc|conn| | |]; cbn [gap_event]; rewrite ?schedule_ticks; try done.
  - unfold remember_peer. by repeat case_match.
  - unfold gap_connected, mtu_cb, ble. cbn beta iota zeta.
    destruct (tc_active _), (_ =? 0); rewrite ?schedule_ticks, ?stop_scanning_ticks; by repeat case_match.
  - unfold gap_disconnected. rewrite schedule_ticks. by repeat case_match.
Qed.

Lemma g2g_ble_stop_ticks s : gs_ticks (g2g_ble_stop h s).1 = gs_ticks s.
Proof.
  unfold g2g_ble_stop. destruct (negb (gs_running s)); [done|]. cbn zeta. cbn [fst].
  set (s1 := s <| gs_running := _ |> <| gs_resume_pending := _ |> <| gs_rx_active := _ |> <| gs_rx_conn := _ |>
    <| gs_rx_peer := _ |> <| gs_cb_exclude := _ |>).
  assert (gs_ticks s1 = gs_ticks s) as <- by done. clearbody s1.
  destruct (negb _); rewrite ?ble_ticks; by rewrite stop_advertising_ticks, stop_scanning_ticks.
Qed.

Lemma g2_step_ticks s op :
  gs_ticks (g2_step h s op) = match op with G2Tick n => u32 (gs_ticks s + n) | _ => gs_ticks s end.
Proof.
  destruct op as [event|conn|conn error service|error chr| | |w data copied| | |data len| | |c sem n g t|n]; cbn [g2_step].
  - apply gap_event_ticks.
  - unfold mtu_cb, ble. cbn beta iota zeta. by case_match.
  - unfold svc_disc_cb, ble. cbn beta iota zeta. by repeat case_match.
  - unfold chr_disc_cb. by repeat case_match.
  - done.
  - unfold on_sync, ble. cbn beta iota zeta. do 2 (case_match; [done|]). by rewrite schedule_ticks.
  - unfold rx_access_cb. by repeat (case_match; cbn [fst]).
  - unfold rx_task_take. by repeat case_match.
  - done.
  - unfold g2g_ble_send_fragment. by repeat (case_match; cbn [fst]).
  - apply g2g_ble_stop_ticks.
  - done.
  - unfold g2g_ble_start. by repeat (case_match; cbn [fst]).
  - done.
Qed.

Lemma g2_run_ticks s ops : u32 (gs_ticks (g2_run h s ops) - gs_ticks s) = u32 (ticks_in ops).
Proof.
  assert (∀ z, u32 (gs_ticks (g2_run h s ops) - z) = u32 (gs_ticks s + ticks_in ops - z)) as Hgen; [|rewrite Hgen; f_equal; lia].
  unfold g2_run. revert s. induction ops as [|op ops IH]; intros s z; cbn [fold_left ticks_in foldr].
  - f_equal. lia.
  - rewrite IH, g2_step_ticks. fold (ticks_in ops). destruct op; try done.
    unfold u32. rewrite Zminus_mod, <- (Zplus_mod_idemp_l (_ mod _)), Zmod_mod, Zplus_mod_idemp_l, <- Zminus_mod. f_equal. lia.
Qed.

(** A delay of 50 ms brings the clock five ticks on, and less than half a turn
    and five ticks. *)
Lemma pause_ticks t start :
  clock_sane → u32 (gs_ticks t.1 - start) ≤ 150 →
  u32 (gs_ticks t.1 - start) + 5 ≤ u32 (gs_ticks (pause 50 t).1 - start).
Proof.
  intros Hc He. pose proof (g2_run_ticks t.1 (env t.2)) as Hrun. pose proof (Hc t.2) as Hn.
  rewrite (u32_small (ticks_in _)) in Hrun by (unfold is_u32; lia). unfold pause.
  set (s := g2_run h t.1 (env t.2)) in *. change (pdMS_TO_TICKS 50) with 5.
  assert (∀ d z, 5 ≤ d < 2147483653 → u32 (z - gs_ticks t.1) = d →
    u32 (gs_ticks t.1 - start) + 5 ≤ u32 (z - start)) as Hadd.
  { intros d z Hd Hz. assert (u32 (z - start) = u32 (d + u32 (gs_ticks t.1 - start))) as ->.
    { rewrite <- Hz. unfold u32. rewrite <- Zplus_mod. f_equal. lia. }
    pose proof (u32_range (gs_ticks t.1 - start)). unfold is_u32 in *. rewrite (u32_small (d + _)) by (unfold is_u32; lia). lia. }
  destruct (_ <? 5) eqn:E; cbn [fst].
  - apply (Hadd 5); [lia|]. cbn. unfold u32. rewrite Zminus_mod_idemp_l.
    replace (gs_ticks t.1 + 5 - gs_ticks t.1) with 5 by lia. done.
  - apply Z.ltb_ge in E. apply (Hadd (ticks_in (env t.2))); [lia|done].
Qed.

Lemma wait_rx_ends fuel start w t :
  clock_sane → 150 < u32 (gs_ticks t.1 - start) + 5 * (Z.of_nat fuel - 1) → (0 < fuel)%nat →
  ∃ r, wait_rx fuel start w t = Some r.
Proof.
  intros Hc. revert w t. induction fuel as [|fuel IH]; intros w t Hf H0; [lia|]. cbn [wait_rx].
  destruct (_ && _); [|by eexists]. change (pdMS_TO_TICKS G2G_TX_IDLE_WAIT_MS) with 150.
  destruct (150 <? _) eqn:E; [by eexists|]. apply Z.ltb_ge in E. pose proof (pause_ticks t start Hc E).
  apply IH; lia.
Qed.

Lemma send_attempts_ends fuel left addr batch t :
  clock_sane → (32 ≤ fuel)%nat → ∃ r, send_attempts fuel left addr batch t = Some r.
Proof.
  intros Hc Hf. revert t. induction left as [|left IH]; intros t; cbn [send_attempts]; [by eexists|].
  destruct (negb _); [by eexists|].
  destruct (wait_rx_ends fuel (gs_ticks t.1) false t Hc) as [[t1 w] ->]; [|lia|].
  { pose proof (u32_range (gs_ticks t.1 - gs_ticks t.1)). unfold is_u32 in *. lia. }
  destruct (gs_rx_active t1.1); [apply IH|]. destruct (try_batch _ _ _) as [t3 []]; [by eexists|apply IH].
Qed.

Lemma send_to_peers_ends fuel slots batch p t :
  clock_sane → (32 ≤ fuel)%nat → ∃ r, send_to_peers fuel slots batch p t = Some r.
Proof.
  intros Hc Hf. revert p t. induction slots as [|i slots IH]; intros p t; cbn [send_to_peers]; [by eexists|].
  destruct (nth i _ _) as [addr|]; [|apply IH]. destruct (batch_excludes_peer batch addr); [apply IH|].
  unfold send_batch_to_peer. destruct batch as [|f fs]; [apply IH|]. destruct (gs_tx_done t.1); [|apply IH].
  destruct (send_attempts_ends fuel G2G_TX_RETRY_MAX addr (f :: fs) t Hc Hf) as [[t1 sent] ->]. apply IH.
Qed.

(** ** The task keeps the radio present *)



Lemma tx_ble_presence c t t' rc : tx_ble c t = (t', rc) → presence_ok t.1 → presence_ok t'.1.
Proof. intros E. unfold tx_ble, ble in E. apply pair_equal_spec in E as [<- _]. apply same_presence_ok. by repeat split. Qed.









End tx.

Lemma addr_equal_iff a b : addr_equal a b = true ↔ a = b.
Proof.
  unfold addr_equal. rewrite andb_true_iff, Z.eqb_eq, bool_decide_eq_true. destruct a, b; cbn. naive_solver.
Qed.

Lemma batch_excludes_false batch addr :
  batch ≠ [] → batch_excludes_peer batch addr = false → ∃ f, f ∈ batch ∧ gf_exclude f ≠ Some addr.
Proof.
  intros Hne. destruct batch as [|f0 fs]; [done|]. unfold batch_excludes_peer. generalize (f0 :: fs) as l. clear.
  induction l as [|f l IH]; [done|]. cbn [forallb]. rewrite andb_false_iff. intros [Hf|Hl].
  - exists f. split; [by left|]. intros E. rewrite E in Hf. by rewrite (proj2 (addr_equal_iff addr addr) eq_refl) in Hf.
  - destruct (IH Hl) as (g & Hg & Hx). exists g. split; [by right|done].
Qed.

Lemma batch_excludes_single_origin batch addr :
  batch ≠ [] → Forall (fun f => gf_exclude f = Some addr) batch → batch_excludes_peer batch addr = true.
Proof.
  intros Hne Hf. destruct (batch_excludes_peer batch addr) eqn:E; [done|].
  apply batch_excludes_false in E as (f & Hin & Hx); [|done]. rewrite Forall_forall in Hf. by destruct Hx, (Hf f Hin).
Qed.

(** ** Properties *)

(** C31: no echo to a single origin.  Whatever the receiver, the callers and the
    host do meanwhile, a pass over the peers with a batch asks for connections
    only to peers that are not the origin of the whole batch, and writes nothing
    but fragments of the batch.  If moreover the component is not started again
    meanwhile and every connection the host reports while the task is
    transmitting is the one the task asked for, then no write of the pass goes to
    a peer that is the origin of the whole batch: fragments that all came from
    one peer are never sent back to it.  (Without that condition they can be, see
    [inbound_taken_for_outbound].) *)
Theorem g2g_relay_skips_origin `{QF : Queue g2g_fragment} h env fuel batch t t' :
  batch ≠ [] → tx_send_batch h env fuel batch t = Some t' →
  ∃ new, gs_log t'.1 = gs_log t.1 ++ new ∧
    (∀ own addr rc, (Call_connect own addr, rc) ∈ new → ∃ f, f ∈ batch ∧ gf_exclude f ≠ Some addr) ∧
    (∀ conn chr data rc, (Call_write conn chr data, rc) ∈ new → ∃ f, f ∈ batch ∧ data = fragment_payload f) ∧
    (no_start env → honest (gs_log t.1) new →
     ∀ d addr, d ∈ deliveries (gs_log t.1) new → dv_peer d = Some addr → ∃ f, f ∈ batch ∧ gf_exclude f ≠ Some addr).
Proof.
  intros Hne E. pose proof (tx_send_batch_extends _ _ _ _ _ _ E) as (new & El & Hf). rewrite Forall_forall in Hf.
  exists new. split; [done|]. split_and!.
  - intros own addr rc Hin. apply Hf in Hin. by apply batch_excludes_false.
  - intros conn chr data rc Hin. apply Hf in Hin. cbn in Hin. apply list_elem_of_fmap in Hin as (f & -> & Hin).
    by exists f.
  - intros Hn Hh d addr Hd Hp. destruct (tx_send_batch_allowed _ _ _ _ _ _ Hn E) as (new' & El' & Hseg).
    assert (new' = new) as -> by (rewrite El in El'; by apply app_inv_head in El').
    destruct (Hseg Hh I) as [_ Ha]. rewrite Forall_forall in Ha. apply batch_excludes_false; [done|].
    exact (Ha d Hd addr Hp).
Qed.

(** C32: a batch reported as sent was sent, to that peer.  When
    [send_batch_to_peer] answers true, its last request for a connection was for
    that peer and was accepted, and the writes made from then on carry exactly
    the fragments of the batch, in order, each accepted.  If moreover the
    component is not started again meanwhile, every connection the host reports
    while the task is transmitting is the one the task asked for, and the host
    refuses writes without a connection, then each of these writes went over a
    connection whose other end is that peer, to the characteristic that the
    discovery since the request found. *)
Theorem g2g_batch_delivered `{QF : Queue g2g_fragment} h env fuel addr batch t t' :
  batch_excludes_peer batch addr = false → send_batch_to_peer h env fuel addr batch t = Some (t', true) →
  ∃ before own after, gs_log t'.1 = gs_log t.1 ++ before ++ (Call_connect own addr, 0) :: after ∧
    writes after = (fun f => (fragment_payload f, 0)) <$> batch ∧
    (no_start env → refuses_unlinked h → honest (gs_log t.1) (before ++ (Call_connect own addr, 0) :: after) →
     deliveries (gs_log t.1 ++ before ++ [(Call_connect own addr, 0)]) after =
     (fun f => mk_delivery (Some addr) true (fragment_payload f) 0) <$> batch).
Proof.
  intros Hx. unfold send_batch_to_peer. destruct batch as [|f fs]; [done|]. destruct (gs_tx_done t.1); [|done].
  by apply send_attempts_delivers.
Qed.


(** C34: a pass of the transmit task ends.  Whatever the host answers and the
    other tasks do, as long as the clock does not make half a turn during one
    pause, 32 polls are enough for every wait for the receiver, so the pass over
    all peers and attempts returns. *)
Theorem g2g_tx_task_ends `{QF : Queue g2g_fragment} h env fuel t :
  clock_sane env → (32 ≤ fuel)%nat → ∃ t', tx_task h env fuel t = Some t'.
Proof.
  intros Hc Hf. unfold tx_task. destruct (negb _); [by eexists|].
  destruct (tx_take_batch h env t) as [t1 [batch|]]; [|by eexists]. unfold tx_send_batch.
  destruct (send_to_peers_ends h env fuel (seq 0 G2G_BLE_MAX_PEERS) batch (mk_tx_pass false false false false) t1 Hc Hf)
    as [[t2 p] ->].
  cbn. by eexists.
Qed.

(** ** Witnesses *)
Definition witness_a : ble_addr := mk_ble_addr 0 [1; 1; 1; 1; 1; 1].
Definition witness_b : ble_addr := mk_ble_addr 0 [2; 2; 2; 2; 2; 2].
Definition witness_host : ble_host := mk_ble_host (fun _ _ => 0) (fun _ => Some [G2G_SERVICE_UUID]) 0.

(** Two peers write a fragment each; the callback relays both. *)
Definition witness_relay : g2_state :=
  g2_run witness_host g2_boot
    [G2Start (Some (mk_g2g_ble_config 7 1 1 0)) true ESP_OK 0 (true, true, true); G2Sync;
     G2Gap (Gap_disc witness_a [1]); G2Gap (Gap_disc witness_b [1]);
     G2Gap (Gap_connect 0 3 (Some witness_a)); G2Write true [10; 11] true; G2RxTake; G2Send (Some [10; 11]) 2; G2RxDone;
     G2Gap (Gap_disconnect 3);
     G2Gap (Gap_connect 0 4 (Some witness_b)); G2Write true [20; 21] true; G2RxTake; G2Send (Some [20; 21]) 2; G2RxDone;
     G2Gap (Gap_disconnect 4)].
Definition witness_start : g2_state * nat := (witness_relay, 0%nat).
(** The host connects to the peer asked for and finds the characteristic during
    two of the pauses. *)
Definition witness_env (n : nat) : list g2_op :=
  if (n =? 2)%nat then [G2Gap (Gap_connect 0 2 (Some witness_a)); G2Chr (Some 0) (Some 9)]
  else if (n =? 6)%nat then [G2Gap (Gap_connect 0 6 (Some witness_b)); G2Chr (Some 0) (Some 9)] else [].
Definition witness_sent : g2_state * nat :=
  default witness_start (tx_task witness_host witness_env 32 witness_start).

(** Taken in one batch, the fragment that came from one peer goes back to it with
    the other's. *)
Lemma mixed_batch_echoes :
  deliveries (gs_log witness_start.1) (drop (List.length (gs_log witness_start.1)) (gs_log witness_sent.1)) =
  [mk_delivery (Some witness_a) true [10; 11] 0; mk_delivery (Some witness_a) true [20; 21] 0;
   mk_delivery (Some witness_b) true [10; 11] 0; mk_delivery (Some witness_b) true [20; 21] 0].
Proof. vm_compute. reflexivity. Qed.

Definition witness_batch : list g2g_fragment :=
  [mk_g2g_fragment 2 (Some witness_b) [10; 11]; mk_g2g_fragment 1 (Some witness_b) [12]].
(** The host connects during the first pause; it refuses writes on no
    connection. *)
Definition witness_env1 (n : nat) : list g2_op :=
  if (n =? 0)%nat then [G2Gap (Gap_connect 0 5 (Some witness_a)); G2Chr (Some 0) (Some 9)] else [].
Definition witness_host1 : ble_host :=
  mk_ble_host (fun _ c => match c with
                          | Call_write conn _ _ => if conn =? BLE_HS_CONN_HANDLE_NONE then 7 else 0
                          | _ => 0 end) (fun _ => Some [G2G_SERVICE_UUID]) 0.
Definition witness_end : g2_state * nat :=
  default witness_start (tx_send_batch witness_host1 witness_env1 32 witness_batch witness_start).
Lemma witness_env1_no_start : no_start witness_env1.
Proof. intros n. unfold witness_env1. destruct (_ =? _)%nat; repeat constructor. Qed.

Definition witness_deliveries : list delivery :=
  deliveries (gs_log witness_start.1) (drop (List.length (gs_log witness_start.1)) (gs_log witness_end.1)).
Lemma g2g_relay_skips_origin_witness :
  dv_peer <$> witness_deliveries = [Some witness_a; Some witness_a] ∧
  Forall (λ d, ∀ addr, dv_peer d = Some addr → ∃ f, f ∈ witness_batch ∧ gf_exclude f ≠ Some addr) witness_deliveries.
Proof.
  unfold witness_deliveries.
  split; [vm_compute; reflexivity|].
  destruct (g2g_relay_skips_origin witness_host1 witness_env1 32 witness_batch witness_start witness_end)
    as (new & El & _ & _ & H); [discriminate|vm_compute; reflexivity|].
  rewrite El, drop_app_length. apply Forall_forall. intros d Hd addr. revert d addr Hd.
  apply H; [exact witness_env1_no_start|].
  assert (new = drop (List.length (gs_log witness_start.1)) (gs_log witness_end.1)) as ->
    by (by rewrite El, drop_app_length).
  vm_compute. repeat split.
Defined.

Definition witness_end1 : g2_state * nat :=
  from_option fst witness_start
    (send_batch_to_peer witness_host1 witness_env1 32 witness_a witness_batch witness_start).
Lemma g2g_batch_delivered_witness :
  ∃ before own after, gs_log witness_end1.1 = gs_log witness_start.1 ++ before ++ (Call_connect own witness_a, 0) :: after ∧
    writes after = [([10; 11], 0); ([12], 0)] ∧
    deliveries (gs_log witness_start.1 ++ before ++ [(Call_connect own witness_a, 0)]) after =
    [mk_delivery (Some witness_a) true [10; 11] 0; mk_delivery (Some witness_a) true [12] 0].
Proof.
  destruct (g2g_batch_delivered witness_host1 witness_env1 32 witness_a witness_batch witness_start witness_end1)
    as (before & own & after & El & W & H); [reflexivity|vm_compute; reflexivity|].
  exists before, own, after. split; [exact El|]. split; [exact W|]. apply H.
  - exact witness_env1_no_start.
  - intros log chr data. vm_compute. discriminate.
  - assert (before ++ (Call_connect own witness_a, 0) :: after =
      drop (List.length (gs_log witness_start.1)) (gs_log witness_end1.1)) as -> by (by rewrite El, drop_app_length).
    vm_compute. repeat split.
Defined.

(** A peer that connects while the task waits for its own connection is taken
    for the one it asked for: fragments of [witness_b] go back to it, and the
    batch counts as sent to [witness_a]. *)
Definition inbound_env (n : nat) : list g2_op :=
  if (n =? 0)%nat then [G2Gap (Gap_connect 0 5 (Some witness_b)); G2Chr (Some 0) (Some 9)] else [].
Lemma inbound_taken_for_outbound :
  ∃ t', send_batch_to_peer witness_host1 inbound_env 32 witness_a witness_batch witness_start = Some (t', true) ∧
    deliveries (gs_log witness_start.1) (drop (List.length (gs_log witness_start.1)) (gs_log t'.1)) =
    [mk_delivery (Some witness_b) true [10; 11] 0; mk_delivery (Some witness_b) true [12] 0].
Proof. eexists. split; [vm_compute; reflexivity|]. vm_compute. reflexivity. Qed.


(** The receiver stays busy: the task gives up instead of waiting for ever. *)
Definition witness_busy : g2_state * nat := (g2_step witness_host witness_relay (G2Gap (Gap_connect 0 7 (Some witness_b))), 0%nat).
Lemma g2g_tx_task_ends_witness :
  ∃ t', tx_task witness_host (fun _ => []) 32 witness_busy = Some t'.
Proof. apply (g2g_tx_task_ends witness_host (fun _ => []) 32 witness_busy); [intros n; cbn; lia|lia]. Defined.
