(* ===== verification/Guardian_led_device.v ===== *)
(** * The example device: a lamp that obeys the Guardian

    [iot_device_arduino/guardian_led_device/guardian_led_device.ino].  The Wi-Fi
    and MQTT libraries are not part of the repository: what the sketch asks of
    them and of the pin is appended to a list of effects, and what they answer is
    an argument.  The text printed on the serial port is not modelled. *)

From S2P Require Import Prelude Bytes.

Definition MQTT_CLIENT_ID : bytes := lit "lamp01".
Definition COMMAND_TOPIC : bytes := lit "blindnet/lamp01/cmd".
Definition STATE_TOPIC : bytes := lit "blindnet/lamp01/state".
Definition LED_PIN : Z := 15.

Inductive led_effect :=
| Digital_write (pin : Z) (high : bool)
| Mqtt_publish (topic payload : bytes) (retained : bool)
| Mqtt_connect (client_id : bytes)
| Mqtt_subscribe (topic : bytes).

Record led_device := mk_led_device {
  led_on : bool;
  led_last_reconnect_ms : Z;
  led_effects : list led_effect
}.
#[export] Instance led_device_settable : Settable led_device := fun r =>
  mk_led_device (led_on r) (led_last_reconnect_ms r) (led_effects r).
Definition led_boot : led_device := mk_led_device false 0 [].

Definition effect (e : led_effect) (s : led_device) : led_device := s <| led_effects ::= fun l => l ++ [e] |>.

Definition publishState (s : led_device) : led_device :=
  effect (Mqtt_publish STATE_TOPIC (if led_on s then lit "1" else lit "0") true) s.

Definition setLed (on : bool) (s : led_device) : led_device :=
  publishState (effect (Digital_write LED_PIN on) (s <| led_on := on |>)).

Definition toupper (c : Z) : Z := if (97 <=? c) && (c <=? 122) then c - 97 + 65 else c.

(** The comparison loop; [payload] and [text] have the same length. *)
Fixpoint payload_loop (payload text : bytes) : bool :=
  match payload, text with
  | a :: payload, b :: text => if negb (toupper a =? toupper b) then false else payload_loop payload text
  | _, _ => true
  end.
Definition payloadEquals (payload text : bytes) : bool :=
  if negb (List.length payload =? List.length text)%nat then false else payload_loop payload text.

Definition onMqttMessage (topic payload : bytes) (s : led_device) : led_device :=
  if negb (strcmp_eq topic COMMAND_TOPIC) then s
  else if (List.length payload =? 0)%nat || payloadEquals payload (lit "TOGGLE") then setLed (negb (led_on s)) s
  else if payloadEquals payload (lit "1") || payloadEquals payload (lit "ON") then setLed true s
  else if payloadEquals payload (lit "0") || payloadEquals payload (lit "OFF") then setLed false s
  else s.

(** [already] is [mqtt.connected()], [accepted] what [mqtt.connect] answers. *)
Definition connectMqtt (already accepted : bool) (s : led_device) : led_device * bool :=
  if already then (s, true)
  else
    let s := effect (Mqtt_connect MQTT_CLIENT_ID) s in
    if negb accepted then (s, false) else (publishState (effect (Mqtt_subscribe COMMAND_TOPIC) s), true).

Definition setup (s : led_device) : led_device := setLed false s.

(** A pass of the loop once Wi-Fi is up: the answers of the MQTT library, the
    clock, and the messages [mqtt.loop()] delivers. *)
Definition led_loop (connected accepted : bool) (millis : Z) (messages : list (bytes * bytes)) (s : led_device) : led_device :=
  if negb connected then
    if 3000 <? u32 (millis - led_last_reconnect_ms s)
    then (connectMqtt false accepted (s <| led_last_reconnect_ms := millis |>)).1
    else s
  else fold_left (fun s m => onMqttMessage m.1 m.2 s) messages s.

(** ** What the lamp does *)
(** The command a payload spells. *)
Inductive led_command := Led_toggle | Led_set (on : bool).
Definition upper (p : bytes) : bytes := toupper <$> p.
Definition command_of (p : bytes) : option led_command :=
  if bool_decide (upper p ∈ [[]; lit "TOGGLE"]) then Some Led_toggle
  else if bool_decide (upper p ∈ [lit "1"; lit "ON"]) then Some (Led_set true)
  else if bool_decide (upper p ∈ [lit "0"; lit "OFF"]) then Some (Led_set false)
  else None.
Definition obey (on : bool) (m : bytes * bytes) : bool :=
  if bool_decide (c_str m.1 = COMMAND_TOPIC) then
    match command_of m.2 with Some Led_toggle => negb on | Some (Led_set b) => b | None => on end
  else on.

(** The last level of the pin and the last state announced. *)
Definition pin_level (l : list led_effect) : option bool :=
  last (omap (fun e => match e with Digital_write pin high => if pin =? LED_PIN then Some high else None | _ => None end) l).
Definition announced (l : list led_effect) : option bytes :=
  last (omap (fun e => match e with Mqtt_publish topic payload true => if bool_decide (topic = STATE_TOPIC) then Some payload else None
                               | _ => None end) l).
Definition led_consistent (s : led_device) : Prop :=
  pin_level (led_effects s) = Some (led_on s) ∧ announced (led_effects s) = Some (if led_on s then lit "1" else lit "0").

Lemma payloadEquals_spec p text : payloadEquals p text = true ↔ upper p = upper text.
Proof.
  unfold payloadEquals, upper. destruct (List.length p =? List.length text)%nat eqn:El; cbn [negb].
  - apply Nat.eqb_eq in El. revert text El. induction p as [|a p IH]; intros [|b text] El; try done.
    cbn [payload_loop fmap list_fmap]. destruct (toupper a =? toupper b) eqn:E; cbn [negb].
    + apply Z.eqb_eq in E. injection El as El. rewrite (IH text El). rewrite E. split; [by intros ->|by intros [= ->]].
    + apply Z.eqb_neq in E. split; [done|]. by intros [= ? _].
  - apply Nat.eqb_neq in El. split; [done|]. intros E. destruct El.
    by rewrite <- (length_fmap toupper p), E, length_fmap.
Qed.

Lemma command_test p texts (upper_texts : Forall (fun t => upper t = t) texts) :
  bool_decide (upper p ∈ texts) = existsb (payloadEquals p) texts.
Proof.
  induction upper_texts as [|t texts Ht _ IH]; [by rewrite bool_decide_eq_false_2 by apply not_elem_of_nil|].
  cbn [existsb]. rewrite <- IH. destruct (payloadEquals p t) eqn:E.
  - apply payloadEquals_spec in E. rewrite Ht in E. rewrite bool_decide_eq_true_2; [done|]. rewrite E. by left.
  - cbn [orb]. apply bool_decide_ext. rewrite elem_of_cons. split; [|by right]. intros [Et|]; [|done].
    rewrite <- Ht in Et. by rewrite (proj2 (payloadEquals_spec p t) Et) in E.
Qed.

Lemma effects_effect e s : led_effects (effect e s) = led_effects s ++ [e].
Proof. done. Qed.

Lemma setLed_consistent on s : led_consistent (setLed on s).
Proof.
  unfold led_consistent, pin_level, announced. unfold setLed, publishState.
  split; rewrite !effects_effect, !last_omap_snoc; done.
Qed.

Lemma onMqttMessage_obeys topic payload s :
  led_consistent s →
  led_consistent (onMqttMessage topic payload s) ∧
  led_on (onMqttMessage topic payload s) = obey (led_on s) (topic, payload).
Proof.
  intros Hs. unfold onMqttMessage, obey, strcmp_eq. cbn [fst snd].
  replace (c_str COMMAND_TOPIC) with COMMAND_TOPIC by done. destruct (bool_decide (c_str topic = _)); cbn [negb]; [|done].
  unfold command_of. rewrite !command_test by repeat constructor. cbn [existsb]. rewrite !orb_false_r.
  assert (payloadEquals payload [] = (List.length payload =? 0)%nat) as -> by (by destruct payload).
  destruct (_ || _); [by split; [apply setLed_consistent|]|].
  destruct (_ || _); [by split; [apply setLed_consistent|]|].
  destruct (_ || _); [by split; [apply setLed_consistent|]|done].
Qed.

(** A pass of the loop. *)
Definition led_turn : Type := bool * bool * Z * list (bytes * bytes).
Definition led_pass (s : led_device) (t : led_turn) : led_device :=
  let '(connected, accepted, millis, messages) := t in led_loop connected accepted millis messages s.
Definition delivered_in (t : led_turn) : list (bytes * bytes) :=
  let '(connected, _, _, messages) := t in if connected then messages else [].

Lemma led_pass_obeys s t :
  led_consistent s → led_consistent (led_pass s t) ∧ led_on (led_pass s t) = fold_left obey (delivered_in t) (led_on s).
Proof.
  destruct t as [[[connected accepted] millis] messages]. intros Hs. cbn [led_pass delivered_in]. unfold led_loop.
  destruct connected; cbn [negb].
  - revert s Hs. induction messages as [|[topic payload] messages IH]; intros s Hs; [done|]. cbn [fold_left fst snd].
    destruct (onMqttMessage_obeys topic payload s Hs) as [Hc Ho]. rewrite <- Ho. by apply IH.
  - destruct (3000 <? _); [|done]. destruct Hs as [Hp Ha]. unfold connectMqtt. destruct accepted; cbn [negb fst].
    + split; [|done]. split; unfold pin_level, announced in *; unfold publishState;
        rewrite !effects_effect, !last_omap_snoc; done.
    + split; [|done]. split; unfold pin_level, announced in *; rewrite !effects_effect, !last_omap_snoc; done.
Qed.

(** ** Properties *)

(** The lamp shows and announces what it was told.  From the setup on,
    whatever the network does, the LED is the result of the commands delivered so
    far, in order, and both the level of the pin and the retained state message
    always are that. *)
Theorem led_device_obeys turns :
  let s := fold_left led_pass turns (setup led_boot) in
  led_on s = fold_left obey (turns ≫= delivered_in) false ∧ led_consistent s.
Proof.
  assert (∀ s, led_consistent s → let s' := fold_left led_pass turns s in
    led_on s' = fold_left obey (turns ≫= delivered_in) (led_on s) ∧ led_consistent s') as Hrun.
  { induction turns as [|t turns IH]; intros s Hs; [done|]. cbn [fold_left].
    destruct (led_pass_obeys s t Hs) as [Hc Ho]. destruct (IH _ Hc) as [IH1 IH2]. split; [|done].
    rewrite IH1, Ho. change ((t :: turns) ≫= delivered_in) with (delivered_in t ++ (turns ≫= delivered_in)).
    by rewrite fold_left_app. }
  apply (Hrun (setup led_boot)). apply setLed_consistent.
Qed.
